(** * iot-oracle: the integrity and aggregation pipeline

    A shallow embedding of the deterministic core of the oracle:
    value normalisation and row hashing ([src/model/telemetry.ts]),
    the Merkle tree ([src/model/merkle.ts]), daily aggregation
    ([src/aggregate/index.ts]), the retrying anchor submission
    ([src/anchor/index.ts], [src/util/index.ts]) and the two places that
    anchor a digest (the route of [src/api/admin.ts] and the anchor worker
    of the job queue). Part X adds the remaining utilities of
    [src/util/index.ts], the batch ingestion of [src/ingest/http.ts],
    hourly aggregation and the aggregation of all sites, the recompute,
    purge and proof routes, and the aggregation workers with their
    recurring jobs.

    Conventions of the embedding.
    - A JavaScript string is the list of its UTF-8 bytes ([string]); all
      strings the pipeline builds are ASCII.
    - A JavaScript number is an IEEE 754 binary64 value ([spec_float] at
      precision 53, maximal exponent 1024), with the arithmetic of the
      Standard Library's [SpecFloat]; the loop counters and the delays of
      the retry helper, which only ever hold small integers, are [nat]/[Z].
    - [undefined]/[null] is [None].
    - A thrown exception is the [inl] branch of a sum.
    - The database and the network are explicit state; logging and metrics
      are left out, except where a call can throw: the arguments of a log
      call are evaluated, and the processors of the job queue call through
      the bindings their module imports.
    - Rounding errors are measured in the rational numbers ([Q]). *)

From Stdlib Require Import ZArith NArith List String Ascii Bool Lia.
From Stdlib Require Import Permutation Sorted.
From Stdlib Require Import Floats.SpecFloat.
From Stdlib Require QArith Qpower Lqa.
Import ListNotations.

Set Implicit Arguments.
Local Open Scope list_scope.
Local Open Scope string_scope.

(* ================================================================= *)
(** * Part I. Strings and the SHA-256 digest *)
(* ================================================================= *)

Module Str.

(** [Array.prototype.join] with a separator. *)
Fixpoint join (sep : string) (l : list string) : string :=
  match l with
  | [] => ""
  | [x] => x
  | x :: rest => x ++ sep ++ join sep rest
  end.

Definition bytes (s : string) : list N :=
  map N_of_ascii (list_ascii_of_string s).

Definition digit_char (d : N) : ascii :=
  ascii_of_N (N_of_ascii "0"%char + d).

(** Lowercase hexadecimal digit. *)
Definition hex_char (d : N) : ascii :=
  if (d <? 10)%N then digit_char d
  else ascii_of_N (N_of_ascii "a"%char + (d - 10)).

Fixpoint hex_fixed (width : nat) (x : N) : string :=
  match width with
  | O => ""
  | S w => hex_fixed w (N.shiftr x 4) ++ String (hex_char (N.land x 15)) ""
  end.

(** Decimal digits of a natural number, most significant first,
    written with fuel [n] (one more than the number of digits is enough). *)
Fixpoint dec_digits_fuel (fuel : nat) (x : N) (acc : string) : string :=
  match fuel with
  | O => acc
  | S f =>
      let acc' := String (digit_char (x mod 10)) acc in
      if (x / 10 =? 0)%N then acc' else dec_digits_fuel f (x / 10)%N acc'
  end.

Definition of_N (x : N) : string :=
  dec_digits_fuel (S (N.to_nat (N.log2 x))) x "".

Definition of_Z (z : Z) : string :=
  match z with
  | Zneg p => "-" ++ of_N (Npos p)
  | _ => of_N (Z.to_N z)
  end.

(** Left padding with a character up to a width. *)
Fixpoint repeat_char (c : ascii) (n : nat) : string :=
  match n with
  | O => ""
  | S k => String c (repeat_char c k)
  end.

Definition pad_left (c : ascii) (width : nat) (s : string) : string :=
  repeat_char c (width - String.length s) ++ s.

Definition is_empty (s : string) : bool :=
  match s with
  | EmptyString => true
  | _ => false
  end.

(** Every character of the string satisfies [p]. *)
Fixpoint all_chars (p : ascii -> bool) (s : string) : bool :=
  match s with
  | EmptyString => true
  | String c rest => p c && all_chars p rest
  end.

(** [0-9a-f]. *)
Definition is_lower_hex (c : ascii) : bool :=
  let n := N_of_ascii c in
  (((48 <=? n) && (n <=? 57)) || ((97 <=? n) && (n <=? 102)))%N.

End Str.

(** ** SHA-256 (FIPS 180-4), on 32-bit words held in [N]

    [crypto.createHash('sha256').update(s).digest('hex')]. *)
Module SHA256.
Local Open Scope N_scope.
Local Open Scope list_scope.

Definition mask32 : N := 0xFFFFFFFF.
Definition add32 (x y : N) : N := N.land (x + y) mask32.
Definition rotr (n x : N) : N :=
  N.lor (N.shiftr x n) (N.land (N.shiftl x (32 - n)) mask32).
Definition not32 (x : N) : N := N.lxor x mask32.

Definition Ch (x y z : N) : N := N.lxor (N.land x y) (N.land (not32 x) z).
Definition Maj (x y z : N) : N :=
  N.lxor (N.lxor (N.land x y) (N.land x z)) (N.land y z).
Definition bsig0 (x : N) : N := N.lxor (N.lxor (rotr 2 x) (rotr 13 x)) (rotr 22 x).
Definition bsig1 (x : N) : N := N.lxor (N.lxor (rotr 6 x) (rotr 11 x)) (rotr 25 x).
Definition ssig0 (x : N) : N := N.lxor (N.lxor (rotr 7 x) (rotr 18 x)) (N.shiftr x 3).
Definition ssig1 (x : N) : N := N.lxor (N.lxor (rotr 17 x) (rotr 19 x)) (N.shiftr x 10).

(** Round constants: fractional parts of the cube roots of the first 64 primes. *)
Definition round_constants : list N :=
  [ 1116352408; 1899447441; 3049323471; 3921009573;
    961987163; 1508970993; 2453635748; 2870763221;
    3624381080; 310598401; 607225278; 1426881987;
    1925078388; 2162078206; 2614888103; 3248222580;
    3835390401; 4022224774; 264347078; 604807628;
    770255983; 1249150122; 1555081692; 1996064986;
    2554220882; 2821834349; 2952996808; 3210313671;
    3336571891; 3584528711; 113926993; 338241895;
    666307205; 773529912; 1294757372; 1396182291;
    1695183700; 1986661051; 2177026350; 2456956037;
    2730485921; 2820302411; 3259730800; 3345764771;
    3516065817; 3600352804; 4094571909; 275423344;
    430227734; 506948616; 659060556; 883997877;
    958139571; 1322822218; 1537002063; 1747873779;
    1955562222; 2024104815; 2227730452; 2361852424;
    2428436474; 2756734187; 3204031479; 3329325298 ].

Record state := mkState {
  sa : N; sb : N; sc : N; sd : N; se : N; sf : N; sg : N; sh : N }.

(** Initial value: fractional parts of the square roots of the first 8 primes. *)
Definition initial : state :=
  mkState 1779033703 3144134277 1013904242 2773480762
          1359893119 2600822924 528734635 1541459225.

(** Padding: one [0x80] byte, zeros up to 56 mod 64, the bit length on 8 bytes. *)
Definition be_bytes (width : nat) (x : N) : list N :=
  map (fun i => N.land (N.shiftr x (8 * N.of_nat i)) 255) (rev (seq 0 width)).

Definition pad (msg : list N) : list N :=
  let len := N.of_nat (List.length msg) in
  let zeros := (119 - len mod 64) mod 64 in
  msg ++ [128] ++ repeat 0 (N.to_nat zeros) ++ be_bytes 8 (8 * len).

Fixpoint words (fuel : nat) (bs : list N) : list N :=
  match fuel, bs with
  | S f, b0 :: b1 :: b2 :: b3 :: rest =>
      (N.shiftl b0 24 + N.shiftl b1 16 + N.shiftl b2 8 + b3) :: words f rest
  | _, _ => []
  end.

Fixpoint blocks (fuel : nat) (ws : list N) : list (list N) :=
  match fuel, ws with
  | S f, _ :: _ => firstn 16 ws :: blocks f (skipn 16 ws)
  | _, _ => []
  end.

(** Message schedule: [win] holds the last sixteen words, oldest first. *)
Fixpoint schedule (n : nat) (win : list N) : list N :=
  match n with
  | O => []
  | S k =>
      let w := add32 (add32 (ssig1 (nth 14 win 0)) (nth 9 win 0))
                     (add32 (ssig0 (nth 1 win 0)) (nth 0 win 0)) in
      w :: schedule k (tl win ++ [w])
  end.

Definition round (s : state) (kw : N * N) : state :=
  let '(k, w) := kw in
  let t1 := add32 (add32 (add32 (sh s) (bsig1 (se s))) (Ch (se s) (sf s) (sg s)))
                  (add32 k w) in
  let t2 := add32 (bsig0 (sa s)) (Maj (sa s) (sb s) (sc s)) in
  mkState (add32 t1 t2) (sa s) (sb s) (sc s) (add32 (sd s) t1) (se s) (sf s) (sg s).

Definition compress (h : state) (block : list N) : state :=
  let w := block ++ schedule 48 block in
  let s := fold_left round (combine round_constants w) h in
  mkState (add32 (sa h) (sa s)) (add32 (sb h) (sb s)) (add32 (sc h) (sc s))
          (add32 (sd h) (sd s)) (add32 (se h) (se s)) (add32 (sf h) (sf s))
          (add32 (sg h) (sg s)) (add32 (sh h) (sh s)).

Definition digest_words (msg : list N) : state :=
  let p := pad msg in
  let ws := words (List.length p) p in
  fold_left compress (blocks (List.length ws) ws) initial.

Definition hex (msg : string) : string :=
  let s := digest_words (Str.bytes msg) in
  (Str.hex_fixed 8 (sa s) ++ Str.hex_fixed 8 (sb s) ++ Str.hex_fixed 8 (sc s)
   ++ Str.hex_fixed 8 (sd s) ++ Str.hex_fixed 8 (se s) ++ Str.hex_fixed 8 (sf s)
   ++ Str.hex_fixed 8 (sg s) ++ Str.hex_fixed 8 (sh s))%string.

End SHA256.

(** [sha256] of [src/util/index.ts]; the same call is written inline in
    [generateRowHash] and in the Merkle tree. *)
Definition sha256 (data : string) : string := SHA256.hex data.

(* ================================================================= *)
(** * Part II. JavaScript numbers *)
(* ================================================================= *)

(** Exceptions that the modelled code can raise. *)
Inductive exn : Type :=
| RangeError (message : string)
| TypeError (message : string)
| Error (message : string).

Definition exn_message (e : exn) : string :=
  match e with
  | RangeError m => m
  | TypeError m => m
  | Error m => m
  end.

(** A computation that returns or throws. *)
Definition result (A : Type) : Type := (exn + A)%type.

Definition ret {A} (a : A) : result A := inr a.
Definition throw {A} (e : exn) : result A := inl e.
Definition bind {A B} (c : result A) (k : A -> result B) : result B :=
  match c with
  | inl e => inl e
  | inr a => k a
  end.

Module Num.
Local Open Scope string_scope.
Local Open Scope Z_scope.

Definition number : Type := spec_float.

Definition prec : Z := 53.
Definition emax : Z := 1024.

Definition add : number -> number -> number := SFadd prec emax.
Definition mul : number -> number -> number := SFmul prec emax.
Definition div : number -> number -> number := SFdiv prec emax.
Definition ltb : number -> number -> bool := SFltb.

Definition zero : number := S754_zero false.
Definition NaN : number := S754_nan.

(** The number nearest to the integer [z] (ties to even). *)
Definition of_Z (z : Z) : number := binary_normalize prec emax z 0 false.

(** The number nearest to [s * 10 ^ q], for [0 <= s], with the sign [neg]. *)
Definition of_decimal (neg : bool) (s q : Z) : number :=
  if s <=? 0 then S754_zero neg
  else if 0 <=? q then
    binary_normalize prec emax (if neg then - (s * 10 ^ q) else s * 10 ^ q) 0 false
  else
    let '(mz, ez, lz) := SFdiv_core_binary prec emax s 0 (10 ^ (- q)) 0 in
    binary_round_aux prec emax neg mz ez lz.

Definition isNaN (x : number) : bool :=
  match x with
  | S754_nan => true
  | _ => false
  end.

(** The global [isFinite]. *)
Definition isFinite (x : number) : bool :=
  match x with
  | S754_nan | S754_infinity _ => false
  | _ => true
  end.

(** [ToBoolean] on a number: [+0], [-0] and [NaN] are falsy. *)
Definition truthy (x : number) : bool :=
  match x with
  | S754_zero _ | S754_nan => false
  | _ => true
  end.

(** [Math.max(a, b)] and [Math.min(a, b)] (ECMA-262, 21.3.2.24/25). *)
Definition Math_max (a b : number) : number :=
  if isNaN a || isNaN b then NaN
  else match a, b with
       | S754_zero true, S754_zero false => b
       | _, _ => if ltb a b then b else a
       end.

Definition Math_min (a b : number) : number :=
  if isNaN a || isNaN b then NaN
  else match a, b with
       | S754_zero false, S754_zero true => b
       | _, _ => if ltb b a then b else a
       end.

(** *** Exact value of a finite number as a fraction [num / den] *)

Definition frac_of (m : positive) (e : Z) : Z * Z :=
  if 0 <=? e then (Zpos m * 2 ^ e, 1) else (Zpos m, 2 ^ (- e)).

(** [x * 10 ^ t] as a fraction, for [x = num / den]. *)
Definition scale10 (nd : Z * Z) (t : Z) : Z * Z :=
  let '(num, den) := nd in
  if 0 <=? t then (num * 10 ^ t, den) else (num, den * 10 ^ (- t)).

(** *** [Number::toString] in radix 10 (ECMA-262, 6.1.6.1.20) *)

(** The least [n] from a start on with [num / den < 10 ^ n]. *)
Fixpoint magnitude (fuel : nat) (nd : Z * Z) (n : Z) : Z :=
  match fuel with
  | O => n
  | S f =>
      let '(a, b) := scale10 nd (- n) in
      if a <? b then n else magnitude f nd (n + 1)
  end.

(** A lower estimate of that [n], from the binary magnitude: with [d] the
    position of the leading bit, [2 ^ (d - 1) <= x], and
    [0.30102 < log10 2 < 0.30103]. *)
Definition magnitude_below (m : positive) (e : Z) : Z :=
  let d := Zpos (digits2_pos m) + e - 1 in
  if 0 <=? d then d * 30102 / 100000 else d * 30103 / 100000.

(** Does the decimal [s * 10 ^ (n - k)] read back as the number [m * 2 ^ e]? *)
Definition reads_back (m : positive) (e : Z) (s n k : Z) : bool :=
  match of_decimal false s (n - k) with
  | S754_finite _ m' e' => Pos.eqb m m' && (e =? e')
  | _ => false
  end.

(** The digits [s], their count [k] and the exponent [n]: the shortest
    decimal [s * 10 ^ (n - k)] that reads back as the number, the closest
    one when several of that length do. *)
Fixpoint shortest (fuel : nat) (m : positive) (e : Z) (n0 : Z) (k : Z)
  : Z * Z * Z :=
  let '(a, b) := scale10 (frac_of m e) (k - n0) in
  let lo := a / b in
  let r := a mod b in
  let hi := lo + 1 in
  let '(hs, hn) := if hi =? 10 ^ k then (10 ^ (k - 1), n0 + 1) else (hi, n0) in
  let lo_ok := reads_back m e lo n0 k in
  let hi_ok := reads_back m e hs hn k in
  let pick_lo := (lo, k, n0) in
  let pick_hi := (hs, k, hn) in
  let closest :=
    match 2 * r ?= b with
    | Lt => pick_lo
    | Gt => pick_hi
    | Eq => if Z.even lo then pick_lo else pick_hi
    end in
  match fuel with
  | O => closest
  | S f =>
      if lo_ok && hi_ok then closest
      else if lo_ok then pick_lo
      else if hi_ok then pick_hi
      else shortest f m e n0 (k + 1)
  end.

Definition zeros (n : Z) : string := Str.repeat_char "0"%char (Z.to_nat n).

Definition format_digits (s k n : Z) : string :=
  let ds := Str.of_N (Z.to_N s) in
  if (k <=? n) && (n <=? 21) then ds ++ zeros (n - k)
  else if (0 <? n) && (n <=? 21) then
    substring 0 (Z.to_nat n) ds ++ "." ++ substring (Z.to_nat n) (Z.to_nat (k - n)) ds
  else if (-6 <? n) && (n <=? 0) then "0." ++ zeros (- n) ++ ds
  else
    let ex := (if 0 <=? n - 1 then "+" else "-") ++ Str.of_N (Z.to_N (Z.abs (n - 1))) in
    if k =? 1 then ds ++ "e" ++ ex
    else substring 0 1 ds ++ "." ++ substring 1 (Z.to_nat (k - 1)) ds ++ "e" ++ ex.

Definition toString (x : number) : string :=
  match x with
  | S754_nan => "NaN"
  | S754_zero _ => "0"
  | S754_infinity s => if s then "-Infinity" else "Infinity"
  | S754_finite s m e =>
      let n0 := magnitude 8 (frac_of m e) (magnitude_below m e) in
      let '(d, k, n) := shortest 16 m e n0 1 in
      (if s then "-" else "") ++ format_digits d k n
  end.

(** *** [Number.prototype.toFixed] (ECMA-262, 21.1.3.3)

    [f] is the argument after [ToIntegerOrInfinity]. *)
Definition toFixed (x : number) (f : Z) : result string :=
  if (f <? 0) || (100 <? f) then
    throw (RangeError "toFixed() digits argument must be between 0 and 100")
  else
    match x with
    | S754_finite s m e =>
        let sign := if s then "-" else "" in
        let '(a, b) := frac_of m e in
        if 10 ^ 21 * b <=? a then ret (sign ++ toString (S754_finite false m e))
        else
          let '(a', b') := scale10 (a, b) f in
          (* the integer nearest to [x * 10 ^ f], the larger one on a tie *)
          let n := (2 * a' + b') / (2 * b') in
          let ds := Str.of_N (Z.to_N n) in
          if f =? 0 then ret (sign ++ ds)
          else
            let padded := Str.pad_left "0"%char (Z.to_nat (f + 1)) ds in
            let k := String.length padded in
            ret (sign ++ substring 0 (k - Z.to_nat f) padded ++ "."
                      ++ substring (k - Z.to_nat f) (Z.to_nat f) padded)
    | S754_zero _ =>
        if f =? 0 then ret "0" else ret ("0." ++ zeros f)
    | _ => ret (toString x)
    end.

(** *** [Number(string)]: the decimal literals of [StringToNumber]

    (ECMA-262, 7.1.4.1.1) without surrounding white space and without the
    [0x], [0o] and [0b] forms, none of which [toFixed] or [toString]
    produces. *)

Definition is_digit (c : ascii) : bool :=
  let n := N_of_ascii c in ((48 <=? n) && (n <=? 57))%N.

(** Reads a run of digits: its value, its length and the rest. *)
Fixpoint read_digits (s : string) (acc : Z) (len : Z) : Z * Z * string :=
  match s with
  | String c rest =>
      if is_digit c
      then read_digits rest (10 * acc + Z.of_N (N_of_ascii c - 48)) (len + 1)
      else (acc, len, s)
  | EmptyString => (acc, len, s)
  end.

Definition read_sign (s : string) : bool * string :=
  match s with
  | String "-"%char rest => (true, rest)
  | String "+"%char rest => (false, rest)
  | _ => (false, s)
  end.

Definition read_exponent (s : string) : option Z :=
  match s with
  | EmptyString => Some 0
  | String c rest =>
      if (Ascii.eqb c "e" || Ascii.eqb c "E")%bool then
        let '(neg, rest') := read_sign rest in
        match read_digits rest' 0 0 with
        | (v, len, EmptyString) =>
            if 0 <? len then Some (if neg then - v else v) else None
        | _ => None
        end
      else None
  end.

Definition ofString (s : string) : number :=
  if Str.is_empty s then zero
  else
    let '(neg, body) := read_sign s in
    if String.eqb body "Infinity" then S754_infinity neg
    else
      let '(ip, ilen, rest) := read_digits body 0 0 in
      let '(fp, flen, rest') :=
        match rest with
        | String "."%char r => read_digits r 0 0
        | _ => (0, 0, rest)
        end in
      if (ilen + flen =? 0) then NaN
      else
        match read_exponent rest' with
        | Some ex => of_decimal neg (ip * 10 ^ flen + fp) (ex - flen)
        | None => NaN
        end.

End Num.

Abbreviation number := Num.number.

(** [Number(s)]; numeric literals of the source are written [Number "2000"]. *)
Definition Number (s : string) : number := Num.ofString s.

(* ================================================================= *)
(** * Part III. Dates *)
(* ================================================================= *)

(** A [Date] object holds a time value, milliseconds since the epoch, or is
    invalid ([None], the time value [NaN]). *)
Module Date.
Local Open Scope string_scope.
Local Open Scope Z_scope.

Definition t : Type := option Z.

Definition msPerDay : Z := 86400000.

(** [TimeClip]: a time value further than 8.64e15 ms from the epoch is invalid. *)
Definition timeClip (ms : Z) : t :=
  if Z.abs ms <=? 8640000000000000 then Some ms else None.

(** Days since the epoch of a proleptic Gregorian date, and back. *)
Definition days_from_civil (y m d : Z) : Z :=
  let y' := if m <=? 2 then y - 1 else y in
  let era := y' / 400 in
  let yoe := y' - era * 400 in
  let doy := (153 * (if 2 <? m then m - 3 else m + 9) + 2) / 5 + d - 1 in
  let doe := yoe * 365 + yoe / 4 - yoe / 100 + doy in
  era * 146097 + doe - 719468.

Definition civil_from_days (days : Z) : Z * Z * Z :=
  let z := days + 719468 in
  let era := z / 146097 in
  let doe := z - era * 146097 in
  let yoe := (doe - doe / 1460 + doe / 36524 - doe / 146096) / 365 in
  let doy := doe - (365 * yoe + yoe / 4 - yoe / 100) in
  let mp := (5 * doy + 2) / 153 in
  let d := doy - (153 * mp + 2) / 5 + 1 in
  let m := if mp <? 10 then mp + 3 else mp - 9 in
  let y := yoe + era * 400 in
  ((if m <=? 2 then y + 1 else y), m, d).

Definition is_leap (y : Z) : bool :=
  ((y mod 4 =? 0) && negb (y mod 100 =? 0)) || (y mod 400 =? 0).

Definition days_in_month (y m : Z) : Z :=
  if m =? 2 then (if is_leap y then 29 else 28)
  else if (m =? 4) || (m =? 6) || (m =? 9) || (m =? 11) then 30
  else 31.

(** *** Reading [YYYY-MM-DDTHH:mm:ss(.f+)Z]

    The shape that the input schema's [datetime()] admits and that
    [parseDate] builds from a day [YYYY-MM-DD]. A month from 01 to 12 and a
    day from 01 to 31 are taken, the day counted on from the first of the
    month whatever the month's length (the 30th of February is the 1st or
    2nd of March); 24:00:00 is the next midnight; fraction digits after the
    third are dropped; a field out of range is an invalid date. Of the
    strings that [new Date] reads, only this shape is modelled: on any
    other string [parse] answers [None], and so a property of a route, which
    checks neither its day nor its instant, is stated for strings that
    [parse] reads. *)

Fixpoint fixed_digits (n : nat) (s : string) (acc : Z) : option (Z * string) :=
  match n with
  | O => Some (acc, s)
  | S k =>
      match s with
      | String c rest =>
          if Num.is_digit c
          then fixed_digits k rest (10 * acc + Z.of_N (N_of_ascii c - 48))
          else None
      | EmptyString => None
      end
  end.

Definition expect (c : ascii) (s : string) : option string :=
  match s with
  | String c' rest => if Ascii.eqb c c' then Some rest else None
  | EmptyString => None
  end.

Definition obind {A B} (o : option A) (k : A -> option B) : option B :=
  match o with
  | Some a => k a
  | None => None
  end.

Local Notation "' p <- c ;; k" := (obind c (fun p => k))
  (at level 61, p pattern, c at next level, right associativity).
Local Notation "x <- c ;; k" := (obind c (fun x => k))
  (at level 61, c at next level, right associativity).

(** Milliseconds of a fraction: its first three digits, padded with zeros. *)
Definition fraction_ms (s : string) : option (Z * string) :=
  match s with
  | String "."%char rest =>
      let '(v, len, rest') := Num.read_digits rest 0 0 in
      if len =? 0 then None
      else if len <=? 3 then Some (v * 10 ^ (3 - len), rest')
      else Some (v / 10 ^ (len - 3), rest')
  | _ => Some (0, s)
  end.

Definition parse (s : string) : t :=
  '(y, s) <- fixed_digits 4 s 0 ;;
  s <- expect "-" s ;;
  '(mo, s) <- fixed_digits 2 s 0 ;;
  s <- expect "-" s ;;
  '(d, s) <- fixed_digits 2 s 0 ;;
  s <- expect "T" s ;;
  '(h, s) <- fixed_digits 2 s 0 ;;
  s <- expect ":" s ;;
  '(mi, s) <- fixed_digits 2 s 0 ;;
  s <- expect ":" s ;;
  '(se, s) <- fixed_digits 2 s 0 ;;
  '(ms, s) <- fraction_ms s ;;
  s <- expect "Z" s ;;
  if Str.is_empty s
     && (1 <=? mo) && (mo <=? 12) && (1 <=? d) && (d <=? 31)
     && ((h <=? 23) || ((h =? 24) && (mi =? 0) && (se =? 0) && (ms =? 0)))
     && (mi <=? 59) && (se <=? 59)
  then timeClip (days_from_civil y mo d * msPerDay
                 + h * 3600000 + mi * 60000 + se * 1000 + ms)
  else None.

(** *** [Date.prototype.toISOString] *)

Definition pad (width : nat) (z : Z) : string :=
  Str.pad_left "0"%char width (Str.of_N (Z.to_N z)).

Definition year_string (y : Z) : string :=
  if (0 <=? y) && (y <=? 9999) then pad 4 y
  else (if y <? 0 then "-" else "+") ++ pad 6 (Z.abs y).

Definition date_part (ms : Z) : string :=
  let '(y, m, d) := civil_from_days (ms / msPerDay) in
  year_string y ++ "-" ++ pad 2 m ++ "-" ++ pad 2 d.

Definition time_part (ms : Z) : string :=
  let r := ms mod msPerDay in
  pad 2 (r / 3600000) ++ ":" ++ pad 2 (r / 60000 mod 60) ++ ":"
    ++ pad 2 (r / 1000 mod 60) ++ "." ++ pad 3 (r mod 1000).

Definition iso_of_ms (ms : Z) : string :=
  date_part ms ++ "T" ++ time_part ms ++ "Z".

Definition toISOString (d : t) : result string :=
  match d with
  | Some ms => ret (iso_of_ms ms)
  | None => throw (RangeError "Invalid time value")
  end.

(** [setUTCHours(0, 0, 0, 0)] and [setUTCHours(23, 59, 59, 999)] on a copy. *)
Definition setUTCHours_start (d : t) : t :=
  match d with
  | Some ms => timeClip (ms / msPerDay * msPerDay)
  | None => None
  end.

Definition setUTCHours_end (d : t) : t :=
  match d with
  | Some ms => timeClip (ms / msPerDay * msPerDay + 86399999)
  | None => None
  end.

End Date.

(** ** Time utilities of [src/util/index.ts] *)

Definition getDayStart (date : Date.t) : Date.t := Date.setUTCHours_start date.

Definition getDayEnd (date : Date.t) : Date.t := Date.setUTCHours_end date.

(** [date.toISOString().split('T')[0]]: the part before the first [T]. *)
Definition formatDate (date : Date.t) : result string :=
  match date with
  | Some ms => ret (Date.date_part ms)
  | None => throw (RangeError "Invalid time value")
  end.

Definition parseDate (dateString : string) : Date.t :=
  Date.parse (dateString ++ "T00:00:00.000Z").

(* ================================================================= *)
(** * Part IV. Telemetry: validation, clamping, normalisation, row hash
      ([src/model/telemetry.ts]) *)
(* ================================================================= *)

Inductive Status : Type := OK | OUTAGE | CURTAILED.

Definition Status_string (s : Status) : string :=
  match s with
  | OK => "OK"
  | OUTAGE => "OUTAGE"
  | CURTAILED => "CURTAILED"
  end.

Inductive Source : Type := mqtt | http | pull.

(** [RawTelemetryInput]: optional fields are [option]s. *)
Record RawTelemetryInput : Type := mkRaw {
  r_siteId : string;
  r_tsUtc : string;
  r_poaIrrWm2 : option number;
  r_tempC : option number;
  r_windMps : option number;
  r_acPowerKw : option number;
  r_acEnergyKWh : option number;
  r_status : option Status;
  r_source : Source;
  r_uniqKey : option string
}.

Record NormalizedTelemetry : Type := mkNormalized {
  n_siteId : string;
  n_tsUtc : Date.t;
  n_poaIrrWm2 : option number;
  n_tempC : option number;
  n_windMps : option number;
  n_acPowerKw : option number;
  n_acEnergyKWh : option number;
  n_status : option Status;
  n_source : Source;
  n_uniqKey : option string;
  n_rowHash : string
}.

(** [precisionConfig] of [src/config/index.ts]: decimal places, read from
    the environment. *)
Record PrecisionConfig : Type := mkPrecision {
  power : Z;
  energy : Z;
  temp : Z;
  irradiance : Z
}.

(** The defaults of the environment schema. *)
Definition defaultPrecision : PrecisionConfig :=
  {| power := 3; energy := 2; temp := 1; irradiance := 1 |}.

Notation "x <- c ;; k" := (bind c (fun x => k))
  (at level 61, c at next level, right associativity).

Definition normalizeNumber (value : option number) (precision : Z)
  : result (option number) :=
  match value with
  | None => ret None
  | Some v =>
      if negb (Num.isFinite v) then ret None
      else s <- Num.toFixed v precision ;; ret (Some (Number s))
  end.

(** The argument of [generateRowHash]. *)
Record RowData : Type := mkRowData {
  h_siteId : string;
  h_tsUtc : string;
  h_acEnergyKWh : option number;
  h_acPowerKw : option number;
  h_poaIrrWm2 : option number;
  h_tempC : option number;
  h_status : string
}.

(** [s || '']. *)
Definition or_empty (s : option string) : string :=
  match s with
  | Some v => v
  | None => ""
  end.

(** [x?.toString() || '']. *)
Definition number_field (x : option number) : string :=
  or_empty (option_map Num.toString x).

(** The local [normalized] of [generateRowHash]: the string that is hashed. *)
Definition canonicalRow (data : RowData) : string :=
  Str.join "|"
    [ h_siteId data;
      h_tsUtc data;
      number_field (h_acEnergyKWh data);
      number_field (h_acPowerKw data);
      number_field (h_poaIrrWm2 data);
      number_field (h_tempC data);
      h_status data ].

Definition generateRowHash (data : RowData) : string :=
  sha256 (canonicalRow data).

(** The [RowData] that [normalizeTelemetry] hashes. *)
Definition rowDataOf (siteId iso : string) (acEnergyKWh acPowerKw poaIrrWm2 tempC : option number)
  (status : option Status) : RowData :=
  {| h_siteId := siteId;
     h_tsUtc := iso;
     h_acEnergyKWh := acEnergyKWh;
     h_acPowerKw := acPowerKw;
     h_poaIrrWm2 := poaIrrWm2;
     h_tempC := tempC;
     h_status := or_empty (option_map Status_string status) |}.

Section Normalisation.

Variable precisionConfig : PrecisionConfig.

Definition normalizeTelemetry (input : RawTelemetryInput)
  : result NormalizedTelemetry :=
  let tsUtc := Date.parse (r_tsUtc input) in
  poaIrrWm2 <- normalizeNumber (r_poaIrrWm2 input) (irradiance precisionConfig) ;;
  tempC <- normalizeNumber (r_tempC input) (temp precisionConfig) ;;
  windMps <- normalizeNumber (r_windMps input) (temp precisionConfig) ;;
  acPowerKw <- normalizeNumber (r_acPowerKw input) (power precisionConfig) ;;
  acEnergyKWh <- normalizeNumber (r_acEnergyKWh input) (energy precisionConfig) ;;
  iso <- Date.toISOString tsUtc ;;
  let rowHash :=
    generateRowHash
      (rowDataOf (r_siteId input) iso acEnergyKWh acPowerKw poaIrrWm2 tempC
                 (r_status input)) in
  ret {| n_siteId := r_siteId input;
         n_tsUtc := tsUtc;
         n_poaIrrWm2 := poaIrrWm2;
         n_tempC := tempC;
         n_windMps := windMps;
         n_acPowerKw := acPowerKw;
         n_acEnergyKWh := acEnergyKWh;
         n_status := r_status input;
         n_source := r_source input;
         n_uniqKey := r_uniqKey input;
         n_rowHash := rowHash |}.

End Normalisation.

(** [v ? Math.min(Math.max(v, lo), hi) : undefined]. *)
Definition clampField (v : option number) (lo hi : number) : option number :=
  match v with
  | Some x => if Num.truthy x then Some (Num.Math_min (Num.Math_max x lo) hi) else None
  | None => None
  end.

Definition clampValues (input : RawTelemetryInput) : RawTelemetryInput :=
  {| r_siteId := r_siteId input;
     r_tsUtc := r_tsUtc input;
     r_poaIrrWm2 := clampField (r_poaIrrWm2 input) (Number "0") (Number "2000");
     r_tempC := clampField (r_tempC input) (Number "-50") (Number "80");
     r_windMps := clampField (r_windMps input) (Number "0") (Number "100");
     r_acPowerKw := clampField (r_acPowerKw input) (Number "0") (Number "10000");
     r_acEnergyKWh := clampField (r_acEnergyKWh input) (Number "0") (Number "1000");
     r_status := r_status input;
     r_source := r_source input;
     r_uniqKey := r_uniqKey input |}.

(** ** The input schema

    [z.string().datetime()]: four, two and two digits, [T], three pairs of
    digits, an optional fraction, [Z]. *)
Definition datetime_shape (s : string) : bool :=
  match
    Date.obind (Date.fixed_digits 4 s 0) (fun '(_, s) =>
    Date.obind (Date.expect "-" s) (fun s =>
    Date.obind (Date.fixed_digits 2 s 0) (fun '(_, s) =>
    Date.obind (Date.expect "-" s) (fun s =>
    Date.obind (Date.fixed_digits 2 s 0) (fun '(_, s) =>
    Date.obind (Date.expect "T" s) (fun s =>
    Date.obind (Date.fixed_digits 2 s 0) (fun '(_, s) =>
    Date.obind (Date.expect ":" s) (fun s =>
    Date.obind (Date.fixed_digits 2 s 0) (fun '(_, s) =>
    Date.obind (Date.expect ":" s) (fun s =>
    Date.obind (Date.fixed_digits 2 s 0) (fun '(_, s) =>
    Date.obind (Date.fraction_ms s) (fun '(_, s) =>
    Date.expect "Z" s))))))))))))
  with
  | Some rest => Str.is_empty rest
  | None => false
  end.

(** [z.number().finite()] and [.nonnegative()], on an optional field. *)
Definition finite_opt (v : option number) : bool :=
  match v with
  | Some x => Num.isFinite x
  | None => true
  end.

Definition nonnegative_opt (v : option number) : bool :=
  match v with
  | Some x => SFleb Num.zero x
  | None => true
  end.

Definition schema_accepts (input : RawTelemetryInput) : bool :=
  negb (Str.is_empty (r_siteId input))
  && datetime_shape (r_tsUtc input)
  && finite_opt (r_poaIrrWm2 input) && nonnegative_opt (r_poaIrrWm2 input)
  && finite_opt (r_tempC input)
  && finite_opt (r_windMps input) && nonnegative_opt (r_windMps input)
  && finite_opt (r_acPowerKw input) && nonnegative_opt (r_acPowerKw input)
  && finite_opt (r_acEnergyKWh input) && nonnegative_opt (r_acEnergyKWh input).

Definition validateTelemetryInput (input : RawTelemetryInput)
  : result RawTelemetryInput :=
  if schema_accepts input then ret input
  else throw (Error "ZodError: invalid telemetry input").

(** ** The row string as the specification words it

    Each metric "rendered as a fixed-decimal string at its configured
    precision", absent as the empty string. Stated for comparison with
    [canonicalRow]; the code does not use it. *)
Definition fixedDecimal (x : option number) (precision : Z) : string :=
  match x with
  | None => ""
  | Some v =>
      match Num.toFixed v precision with
      | inr s => s
      | inl _ => ""
      end
  end.

Definition canonicalRow_fixedDecimal (precisionConfig : PrecisionConfig) (data : RowData)
  : string :=
  Str.join "|"
    [ h_siteId data;
      h_tsUtc data;
      fixedDecimal (h_acEnergyKWh data) (energy precisionConfig);
      fixedDecimal (h_acPowerKw data) (power precisionConfig);
      fixedDecimal (h_poaIrrWm2 data) (irradiance precisionConfig);
      fixedDecimal (h_tempC data) (temp precisionConfig);
      h_status data ].

(** The three steps every ingester applies to a reading
    ([src/ingest/http.ts], the MQTT and the pull ingester of
    [src/ingest/mqtt.ts]). *)
Definition ingestReading (precisionConfig : PrecisionConfig) (input : RawTelemetryInput)
  : result NormalizedTelemetry :=
  validated <- validateTelemetryInput input ;;
  let clamped := clampValues validated in
  normalizeTelemetry precisionConfig clamped.

(* ================================================================= *)
(** * Part V. The Merkle tree ([src/model/merkle.ts]) *)
(* ================================================================= *)

(** [Array.prototype.sort()] without a comparator, on strings: ascending in
    the order of the code units. The order is total and antisymmetric, so the
    sorted array is determined by the elements; it is computed here by
    insertion. *)
Fixpoint insertString (x : string) (l : list string) : list string :=
  match l with
  | [] => [x]
  | y :: rest => if String.leb x y then x :: l else y :: insertString x rest
  end.

Definition sortStrings (l : list string) : list string :=
  fold_right insertString [] l.

(** The order in which the sort arranges strings. *)
Definition str_le (a b : string) : Prop := String.leb a b = true.

(** One run of the [for] loop of [buildTree]: the next level.
    [currentLevel[i + 1] || left] is [left] when the right entry is missing
    or is the empty string. *)
Fixpoint nextLevel (currentLevel : list string) : list string :=
  match currentLevel with
  | [] => []
  | [left_] => [sha256 (left_ ++ left_)]
  | left_ :: right_ :: rest =>
      sha256 (left_ ++ (if Str.is_empty right_ then left_ else right_)) :: nextLevel rest
  end.

(** The [while (currentLevel.length > 1)] loop: the levels above
    [currentLevel]. Every run at least halves the level, so as many runs as
    the level has entries are enough ([buildLevels_enough] below). *)
Fixpoint buildLevels (fuel : nat) (currentLevel : list string) : list (list string) :=
  match fuel with
  | O => []
  | S f =>
      if (1 <? List.length currentLevel)%nat
      then let next := nextLevel currentLevel in next :: buildLevels f next
      else []
  end.

Record MerkleTree : Type := mkMerkleTree {
  leaves : list string;
  tree : list (list string)
}.

Definition buildTree (sorted : list string) : list (list string) :=
  sorted :: buildLevels (List.length sorted) sorted.

(** The constructor. *)
Definition newMerkleTree (leaves : list string) : MerkleTree :=
  let sorted := sortStrings leaves in
  {| leaves := sorted; tree := buildTree sorted |}.

(** [this.tree[this.tree.length - 1][0]]; [undefined] when that level is empty. *)
Definition getRoot (t : MerkleTree) : option string :=
  hd_error (last (tree t) []).

(** [Array.prototype.indexOf]. *)
Fixpoint indexOf (x : string) (l : list string) : option nat :=
  match l with
  | [] => None
  | y :: rest => if String.eqb y x then Some O else option_map S (indexOf x rest)
  end.

(** The loop of [getProof] over the levels below the top one. *)
Fixpoint proofLoop (levels : list (list string)) (currentIndex : nat) : list string :=
  match levels with
  | [] => []
  | [_] => []
  | currentLevel :: rest =>
      let siblingIndex :=
        if Nat.even currentIndex then (currentIndex + 1)%nat else (currentIndex - 1)%nat in
      (match nth_error currentLevel siblingIndex with
       | Some sibling => [sibling]
       | None => []
       end ++ proofLoop rest (currentIndex / 2)%nat)%list
  end.

Definition getProof (t : MerkleTree) (leaf : string) : result (list string) :=
  match indexOf leaf (leaves t) with
  | None => throw (Error "Leaf not found in tree")
  | Some leafIndex => ret (proofLoop (tree t) leafIndex)
  end.

Definition verifyProof (t : MerkleTree) (leaf : string) (proof : list string) (root : string)
  : bool :=
  let hash := fold_left (fun hash sibling => sha256 (hash ++ sibling)) proof leaf in
  String.eqb hash root.

Definition buildMerkleTree (rowHashes : list string) : MerkleTree :=
  newMerkleTree rowHashes.

Definition generateMerkleRoot (rowHashes : list string) : option string :=
  getRoot (buildMerkleTree rowHashes).

Definition generateMerkleProof (rowHashes : list string) (targetHash : string)
  : result (list string) :=
  getProof (buildMerkleTree rowHashes) targetHash.

Definition verifyMerkleProof (leaf : string) (proof : list string) (root : string) : bool :=
  let t := newMerkleTree [leaf] in
  verifyProof t leaf proof root.

(* ================================================================= *)
(** * Part VI. The store, the network and the effect monad *)
(* ================================================================= *)

(** Rows of the three tables the pipeline touches. Stored instants are valid
    dates, held as milliseconds. *)
Record Site : Type := mkSite {
  s_id : string;
  s_name : string;
  s_country : string;
  s_timezone : string;
  s_baselineKgPerKWh : number
}.

Record RawTelemetry : Type := mkRow {
  t_siteId : string;
  t_tsUtc : Z;
  t_poaIrrWm2 : option number;
  t_tempC : option number;
  t_windMps : option number;
  t_acPowerKw : option number;
  t_acEnergyKWh : option number;
  t_status : option Status;
  t_rowHash : string;
  t_source : Source;
  t_uniqKey : option string
}.

Record DailyDigest : Type := mkDigest {
  d_id : nat;
  d_siteId : string;
  d_dayUtc : Z;
  d_energyKWh : number;
  d_avoidedTco2e : number;
  d_rows : nat;
  d_merkleRoot : string;
  d_csvUrl : option string;
  d_jsonUrl : option string;
  d_anchored : bool;
  d_adapterTxId : option string;
  d_txHash : option string
}.

Record Db : Type := mkDb {
  site : list Site;
  rawTelemetry : list RawTelemetry;
  dailyDigest : list DailyDigest;
  nextId : nat
}.

(** What the adapter is sent, and what it answers. *)
Record AnchorPayload : Type := mkPayload {
  p_topic : string;
  p_hash : string;
  p_uri : option string
}.

Record Request : Type := mkRequest {
  q_url : string;
  q_authorization : string;
  q_body : AnchorPayload
}.

Record AnchorBody : Type := mkBody {
  b_adapterTxId : option string;
  b_txHash : option string
}.

Inductive FetchOutcome : Type :=
| NetworkFailure (message : string)
    (** [fetch] rejects *)
| Response (ok : bool) (status : Z) (statusText : string) (json : option AnchorBody).
    (** a response; [json = None] when [response.json()] rejects *)

(** The world: the database, the adapter (its answer to the n-th request it
    receives), the requests sent so far and the delays slept so far, both in
    order. *)
Record World : Type := mkWorld {
  db : Db;
  adapter : nat -> FetchOutcome;
  requests : list Request;
  sleeps : list Z
}.

Definition M (A : Type) : Type := World -> result A * World.

Definition mret {A} (a : A) : M A := fun w => (inr a, w).
Definition mthrow {A} (e : exn) : M A := fun w => (inl e, w).
Definition mbind {A B} (c : M A) (k : A -> M B) : M B :=
  fun w => match c w with
           | (inr a, w') => k a w'
           | (inl e, w') => (inl e, w')
           end.
(** [try { c } catch (error) { h error }]. *)
Definition mcatch {A} (c : M A) (h : exn -> M A) : M A :=
  fun w => match c w with
           | (inr a, w') => (inr a, w')
           | (inl e, w') => h e w'
           end.
Definition lift {A} (r : result A) : M A := fun w => (r, w).
Definition getDb : M Db := fun w => (inr (db w), w).
Definition putDb (d : Db) : M unit :=
  fun w => (inr tt, {| db := d; adapter := adapter w; requests := requests w;
                       sleeps := sleeps w |}).

Declare Scope M_scope.
Delimit Scope M_scope with M.
Notation "x <- c ;; k" := (mbind c (fun x => k))
  (at level 61, c at next level, right associativity) : M_scope.
Notation "c ;; k" := (mbind c (fun _ => k))
  (at level 61, right associativity) : M_scope.

(** [await new Promise(resolve => setTimeout(resolve, delay))]: the delay is
    recorded, time itself is not modelled. *)
Definition sleep (delay : Z) : M unit :=
  fun w => (inr tt, {| db := db w; adapter := adapter w; requests := requests w;
                       sleeps := (sleeps w ++ [delay])%list |}).

(** [fetch(url, { method: 'POST', headers, body })]. *)
Definition fetch (req : Request) : M (bool * Z * string * option AnchorBody) :=
  fun w =>
    let w' := {| db := db w; adapter := adapter w;
                 requests := (requests w ++ [req])%list; sleeps := sleeps w |} in
    match adapter w (List.length (requests w)) with
    | NetworkFailure msg => (inl (Error msg), w')
    | Response ok status statusText json => (inr (ok, status, statusText, json), w')
    end.

(** ** Queries *)

Definition site_findUnique (d : Db) (id : string) : option Site :=
  find (fun s => String.eqb (s_id s) id) (site d).

(** [orderBy: { tsUtc: 'asc' }]. *)
Fixpoint insertByTs (r : RawTelemetry) (l : list RawTelemetry) : list RawTelemetry :=
  match l with
  | [] => [r]
  | y :: rest => if (t_tsUtc r <=? t_tsUtc y)%Z then r :: l else y :: insertByTs r rest
  end.

Definition rawTelemetry_findMany (d : Db) (siteId : string) (gte lte : Z)
  : list RawTelemetry :=
  fold_right insertByTs []
    (filter (fun r => String.eqb (t_siteId r) siteId
                      && (gte <=? t_tsUtc r)%Z && (t_tsUtc r <=? lte)%Z)
            (rawTelemetry d)).

Definition digest_key (siteId : string) (dayUtc : Z) (g : DailyDigest) : bool :=
  String.eqb (d_siteId g) siteId && (d_dayUtc g =? dayUtc)%Z.

Definition dailyDigest_findUnique (d : Db) (siteId : string) (dayUtc : Z)
  : option DailyDigest :=
  find (digest_key siteId dayUtc) (dailyDigest d).

Definition dailyDigest_findById (d : Db) (id : nat) : option DailyDigest :=
  find (fun g => Nat.eqb (d_id g) id) (dailyDigest d).

(** [prisma.dailyDigest.update({ where: { id }, data })]. *)
Definition dailyDigest_update (d : Db) (id : nat) (f : DailyDigest -> DailyDigest) : Db :=
  {| site := site d;
     rawTelemetry := rawTelemetry d;
     dailyDigest := map (fun g => if Nat.eqb (d_id g) id then f g else g) (dailyDigest d);
     nextId := nextId d |}.

(** The data of the anchor update: [{ anchored: true, adapterTxId, txHash }]. *)
Definition setAnchored (adapterTxId txHash : option string) (g : DailyDigest) : DailyDigest :=
  {| d_id := d_id g; d_siteId := d_siteId g; d_dayUtc := d_dayUtc g;
     d_energyKWh := d_energyKWh g; d_avoidedTco2e := d_avoidedTco2e g;
     d_rows := d_rows g; d_merkleRoot := d_merkleRoot g;
     d_csvUrl := d_csvUrl g; d_jsonUrl := d_jsonUrl g;
     d_anchored := true; d_adapterTxId := adapterTxId; d_txHash := txHash |}.

(** The data of the aggregation upsert: the four computed columns. *)
Definition setAggregates (energyKWh avoidedTco2e : number) (rows : nat) (merkleRoot : string)
  (g : DailyDigest) : DailyDigest :=
  {| d_id := d_id g; d_siteId := d_siteId g; d_dayUtc := d_dayUtc g;
     d_energyKWh := energyKWh; d_avoidedTco2e := avoidedTco2e;
     d_rows := rows; d_merkleRoot := merkleRoot;
     d_csvUrl := d_csvUrl g; d_jsonUrl := d_jsonUrl g;
     d_anchored := d_anchored g; d_adapterTxId := d_adapterTxId g; d_txHash := d_txHash g |}.

(** Modelled from the spec: the columns of a created digest row that the
    creating call does not set. The schema of the table is not among the
    sources; by the data model a digest starts unanchored ("anchor status is
    monotonic: false -> true only") and carries the transaction references
    only once anchored. The identifier is a fresh one. *)
Definition createdDigest (id : nat) (siteId : string) (dayUtc : Z)
  (energyKWh avoidedTco2e : number) (rows : nat) (merkleRoot : string) : DailyDigest :=
  {| d_id := id; d_siteId := siteId; d_dayUtc := dayUtc;
     d_energyKWh := energyKWh; d_avoidedTco2e := avoidedTco2e;
     d_rows := rows; d_merkleRoot := merkleRoot;
     d_csvUrl := None; d_jsonUrl := None;
     d_anchored := false; d_adapterTxId := None; d_txHash := None |}.

(** [prisma.dailyDigest.upsert] on the key (site, day): the four computed
    columns of the row under the key are updated, or a row is created. *)
Definition dailyDigest_upsert (d : Db) (siteId : string) (dayUtc : Z)
  (energyKWh avoidedTco2e : number) (rows : nat) (merkleRoot : string) : Db :=
  match dailyDigest_findUnique d siteId dayUtc with
  | Some g =>
      {| site := site d;
         rawTelemetry := rawTelemetry d;
         dailyDigest :=
           map (fun g' => if digest_key siteId dayUtc g'
                          then setAggregates energyKWh avoidedTco2e rows merkleRoot g'
                          else g')
               (dailyDigest d);
         nextId := nextId d |}
  | None =>
      {| site := site d;
         rawTelemetry := rawTelemetry d;
         dailyDigest :=
           (dailyDigest d
            ++ [createdDigest (nextId d) siteId dayUtc energyKWh avoidedTco2e rows
                              merkleRoot])%list;
         nextId := S (nextId d) |}
  end.

(** [prisma.rawTelemetry.upsert] on the key (site, instant), as the
    ingesters call it with a normalised reading. *)
Definition rowOf (n : NormalizedTelemetry) (ts : Z) : RawTelemetry :=
  {| t_siteId := n_siteId n; t_tsUtc := ts;
     t_poaIrrWm2 := n_poaIrrWm2 n; t_tempC := n_tempC n; t_windMps := n_windMps n;
     t_acPowerKw := n_acPowerKw n; t_acEnergyKWh := n_acEnergyKWh n;
     t_status := n_status n; t_rowHash := n_rowHash n;
     t_source := n_source n; t_uniqKey := n_uniqKey n |}.

Definition row_key (siteId : string) (ts : Z) (r : RawTelemetry) : bool :=
  String.eqb (t_siteId r) siteId && (t_tsUtc r =? ts)%Z.

(** In the data of an update a column whose value is [undefined] is left as
    it is (Prisma's rule). *)
Definition orKeep {A} (new old : option A) : option A :=
  match new with
  | Some _ => new
  | None => old
  end.

(** The [update] of the upsert on a stored row: the metrics, the status
    and the key of the message that the reading has replace the stored
    ones, those it lacks are [undefined] in the data and leave the stored
    ones; the row hash and the source are always written. *)
Definition updatedRow (n : NormalizedTelemetry) (r : RawTelemetry) : RawTelemetry :=
  {| t_siteId := t_siteId r; t_tsUtc := t_tsUtc r;
     t_poaIrrWm2 := orKeep (n_poaIrrWm2 n) (t_poaIrrWm2 r);
     t_tempC := orKeep (n_tempC n) (t_tempC r);
     t_windMps := orKeep (n_windMps n) (t_windMps r);
     t_acPowerKw := orKeep (n_acPowerKw n) (t_acPowerKw r);
     t_acEnergyKWh := orKeep (n_acEnergyKWh n) (t_acEnergyKWh r);
     t_status := orKeep (n_status n) (t_status r);
     t_rowHash := n_rowHash n;
     t_source := n_source n;
     t_uniqKey := orKeep (n_uniqKey n) (t_uniqKey r) |}.

Definition rawTelemetry_upsert (d : Db) (n : NormalizedTelemetry) : result Db :=
  match n_tsUtc n with
  | None => throw (Error "PrismaClientValidationError: invalid date")
  | Some ts =>
      let rows :=
        if existsb (row_key (n_siteId n) ts) (rawTelemetry d)
        then map (fun r => if row_key (n_siteId n) ts r then updatedRow n r else r)
                 (rawTelemetry d)
        else (rawTelemetry d ++ [rowOf n ts])%list in
      ret {| site := site d; rawTelemetry := rows;
             dailyDigest := dailyDigest d; nextId := nextId d |}
  end.

(** One reading through an ingester: validate, clamp, normalise, store. *)
Definition ingestOne (precisionConfig : PrecisionConfig) (input : RawTelemetryInput)
  : M NormalizedTelemetry :=
  (normalized <- lift (ingestReading precisionConfig input) ;;
   d <- getDb ;;
   d' <- lift (rawTelemetry_upsert d normalized) ;;
   putDb d' ;;
   mret normalized)%M.

(* ================================================================= *)
(** * Part VII. Daily aggregation ([src/aggregate/index.ts]) *)
(* ================================================================= *)

Record DailyAggregationResult : Type := mkDaily {
  a_siteId : string;
  a_dayUtc : Z;
  a_energyKWh : number;
  a_avoidedTco2e : number;
  a_rows : nat;
  a_merkleRoot : string
}.

(** [values.reduce((acc, val) => acc + val, 0)]. *)
Definition sum (values : list number) : number :=
  fold_left Num.add values Num.zero.

(** [.filter(v => v !== null && v !== undefined)]. *)
Fixpoint present (values : list (option number)) : list number :=
  match values with
  | [] => []
  | Some v :: rest => v :: present rest
  | None :: rest => present rest
  end.

(** The time value of a date whose [toISOString()] is evaluated (here for
    the log line): an invalid date throws. *)
Definition timeValue (d : Date.t) : result Z :=
  match d with
  | Some ms => ret ms
  | None => throw (RangeError "Invalid time value")
  end.

(** The avoided emissions, in tonnes: the expression of [aggregateDaily]. *)
Definition avoidedTco2e (totalEnergyKWh baselineKgPerKWh : number) : number :=
  Num.div (Num.mul totalEnergyKWh baselineKgPerKWh) (Number "1000").

Definition aggregateDaily (siteId : string) (dayUtc : Date.t)
  : M (option DailyAggregationResult) :=
  mcatch
    (let dayStart := getDayStart dayUtc in
     let dayEnd := getDayEnd dayUtc in
     gte <- lift (timeValue dayStart) ;;
     lte <- lift (timeValue dayEnd) ;;
     d <- getDb ;;
     match site_findUnique d siteId with
     | None => mthrow (Error ("Site " ++ siteId ++ " not found"))
     | Some site =>
         let telemetryRecords := rawTelemetry_findMany d siteId gte lte in
         if Nat.eqb (List.length telemetryRecords) 0 then mret None
         else
           let energyValues := present (map t_acEnergyKWh telemetryRecords) in
           let totalEnergyKWh := sum energyValues in
           let avoided := avoidedTco2e totalEnergyKWh (s_baselineKgPerKWh site) in
           let rowHashes := map t_rowHash telemetryRecords in
           match generateMerkleRoot rowHashes with
           | None =>
               (* the upsert is handed [undefined] for a required column *)
               mthrow (Error "PrismaClientValidationError: merkleRoot is missing")
           | Some merkleRoot =>
               let rows := List.length telemetryRecords in
               putDb (dailyDigest_upsert d siteId gte totalEnergyKWh avoided rows merkleRoot) ;;
               mret (Some {| a_siteId := siteId; a_dayUtc := gte;
                             a_energyKWh := totalEnergyKWh; a_avoidedTco2e := avoided;
                             a_rows := rows; a_merkleRoot := merkleRoot |})
           end
     end)%M
    (fun error =>
       (* the log line of the handler evaluates [dayUtc.toISOString()] *)
       (lift (timeValue dayUtc) ;; mthrow error)%M).

(* ================================================================= *)
(** * Part VIII. Anchoring ([src/util/index.ts], [src/anchor/index.ts],
      [src/api/admin.ts], the workers of the job queue) *)
(* ================================================================= *)

(** The [for] loop of [retryWithBackoff], entered at [attempt] with
    [remaining = maxRetries - attempt]. *)
Fixpoint retryLoop {T} (fn : M T) (baseDelay : Z) (remaining attempt : nat) : M T :=
  fun w =>
    match fn w with
    | (inr v, w') => (inr v, w')
    | (inl lastError, w') =>
        match remaining with
        | O => (inl lastError, w')
        | S r =>
            let delay := (baseDelay * 2 ^ Z.of_nat attempt)%Z in
            match sleep delay w' with
            | (_, w'') => retryLoop fn baseDelay r (S attempt) w''
            end
        end
    end.

Definition retryWithBackoff {T} (fn : M T) (maxRetries : nat) (baseDelay : Z) : M T :=
  retryLoop fn baseDelay maxRetries 0.

(** The part of the environment that anchoring reads. *)
Record Env : Type := mkEnv {
  ANCHOR_ENABLED : bool;
  ADAPTER_API_URL : option string;
  ADAPTER_API_KEY : option string
}.

(** [ToBoolean] on an optional string: [undefined] and [''] are falsy. *)
Definition truthy_string (s : option string) : bool :=
  match s with
  | Some v => negb (Str.is_empty v)
  | None => false
  end.

Record AnchorResult : Type := mkAnchorResult {
  success : bool;
  adapterTxId : option string;
  txHash : option string;
  error : option string
}.

(** [digest.csvUrl || digest.jsonUrl || undefined]. *)
Definition artifactUri (digest : DailyDigest) : option string :=
  if truthy_string (d_csvUrl digest) then d_csvUrl digest
  else if truthy_string (d_jsonUrl digest) then d_jsonUrl digest
  else None.

Section Anchoring.

Variable env : Env.

(** The function retried by [anchorDigest]: one POST; a response that is
    not [ok] is thrown. *)
Definition submitOnce (anchorPayload : AnchorPayload)
  : M (bool * Z * string * option AnchorBody) :=
  (res <- fetch {| q_url := or_empty (ADAPTER_API_URL env) ++ "/v1/anchor";
                   q_authorization := "Bearer " ++ or_empty (ADAPTER_API_KEY env);
                   q_body := anchorPayload |} ;;
   let '(ok, status, statusText, _) := res in
   if negb ok
   then mthrow (Error ("Adapter API returned " ++ Str.of_Z status ++ ": " ++ statusText))
   else mret res)%M.

Definition anchorDigest (digest : DailyDigest) : M AnchorResult :=
  if negb (ANCHOR_ENABLED env) then
    mret {| success := true; adapterTxId := Some "disabled";
            txHash := Some "disabled"; error := None |}
  else if negb (truthy_string (ADAPTER_API_URL env))
          || negb (truthy_string (ADAPTER_API_KEY env)) then
    mret {| success := false; adapterTxId := None; txHash := None;
            error := Some "Adapter API not configured" |}
  else
    mcatch
      (day <- lift (formatDate (Some (d_dayUtc digest))) ;;
       let topic := "IOT:" ++ d_siteId digest ++ ":" ++ day in
       let anchorPayload :=
         {| p_topic := topic; p_hash := d_merkleRoot digest;
            p_uri := artifactUri digest |} in
       response <- retryWithBackoff (submitOnce anchorPayload) 3 1000 ;;
       let '(_, _, _, json) := response in
       match json with
       | None => mthrow (Error "Unexpected end of JSON input")
       | Some result =>
           mret {| success := true; adapterTxId := b_adapterTxId result;
                   txHash := b_txHash result; error := None |}
       end)%M
      (fun e =>
         mret {| success := false; adapterTxId := None; txHash := None;
                 error := Some (exn_message e) |}).

(** ** [POST /v1/anchor] of the admin routes *)

Inductive Reply : Type :=
| ReplyError (code : Z) (error : string) (details : option string)
| ReplyAnchored (message : string) (adapterTxId txHash : option string).

Definition storeAnchor (id : nat) (r : AnchorResult) : M unit :=
  (d <- getDb ;;
   putDb (dailyDigest_update d id (setAnchored (adapterTxId r) (txHash r))))%M.

Definition postAnchor (siteId day : string) : M Reply :=
  mcatch
    (dayUtc <- lift (match parseDate day with
                     | Some ms => ret ms
                     | None => throw (Error "PrismaClientValidationError: invalid date")
                     end) ;;
     d <- getDb ;;
     match dailyDigest_findUnique d siteId dayUtc with
     | None => mret (ReplyError 404 "Digest not found" None)
     | Some digest =>
         if d_anchored digest then
           mret (ReplyAnchored "Digest already anchored"
                               (d_adapterTxId digest) (d_txHash digest))
         else
           anchorResult <- anchorDigest digest ;;
           if success anchorResult then
             storeAnchor (d_id digest) anchorResult ;;
             mret (ReplyAnchored "Digest anchored successfully"
                                 (adapterTxId anchorResult) (txHash anchorResult))
           else
             mret (ReplyError 500 "Failed to anchor digest" (error anchorResult))
     end)%M
    (fun _ => mret (ReplyError 500 "Internal server error" None)).

(** ** The names that the module of the job queue imports from [util/index]

    The module imports [logger], [updateJobDurationMetrics] and
    [updateAnchorMetrics] from [util/index], which exports none of the
    three: in the module each of these bindings is [undefined]. A call of
    a method of the first, or a call of one of the other two, throws a
    [TypeError]. *)
Inductive Imported : Type := imported.

Definition logger : option Imported := None.
Definition updateJobDurationMetrics : option Imported := None.
Definition updateAnchorMetrics : option Imported := None.

(** [binding.method(...)]. *)
Definition call_method (binding : option Imported) (method : string) : result unit :=
  match binding with
  | Some _ => ret tt
  | None =>
      throw (TypeError ("Cannot read properties of undefined (reading '" ++ method ++ "')"))
  end.

(** [name(...)]. *)
Definition call_function (binding : option Imported) (name : string) : result unit :=
  match binding with
  | Some _ => ret tt
  | None => throw (TypeError (name ++ " is not a function"))
  end.

(** ** The anchor worker of the job queue

    The processor of the queue [anchor]. Its first statement after reading
    the job is [logger.info(...)], outside the [try]. Past it, the job
    returns the anchor result, or nothing when it skips. *)
Definition anchorWorker (digestId : nat) : M (option AnchorResult) :=
  (lift (call_method logger "info") ;;
   mcatch
     (d <- getDb ;;
      match dailyDigest_findById d digestId with
      | None => mthrow (Error ("Digest " ++ Str.of_N (N.of_nat digestId) ++ " not found"))
      | Some digest =>
          if d_anchored digest then
            lift (call_method logger "info") ;;
            mret None
          else
            result <- anchorDigest digest ;;
            if success result then
              lift (call_function updateAnchorMetrics "updateAnchorMetrics") ;;
              storeAnchor digestId result ;;
              lift (call_method logger "info") ;;
              mret (Some result)
            else
              lift (call_function updateAnchorMetrics "updateAnchorMetrics") ;;
              lift (call_method logger "error") ;;
              mthrow (Error (or_empty (error result)))
      end)
     (fun e => lift (call_method logger "error") ;; mthrow e))%M.

End Anchoring.

(** ** Reading a run of [anchorDigest] off the adapter's answers *)

(** An answer that makes the retried function throw: [fetch] rejects, or
    the response is not [ok]. *)
Definition failing (o : FetchOutcome) : bool :=
  match o with
  | NetworkFailure _ => true
  | Response ok _ _ _ => negb ok
  end.

(** How many of the answers from the [from]-th on fail in a row, counting
    at most [remaining] of them. *)
Fixpoint failedAttempts (a : nat -> FetchOutcome) (from remaining : nat) : nat :=
  match remaining with
  | O => O
  | S r => if failing (a from) then S (failedAttempts a (S from) r) else O
  end.

(** The delays slept after the attempts [from], [from + 1], ... ([k] of them). *)
Definition backoffDelays (baseDelay : Z) (from k : nat) : list Z :=
  map (fun i => (baseDelay * 2 ^ Z.of_nat i)%Z) (seq from k).

(** What the retried function returns on an answer. *)
Definition submitResult (o : FetchOutcome) : result (bool * Z * string * option AnchorBody) :=
  match o with
  | NetworkFailure msg => inl (Error msg)
  | Response ok status statusText json =>
      if negb ok
      then inl (Error ("Adapter API returned " ++ Str.of_Z status ++ ": " ++ statusText))
      else inr (ok, status, statusText, json)
  end.

(** What [anchorDigest] returns when the last answer it got is [o]. *)
Definition anchorOutcome (o : FetchOutcome) : AnchorResult :=
  match submitResult o with
  | inl e =>
      {| success := false; adapterTxId := None; txHash := None;
         error := Some (exn_message e) |}
  | inr (_, _, _, None) =>
      {| success := false; adapterTxId := None; txHash := None;
         error := Some "Unexpected end of JSON input" |}
  | inr (_, _, _, Some result) =>
      {| success := true; adapterTxId := b_adapterTxId result;
         txHash := b_txHash result; error := None |}
  end.

(** The request [anchorDigest] sends for a digest. *)
Definition anchorRequest (env : Env) (digest : DailyDigest) : Request :=
  {| q_url := or_empty (ADAPTER_API_URL env) ++ "/v1/anchor";
     q_authorization := "Bearer " ++ or_empty (ADAPTER_API_KEY env);
     q_body := {| p_topic := "IOT:" ++ d_siteId digest ++ ":"
                             ++ Date.date_part (d_dayUtc digest);
                  p_hash := d_merkleRoot digest;
                  p_uri := artifactUri digest |} |}.

Definition configured (env : Env) : bool :=
  truthy_string (ADAPTER_API_URL env) && truthy_string (ADAPTER_API_KEY env).

(* ================================================================= *)
(** * Part IX. A day of site PRJ001

    The scenario used throughout the properties: the default site table of
    [src/config/index.ts] and three readings of PRJ001 on 2024-01-15 with
    energies 1.00, 2.00 and 3.00 kWh, arriving out of order. *)
(* ================================================================= *)

Definition PRJ001 : Site :=
  {| s_id := "PRJ001"; s_name := "Solar Farm Alpha"; s_country := "India";
     s_timezone := "Asia/Kolkata"; s_baselineKgPerKWh := Number "0.708" |}.

Definition PRJ002 : Site :=
  {| s_id := "PRJ002"; s_name := "Wind Farm Beta"; s_country := "Germany";
     s_timezone := "Europe/Berlin"; s_baselineKgPerKWh := Number "0.485" |}.

Definition seededDb : Db :=
  {| site := [PRJ001; PRJ002]; rawTelemetry := []; dailyDigest := []; nextId := 0 |}.

(** An adapter that accepts every request with the same references. *)
Definition acceptingAdapter (_ : nat) : FetchOutcome :=
  Response true 200 "OK" (Some {| b_adapterTxId := Some "tx-1"; b_txHash := Some "0xabc" |}).

(** An adapter that is never reachable. *)
Definition unreachableAdapter (_ : nat) : FetchOutcome :=
  NetworkFailure "fetch failed".

(** An adapter that answers 503 twice and then accepts. *)
Definition flakyAdapter (n : nat) : FetchOutcome :=
  if (n <? 2)%nat then Response false 503 "Service Unavailable" None
  else acceptingAdapter n.

Definition worldOf (d : Db) (a : nat -> FetchOutcome) : World :=
  {| db := d; adapter := a; requests := []; sleeps := [] |}.

Definition energyReading (tsUtc energy : string) : RawTelemetryInput :=
  {| r_siteId := "PRJ001"; r_tsUtc := tsUtc;
     r_poaIrrWm2 := None; r_tempC := None; r_windMps := None;
     r_acPowerKw := None; r_acEnergyKWh := Some (Number energy);
     r_status := Some OK; r_source := http; r_uniqKey := None |}.

Definition dayReadings : list RawTelemetryInput :=
  [ energyReading "2024-01-15T11:00:00.000Z" "2.00";
    energyReading "2024-01-15T10:00:00.000Z" "1.00";
    energyReading "2024-01-15T12:00:00.000Z" "3.00" ].

(** The body of the ingestion loop: failures of single readings are skipped. *)
Fixpoint ingestAll (precisionConfig : PrecisionConfig) (inputs : list RawTelemetryInput)
  : M unit :=
  match inputs with
  | [] => mret tt
  | input :: rest =>
      (mcatch (ingestOne precisionConfig input ;; mret tt) (fun _ => mret tt) ;;
       ingestAll precisionConfig rest)%M
  end.

Definition dayWorld (a : nat -> FetchOutcome) : World :=
  snd (ingestAll defaultPrecision dayReadings (worldOf seededDb a)).

(** The same reading with the energy left out, and a night reading: no
    sun, no output, 0 degrees, no wind. *)
Definition readingWithoutEnergy (tsUtc : string) : RawTelemetryInput :=
  {| r_siteId := "PRJ001"; r_tsUtc := tsUtc;
     r_poaIrrWm2 := None; r_tempC := None; r_windMps := None;
     r_acPowerKw := None; r_acEnergyKWh := None;
     r_status := Some OK; r_source := http; r_uniqKey := None |}.

Definition nightReading : RawTelemetryInput :=
  {| r_siteId := "PRJ001"; r_tsUtc := "2024-01-15T02:00:00.000Z";
     r_poaIrrWm2 := Some (Number "0"); r_tempC := Some (Number "0");
     r_windMps := Some (Number "0"); r_acPowerKw := Some (Number "0");
     r_acEnergyKWh := Some (Number "0");
     r_status := Some OK; r_source := mqtt; r_uniqKey := None |}.

(** The record of the first test vector of the repository's integrity
    documentation, sent over HTTP. *)
Definition documentedReading : RawTelemetryInput :=
  {| r_siteId := "PRJ001"; r_tsUtc := "2024-01-15T12:00:00.000Z";
     r_poaIrrWm2 := None; r_tempC := None; r_windMps := None;
     r_acPowerKw := Some (Number "1.0"); r_acEnergyKWh := Some (Number "1.0");
     r_status := Some OK; r_source := http; r_uniqKey := None |}.

(** The reading of the repository's test of the precision. *)
Definition testReading : RawTelemetryInput :=
  {| r_siteId := "PRJ001"; r_tsUtc := "2024-01-15T12:00:00.000Z";
     r_poaIrrWm2 := Some (Number "800.123456"); r_tempC := Some (Number "25.678901");
     r_windMps := None; r_acPowerKw := Some (Number "2.345678");
     r_acEnergyKWh := Some (Number "1.234567");
     r_status := Some OK; r_source := http; r_uniqKey := None |}.

(** The row hashes of the day, in the order of the instants. *)
Definition dayRowHashes : list string :=
  [ "92643b02c75c45966cc112ce3631a7d8dbea786fd7e3b72532257ffdb45d5069";
    "abaec04e7bb37ae65b282d991f0ccf024f2141b75e55b61c3038ffeaeebd90a2";
    "a27ebad0f57b69137349d3e3acf6389ad036b6bd0d66e1224e611e5463193575" ].

(** The digest of the day as aggregation leaves it, and a store holding it. *)
Definition dayDigest : DailyDigest :=
  {| d_id := 0; d_siteId := "PRJ001"; d_dayUtc := 1705276800000;
     d_energyKWh := Number "6.00";
     d_avoidedTco2e := avoidedTco2e (Number "6.00") (Number "0.708");
     d_rows := 3;
     d_merkleRoot := "2445563e21e7dcaee836e947088c5e0f6828fcefb536b0038e77bf9e106d7bfd";
     d_csvUrl := None; d_jsonUrl := None;
     d_anchored := false; d_adapterTxId := None; d_txHash := None |}.

Definition digestDb : Db :=
  {| site := [PRJ001; PRJ002]; rawTelemetry := []; dailyDigest := [dayDigest];
     nextId := 1 |}.

Definition anchoringEnv : Env :=
  {| ANCHOR_ENABLED := true;
     ADAPTER_API_URL := Some "https://adapter.example";
     ADAPTER_API_KEY := Some "secret-key" |}.

(** Anchoring switched on, the key left out. *)
Definition keylessEnv : Env :=
  {| ANCHOR_ENABLED := true;
     ADAPTER_API_URL := Some "https://adapter.example";
     ADAPTER_API_KEY := None |}.

(** The exact value of a finite number, as a fraction. *)
Definition exactValue (x : number) : option (Z * Z) :=
  match x with
  | S754_zero _ => Some (0%Z, 1%Z)
  | S754_finite s m e =>
      let '(a, b) := Num.frac_of m e in Some ((if s then - a else a)%Z, b)
  | _ => None
  end.

(** [|x - num / den| <= 1e-9], decided exactly. *)
Definition within_1e9 (x : number) (num den : Z) : bool :=
  match exactValue x with
  | Some (a, b) =>
      (Z.abs (a * den - num * b) * 1000000000 <=? b * den)%Z
  | None => false
  end.

(** A site with a baseline of 1000000000.5 kg/kWh and three readings of
    800 kWh on 2024-01-15: 2400 kWh, and 2400000001.2 tonnes exactly. *)
Definition heavySite : Site :=
  {| s_id := "PRJ001"; s_name := "Solar Farm Alpha"; s_country := "India";
     s_timezone := "Asia/Kolkata"; s_baselineKgPerKWh := Number "1000000000.5" |}.

Definition heavyReadings : list RawTelemetryInput :=
  [ energyReading "2024-01-15T10:00:00.000Z" "800";
    energyReading "2024-01-15T11:00:00.000Z" "800";
    energyReading "2024-01-15T12:00:00.000Z" "800" ].

Definition heavyWorld : World :=
  snd (ingestAll defaultPrecision heavyReadings
         (worldOf {| site := [heavySite]; rawTelemetry := []; dailyDigest := [];
                     nextId := 0 |}
                  unreachableAdapter)).

(** ** The error of one rounding

    The operations of [SpecFloat] round through [binary_round_aux], which
    shifts a mantissa to the exponent of the format and rounds on the bits
    shifted out. Values are rational numbers here; [inbetween r x] says
    that the record [r] of a shifted mantissa and its two bits stands for
    the number [x] of units. *)
Module Rounding.
Import QArith.
Local Open Scope Q_scope.

Definition pow2 (e : Z) : Q := 2 ^ e.

Definition inbetween (r : shr_record) (x : Q) : Prop :=
  match shr_r r, shr_s r with
  | false, false => x == inject_Z (shr_m r)
  | false, true => inject_Z (shr_m r) < x /\ x < inject_Z (shr_m r) + (1 # 2)
  | true, false => x == inject_Z (shr_m r) + (1 # 2)
  | true, true => inject_Z (shr_m r) + (1 # 2) < x /\ x < inject_Z (shr_m r) + 1
  end.

(** The value of a number, zero for what is not finite. *)
Definition value (x : number) : Q :=
  match x with
  | S754_finite s m e =>
      if s then - (inject_Z (Zpos m) * pow2 e) else inject_Z (Zpos m) * pow2 e
  | _ => 0
  end.

(** The number is a zero or finite, of the sign [s] and the magnitude [R]. *)
Definition rounds_to (f : number) (s : bool) (R : Q) : Prop :=
  (f = S754_zero s /\ R == 0)
  \/ (exists m e, f = S754_finite s m e /\ R == inject_Z (Zpos m) * pow2 e).

End Rounding.

(* ================================================================= *)
(** * Part X. The remaining utilities, the batch services, the routes
      and the workers *)
(* ================================================================= *)

(** ** [getLeaves] and [getTree] of the Merkle tree: copies of the fields *)

Definition getLeaves (t : MerkleTree) : list string := leaves t.

Definition getTree (t : MerkleTree) : list (list string) :=
  map (fun level => level) (tree t).

(** ** Utilities of [src/util/index.ts] *)

Definition msPerHour : Z := 3600000.

(** [setUTCMinutes(0, 0, 0)] on a copy: the start of the hour. *)
Definition getHourStart (date : Date.t) : Date.t :=
  match date with
  | Some ms => Date.timeClip (ms / msPerHour * msPerHour)%Z
  | None => None
  end.

Definition sha256Hex (data : string) : string := "0x" ++ sha256 data.

Definition roundToPrecision (value : number) (precision : Z) : result number :=
  s <- Num.toFixed value precision ;; ret (Number s).

(** [values.length] as a number. *)
Definition lengthOf (values : list number) : number :=
  Num.of_Z (Z.of_nat (List.length values)).

Definition average (values : list number) : number :=
  if Nat.eqb (List.length values) 0 then Num.zero
  else Num.div (sum values) (lengthOf values).

(** [Math.max(...values)]: from [-Infinity] on, one argument after the other. *)
Definition max (values : list number) : number :=
  fold_left Num.Math_max values (S754_infinity true).

(** A value of one of the two kinds that the fields of an [OracleError]
    hold at run time, where the declared types of the parameters are gone. *)
Inductive JsValue : Type :=
| JsString (s : string)
| JsNumber (n : Z).

Record OracleError : Type := mkOracleError {
  e_message : string;
  e_code : JsValue;
  e_statusCode : JsValue
}.

(** [new OracleError(message, code, statusCode = 500)]. *)
Definition newOracleError (message : string) (code : JsValue) (statusCode : option JsValue)
  : OracleError :=
  {| e_message := message;
     e_code := code;
     e_statusCode := match statusCode with
                     | Some v => v
                     | None => JsNumber 500
                     end |}.

(** [createError(message, code, statusCode = 500)]: it hands the arguments
    on as [new OracleError(message, statusCode, code)]. *)
Definition createError (message code : string) (statusCode : option Z) : OracleError :=
  let statusCode := match statusCode with
                    | Some v => v
                    | None => 500%Z
                    end in
  newOracleError message (JsNumber statusCode) (Some (JsString code)).

(** A day of the calendar written [YYYY-MM-DD], as the routes are given it. *)
Definition dayString (y m d : Z) : string :=
  Date.pad 4 y ++ "-" ++ Date.pad 2 m ++ "-" ++ Date.pad 2 d.

(** A reading with its instant spelled another way. *)
Definition withTsUtc (input : RawTelemetryInput) (tsUtc : string) : RawTelemetryInput :=
  {| r_siteId := r_siteId input;
     r_tsUtc := tsUtc;
     r_poaIrrWm2 := r_poaIrrWm2 input;
     r_tempC := r_tempC input;
     r_windMps := r_windMps input;
     r_acPowerKw := r_acPowerKw input;
     r_acEnergyKWh := r_acEnergyKWh input;
     r_status := r_status input;
     r_source := r_source input;
     r_uniqKey := r_uniqKey input |}.

(** ** The batch ingestion of [src/ingest/http.ts] *)

Definition validateTelemetryArray (inputs : list RawTelemetryInput)
  : result (list RawTelemetryInput) :=
  if forallb schema_accepts inputs then ret inputs
  else throw (Error "ZodError: invalid telemetry input").

Record IngestResult : Type := mkIngestResult {
  i_siteId : string;
  i_tsUtc : string;
  i_rowHash : string
}.

Record IngestError : Type := mkIngestError {
  x_input : RawTelemetryInput;
  x_error : string
}.

(** What the handler sends: the body of the answer 200, or the argument of
    [reply.code] with the error and its code. *)
Inductive IngestReply : Type :=
| IngestDone (processed : nat) (results : list IngestResult)
    (errors : option (list IngestError))
| IngestFailed (status : JsValue) (error : string) (code : option JsValue).

(** One run of the body of the loop: normalise and upsert, or note the error. *)
Definition ingestRecord (precisionConfig : PrecisionConfig) (input : RawTelemetryInput)
  : M (IngestError + IngestResult) :=
  mcatch
    (normalized <- lift (normalizeTelemetry precisionConfig input) ;;
     d <- getDb ;;
     d' <- lift (rawTelemetry_upsert d normalized) ;;
     putDb d' ;;
     tsUtc <- lift (Date.toISOString (n_tsUtc normalized)) ;;
     mret (inr {| i_siteId := n_siteId normalized; i_tsUtc := tsUtc;
                  i_rowHash := n_rowHash normalized |}))%M
    (fun error => mret (inl {| x_input := input; x_error := exn_message error |})).

Fixpoint ingestLoop (precisionConfig : PrecisionConfig) (clampedTelemetry : list RawTelemetryInput)
  (results : list IngestResult) (errors : list IngestError)
  : M (list IngestResult * list IngestError) :=
  match clampedTelemetry with
  | [] => mret (results, errors)
  | input :: rest =>
      (r <- ingestRecord precisionConfig input ;;
       match r with
       | inr result => ingestLoop precisionConfig rest (results ++ [result])%list errors
       | inl error => ingestLoop precisionConfig rest results (errors ++ [error])%list
       end)%M
  end.

(** [reply.code(statusCode)] of the web framework (Fastify 4): the argument
    is read as a number, and one that is not a number from 100 to 599 is
    refused with the error [FST_ERR_BAD_STATUS_CODE]. *)
Definition reply_code (statusCode : JsValue) : result unit :=
  let intValue := match statusCode with
                  | JsNumber n => Num.of_Z n
                  | JsString s => Number s
                  end in
  if Num.isNaN intValue || Num.ltb intValue (Number "100") || Num.ltb (Number "599") intValue
  then throw (Error ("FST_ERR_BAD_STATUS_CODE: Called reply with an invalid status code: "
                     ++ match statusCode with
                        | JsNumber n => Str.of_Z n
                        | JsString s => s
                        end))
  else ret tt.

(** The handler, on a body whose [telemetry] is an array of readings. The
    error made for the empty array is caught by the handler's own [catch],
    where it has a [statusCode], which is handed to [reply.code]; anything
    else thrown has none. What [reply.code] throws there leaves the
    handler. *)
Definition ingestTelemetry (precisionConfig : PrecisionConfig) (telemetry : list RawTelemetryInput)
  : M IngestReply :=
  if Nat.eqb (List.length telemetry) 0 then
    let error := createError "Telemetry array is required and must not be empty"
                             "INVALID_INPUT" (Some 400%Z) in
    (lift (reply_code (e_statusCode error)) ;;
     mret (IngestFailed (e_statusCode error) (e_message error) (Some (e_code error))))%M
  else
    mcatch
      (validatedTelemetry <- lift (validateTelemetryArray telemetry) ;;
       let clampedTelemetry := map clampValues validatedTelemetry in
       out <- ingestLoop precisionConfig clampedTelemetry [] [] ;;
       let '(results, errors) := out in
       mret (IngestDone (List.length results) results
                        (if (0 <? List.length errors)%nat then Some errors else None)))%M
      (fun _ => mret (IngestFailed (JsNumber 500) "Internal server error" None)).

(** ** Hourly aggregation and the batch services of [src/aggregate/index.ts] *)

Record HourlyAggregationResult : Type := mkHourly {
  ha_siteId : string;
  ha_hourUtc : Z;
  ha_energyKWh : number;
  ha_maxPowerKw : option number;
  ha_avgTempC : option number;
  ha_avgIrrWm2 : option number;
  ha_rows : nat
}.

Record HourlySummary : Type := mkSummary {
  hs_siteId : string;
  hs_hourUtc : Z;
  hs_energyKWh : number;
  hs_maxPowerKw : option number;
  hs_avgTempC : option number;
  hs_avgIrrWm2 : option number;
  hs_rows : nat
}.

(** A job of the anchor queue, with its delay. *)
Record AnchorJob : Type := mkAnchorJob {
  j_digestId : nat;
  j_delay : Z
}.

(** The world together with the table of the hourly summaries and the
    anchor queue. *)
Record Store : Type := mkStore {
  world : World;
  hourlySummary : list HourlySummary;
  anchorQueue : list AnchorJob
}.

Definition MS (A : Type) : Type := Store -> result A * Store.

Definition sret {A} (a : A) : MS A := fun s => (inr a, s).
Definition sthrow {A} (e : exn) : MS A := fun s => (inl e, s).
Definition sbind {A B} (c : MS A) (k : A -> MS B) : MS B :=
  fun s => match c s with
           | (inr a, s') => k a s'
           | (inl e, s') => (inl e, s')
           end.
Definition scatch {A} (c : MS A) (h : exn -> MS A) : MS A :=
  fun s => match c s with
           | (inr a, s') => (inr a, s')
           | (inl e, s') => h e s'
           end.
(** A computation on the world alone. *)
Definition liftM {A} (c : M A) : MS A :=
  fun s => match c (world s) with
           | (r, w') => (r, {| world := w'; hourlySummary := hourlySummary s;
                               anchorQueue := anchorQueue s |})
           end.
Definition getSummaries : MS (list HourlySummary) := fun s => (inr (hourlySummary s), s).
Definition putSummaries (l : list HourlySummary) : MS unit :=
  fun s => (inr tt, {| world := world s; hourlySummary := l; anchorQueue := anchorQueue s |}).
(** [anchorQueue.add('anchor', { type: 'anchor', digestId }, { delay })]. *)
Definition anchorQueue_add (digestId : nat) (delay : Z) : MS unit :=
  fun s => (inr tt, {| world := world s; hourlySummary := hourlySummary s;
                       anchorQueue := (anchorQueue s
                                       ++ [{| j_digestId := digestId; j_delay := delay |}])%list |}).

Declare Scope MS_scope.
Delimit Scope MS_scope with MS.
Notation "x <- c ;; k" := (sbind c (fun x => k))
  (at level 61, c at next level, right associativity) : MS_scope.
Notation "c ;; k" := (sbind c (fun _ => k))
  (at level 61, right associativity) : MS_scope.

Definition summary_key (siteId : string) (hourUtc : Z) (h : HourlySummary) : bool :=
  String.eqb (hs_siteId h) siteId && (hs_hourUtc h =? hourUtc)%Z.

(** [prisma.hourlySummary.upsert] on the key (site, hour). *)
Definition hourlySummary_upsert (rows : list HourlySummary) (result : HourlyAggregationResult)
  : list HourlySummary :=
  if existsb (summary_key (ha_siteId result) (ha_hourUtc result)) rows
  then map (fun h =>
              if summary_key (ha_siteId result) (ha_hourUtc result) h
              then {| hs_siteId := hs_siteId h; hs_hourUtc := hs_hourUtc h;
                      hs_energyKWh := ha_energyKWh result;
                      hs_maxPowerKw := orKeep (ha_maxPowerKw result) (hs_maxPowerKw h);
                      hs_avgTempC := orKeep (ha_avgTempC result) (hs_avgTempC h);
                      hs_avgIrrWm2 := orKeep (ha_avgIrrWm2 result) (hs_avgIrrWm2 h);
                      hs_rows := ha_rows result |}
              else h) rows
  else (rows ++ [{| hs_siteId := ha_siteId result; hs_hourUtc := ha_hourUtc result;
                    hs_energyKWh := ha_energyKWh result;
                    hs_maxPowerKw := ha_maxPowerKw result;
                    hs_avgTempC := ha_avgTempC result;
                    hs_avgIrrWm2 := ha_avgIrrWm2 result;
                    hs_rows := ha_rows result |}])%list.

(** [new Date(hourStart.getTime() + 60 * 60 * 1000 - 1)]. *)
Definition hourEndOf (hourStart : Date.t) : Date.t :=
  match hourStart with
  | Some ms => Date.timeClip (ms + 60 * 60 * 1000 - 1)%Z
  | None => None
  end.

(** [values.length > 0 ? f(values) : undefined]. *)
Definition whenPresent (f : list number -> number) (values : list number) : option number :=
  if (0 <? List.length values)%nat then Some (f values) else None.

Definition aggregateHourly (siteId : string) (hourUtc : Date.t)
  : MS (option HourlyAggregationResult) :=
  scatch
    (let hourStart := getHourStart hourUtc in
     let hourEnd := hourEndOf hourStart in
     gte <- liftM (lift (timeValue hourStart)) ;;
     lte <- liftM (lift (timeValue hourEnd)) ;;
     d <- liftM getDb ;;
     let telemetryRecords := rawTelemetry_findMany d siteId gte lte in
     if Nat.eqb (List.length telemetryRecords) 0 then sret None
     else
       let energyValues := present (map t_acEnergyKWh telemetryRecords) in
       let powerValues := present (map t_acPowerKw telemetryRecords) in
       let tempValues := present (map t_tempC telemetryRecords) in
       let irradianceValues := present (map t_poaIrrWm2 telemetryRecords) in
       let result :=
         {| ha_siteId := siteId;
            ha_hourUtc := gte;
            ha_energyKWh := sum energyValues;
            ha_maxPowerKw := whenPresent max powerValues;
            ha_avgTempC := whenPresent average tempValues;
            ha_avgIrrWm2 := whenPresent average irradianceValues;
            ha_rows := List.length telemetryRecords |} in
       summaries <- getSummaries ;;
       putSummaries (hourlySummary_upsert summaries result) ;;
       sret (Some result))%MS
    (fun error =>
       (* the log line of the handler evaluates [hourUtc.toISOString()] *)
       (liftM (lift (timeValue hourUtc)) ;; sthrow error)%MS).

(** The result that [aggregateHourly] builds from the records of the hour. *)
Definition hourlyResultOf (siteId : string) (hourStart : Z)
  (telemetryRecords : list RawTelemetry) : HourlyAggregationResult :=
  {| ha_siteId := siteId;
     ha_hourUtc := hourStart;
     ha_energyKWh := sum (present (map t_acEnergyKWh telemetryRecords));
     ha_maxPowerKw := whenPresent max (present (map t_acPowerKw telemetryRecords));
     ha_avgTempC := whenPresent average (present (map t_tempC telemetryRecords));
     ha_avgIrrWm2 := whenPresent average (present (map t_poaIrrWm2 telemetryRecords));
     ha_rows := List.length telemetryRecords |}.

(** The rows that the hourly aggregation of an hour reports, none when it
    returns nothing; and the [h]-th hour after the start of a day. *)
Definition hourlyRows (siteId : string) (hourUtc : Date.t) (s : Store) : nat :=
  match fst (aggregateHourly siteId hourUtc s) with
  | inr (Some r) => ha_rows r
  | _ => 0%nat
  end.

Definition hourOfDay (dayStart : Z) (h : nat) : Date.t :=
  Some (dayStart + Z.of_nat h * msPerHour)%Z.

(** [results[key] = value] and [results[key]] on an object used as a map
    from site identifiers. *)
Fixpoint setResult {A} (key : string) (value : A) (results : list (string * A))
  : list (string * A) :=
  match results with
  | [] => [(key, value)]
  | (k, v) :: rest =>
      if String.eqb k key then (key, value) :: rest
      else (k, v) :: setResult key value rest
  end.

Fixpoint getResult {A} (key : string) (results : list (string * A)) : option A :=
  match results with
  | [] => None
  | (k, v) :: rest => if String.eqb k key then Some v else getResult key rest
  end.

(** The loop of [aggregateAllSitesDaily] over the sites still to do. The
    handler of a failed site logs [dayUtc.toISOString()]. *)
Fixpoint aggregateSitesDaily (sites : list Site) (dayUtc : Date.t)
  (results : list (string * option DailyAggregationResult))
  : M (list (string * option DailyAggregationResult)) :=
  match sites with
  | [] => mret results
  | site :: rest =>
      (r <- mcatch (aggregateDaily (s_id site) dayUtc)
                   (fun _ => lift (timeValue dayUtc) ;; mret None) ;;
       aggregateSitesDaily rest dayUtc (setResult (s_id site) r results))%M
  end.

Definition aggregateAllSitesDaily (dayUtc : Date.t)
  : M (list (string * option DailyAggregationResult)) :=
  (d <- getDb ;;
   aggregateSitesDaily (site d) dayUtc [])%M.

Fixpoint aggregateSitesHourly (sites : list Site) (hourUtc : Date.t)
  (results : list (string * option HourlyAggregationResult))
  : MS (list (string * option HourlyAggregationResult)) :=
  match sites with
  | [] => sret results
  | site :: rest =>
      (r <- scatch (aggregateHourly (s_id site) hourUtc)
                   (fun _ => liftM (lift (timeValue hourUtc)) ;; sret None) ;;
       aggregateSitesHourly rest hourUtc (setResult (s_id site) r results))%MS
  end.

Definition aggregateAllSitesHourly (hourUtc : Date.t)
  : MS (list (string * option HourlyAggregationResult)) :=
  (d <- liftM getDb ;;
   aggregateSitesHourly (site d) hourUtc [])%MS.

(** The result that [aggregateDaily] builds from the records of the day,
    the site and the root. *)
Definition dailyResultOf (siteId : string) (dayStart : Z) (site : Site)
  (telemetryRecords : list RawTelemetry) (merkleRoot : string) : DailyAggregationResult :=
  let totalEnergyKWh := sum (present (map t_acEnergyKWh telemetryRecords)) in
  {| a_siteId := siteId; a_dayUtc := dayStart;
     a_energyKWh := totalEnergyKWh;
     a_avoidedTco2e := avoidedTco2e totalEnergyKWh (s_baselineKgPerKWh site);
     a_rows := List.length telemetryRecords;
     a_merkleRoot := merkleRoot |}.

(** The store after the upsert of a result. *)
Definition withDigest (w : World) (r : DailyAggregationResult) : World :=
  {| db := dailyDigest_upsert (db w) (a_siteId r) (a_dayUtc r) (a_energyKWh r)
             (a_avoidedTco2e r) (a_rows r) (a_merkleRoot r);
     adapter := adapter w; requests := requests w; sleeps := sleeps w |}.

(** ** Further routes of [src/api/admin.ts] and [src/api/public.ts] *)

(** [POST /v1/recompute]. *)
Inductive RecomputeReply : Type :=
| RecomputeError (code : Z) (error : string)
| Recomputed (siteId day : string) (energyKWh avoidedTco2e : number) (rows : nat)
    (merkleRoot : string).

Definition postRecompute (siteId day : string) : M RecomputeReply :=
  mcatch
    (let dayUtc := parseDate day in
     result <- aggregateDaily siteId dayUtc ;;
     match result with
     | None => mret (RecomputeError 404 "No data found for recomputation")
     | Some result =>
         day' <- lift (formatDate (Some (a_dayUtc result))) ;;
         mret (Recomputed (a_siteId result) day' (a_energyKWh result)
                          (a_avoidedTco2e result) (a_rows result) (a_merkleRoot result))
     end)%M
    (fun _ => mret (RecomputeError 500 "Internal server error")).

(** A date handed to a query, which refuses an invalid one. *)
Definition queryDate (d : Date.t) : result Z :=
  match d with
  | Some ms => ret ms
  | None => throw (Error "PrismaClientValidationError: invalid date")
  end.

(** [new Date(dayUtc.getTime() + 24 * 60 * 60 * 1000)]. *)
Definition nextDay (dayUtc : Z) : Date.t :=
  Date.timeClip (dayUtc + 24 * 60 * 60 * 1000)%Z.

(** The filter [{ siteId, tsUtc: { gte, lt } }]. *)
Definition inWindow (siteId : string) (gte lt : Z) (r : RawTelemetry) : bool :=
  String.eqb (t_siteId r) siteId && (gte <=? t_tsUtc r)%Z && (t_tsUtc r <? lt)%Z.

Definition summaryInWindow (siteId : string) (gte lt : Z) (h : HourlySummary) : bool :=
  String.eqb (hs_siteId h) siteId && (gte <=? hs_hourUtc h)%Z && (hs_hourUtc h <? lt)%Z.

(** [DELETE /v1/raw]. *)
Inductive PurgeReply : Type :=
| PurgeError (code : Z) (error : string)
| Purged (deletedRecords : nat).

Definition deleteRaw (siteId day : string) : MS PurgeReply :=
  scatch
    (dayUtc <- liftM (lift (queryDate (parseDate day))) ;;
     dayEnd <- liftM (lift (queryDate (nextDay dayUtc))) ;;
     d <- liftM getDb ;;
     let deleted := filter (inWindow siteId dayUtc dayEnd) (rawTelemetry d) in
     liftM (putDb {| site := site d;
                     rawTelemetry :=
                       filter (fun r => negb (inWindow siteId dayUtc dayEnd r)) (rawTelemetry d);
                     dailyDigest := dailyDigest d;
                     nextId := nextId d |}) ;;
     summaries <- getSummaries ;;
     putSummaries (filter (fun h => negb (summaryInWindow siteId dayUtc dayEnd h)) summaries) ;;
     d <- liftM getDb ;;
     liftM (putDb {| site := site d;
                     rawTelemetry := rawTelemetry d;
                     dailyDigest :=
                       filter (fun g => negb (digest_key siteId dayUtc g)) (dailyDigest d);
                     nextId := nextId d |}) ;;
     sret (Purged (List.length deleted)))%MS
    (fun _ => sret (PurgeError 500 "Internal server error")).

(** [GET /v1/sites/:id/proof]. *)
Inductive ProofReply : Type :=
| ProofError (code : Z) (error : string)
| ProofFound (included : bool) (leafHash : string) (branch : list string) (root : string).

Definition rawTelemetry_findUnique (d : Db) (siteId : string) (tsUtc : Z)
  : option RawTelemetry :=
  find (row_key siteId tsUtc) (rawTelemetry d).

(** [findMany] with the filter [{ gte, lt }], in the order of the instants. *)
Definition rawTelemetry_findManyBefore (d : Db) (siteId : string) (gte lt : Z)
  : list RawTelemetry :=
  fold_right insertByTs [] (filter (inWindow siteId gte lt) (rawTelemetry d)).

Definition getProofRoute (siteId day ts : string) : M ProofReply :=
  mcatch
    (let dayUtc := parseDate day in
     let tsUtc := Date.parse ts in
     d <- getDb ;;
     dayMs <- lift (queryDate dayUtc) ;;
     match dailyDigest_findUnique d siteId dayMs with
     | None => mret (ProofError 404 "Digest not found for the specified day")
     | Some digest =>
         tsMs <- lift (queryDate tsUtc) ;;
         match rawTelemetry_findUnique d siteId tsMs with
         | None => mret (ProofError 404 "Telemetry record not found")
         | Some telemetry =>
             dayEnd <- lift (queryDate (nextDay dayMs)) ;;
             let allTelemetry := rawTelemetry_findManyBefore d siteId dayMs dayEnd in
             let rowHashes := map t_rowHash allTelemetry in
             proof <- lift (generateMerkleProof rowHashes (t_rowHash telemetry)) ;;
             mret (ProofFound true (t_rowHash telemetry) proof (d_merkleRoot digest))
         end
     end)%M
    (fun _ => mret (ProofError 500 "Internal server error")).

(** ** The aggregation workers and the recurring jobs of the job queue *)

Section Workers.

Variable env : Env.

(** The processor of the queue [hourly-aggregation] on
    [{ siteId, hourUtc }]; [hourUtc] is the date [new Date(job.data.hourUtc)].
    Its first statement after reading the job is [logger.info(...)],
    outside the [try]. *)
Definition hourlyWorker (siteId : string) (hourUtc : Date.t)
  : MS (option HourlyAggregationResult) :=
  (liftM (lift (call_method logger "info")) ;;
   scatch
     (result <- aggregateHourly siteId hourUtc ;;
      liftM (lift (call_function updateJobDurationMetrics "updateJobDurationMetrics")) ;;
      liftM (lift (call_method logger "info")) ;;
      sret result)
     (fun error =>
        liftM (lift (call_function updateJobDurationMetrics "updateJobDurationMetrics")) ;;
        liftM (lift (call_method logger "error")) ;;
        sthrow error))%MS.

(** The processor of the queue [daily-aggregation] on [{ siteId, dayUtc }];
    [dayUtc] is the date [new Date(job.data.dayUtc)], built once for the
    aggregation and once for the lookup of the digest. Its first statement
    after reading the job is [logger.info(...)], outside the [try]. *)
Definition dailyWorker (siteId : string) (dayUtc : Date.t)
  : MS (option DailyAggregationResult) :=
  (liftM (lift (call_method logger "info")) ;;
   scatch
     (result <- liftM (aggregateDaily siteId dayUtc) ;;
      liftM (lift (call_function updateJobDurationMetrics "updateJobDurationMetrics")) ;;
      liftM (lift (call_method logger "info")) ;;
      (if (match result with Some _ => true | None => false end) && ANCHOR_ENABLED env
       then
         key <- liftM (lift (queryDate dayUtc)) ;;
         d <- liftM getDb ;;
         match dailyDigest_findUnique d siteId key with
         | Some digest =>
             if negb (d_anchored digest) then anchorQueue_add (d_id digest) 5000
             else sret tt
         | None => sret tt
         end
       else sret tt) ;;
      sret result)
     (fun error =>
        liftM (lift (call_function updateJobDurationMetrics "updateJobDurationMetrics")) ;;
        liftM (lift (call_method logger "error")) ;;
        sthrow error))%MS.

End Workers.

Record HourlyAggregationJob : Type := mkHourlyJob {
  hj_siteId : string;
  hj_hourUtc : string
}.

Record DailyAggregationJob : Type := mkDailyJob {
  dj_siteId : string;
  dj_dayUtc : string
}.

(** A repeated job handed to one of the two aggregation queues. *)
Inductive RecurringJob : Type :=
| HourlyJob (data : HourlyAggregationJob)
| DailyJob (data : DailyAggregationJob).

(** [scheduleRecurringJobs]: the repeated jobs it has handed to the queues,
    in order, and how the call ends. [now1] and [now2] are the readings of
    the clock by the two calls of [new Date()]. The last statement is
    [logger.info('Recurring jobs scheduled')]. *)
Definition scheduleRecurringJobs (now1 now2 : Z) : list RecurringJob * result unit :=
  match Date.toISOString (Date.timeClip now1) with
  | inl e => ([], inl e)
  | inr hourUtc =>
      let hourly := HourlyJob {| hj_siteId := "all"; hj_hourUtc := hourUtc |} in
      match Date.toISOString (Date.timeClip now2) with
      | inl e => ([hourly], inl e)
      | inr dayUtc =>
          let daily := DailyJob {| dj_siteId := "all"; dj_dayUtc := dayUtc |} in
          ([hourly; daily], call_method logger "info")
      end
  end.

(** ** The day of PRJ001, aggregated *)

(** What aggregation returns for the day, and the world it leaves. *)
Definition dayResult : DailyAggregationResult :=
  {| a_siteId := "PRJ001"; a_dayUtc := 1705276800000;
     a_energyKWh := Number "6.00";
     a_avoidedTco2e := avoidedTco2e (Number "6.00") (Number "0.708");
     a_rows := 3;
     a_merkleRoot := "2445563e21e7dcaee836e947088c5e0f6828fcefb536b0038e77bf9e106d7bfd" |}.

Definition aggregatedWorld (a : nat -> FetchOutcome) : World :=
  withDigest (dayWorld a) dayResult.

(** The digest of the day as it was anchored when the day had only its
    first reading, and a world that holds it beside the three readings. *)
Definition staleDigest : DailyDigest :=
  {| d_id := 0; d_siteId := "PRJ001"; d_dayUtc := 1705276800000;
     d_energyKWh := Number "1.00";
     d_avoidedTco2e := avoidedTco2e (Number "1.00") (Number "0.708");
     d_rows := 1;
     d_merkleRoot := "92643b02c75c45966cc112ce3631a7d8dbea786fd7e3b72532257ffdb45d5069";
     d_csvUrl := None; d_jsonUrl := None;
     d_anchored := true; d_adapterTxId := Some "tx-1"; d_txHash := Some "0xabc" |}.

(** The ingested day with no hourly summary and no job yet. *)
Definition dayStore : Store :=
  {| world := dayWorld unreachableAdapter; hourlySummary := []; anchorQueue := [] |}.

Definition staleWorld : World :=
  {| db := {| site := [PRJ001; PRJ002];
              rawTelemetry := rawTelemetry (db (dayWorld acceptingAdapter));
              dailyDigest := [staleDigest];
              nextId := 1 |};
     adapter := acceptingAdapter; requests := []; sleeps := [] |}.

(** The reading of the repository's test as the MQTT ingester would hand
    it on, with a wind speed and a key of its own. *)
Definition testReadingMqtt : RawTelemetryInput :=
  {| r_siteId := "PRJ001"; r_tsUtc := "2024-01-15T12:00:00Z";
     r_poaIrrWm2 := Some (Number "800.123456"); r_tempC := Some (Number "25.678901");
     r_windMps := Some (Number "3.2"); r_acPowerKw := Some (Number "2.345678");
     r_acEnergyKWh := Some (Number "1.234567");
     r_status := Some OK; r_source := mqtt; r_uniqKey := Some "msg-17" |}.


(* ================================================================= *)
(** * Part XI. Properties *)
(* ================================================================= *)

(** ** Known answers of the library functions *)

Example sha256_abc :
  sha256 "abc" = "ba7816bf8f01cfea414140de5dae2223b00361a396177a9cb410ff61f20015ad".
Proof. vm_compute. reflexivity. Qed.

Example sha256_empty :
  sha256 "" = "e3b0c44298fc1c149afbf4c8996fb92427ae41e4649b934ca495991b7852b855".
Proof. vm_compute. reflexivity. Qed.

Example sha256_two_blocks :
  sha256 "abcdbcdecdefdefgefghfghighijhijkijkljklmklmnlmnomnopnopq"
  = "248d6a61d20638b8e5c026930c3e6039a33ce45964ff2167f6ecedd419db06c1".
Proof. vm_compute. reflexivity. Qed.

Example toString_known :
  map Num.toString
    [Number "0.1"; Num.add (Number "0.1") (Number "0.2"); Number "1e21";
     Number "1e-7"; Number "100"; Number "-2.50"; Number "5e-324"; Number "-0"]
  = ["0.1"; "0.30000000000000004"; "1e+21"; "1e-7"; "100"; "-2.5"; "5e-324"; "0"].
Proof. vm_compute. reflexivity. Qed.

Example toFixed_known :
  map (fun p => Num.toFixed (Number (fst p)) (snd p))
    [("1.005", 2%Z); ("2.5", 0%Z); ("-1.5", 0%Z); ("0.000001", 7%Z); ("1e21", 2%Z)]
  = [inr "1.00"; inr "3"; inr "-2"; inr "0.0000010"; inr "1e+21"].
Proof. vm_compute. reflexivity. Qed.

Example toISOString_known :
  map (fun s => Date.toISOString (Date.parse s))
    ["2024-01-15T12:00:00Z"; "1969-12-31T23:59:59.999Z"; "2024-02-29T00:00:00.5Z";
     "2023-02-29T00:00:00Z"; "2024-02-30T00:00:00.000Z"; "2024-02-32T00:00:00Z"]
  = [inr "2024-01-15T12:00:00.000Z"; inr "1969-12-31T23:59:59.999Z";
     inr "2024-02-29T00:00:00.500Z"; inr "2023-03-01T00:00:00.000Z";
     inr "2024-03-01T00:00:00.000Z"; inl (RangeError "Invalid time value")].
Proof. vm_compute. reflexivity. Qed.

(** ** The order of strings and the sort *)

Section StringOrder.

Lemma Ascii_compare_trans (a b c : ascii) (o : comparison) :
  Ascii.compare a b = o -> Ascii.compare b c = o -> Ascii.compare a c = o.
Proof.
  unfold Ascii.compare. destruct o; intros H1 H2.
  - rewrite N.compare_eq_iff in H1, H2 |- *. congruence.
  - rewrite N.compare_lt_iff in H1, H2 |- *. lia.
  - rewrite N.compare_gt_iff in H1, H2 |- *. lia.
Qed.

Lemma String_compare_lt_trans (s1 : string) :
  forall s2 s3,
    String.compare s1 s2 = Lt -> String.compare s2 s3 = Lt ->
    String.compare s1 s3 = Lt.
Proof.
  induction s1 as [|a s1 IH]; intros [|b s2] [|c s3]; simpl; try congruence.
  destruct (Ascii.compare a b) eqn:Hab; try discriminate;
    destruct (Ascii.compare b c) eqn:Hbc; try discriminate; intros H1 H2.
  - rewrite (Ascii_compare_trans _ _ _ Hab Hbc). eauto.
  - apply Ascii.compare_eq_iff in Hab. subst b. rewrite Hbc. reflexivity.
  - apply Ascii.compare_eq_iff in Hbc. subst c. rewrite Hab. reflexivity.
  - rewrite (Ascii_compare_trans _ _ _ Hab Hbc). reflexivity.
Qed.

Lemma String_leb_trans (s1 s2 s3 : string) :
  String.leb s1 s2 = true -> String.leb s2 s3 = true -> String.leb s1 s3 = true.
Proof.
  unfold String.leb.
  destruct (String.compare s1 s2) eqn:H12; try discriminate;
    destruct (String.compare s2 s3) eqn:H23; try discriminate; intros _ _.
  - apply String.compare_eq_iff in H12. subst. rewrite H23. reflexivity.
  - apply String.compare_eq_iff in H12. subst. rewrite H23. reflexivity.
  - apply String.compare_eq_iff in H23. subst. rewrite H12. reflexivity.
  - rewrite (String_compare_lt_trans _ _ _ H12 H23). reflexivity.
Qed.

Lemma insertString_perm (x : string) (l : list string) :
  Permutation (insertString x l) (x :: l).
Proof.
  induction l as [|y l IH]; simpl.
  - apply Permutation_refl.
  - destruct (String.leb x y).
    + apply Permutation_refl.
    + eapply perm_trans; [apply perm_skip, IH | apply perm_swap].
Qed.

Lemma sortStrings_perm (l : list string) : Permutation (sortStrings l) l.
Proof.
  induction l as [|x l IH]; simpl.
  - constructor.
  - eapply perm_trans; [apply insertString_perm | apply perm_skip, IH].
Qed.

Lemma insertString_sorted (x : string) (l : list string) :
  StronglySorted str_le l -> StronglySorted str_le (insertString x l).
Proof.
  induction 1 as [|y l Hs IH Hall]; simpl.
  - repeat constructor.
  - destruct (String.leb x y) eqn:Hxy.
    + constructor; [constructor; assumption|].
      constructor; [exact Hxy|].
      eapply Forall_impl; [|exact Hall].
      intros z Hz. eapply String_leb_trans; eassumption.
    + constructor; [exact IH|].
      assert (Hyx : str_le y x).
      { destruct (String.leb_total x y) as [H|H]; [congruence | exact H]. }
      eapply Permutation_Forall.
      * apply Permutation_sym, insertString_perm.
      * constructor; assumption.
Qed.

Lemma sortStrings_sorted (l : list string) : StronglySorted str_le (sortStrings l).
Proof.
  induction l as [|x l IH]; simpl.
  - constructor.
  - apply insertString_sorted, IH.
Qed.

(** A sorted list is determined by its elements. *)
Lemma sorted_perm_unique (l1 : list string) :
  forall l2,
    StronglySorted str_le l1 -> StronglySorted str_le l2 ->
    Permutation l1 l2 -> l1 = l2.
Proof.
  induction l1 as [|x l1 IH]; intros l2 S1 S2 P.
  - apply Permutation_nil in P. congruence.
  - destruct l2 as [|y l2].
    + apply Permutation_sym, Permutation_nil in P. discriminate.
    + inversion S1 as [|? ? S1' A1]; subst. inversion S2 as [|? ? S2' A2]; subst.
      assert (x = y) as ->.
      { assert (Hx : In x (y :: l2)) by (eapply Permutation_in; [exact P | left; reflexivity]).
        assert (Hy : In y (x :: l1))
          by (eapply Permutation_in; [apply Permutation_sym, P | left; reflexivity]).
        destruct Hx as [->|Hx]; [reflexivity|].
        destruct Hy as [->|Hy]; [reflexivity|].
        rewrite Forall_forall in A1, A2.
        apply String.leb_antisym; [apply A1, Hy | apply A2, Hx]. }
      f_equal. apply IH; try assumption.
      eapply Permutation_cons_inv; exact P.
Qed.

Lemma sortStrings_permutation (l p : list string) :
  Permutation l p -> sortStrings l = sortStrings p.
Proof.
  intros P. apply sorted_perm_unique; try apply sortStrings_sorted.
  eapply perm_trans; [apply sortStrings_perm|].
  eapply perm_trans; [exact P | apply Permutation_sym, sortStrings_perm].
Qed.

End StringOrder.

(** ** The Merkle tree *)

Section MerkleFacts.

Lemma nextLevel_length (l : list string) :
  List.length (nextLevel l) = Nat.div2 (S (List.length l)).
Proof.
  assert (H : forall n (l : list string), (List.length l <= n)%nat ->
              List.length (nextLevel l) = Nat.div2 (S (List.length l))).
  { induction n as [|n IH]; intros [|x [|y k]] Hl; simpl in *; try reflexivity; try lia.
    rewrite IH by lia. reflexivity. }
  apply (H (List.length l)). lia.
Qed.

Lemma div2_succ_lt (n : nat) : (2 <= n -> Nat.div2 (S n) < n)%nat.
Proof.
  intros Hn. rewrite Nat.div2_div.
  apply Nat.Div0.div_lt_upper_bound. lia.
Qed.

Lemma div2_succ_pos (n : nat) : (1 <= n -> 1 <= Nat.div2 (S n))%nat.
Proof.
  intros Hn. rewrite Nat.div2_div.
  apply Nat.div_le_lower_bound; lia.
Qed.

(** The loop of [buildTree] ends with a level of exactly one hash whenever
    there is at least one leaf: the fuel given by [buildTree] is enough. *)
Lemma buildLevels_enough (fuel : nat) :
  forall l : list string,
    (List.length l <= fuel)%nat -> (1 <= List.length l)%nat ->
    List.length (last (l :: buildLevels fuel l) []) = 1%nat.
Proof.
  induction fuel as [|f IH]; intros l Hf Hl.
  - lia.
  - cbn [buildLevels].
    destruct (1 <? List.length l)%nat eqn:Hlt.
    + apply Nat.ltb_lt in Hlt.
      change (last (l :: nextLevel l :: buildLevels f (nextLevel l)) [])
        with (last (nextLevel l :: buildLevels f (nextLevel l)) []).
      apply IH; rewrite nextLevel_length.
      * pose proof (@div2_succ_lt (List.length l)). lia.
      * apply div2_succ_pos. lia.
    + apply Nat.ltb_ge in Hlt. simpl. lia.
Qed.

Lemma sortStrings_length (l : list string) :
  List.length (sortStrings l) = List.length l.
Proof. apply Permutation_length, sortStrings_perm. Qed.

(** [getRoot] returns a hash for every tree with at least one leaf. *)
Lemma generateMerkleRoot_defined (rowHashes : list string) :
  rowHashes <> [] -> exists root, generateMerkleRoot rowHashes = Some root.
Proof.
  intros Hne.
  unfold generateMerkleRoot, buildMerkleTree, newMerkleTree, getRoot, buildTree.
  cbn [tree].
  assert (Hlen : (1 <= List.length (sortStrings rowHashes))%nat).
  { rewrite sortStrings_length. destruct rowHashes; [congruence | simpl; lia]. }
  pose proof (@buildLevels_enough (List.length (sortStrings rowHashes))
                (sortStrings rowHashes) (le_n _) Hlen) as H.
  destruct (last _ _) as [|r rest]; [discriminate | exists r; reflexivity].
Qed.

(** A single leaf is its own root, and its proof is empty. *)
Lemma single_leaf_root (leaf : string) :
  generateMerkleRoot [leaf] = Some leaf
  /\ generateMerkleProof [leaf] leaf = inr [].
Proof.
  unfold generateMerkleRoot, generateMerkleProof, getProof. simpl.
  rewrite String.eqb_refl. split; reflexivity.
Qed.

End MerkleFacts.

(** Two leaves: the proof of the greater one is the lesser one, its left
    sibling, and it verifies exactly when hashing the pair in the other
    order gives the same digest. *)
Lemma two_leaves_right_child (a b : string) :
  String.ltb a b = true ->
  generateMerkleRoot [a; b] = Some (sha256 (a ++ b))
  /\ generateMerkleProof [a; b] b = inr [a]
  /\ (verifyProof (buildMerkleTree [a; b]) b [a] (sha256 (a ++ b)) = true
      <-> sha256 (b ++ a) = sha256 (a ++ b)).
Proof.
  intros Hlt. unfold String.ltb in Hlt.
  destruct (String.compare a b) eqn:Hc; try discriminate.
  assert (Hleb : String.leb a b = true) by (unfold String.leb; now rewrite Hc).
  assert (Hneq : String.eqb a b = false).
  { apply String.eqb_neq. intros ->.
    assert (H : String.leb b b = true) by exact Hleb.
    pose proof (String.compare_antisym b b) as Ha. rewrite Hc in Ha. discriminate. }
  assert (Hb : Str.is_empty b = false).
  { destruct b; [destruct a; discriminate | reflexivity]. }
  unfold generateMerkleRoot, generateMerkleProof, buildMerkleTree, newMerkleTree,
    getRoot, getProof, buildTree.
  cbn [sortStrings fold_right insertString]. rewrite Hleb.
  cbn [leaves tree List.length buildLevels Nat.ltb Nat.leb nextLevel last hd_error indexOf].
  rewrite Hb, Hneq, String.eqb_refl.
  cbn [option_map proofLoop Nat.even Nat.sub nth_error app ret].
  repeat split.
  - unfold verifyProof. cbn [fold_left]. apply String.eqb_eq.
  - unfold verifyProof. cbn [fold_left]. apply String.eqb_eq.
Qed.

(** The row hashes of the day are those of its readings. *)
Example dayRowHashes_of_the_day :
  map t_rowHash
    (rawTelemetry_findMany (db (dayWorld unreachableAdapter)) "PRJ001"
                           1705276800000 1705363199999)
  = dayRowHashes.
Proof. vm_compute. reflexivity. Qed.

(** C3. The Merkle root does not depend on the order in which the leaf
    hashes are given: any two lists that are permutations of each other
    have the same root, because the constructor sorts the leaves. *)
Theorem generateMerkleRoot_permutation (L P : list string) :
  Permutation L P -> generateMerkleRoot L = generateMerkleRoot P.
Proof.
  intros HP. unfold generateMerkleRoot, buildMerkleTree, newMerkleTree.
  rewrite (sortStrings_permutation HP). reflexivity.
Qed.

Lemma generateMerkleRoot_permutation_witness :
  Permutation ["hash2"; "hash1"; "hash3"] ["hash3"; "hash2"; "hash1"]
  /\ generateMerkleRoot ["hash2"; "hash1"; "hash3"]
     = generateMerkleRoot ["hash3"; "hash2"; "hash1"].
Proof.
  assert (HP : Permutation ["hash2"; "hash1"; "hash3"] ["hash3"; "hash2"; "hash1"]).
  { eapply perm_trans; [apply perm_skip, perm_swap | apply perm_swap]. }
  split; [exact HP | exact (generateMerkleRoot_permutation HP)].
Defined.

(** Verification folds the proof from the leaf, always hashing the running
    value in front of the proof element. *)
Lemma verifyProof_fold (t : MerkleTree) (leaf root : string) (proof : list string) :
  verifyProof t leaf proof root = true
  <-> fold_left (fun hash sibling => sha256 (hash ++ sibling)) proof leaf = root.
Proof. unfold verifyProof. apply String.eqb_eq. Qed.

(** C1. On the three row hashes of the day, the proof that [getProof]
    generates for the second leaf in sorted order, a leaf of the tree, does
    not verify against the tree's own root. The leaf is a right child: its
    sibling was hashed in front of it when the tree was built, and
    [verifyProof] hashes it behind. *)
Theorem verifyProof_rejects_generated_proof :
  let t := buildMerkleTree dayRowHashes in
  let leaf := "a27ebad0f57b69137349d3e3acf6389ad036b6bd0d66e1224e611e5463193575" in
  In leaf dayRowHashes
  /\ getRoot t = Some "2445563e21e7dcaee836e947088c5e0f6828fcefb536b0038e77bf9e106d7bfd"
  /\ getProof t leaf
     = inr ["92643b02c75c45966cc112ce3631a7d8dbea786fd7e3b72532257ffdb45d5069";
            "5cf4ad5fb1ff4982a8d2122dc89a874a924244346580ac0bdadd8987b8bd1bad"]
  /\ verifyProof t leaf
       ["92643b02c75c45966cc112ce3631a7d8dbea786fd7e3b72532257ffdb45d5069";
        "5cf4ad5fb1ff4982a8d2122dc89a874a924244346580ac0bdadd8987b8bd1bad"]
       "2445563e21e7dcaee836e947088c5e0f6828fcefb536b0038e77bf9e106d7bfd" = false.
Proof.
  cbv zeta. repeat split; try (vm_compute; reflexivity).
  simpl. tauto.
Qed.

(** The same on the inputs of the repository's own test: of the three
    leaves only the first one verifies. *)
Example verifyProof_on_test_leaves :
  let t := buildMerkleTree ["hash1"; "hash2"; "hash3"] in
  map (fun leaf =>
         match getProof t leaf, getRoot t with
         | inr proof, Some root => verifyProof t leaf proof root
         | _, _ => false
         end) ["hash1"; "hash2"; "hash3"]
  = [true; false; false].
Proof. vm_compute. reflexivity. Qed.

(** The proof generated for the first leaf of the day verifies; with one
    element altered, or presented for another leaf, it does not. *)
Example verifyProof_first_leaf :
  let t := buildMerkleTree dayRowHashes in
  let leaf := "92643b02c75c45966cc112ce3631a7d8dbea786fd7e3b72532257ffdb45d5069" in
  let other := "abaec04e7bb37ae65b282d991f0ccf024f2141b75e55b61c3038ffeaeebd90a2" in
  match getProof t leaf, getRoot t with
  | inr proof, Some root =>
      verifyProof t leaf proof root = true
      /\ verifyProof t leaf (rev proof) root = false
      /\ verifyProof t leaf (tl proof) root = false
      /\ verifyProof t other proof root = false
      /\ verifyMerkleProof leaf proof root = true
  | _, _ => False
  end.
Proof. vm_compute. repeat split. Qed.

(** ** Lengths of the strings the pipeline builds *)

Section StringFacts.

Lemma length_append (a b : string) :
  String.length (a ++ b) = (String.length a + String.length b)%nat.
Proof. induction a as [|c a IH]; simpl; [reflexivity | now rewrite IH]. Qed.

Lemma repeat_char_length (c : ascii) (n : nat) :
  String.length (Str.repeat_char c n) = n.
Proof. induction n as [|n IH]; simpl; [reflexivity | now rewrite IH]. Qed.

Lemma dec_digits_length_le (fuel : nat) :
  forall (k : nat) (x : N) (acc : string),
    (x < 10 ^ N.of_nat k)%N -> (1 <= k)%nat ->
    (String.length (Str.dec_digits_fuel fuel x acc) <= String.length acc + k)%nat.
Proof.
  induction fuel as [|f IH]; intros k x acc Hx Hk; cbn [Str.dec_digits_fuel].
  - lia.
  - destruct (x / 10 =? 0)%N eqn:Hq.
    + simpl. lia.
    + apply N.eqb_neq in Hq.
      assert (Hx10 : (10 <= x)%N).
      { destruct (N.lt_ge_cases x 10) as [Hlt|Hge]; [|exact Hge].
        rewrite (N.div_small x 10 Hlt) in Hq. congruence. }
      destruct k as [|[|k]]; [lia | simpl in Hx; lia |].
      specialize (IH (S k) (x / 10)%N (String (Str.digit_char (x mod 10)) acc)).
      simpl String.length in IH.
      assert (Hdiv : (x / 10 < 10 ^ N.of_nat (S k))%N).
      { apply N.Div0.div_lt_upper_bound.
        replace (10 * 10 ^ N.of_nat (S k))%N with (10 ^ N.of_nat (S (S k)))%N; [exact Hx|].
        rewrite (Nat2N.inj_succ (S k)), N.pow_succ_r'. reflexivity. }
      specialize (IH Hdiv). lia.
Qed.

Lemma dec_digits_length_ge (fuel : nat) (x : N) (acc : string) :
  (String.length acc <= String.length (Str.dec_digits_fuel fuel x acc))%nat.
Proof.
  revert x acc. induction fuel as [|f IH]; intros x acc; cbn [Str.dec_digits_fuel].
  - lia.
  - destruct (x / 10 =? 0)%N.
    + simpl. lia.
    + specialize (IH (x / 10)%N (String (Str.digit_char (x mod 10)) acc)).
      simpl String.length in IH. lia.
Qed.

Lemma pad_length (width : nat) (z : Z) :
  (0 <= z < 10 ^ Z.of_nat width)%Z -> (1 <= width)%nat ->
  String.length (Date.pad width z) = width.
Proof.
  intros Hz Hw. unfold Date.pad, Str.pad_left, Str.of_N.
  rewrite length_append, repeat_char_length.
  pose proof (@dec_digits_length_le (S (N.to_nat (N.log2 (Z.to_N z)))) width (Z.to_N z) "")
    as Hle.
  change (String.length "") with 0%nat in Hle.
  assert (Hlt : (Z.to_N z < 10 ^ N.of_nat width)%N).
  { apply N2Z.inj_lt. rewrite Z2N.id by lia. rewrite N2Z.inj_pow.
    rewrite nat_N_Z. simpl Z.of_N. lia. }
  specialize (Hle Hlt Hw). lia.
Qed.

(** The time of day always prints as [HH:mm:ss.sss]. *)
Lemma time_part_length (ms : Z) : String.length (Date.time_part ms) = 12%nat.
Proof.
  unfold Date.time_part, Date.msPerDay.
  assert (Hr : (0 <= ms mod 86400000 < 86400000)%Z) by (apply Z.mod_pos_bound; lia).
  set (r := (ms mod 86400000)%Z) in *.
  repeat rewrite length_append.
  rewrite !pad_length; simpl String.length; try lia.
  - change (10 ^ Z.of_nat 3)%Z with 1000%Z. apply Z.mod_pos_bound. lia.
  - change (10 ^ Z.of_nat 2)%Z with 100%Z.
    pose proof (Z.mod_pos_bound (r / 1000) 60). lia.
  - change (10 ^ Z.of_nat 2)%Z with 100%Z.
    pose proof (Z.mod_pos_bound (r / 60000) 60). lia.
  - change (10 ^ Z.of_nat 2)%Z with 100%Z.
    split; [apply Z.div_pos; lia|].
    apply Z.div_lt_upper_bound; lia.
Qed.

Lemma hex_fixed_length (width : nat) (x : N) :
  String.length (Str.hex_fixed width x) = width.
Proof.
  revert x. induction width as [|w IH]; intros x; simpl; [reflexivity|].
  rewrite length_append, IH. simpl. lia.
Qed.

Lemma all_chars_append (p : ascii -> bool) (a b : string) :
  Str.all_chars p (a ++ b) = Str.all_chars p a && Str.all_chars p b.
Proof.
  induction a as [|c a IH]; simpl; [reflexivity|].
  rewrite IH. apply andb_assoc.
Qed.

Lemma hex_char_lower (d : N) : (d < 16)%N -> Str.is_lower_hex (Str.hex_char d) = true.
Proof.
  intros Hd.
  assert (H : In d [0; 1; 2; 3; 4; 5; 6; 7; 8; 9; 10; 11; 12; 13; 14; 15]%N).
  { destruct d as [|p]; [left; reflexivity|].
    do 16 (destruct p as [p|p|]; try (simpl; tauto); try lia). }
  simpl in H.
  repeat (destruct H as [<-|H]; [vm_compute; reflexivity|]). contradiction.
Qed.

Lemma hex_fixed_lower (width : nat) (x : N) :
  Str.all_chars Str.is_lower_hex (Str.hex_fixed width x) = true.
Proof.
  revert x. induction width as [|w IH]; intros x; simpl; [reflexivity|].
  rewrite all_chars_append, IH. simpl.
  rewrite hex_char_lower; [reflexivity|].
  change 15%N with (N.ones 4). rewrite N.land_ones. apply N.mod_lt. discriminate.
Qed.

(** The digest is always 64 characters of lowercase hexadecimal. *)
Lemma sha256_hex64 (data : string) :
  String.length (sha256 data) = 64%nat
  /\ Str.all_chars Str.is_lower_hex (sha256 data) = true.
Proof.
  unfold sha256, SHA256.hex. cbv zeta.
  repeat rewrite length_append. repeat rewrite all_chars_append.
  repeat rewrite hex_fixed_length. repeat rewrite hex_fixed_lower.
  split; reflexivity.
Qed.

End StringFacts.

(** ** The calendar *)

Section Calendar.

#[local] Ltac Zify.zify_post_hook ::= Z.to_euclidean_division_equations.

(** Months are 1 to 12 and days 1 to 31, for every day number. *)
Lemma civil_from_days_month_day (days : Z) :
  let '(y, m, d) := Date.civil_from_days days in
  (1 <= m <= 12 /\ 1 <= d <= 31)%Z.
Proof.
  unfold Date.civil_from_days.
  set (z := (days + 719468)%Z).
  set (era := (z / 146097)%Z).
  set (doe := (z - era * 146097)%Z).
  assert (Hdoe : (0 <= doe <= 146096)%Z) by (subst doe era; lia).
  clearbody doe. clear z era.
  set (yoe := ((doe - doe / 1460 + doe / 36524 - doe / 146096) / 365)%Z).
  set (doy := (doe - (365 * yoe + yoe / 4 - yoe / 100))%Z).
  assert (Hyoe : (0 <= yoe <= 399)%Z) by (subst yoe; lia).
  assert (Hdoy : (0 <= doy <= 365)%Z) by (subst doy yoe; lia).
  clearbody doy.
  set (mp := ((5 * doy + 2) / 153)%Z).
  assert (Hmp : (0 <= mp <= 11)%Z) by (subst mp; lia).
  assert (Hd : (1 <= doy - (153 * mp + 2) / 5 + 1 <= 31)%Z) by (subst mp; lia).
  destruct (mp <? 10)%Z eqn:Hlt;
    [apply Z.ltb_lt in Hlt | apply Z.ltb_ge in Hlt].
  - destruct (mp + 3 <=? 2)%Z; split; lia.
  - destruct (mp - 9 <=? 2)%Z; split; lia.
Qed.

(** The days from 0000-01-01 to 9999-12-31 have the years 0 to 9999. *)
Lemma civil_from_days_year (days : Z) :
  (-719528 <= days <= 2932896)%Z ->
  let '(y, m, d) := Date.civil_from_days days in (0 <= y <= 9999)%Z.
Proof.
  intros Hdays. unfold Date.civil_from_days.
  set (z := (days + 719468)%Z).
  assert (Hz : (-60 <= z <= 3652364)%Z) by (subst z; lia).
  clearbody z. clear Hdays days.
  set (era := (z / 146097)%Z).
  set (doe := (z - era * 146097)%Z).
  assert (Hera : (-1 <= era <= 24)%Z) by (subst era; lia).
  assert (Hdoe : (0 <= doe <= 146096)%Z) by (subst doe era; lia).
  assert (Hlow : (era = -1 -> 146037 <= doe)%Z) by (subst doe era; lia).
  assert (Hhigh : (era = 24 -> doe <= 146036)%Z) by (subst doe era; lia).
  clearbody doe era. clear z Hz.
  set (yoe := ((doe - doe / 1460 + doe / 36524 - doe / 146096) / 365)%Z).
  set (doy := (doe - (365 * yoe + yoe / 4 - yoe / 100))%Z).
  assert (Hyoe : (0 <= yoe <= 399)%Z) by (subst yoe; lia).
  assert (Hlow' : (era = -1 -> yoe = 399 /\ 306 <= doy)%Z) by (subst doy yoe; lia).
  assert (Hhigh' : (era = 24 -> yoe = 399 -> doy <= 305)%Z) by (subst doy yoe; lia).
  assert (Hdoy : (0 <= doy <= 365)%Z) by (subst doy yoe; lia).
  clearbody doy yoe. clear Hlow Hhigh Hdoe doe.
  set (mp := ((5 * doy + 2) / 153)%Z).
  assert (Hmp : (0 <= mp <= 11)%Z) by (subst mp; lia).
  assert (Hmlow : (306 <= doy -> 10 <= mp)%Z) by (subst mp; lia).
  assert (Hmhigh : (doy <= 305 -> mp <= 9)%Z) by (subst mp; lia).
  clearbody mp.
  destruct (mp <? 10)%Z eqn:Hlt;
    [apply Z.ltb_lt in Hlt | apply Z.ltb_ge in Hlt].
  - destruct (mp + 3 <=? 2)%Z eqn:Hm; [apply Z.leb_le in Hm; lia|]. lia.
  - destruct (mp - 9 <=? 2)%Z eqn:Hm; [|apply Z.leb_gt in Hm; lia]. lia.
Qed.

(** An instant of the years 0000 to 9999 prints as [YYYY-MM-DD]. *)
Lemma date_part_length (ms : Z) :
  (-62167219200000 <= ms <= 253402300799999)%Z ->
  String.length (Date.date_part ms) = 10%nat.
Proof.
  intros Hms. unfold Date.date_part, Date.msPerDay.
  assert (Hdays : (-719528 <= ms / 86400000 <= 2932896)%Z) by lia.
  pose proof (civil_from_days_month_day (ms / 86400000)) as Hmd.
  pose proof (@civil_from_days_year _ Hdays) as Hy.
  destruct (Date.civil_from_days (ms / 86400000)) as [[y m] d].
  unfold Date.year_string.
  replace ((0 <=? y) && (y <=? 9999))%Z with true
    by (symmetry; apply andb_true_iff; split; apply Z.leb_le; lia).
  repeat rewrite length_append.
  rewrite !pad_length; simpl String.length; lia.
Qed.

(** Such an instant prints as the 24 characters
    [YYYY-MM-DDTHH:mm:ss.sssZ]. *)
Lemma iso_of_ms_length (ms : Z) :
  (-62167219200000 <= ms <= 253402300799999)%Z ->
  String.length (Date.iso_of_ms ms) = 24%nat.
Proof.
  intros Hms. unfold Date.iso_of_ms.
  repeat rewrite length_append.
  rewrite (@date_part_length ms Hms), time_part_length. reflexivity.
Qed.

End Calendar.

(** ** Clamping and normalisation *)

Section ClampFacts.

Lemma compare_cont_swap (p q : positive) :
  Pos.compare_cont Eq q p = CompOpp (Pos.compare_cont Eq p q).
Proof. rewrite Pos.compare_cont_antisym. reflexivity. Qed.

Lemma SFcompare_antisym (x y : number) :
  SFcompare y x = option_map CompOpp (SFcompare x y).
Proof.
  destruct x as [sx|sx| |sx mx ex], y as [sy|sy| |sy my ey];
    repeat match goal with s : bool |- _ => destruct s end;
    try reflexivity;
    simpl; rewrite (Z.compare_antisym ex ey); destruct (ex ?= ey)%Z; simpl;
    try reflexivity;
    rewrite (compare_cont_swap mx my);
    destruct (Pos.compare_cont Eq mx my); reflexivity.
Qed.

Lemma SFcompare_refl (x : number) : Num.isNaN x = false -> SFcompare x x = Some Eq.
Proof.
  destruct x as [s|s| |s m e];
    try (intros _; match goal with b : bool |- _ => destruct b end; reflexivity);
    try discriminate.
  intros _. simpl. rewrite Z.compare_refl.
  assert (H : Pos.compare_cont Eq m m = Eq) by apply Pos.compare_refl.
  rewrite H. destruct s; reflexivity.
Qed.

Lemma SFleb_refl (x : number) : Num.isNaN x = false -> SFleb x x = true.
Proof. intros H. unfold SFleb. now rewrite SFcompare_refl. Qed.

(** Two numbers are comparable unless one is NaN. *)
Lemma SFcompare_defined (x y : number) :
  Num.isNaN x = false -> Num.isNaN y = false -> exists c, SFcompare x y = Some c.
Proof.
  destruct x as [sx|sx| |sx mx ex], y as [sy|sy| |sy my ey];
    try discriminate; intros _ _; simpl; eauto.
Qed.

Lemma not_ltb_leb (x y : number) :
  Num.isNaN x = false -> Num.isNaN y = false ->
  Num.ltb x y = false -> SFleb y x = true.
Proof.
  intros Hx Hy. unfold Num.ltb, SFltb, SFleb.
  rewrite (SFcompare_antisym x y).
  destruct (SFcompare_defined _ _ Hx Hy) as [c ->].
  destruct c; simpl; congruence.
Qed.

Lemma truthy_not_NaN (x : number) : Num.truthy x = true -> Num.isNaN x = false.
Proof. destruct x; simpl; congruence. Qed.

(** A truthy value is clamped into the range: the result is present and
    lies between the bounds. *)
Lemma clampField_within (x lo hi : number) :
  Num.truthy x = true ->
  Num.isNaN lo = false -> Num.isNaN hi = false -> SFleb lo hi = true ->
  exists y, clampField (Some x) lo hi = Some y
            /\ SFleb lo y = true /\ SFleb y hi = true.
Proof.
  intros Ht Hlo Hhi Hle. pose proof (truthy_not_NaN _ Ht) as Hx.
  unfold clampField. rewrite Ht. eexists. split; [reflexivity|].
  assert (Hmax : exists m, Num.Math_max x lo = m /\ Num.isNaN m = false
                           /\ SFleb lo m = true).
  { unfold Num.Math_max. rewrite Hx, Hlo. cbn [orb].
    assert (Hif : exists m, (if Num.ltb x lo then lo else x) = m
                            /\ Num.isNaN m = false /\ SFleb lo m = true).
    { destruct (Num.ltb x lo) eqn:Hlt; eexists; split; try reflexivity; split; auto.
      - apply SFleb_refl, Hlo.
      - apply not_ltb_leb; assumption. }
    destruct x as [sx|sx| |sx mx ex]; try discriminate; exact Hif. }
  destruct Hmax as (m & -> & Hm & Hlom).
  unfold Num.Math_min. rewrite Hm, Hhi. cbn [orb].
  assert (Hif : SFleb lo (if Num.ltb hi m then hi else m) = true
                /\ SFleb (if Num.ltb hi m then hi else m) hi = true).
  { destruct (Num.ltb hi m) eqn:Hlt; split; auto.
    - apply SFleb_refl, Hhi.
    - apply not_ltb_leb; assumption. }
  destruct m as [[|]|sm| |sm mm em], hi as [[|]|sh| |sh mh eh];
    try exact Hif; discriminate.
Qed.

(** A zero, of either sign, is dropped by the clamp, whatever the range. *)
Lemma clampField_zero (s : bool) (lo hi : number) :
  clampField (Some (S754_zero s)) lo hi = None.
Proof. reflexivity. Qed.

Lemma clampField_absent (lo hi : number) : clampField None lo hi = None.
Proof. reflexivity. Qed.

(** Rounding alone keeps a zero: it is the clamp that drops it. *)
Lemma normalizeNumber_zero :
  map (normalizeNumber (Some (Number "0"))) [1%Z; 2%Z; 3%Z]
  = [inr (Some Num.zero); inr (Some Num.zero); inr (Some Num.zero)].
Proof. vm_compute. reflexivity. Qed.

(** What [normalizeTelemetry] returns, field by field. *)
Lemma normalizeTelemetry_inv (cfg : PrecisionConfig) (input : RawTelemetryInput)
  (n : NormalizedTelemetry) :
  normalizeTelemetry cfg input = inr n ->
  exists ms,
    Date.parse (r_tsUtc input) = Some ms
    /\ n_tsUtc n = Some ms
    /\ n_siteId n = r_siteId input
    /\ n_status n = r_status input
    /\ normalizeNumber (r_poaIrrWm2 input) (irradiance cfg) = inr (n_poaIrrWm2 n)
    /\ normalizeNumber (r_tempC input) (temp cfg) = inr (n_tempC n)
    /\ normalizeNumber (r_windMps input) (temp cfg) = inr (n_windMps n)
    /\ normalizeNumber (r_acPowerKw input) (power cfg) = inr (n_acPowerKw n)
    /\ normalizeNumber (r_acEnergyKWh input) (energy cfg) = inr (n_acEnergyKWh n)
    /\ n_rowHash n
       = generateRowHash
           (rowDataOf (n_siteId n) (Date.iso_of_ms ms) (n_acEnergyKWh n) (n_acPowerKw n)
                      (n_poaIrrWm2 n) (n_tempC n) (n_status n)).
Proof.
  unfold normalizeTelemetry, bind.
  destruct (normalizeNumber (r_poaIrrWm2 input) _) as [|a1]; [discriminate|].
  destruct (normalizeNumber (r_tempC input) _) as [|a2]; [discriminate|].
  destruct (normalizeNumber (r_windMps input) _) as [|a3]; [discriminate|].
  destruct (normalizeNumber (r_acPowerKw input) _) as [|a4]; [discriminate|].
  destruct (normalizeNumber (r_acEnergyKWh input) _) as [|a5]; [discriminate|].
  destruct (Date.parse (r_tsUtc input)) as [ms|]; [|discriminate].
  cbn [Date.toISOString ret]. intros H. injection H as <-.
  cbn [n_siteId n_tsUtc n_poaIrrWm2 n_tempC n_windMps n_acPowerKw n_acEnergyKWh
       n_status n_rowHash].
  exists ms. repeat split; reflexivity.
Qed.

(** A metric that is absent from the input is absent from the normalised
    reading, through the clamp and through the rounding. *)
Lemma absent_stays_absent (cfg : PrecisionConfig) (input : RawTelemetryInput)
  (n : NormalizedTelemetry) :
  normalizeTelemetry cfg (clampValues input) = inr n ->
  (r_poaIrrWm2 input = None -> n_poaIrrWm2 n = None)
  /\ (r_tempC input = None -> n_tempC n = None)
  /\ (r_windMps input = None -> n_windMps n = None)
  /\ (r_acPowerKw input = None -> n_acPowerKw n = None)
  /\ (r_acEnergyKWh input = None -> n_acEnergyKWh n = None).
Proof.
  intros H. destruct (normalizeTelemetry_inv _ _ H)
    as (ms & _ & _ & _ & _ & H1 & H2 & H3 & H4 & H5 & _).
  cbn [clampValues r_poaIrrWm2 r_tempC r_windMps r_acPowerKw r_acEnergyKWh]
    in H1, H2, H3, H4, H5.
  repeat split; intros Habs;
    [ rewrite Habs in H1; cbn [clampField normalizeNumber] in H1; unfold ret in H1
    | rewrite Habs in H2; cbn [clampField normalizeNumber] in H2; unfold ret in H2
    | rewrite Habs in H3; cbn [clampField normalizeNumber] in H3; unfold ret in H3
    | rewrite Habs in H4; cbn [clampField normalizeNumber] in H4; unfold ret in H4
    | rewrite Habs in H5; cbn [clampField normalizeNumber] in H5; unfold ret in H5 ];
    congruence.
Qed.

End ClampFacts.

(** C2. A reading that passes the input schema with the energy present and
    equal to zero leaves [clampValues] with the energy absent: the clamp
    tests the value for truthiness, and zero is falsy. The normalised
    reading has no energy and the same row hash as the reading that never
    had one, although [generateRowHash] itself tells a zero from a missing
    value. A metric that is absent in the input does stay absent
    ([absent_stays_absent]). *)
Theorem zero_reading_hashed_as_missing :
  let zero := energyReading "2024-01-15T10:00:00.000Z" "0" in
  let missing := readingWithoutEnergy "2024-01-15T10:00:00.000Z" in
  schema_accepts zero = true
  /\ r_acEnergyKWh zero = Some Num.zero
  /\ r_acEnergyKWh (clampValues zero) = None
  /\ match ingestReading defaultPrecision zero, ingestReading defaultPrecision missing with
     | inr n0, inr n1 => n_acEnergyKWh n0 = None /\ n_rowHash n0 = n_rowHash n1
     | _, _ => False
     end
  /\ generateRowHash (rowDataOf "PRJ001" "2024-01-15T10:00:00.000Z"
                                (Some Num.zero) None None None (Some OK))
     <> generateRowHash (rowDataOf "PRJ001" "2024-01-15T10:00:00.000Z"
                                   None None None None (Some OK))
  /\ (forall s lo hi, clampField (Some (S754_zero s)) lo hi = None).
Proof.
  cbv zeta. repeat split; try (vm_compute; reflexivity).
  vm_compute. discriminate.
Qed.

(** The examples of the precision test: energy to 2 places, power to 3,
    irradiance and temperature to 1. *)
Example normalizeTelemetry_test_reading :
  match ingestReading defaultPrecision testReading with
  | inr n =>
      n_acEnergyKWh n = Some (Number "1.23")
      /\ n_acPowerKw n = Some (Number "2.346")
      /\ n_poaIrrWm2 n = Some (Number "800.1")
      /\ n_tempC n = Some (Number "25.7")
      /\ n_windMps n = None
  | inl _ => False
  end.
Proof. vm_compute. repeat split. Qed.

(** Values outside the ranges are brought to the nearest bound. *)
Example clampValues_out_of_range :
  let input :=
    {| r_siteId := "PRJ001"; r_tsUtc := "2024-01-15T12:00:00.000Z";
       r_poaIrrWm2 := Some (Number "2500"); r_tempC := Some (Number "-60.5");
       r_windMps := Some (Number "120"); r_acPowerKw := Some (Number "10000.0004");
       r_acEnergyKWh := Some (Number "1000.5");
       r_status := None; r_source := pull; r_uniqKey := None |} in
  let c := clampValues input in
  (r_poaIrrWm2 c, r_tempC c, r_windMps c, r_acPowerKw c, r_acEnergyKWh c)
  = (Some (Number "2000"), Some (Number "-50"), Some (Number "100"),
     Some (Number "10000"), Some (Number "1000")).
Proof. vm_compute. reflexivity. Qed.

(** C6. A night reading that passes the input schema, with irradiance,
    temperature, wind, power and energy all present and equal to zero, comes
    out of [clampValues] with all five metrics absent, and so out of the
    ingestion; zero lies in all five ranges and rounds to zero, so each
    should have come out as 0. Values that are not zero are clamped into
    the ranges ([clampField_within]) and rounded as the examples show
    ([normalizeTelemetry_test_reading]). *)
Theorem zero_metrics_dropped_by_clamp :
  schema_accepts nightReading = true
  /\ (let c := clampValues nightReading in
      (r_poaIrrWm2 c, r_tempC c, r_windMps c, r_acPowerKw c, r_acEnergyKWh c)
      = (None, None, None, None, None))
  /\ match ingestReading defaultPrecision nightReading with
     | inr n =>
         (n_poaIrrWm2 n, n_tempC n, n_windMps n, n_acPowerKw n, n_acEnergyKWh n)
         = (None, None, None, None, None)
     | inl _ => False
     end
  /\ normalizeNumber (Some (Num.Math_min (Num.Math_max (Number "0") (Number "-50"))
                                         (Number "80"))) 1
     = inr (Some (Number "0")).
Proof.
  repeat split; vm_compute; reflexivity.
Qed.

(** How the hashed string prints rounded values: no trailing zeros. *)
Example number_field_rendering :
  map (fun s => number_field (Some (Number s)))
    ["1.00"; "1.50"; "1.23"; "2.346"; "800.1"; "800.0"; "25.7"; "0"; "-0.5"; "1000"]
  = ["1"; "1.5"; "1.23"; "2.346"; "800.1"; "800"; "25.7"; "0"; "-0.5"; "1000"]
  /\ number_field None = "".
Proof. vm_compute. split; reflexivity. Qed.

(** At the 10 o'clock reading of the day: the row hash of the normalised
    reading is not the digest of the row string with fixed decimals. The
    code renders the energy 1.00 as [1]. *)
Lemma rowHash_not_of_fixed_decimals :
  match normalizeTelemetry defaultPrecision
          (energyReading "2024-01-15T10:00:00.000Z" "1.00") with
  | inr n =>
      let data := rowDataOf (n_siteId n) "2024-01-15T10:00:00.000Z" (n_acEnergyKWh n)
                            (n_acPowerKw n) (n_poaIrrWm2 n) (n_tempC n) (n_status n) in
      canonicalRow_fixedDecimal defaultPrecision data
      = "PRJ001|2024-01-15T10:00:00.000Z|1.00||||OK"
      /\ canonicalRow data = "PRJ001|2024-01-15T10:00:00.000Z|1||||OK"
      /\ n_rowHash n = sha256 (canonicalRow data)
      /\ n_rowHash n <> sha256 (canonicalRow_fixedDecimal defaultPrecision data)
  | inl _ => False
  end.
Proof.
  vm_compute. repeat split. discriminate.
Qed.

(** C4. The record of the first test vector of the repository's integrity
    documentation, a reading of PRJ001 at 2024-01-15T12:00:00.000Z with
    energy 1.0, power 1.0 and status OK, passes the input schema. Its row
    string with fixed decimals, energy to 2 and power to 3 places, is the
    documented [PRJ001|2024-01-15T12:00:00.000Z|1.00|1.000|||OK]. The code
    hashes [PRJ001|2024-01-15T12:00:00.000Z|1|1|||OK]: [generateRowHash]
    prints the rounded numbers with [toString], which drops the trailing
    zeros, and the row hash of the reading is not the documented digest. *)
Theorem rowHash_differs_from_documented_vector :
  schema_accepts documentedReading = true
  /\ match ingestReading defaultPrecision documentedReading with
     | inr n =>
         let data := rowDataOf (n_siteId n) "2024-01-15T12:00:00.000Z" (n_acEnergyKWh n)
                               (n_acPowerKw n) (n_poaIrrWm2 n) (n_tempC n) (n_status n) in
         Date.toISOString (n_tsUtc n) = inr "2024-01-15T12:00:00.000Z"
         /\ canonicalRow_fixedDecimal defaultPrecision data
            = "PRJ001|2024-01-15T12:00:00.000Z|1.00|1.000|||OK"
         /\ canonicalRow data = "PRJ001|2024-01-15T12:00:00.000Z|1|1|||OK"
         /\ n_rowHash n = sha256 "PRJ001|2024-01-15T12:00:00.000Z|1|1|||OK"
         /\ n_rowHash n <> sha256 "PRJ001|2024-01-15T12:00:00.000Z|1.00|1.000|||OK"
     | inl _ => False
     end.
Proof.
  vm_compute. repeat split. discriminate.
Qed.

(** What the code hashes. For every normalised record the row hash is the
    SHA-256 digest, 64 characters of lowercase hexadecimal, of the fields
    joined by [|]: the site id; the instant printed by [toISOString], a date, [T], the
    twelve characters [HH:mm:ss.sss] and [Z], 24 characters in all for the
    years 0000 to 9999; then energy, power, irradiance and temperature, each
    the value already rounded to its configured precision and printed by the
    number's own [toString] (the shortest decimal that reads back as the
    number, so without trailing zeros), an absent metric printing as the
    empty string; then the status, an absent one as the empty string. *)
Theorem rowHash_of_canonical_row
  (cfg : PrecisionConfig) (input : RawTelemetryInput) (n : NormalizedTelemetry)
  (Hn : normalizeTelemetry cfg input = inr n) :
  exists ms,
    n_tsUtc n = Some ms
    /\ n_rowHash n
       = sha256 (n_siteId n ++ "|"
                 ++ Date.iso_of_ms ms ++ "|"
                 ++ number_field (n_acEnergyKWh n) ++ "|"
                 ++ number_field (n_acPowerKw n) ++ "|"
                 ++ number_field (n_poaIrrWm2 n) ++ "|"
                 ++ number_field (n_tempC n) ++ "|"
                 ++ or_empty (option_map Status_string (n_status n)))
    /\ Date.toISOString (n_tsUtc n) = inr (Date.iso_of_ms ms)
    /\ Date.iso_of_ms ms = Date.date_part ms ++ "T" ++ Date.time_part ms ++ "Z"
    /\ String.length (Date.time_part ms) = 12%nat
    /\ ((-62167219200000 <= ms <= 253402300799999)%Z ->
        String.length (Date.iso_of_ms ms) = 24%nat)
    /\ String.length (n_rowHash n) = 64%nat
    /\ Str.all_chars Str.is_lower_hex (n_rowHash n) = true
    /\ normalizeNumber (r_acEnergyKWh input) (energy cfg) = inr (n_acEnergyKWh n)
    /\ normalizeNumber (r_acPowerKw input) (power cfg) = inr (n_acPowerKw n)
    /\ normalizeNumber (r_poaIrrWm2 input) (irradiance cfg) = inr (n_poaIrrWm2 n)
    /\ normalizeNumber (r_tempC input) (temp cfg) = inr (n_tempC n)
    /\ number_field None = ""
    /\ (forall v, number_field (Some v) = Num.toString v).
Proof.
  destruct (@normalizeTelemetry_inv _ _ _ Hn)
    as (ms & _ & Hts & _ & _ & H1 & H2 & _ & H4 & H5 & Hhash).
  exists ms. split; [exact Hts|]. split; [exact Hhash|].
  split; [rewrite Hts; reflexivity|]. split; [reflexivity|].
  split; [apply time_part_length|].
  split; [apply iso_of_ms_length|].
  rewrite Hhash. unfold generateRowHash.
  split; [apply sha256_hex64|]. split; [apply sha256_hex64|].
  repeat split; assumption.
Qed.

Lemma rowHash_of_canonical_row_witness :
  exists n ms,
    normalizeTelemetry defaultPrecision (energyReading "2024-01-15T10:00:00.000Z" "1.00")
    = inr n
    /\ n_tsUtc n = Some ms
    /\ String.length (n_rowHash n) = 64%nat.
Proof.
  eexists.
  assert (Hn : normalizeTelemetry defaultPrecision
                 (energyReading "2024-01-15T10:00:00.000Z" "1.00") = inr _)
    by (vm_compute; reflexivity).
  destruct (@rowHash_of_canonical_row _ _ _ Hn)
    as (ms & Hts & _ & _ & _ & _ & _ & Hlen & _).
  exists ms. split; [exact Hn|]. split; [exact Hts | exact Hlen].
Defined.

(** ** Daily aggregation *)

Section AggregationFacts.

(** A day that has a start is a valid date. *)
Lemma getDayStart_valid (dayUtc : Date.t) (gte : Z) :
  getDayStart dayUtc = Some gte -> exists ms, dayUtc = Some ms.
Proof. destruct dayUtc as [ms|]; [eauto | discriminate]. Qed.

(** What [aggregateDaily] does on a valid day, case by case. *)
Lemma aggregateDaily_cases (w : World) (siteId : string) (dayUtc : Date.t) (gte lte : Z) :
  getDayStart dayUtc = Some gte ->
  getDayEnd dayUtc = Some lte ->
  aggregateDaily siteId dayUtc w =
  match site_findUnique (db w) siteId with
  | None => (inl (Error ("Site " ++ siteId ++ " not found")), w)
  | Some s =>
      let telemetryRecords := rawTelemetry_findMany (db w) siteId gte lte in
      match telemetryRecords with
      | [] => (inr None, w)
      | _ :: _ =>
          let totalEnergyKWh := sum (present (map t_acEnergyKWh telemetryRecords)) in
          let avoided := avoidedTco2e totalEnergyKWh (s_baselineKgPerKWh s) in
          match generateMerkleRoot (map t_rowHash telemetryRecords) with
          | None =>
              (inl (Error "PrismaClientValidationError: merkleRoot is missing"), w)
          | Some merkleRoot =>
              (inr (Some {| a_siteId := siteId; a_dayUtc := gte;
                            a_energyKWh := totalEnergyKWh; a_avoidedTco2e := avoided;
                            a_rows := List.length telemetryRecords;
                            a_merkleRoot := merkleRoot |}),
               {| db := dailyDigest_upsert (db w) siteId gte totalEnergyKWh avoided
                          (List.length telemetryRecords) merkleRoot;
                  adapter := adapter w; requests := requests w; sleeps := sleeps w |})
          end
      end
  end.
Proof.
  intros Hs He. destruct (getDayStart_valid _ Hs) as [ms ->].
  unfold aggregateDaily, mcatch, mbind, lift, getDb, mthrow, mret, putDb.
  rewrite Hs, He. cbn [timeValue ret].
  destruct (site_findUnique (db w) siteId) as [s|]; [|reflexivity].
  cbv zeta.
  destruct (rawTelemetry_findMany (db w) siteId gte lte) as [|r rs]; [destruct w; reflexivity|].
  cbn [List.length Nat.eqb].
  destruct (generateMerkleRoot _); reflexivity.
Qed.

(** The upsert leaves a digest under the key, with the four computed values. *)
Lemma dailyDigest_upsert_found (d : Db) (siteId : string) (dayUtc : Z)
  (e a : number) (rows : nat) (root : string) :
  exists g,
    dailyDigest_findUnique (dailyDigest_upsert d siteId dayUtc e a rows root) siteId dayUtc
    = Some g
    /\ d_siteId g = siteId /\ d_dayUtc g = dayUtc
    /\ d_energyKWh g = e /\ d_avoidedTco2e g = a
    /\ d_rows g = rows /\ d_merkleRoot g = root.
Proof.
  unfold dailyDigest_upsert, dailyDigest_findUnique.
  destruct (find (digest_key siteId dayUtc) (dailyDigest d)) as [g0|] eqn:Hfind; cbn [dailyDigest].
  - induction (dailyDigest d) as [|g l IH]; [discriminate|].
    cbn [find map] in *.
    destruct (digest_key siteId dayUtc g) eqn:Hk.
    + exists (setAggregates e a rows root g).
      unfold digest_key in *. cbn [setAggregates d_siteId d_dayUtc] in *.
      rewrite Hk. apply andb_true_iff in Hk as [H1 H2].
      apply String.eqb_eq in H1. apply Z.eqb_eq in H2. auto 10.
    + rewrite Hk. apply IH, Hfind.
  - assert (Hnone : forall l x, find (digest_key siteId dayUtc) l = None ->
                      find (digest_key siteId dayUtc) (l ++ [x])%list
                      = find (digest_key siteId dayUtc) [x]).
    { induction l as [|g l IH]; intros x Hl; [reflexivity|].
      cbn [find app] in *. destruct (digest_key siteId dayUtc g); [discriminate | auto]. }
    rewrite (Hnone _ _ Hfind). cbn [find]. unfold digest_key at 1, createdDigest. cbn.
    rewrite String.eqb_refl, Z.eqb_refl. cbn. eauto 10.
Qed.

End AggregationFacts.

(** C7. For a known site, aggregating a day that has no record returns the
    no-record sentinel [null] without an error and leaves the store as it
    was, so no digest is written; for an unknown site the call throws the
    error "Site ... not found", whatever records the period holds, also
    none. The two outcomes differ. *)
Theorem aggregateDaily_empty_vs_unknown
  (w : World) (siteId : string) (dayUtc : Date.t) (gte lte : Z)
  (Hstart : getDayStart dayUtc = Some gte)
  (Hend : getDayEnd dayUtc = Some lte) :
  (forall s, site_findUnique (db w) siteId = Some s ->
             rawTelemetry_findMany (db w) siteId gte lte = [] ->
             aggregateDaily siteId dayUtc w = (inr None, w))
  /\ (site_findUnique (db w) siteId = None ->
      aggregateDaily siteId dayUtc w
      = (inl (Error ("Site " ++ siteId ++ " not found")), w))
  /\ (forall e : exn, @inr exn (option DailyAggregationResult) None <> inl e).
Proof.
  rewrite (@aggregateDaily_cases w siteId dayUtc gte lte Hstart Hend).
  repeat split.
  - intros s Hsite Hrecs. rewrite Hsite. cbv zeta. rewrite Hrecs. reflexivity.
  - intros Hsite. rewrite Hsite. reflexivity.
  - discriminate.
Qed.

Lemma aggregateDaily_empty_vs_unknown_witness :
  aggregateDaily "PRJ001" (parseDate "2024-01-16") (dayWorld unreachableAdapter)
  = (inr None, dayWorld unreachableAdapter)
  /\ aggregateDaily "PRJ999" (parseDate "2024-01-16") (dayWorld unreachableAdapter)
     = (inl (Error "Site PRJ999 not found"), dayWorld unreachableAdapter).
Proof.
  split.
  - refine (proj1 (@aggregateDaily_empty_vs_unknown
                     (dayWorld unreachableAdapter) "PRJ001" (parseDate "2024-01-16")
                     1705363200000%Z 1705449599999%Z _ _) PRJ001 _ _);
      vm_compute; reflexivity.
  - refine (proj1 (proj2 (@aggregateDaily_empty_vs_unknown
                     (dayWorld unreachableAdapter) "PRJ999" (parseDate "2024-01-16")
                     1705363200000%Z 1705449599999%Z _ _)) _);
      vm_compute; reflexivity.
Defined.

(** ** The rounding error of the avoided emissions *)

Module RoundingFacts.
Import QArith Qpower Lqa.
Import Rounding.
Local Open Scope Q_scope.

Lemma pow2_pos (e : Z) : 0 < pow2 e.
Proof. unfold pow2. apply Qpower_0_lt. reflexivity. Qed.

Lemma pow2_add (a b : Z) : pow2 (a + b) == pow2 a * pow2 b.
Proof. unfold pow2. apply Qpower_plus. intros H. discriminate. Qed.

Lemma pow2_le (a b : Z) : (a <= b)%Z -> pow2 a <= pow2 b.
Proof. intros H. unfold pow2. apply Qpower_le_compat_l; [exact H|]. discriminate. Qed.

Lemma pow2_0 : pow2 0 == 1.
Proof. reflexivity. Qed.

Lemma pow2_1 : pow2 1 == 2.
Proof. reflexivity. Qed.

Lemma pow2_succ (e : Z) : pow2 (e + 1) == 2 * pow2 e.
Proof. rewrite pow2_add, pow2_1. ring. Qed.

Lemma pow2_pred (e : Z) : 2 * pow2 (e - 1) == pow2 e.
Proof.
  rewrite <- pow2_succ. replace (e - 1 + 1)%Z with e by ring. reflexivity.
Qed.

Lemma pow2_Z (n : Z) : (0 <= n)%Z -> pow2 n == inject_Z (2 ^ n).
Proof. intros H. unfold pow2. rewrite Zpower_Qpower by exact H. reflexivity. Qed.

Lemma inject_Z_lt (a b : Z) : (a < b)%Z <-> inject_Z a < inject_Z b.
Proof. unfold Qlt. cbn. lia. Qed.

Lemma inject_Z_le (a b : Z) : (a <= b)%Z <-> inject_Z a <= inject_Z b.
Proof. unfold Qle. cbn. lia. Qed.

(** The number of binary digits of a mantissa. *)
Lemma digits2_pos_bound (p : positive) :
  (2 ^ (Zpos (digits2_pos p) - 1) <= Zpos p < 2 ^ Zpos (digits2_pos p))%Z.
Proof.
  induction p as [p IH|p IH|]; cbn [digits2_pos].
  - rewrite Pos2Z.inj_succ.
    replace (Z.succ (Zpos (digits2_pos p)) - 1)%Z with (Z.succ (Zpos (digits2_pos p) - 1))
      by lia.
    rewrite !Z.pow_succ_r by lia. lia.
  - rewrite Pos2Z.inj_succ.
    replace (Z.succ (Zpos (digits2_pos p)) - 1)%Z with (Z.succ (Zpos (digits2_pos p) - 1))
      by lia.
    rewrite !Z.pow_succ_r by lia. lia.
  - cbn. lia.
Qed.

Lemma Zdigits2_upper (m : Z) : (0 <= m)%Z -> inject_Z m < pow2 (Zdigits2 m).
Proof.
  intros Hm. destruct m as [|p|p]; [reflexivity| |lia].
  cbn [Zdigits2]. rewrite pow2_Z by lia. apply (proj1 (inject_Z_lt _ _)).
  apply (digits2_pos_bound p).
Qed.

Lemma Zdigits2_lower (p : positive) : pow2 (Zdigits2 (Zpos p) - 1) <= inject_Z (Zpos p).
Proof.
  cbn [Zdigits2]. rewrite pow2_Z by lia. apply (proj1 (inject_Z_le _ _)). apply (digits2_pos_bound p).
Qed.

Lemma Zdigits2_nonneg (m : Z) : (0 <= Zdigits2 m)%Z.
Proof. destruct m; cbn; lia. Qed.

Lemma inject_Z_xO (p : positive) : inject_Z (Zpos p~0) == 2 * inject_Z (Zpos p).
Proof. unfold Qeq. cbn. lia. Qed.

Lemma inject_Z_xI (p : positive) : inject_Z (Zpos p~1) == 2 * inject_Z (Zpos p) + 1.
Proof. unfold Qeq. cbn. lia. Qed.

Lemma inject_Z_pos (p : positive) : 1 <= inject_Z (Zpos p).
Proof. apply (proj1 (inject_Z_le 1 (Zpos p))). lia. Qed.

(** One shift to the right halves the number of units. *)
Lemma shr_1_inbetween (r : shr_record) (x : Q) :
  (0 <= shr_m r)%Z -> inbetween r x ->
  inbetween (shr_1 r) (x * (1 # 2)) /\ (0 <= shr_m (shr_1 r))%Z.
Proof.
  destruct r as [m rb sb]. cbn [shr_m]. intros Hm.
  destruct m as [|p|p]; [| |lia].
  - unfold shr_1; destruct rb, sb; unfold inbetween; cbn [shr_m shr_r shr_s orb]; intros H;
      (split; [|lia]); change (inject_Z 0) with 0 in *; lra.
  - destruct p as [p|p|]; unfold shr_1;
      [pose proof (inject_Z_xI p) as E | pose proof (inject_Z_xO p) as E | ];
      destruct rb, sb; unfold inbetween; cbn [shr_m shr_r shr_s orb]; intros H;
      (split; [|lia]); try (change (inject_Z 1) with 1 in * ); try (change (inject_Z 0) with 0); lra.
Qed.

Lemma inbetween_bounds (r : shr_record) (x : Q) :
  inbetween r x -> inject_Z (shr_m r) <= x /\ x < inject_Z (shr_m r) + 1.
Proof.
  destruct r as [m [] []]; unfold inbetween; cbn [shr_m shr_r shr_s]; lra.
Qed.

Lemma shr_m_of_loc (m : Z) (l : location) : shr_m (shr_record_of_loc m l) = m.
Proof. destruct l as [|[]]; reflexivity. Qed.

Lemma pow2_xI (p : positive) : pow2 (Zpos p~1) == 2 * pow2 (Zpos p) * pow2 (Zpos p).
Proof.
  replace (Zpos p~1) with (Zpos p + Zpos p + 1)%Z by lia.
  rewrite !pow2_add, pow2_1. ring.
Qed.

Lemma pow2_xO (p : positive) : pow2 (Zpos p~0) == pow2 (Zpos p) * pow2 (Zpos p).
Proof.
  replace (Zpos p~0) with (Zpos p + Zpos p)%Z by lia.
  rewrite !pow2_add. ring.
Qed.

(** [p] shifts to the right divide the number of units by [2 ^ p]. *)
Lemma iter_shr_1_inbetween (p : positive) :
  forall (r : shr_record) (x : Q),
    (0 <= shr_m r)%Z -> inbetween r x ->
    exists y, inbetween (SpecFloat.iter_pos shr_1 p r) y
              /\ x == y * pow2 (Zpos p)
              /\ (0 <= shr_m (SpecFloat.iter_pos shr_1 p r))%Z.
Proof.
  induction p as [p IH|p IH|]; intros r x Hm Hx; cbn [SpecFloat.iter_pos].
  - destruct (@shr_1_inbetween r x Hm Hx) as [H1 Hm1].
    destruct (IH _ _ Hm1 H1) as (y2 & H2 & E2 & Hm2).
    destruct (IH _ _ Hm2 H2) as (y3 & H3 & E3 & Hm3).
    exists y3. split; [exact H3|]. split; [|exact Hm3].
    rewrite pow2_xI. rewrite E3 in E2. lra.
  - destruct (IH _ _ Hm Hx) as (y2 & H2 & E2 & Hm2).
    destruct (IH _ _ Hm2 H2) as (y3 & H3 & E3 & Hm3).
    exists y3. split; [exact H3|]. split; [|exact Hm3].
    rewrite pow2_xO. rewrite E3 in E2. lra.
  - destruct (@shr_1_inbetween r x Hm Hx) as [H1 Hm1].
    exists (x * (1 # 2)). split; [exact H1|]. split; [|exact Hm1].
    rewrite pow2_1. lra.
Qed.

(** Rounding to nearest, ties to even, moves by half a unit at most. *)
Lemma round_nearest_even_error (r : shr_record) (x : Q) :
  inbetween r x ->
  (shr_m r <= round_nearest_even (shr_m r) (loc_of_shr_record r) <= shr_m r + 1)%Z
  /\ x - (1 # 2) <= inject_Z (round_nearest_even (shr_m r) (loc_of_shr_record r))
  /\ inject_Z (round_nearest_even (shr_m r) (loc_of_shr_record r)) <= x + (1 # 2)
  /\ (shr_r r = false -> shr_s r = false ->
      inject_Z (round_nearest_even (shr_m r) (loc_of_shr_record r)) == x).
Proof.
  destruct r as [m [] []]; unfold inbetween;
    cbn [shr_m shr_r shr_s loc_of_shr_record round_nearest_even]; intros H;
    try destruct (Z.even m); rewrite ?inject_Z_plus;
    change (inject_Z 1) with 1;
    (split; [lia|]); (split; [lra|]); (split; [lra|]);
    intros H1 H2; try discriminate; lra.
Qed.

Lemma Zdigits2_le (m k : Z) : (0 <= m < 2 ^ k)%Z -> (0 <= k)%Z -> (Zdigits2 m <= k)%Z.
Proof.
  intros Hm Hk. destruct m as [|p|p]; [exact Hk| |lia].
  cbn [Zdigits2]. pose proof (digits2_pos_bound p) as Hd.
  assert (Hlt : (2 ^ (Zpos (digits2_pos p) - 1) < 2 ^ k)%Z) by lia.
  apply Z.pow_lt_mono_r_iff in Hlt; lia.
Qed.

Lemma Zdigits2_succ_le (m : Z) : (0 <= m)%Z -> inject_Z m + 1 <= pow2 (Zdigits2 m).
Proof.
  intros Hm. destruct m as [|p|p];
    [cbn [Zdigits2]; rewrite pow2_0; change (inject_Z 0) with 0; lra| |lia].
  cbn [Zdigits2]. rewrite pow2_Z by lia.
  change 1 with (inject_Z 1). rewrite <- inject_Z_plus.
  apply (proj1 (inject_Z_le _ _)). pose proof (digits2_pos_bound p). lia.
Qed.

Lemma fexp_ge (k : Z) : (k - 53 <= fexp 53 1024 k)%Z /\ (-1074 <= fexp 53 1024 k)%Z.
Proof. unfold fexp, emin. lia. Qed.

(** The first shift of [binary_round_aux]. *)
Lemma shr_fexp_first (mx ex : Z) (lx : location) (x : Q) :
  (0 <= mx)%Z -> inbetween (shr_record_of_loc mx lx) x ->
  exists r1 y,
    shr_fexp 53 1024 mx ex lx = (r1, Z.max ex (fexp 53 1024 (Zdigits2 mx + ex)))
    /\ inbetween r1 y /\ (0 <= shr_m r1)%Z
    /\ x * pow2 ex == y * pow2 (Z.max ex (fexp 53 1024 (Zdigits2 mx + ex)))
    /\ y < pow2 53
    /\ (Z.max ex (fexp 53 1024 (Zdigits2 mx + ex)) = ex ->
        r1 = shr_record_of_loc mx lx /\ y == x).
Proof.
  intros Hm Hx. unfold shr_fexp.
  pose proof (fexp_ge (Zdigits2 mx + ex)) as [Hf1 Hf2].
  pose proof (@Zdigits2_succ_le _ Hm) as Hd.
  pose proof (@inbetween_bounds _ _ Hx) as [Hx1 Hx2]. rewrite shr_m_of_loc in Hx1, Hx2.
  set (f := fexp 53 1024 (Zdigits2 mx + ex)) in *.
  destruct (f - ex)%Z as [|p|p] eqn:Hn; cbn [shr].
  - replace (Z.max ex f) with ex by lia.
    exists (shr_record_of_loc mx lx), x. split; [reflexivity|].
    split; [exact Hx|]. split; [rewrite shr_m_of_loc; exact Hm|].
    split; [reflexivity|]. split; [|intros _; split; reflexivity].
    assert (pow2 (Zdigits2 mx) <= pow2 53) by (apply pow2_le; lia). lra.
  - replace (Z.max ex f) with (ex + Zpos p)%Z by lia.
    destruct (@iter_shr_1_inbetween p (shr_record_of_loc mx lx) x) as (y & Hy & Ey & Hmy);
      [rewrite shr_m_of_loc; exact Hm | exact Hx |].
    exists (SpecFloat.iter_pos shr_1 p (shr_record_of_loc mx lx)), y.
    split; [reflexivity|]. split; [exact Hy|]. split; [exact Hmy|].
    split; [rewrite pow2_add, Ey; ring|]. split; [|intros; lia].
    assert (Hlt : y * pow2 (Zpos p) < pow2 53 * pow2 (Zpos p)).
    { rewrite <- Ey, <- pow2_add.
      assert (pow2 (Zdigits2 mx) <= pow2 (53 + Zpos p)) by (apply pow2_le; lia). lra. }
    apply Qmult_lt_r in Hlt; [exact Hlt | apply pow2_pos].
  - replace (Z.max ex f) with ex by lia.
    exists (shr_record_of_loc mx lx), x. split; [reflexivity|].
    split; [exact Hx|]. split; [rewrite shr_m_of_loc; exact Hm|].
    split; [reflexivity|]. split; [|intros _; split; reflexivity].
    assert (pow2 (Zdigits2 mx) <= pow2 53) by (apply pow2_le; lia). lra.
Qed.

(** The second shift, of the rounded mantissa: by one place when rounding
    carried to [2 ^ 53], by none otherwise. *)
Lemma shr_fexp_second (m e : Z) :
  (0 <= m <= 9007199254740992)%Z -> (-1074 <= e)%Z ->
  exists r2 e2,
    shr_fexp 53 1024 m e loc_Exact = (r2, e2)
    /\ (0 <= shr_m r2)%Z /\ (e2 <= e + 1)%Z
    /\ inject_Z (shr_m r2) * pow2 e2 == inject_Z m * pow2 e.
Proof.
  intros Hm He. unfold shr_fexp.
  destruct (Z.eq_dec m 9007199254740992) as [->|Hne].
  - change (Zdigits2 9007199254740992) with 54%Z.
    replace (fexp 53 1024 (54 + e) - e)%Z with 1%Z by (unfold fexp, emin; lia).
    exists {| shr_m := 4503599627370496; shr_r := false; shr_s := false |}, (e + 1)%Z.
    split; [reflexivity|]. cbn [shr_m]. split; [lia|]. split; [lia|].
    rewrite pow2_succ.
    change (inject_Z 4503599627370496) with (4503599627370496 # 1).
    change (inject_Z 9007199254740992) with (9007199254740992 # 1). lra.
  - assert (Hd : (Zdigits2 m <= 53)%Z) by (apply Zdigits2_le; lia).
    exists {| shr_m := m; shr_r := false; shr_s := false |}, e.
    cbn [shr_m shr_record_of_loc].
    split; [|split; [lia|split; [lia|reflexivity]]].
    destruct (fexp 53 1024 (Zdigits2 m + e) - e)%Z as [|p|p] eqn:Hn; cbn [shr];
      [reflexivity| |reflexivity].
    unfold fexp, emin in Hn. lia.
Qed.

(** One rounding: the result is a zero or a finite number of the given sign
    whose magnitude is within half a unit of the last place of the number
    rounded, and is that number when nothing was shifted out. *)
Lemma binary_round_aux_error (sx : bool) (mx ex : Z) (lx : location) (x : Q) :
  (0 <= mx)%Z -> inbetween (shr_record_of_loc mx lx) x ->
  (Z.max ex (fexp 53 1024 (Zdigits2 mx + ex)) <= 970)%Z ->
  exists R,
    rounds_to (binary_round_aux 53 1024 sx mx ex lx) sx R
    /\ x * pow2 ex - pow2 (Z.max ex (fexp 53 1024 (Zdigits2 mx + ex)) - 1) <= R
    /\ R <= x * pow2 ex + pow2 (Z.max ex (fexp 53 1024 (Zdigits2 mx + ex)) - 1)
    /\ (lx = loc_Exact -> Z.max ex (fexp 53 1024 (Zdigits2 mx + ex)) = ex ->
        R == x * pow2 ex).
Proof.
  intros Hm Hx He.
  destruct (@shr_fexp_first mx ex lx x Hm Hx) as (r1 & y & Hs1 & Hy & Hm1 & Exy & Hy53 & Hex).
  pose proof (fexp_ge (Zdigits2 mx + ex)) as [_ Hf2].
  set (e1 := Z.max ex (fexp 53 1024 (Zdigits2 mx + ex))) in *.
  destruct (@round_nearest_even_error _ _ Hy) as (Hmz & Hlo & Hhi & Hexact).
  pose proof (@inbetween_bounds _ _ Hy) as [Hy1 _].
  set (m' := round_nearest_even (shr_m r1) (loc_of_shr_record r1)) in *.
  assert (Hm53 : (shr_m r1 < 9007199254740992)%Z).
  { apply (proj2 (inject_Z_lt _ _)).
    change (inject_Z 9007199254740992) with (pow2 53). lra. }
  destruct (@shr_fexp_second m' e1) as (r2 & e2 & Hs2 & Hm2 & He2 & E2); [lia|lia|].
  unfold binary_round_aux. rewrite Hs1. fold m'. rewrite Hs2.
  exists (inject_Z m' * pow2 e1).
  pose proof (pow2_pos e1) as Hp. pose proof (pow2_pred e1) as Hpp.
  split; [|split; [|split]].
  - destruct (shr_m r2) as [|p|p] eqn:Hr2; [| |lia].
    + left. split; [reflexivity|]. rewrite <- E2.
      change (inject_Z 0) with 0. ring.
    + right. exists p, e2.
      replace (e2 <=? 1024 - 53)%Z with true by (symmetry; apply Z.leb_le; lia).
      split; [reflexivity|]. rewrite E2. reflexivity.
  - rewrite Exy. nra.
  - rewrite Exy. nra.
  - intros Hl He1. destruct (Hex He1) as [-> Eyx]. subst lx.
    rewrite Exy. cbn [shr_record_of_loc shr_r shr_s] in Hexact.
    rewrite (Hexact eq_refl eq_refl). reflexivity.
Qed.

Lemma pow2_lt_inv (a b : Z) : pow2 a < pow2 b -> (a < b)%Z.
Proof.
  intros H. destruct (Z.lt_ge_cases a b) as [Hlt|Hge]; [exact Hlt|].
  pose proof (pow2_le Hge). lra.
Qed.

(** Half a unit in the last place at the magnitude of [y], a number of
    magnitude at least [2 ^ (k - 1)]. *)
Lemma ulp_bound (k : Z) (y : Q) :
  pow2 (k - 1) <= y -> pow2 (fexp 53 1024 k - 1) <= y * pow2 (-53) + pow2 (-1075).
Proof.
  intros Hy. pose proof (pow2_pos (-53)) as Ha. pose proof (pow2_pos (-1075)) as Hb.
  pose proof (pow2_pos (k - 1)) as Hk.
  unfold fexp, emin. destruct (Z.max_spec (k - 53) (3 - 1024 - 53)) as [[_ ->]|[_ ->]].
  - change (3 - 1024 - 53 - 1)%Z with (-1075)%Z. nra.
  - replace (k - 53 - 1)%Z with (k - 1 + -53)%Z by ring. rewrite pow2_add. nra.
Qed.

(** One rounding, relative to the magnitude [V] of the number rounded: the
    error is at most [V * 2 ^ -53 + 2 ^ -1075], when the number comes
    exactly ([lx = loc_Exact]) or at an exponent not above the one of the
    format. *)
Lemma binary_round_aux_relative (sx : bool) (mx ex : Z) (lx : location) (x : Q) :
  (0 <= mx)%Z -> inbetween (shr_record_of_loc mx lx) x ->
  x * pow2 ex < pow2 31 ->
  (lx = loc_Exact /\ (0 < mx)%Z)
  \/ (exists k, (ex <= fexp 53 1024 k)%Z /\ pow2 (k - 1) <= x * pow2 ex) ->
  exists R,
    rounds_to (binary_round_aux 53 1024 sx mx ex lx) sx R
    /\ x * pow2 ex - (x * pow2 ex * pow2 (-53) + pow2 (-1075)) <= R
    /\ R <= x * pow2 ex + (x * pow2 ex * pow2 (-53) + pow2 (-1075)).
Proof.
  intros Hm Hx HV Hmode.
  pose proof (@inbetween_bounds _ _ Hx) as [Hx1 _]. rewrite shr_m_of_loc in Hx1.
  pose proof (pow2_pos ex) as Hpe.
  pose proof (pow2_pos (-53)) as Ha. pose proof (pow2_pos (-1075)) as Hb.
  assert (Hx0 : 0 <= x).
  { assert (0 <= inject_Z mx) by (apply (proj1 (inject_Z_le 0 mx)); exact Hm). lra. }
  assert (HV0 : 0 <= x * pow2 ex) by nra.
  (* the exponent of the format at the magnitude of the number *)
  assert (Hfd : (0 < mx)%Z ->
                pow2 (Zdigits2 mx + ex - 1) <= x * pow2 ex
                /\ (fexp 53 1024 (Zdigits2 mx + ex) <= -22)%Z).
  { intros Hpos. destruct mx as [|p|p]; [lia| |lia].
    pose proof (Zdigits2_lower p) as Hd.
    assert (Hlow : pow2 (Zdigits2 (Zpos p) + ex - 1) <= x * pow2 ex).
    { replace (Zdigits2 (Zpos p) + ex - 1)%Z with (Zdigits2 (Zpos p) - 1 + ex)%Z by ring.
      rewrite pow2_add. pose proof (pow2_pos (Zdigits2 (Zpos p) - 1)). nra. }
    split; [exact Hlow|].
    assert (Hlt : pow2 (Zdigits2 (Zpos p) + ex - 1) < pow2 31) by lra.
    apply pow2_lt_inv in Hlt. unfold fexp, emin. lia. }
  assert (Hex : (ex <= 30)%Z).
  { destruct Hmode as [[_ Hpos]|(k & Hk & Hlow)].
    - assert (Hlt : pow2 ex < pow2 31).
      { assert (1 <= inject_Z mx) by (apply (proj1 (inject_Z_le 1 mx)); lia). nra. }
      apply pow2_lt_inv in Hlt. lia.
    - assert (Hlt : pow2 (k - 1) < pow2 31) by lra.
      apply pow2_lt_inv in Hlt. unfold fexp, emin in Hk. lia. }
  assert (He1 : (Z.max ex (fexp 53 1024 (Zdigits2 mx + ex)) <= 970)%Z).
  { destruct (Z.eq_dec mx 0) as [->|Hne].
    - cbn [Zdigits2]. unfold fexp, emin. lia.
    - destruct Hfd as [_ Hf]; lia. }
  destruct (@binary_round_aux_error sx mx ex lx x Hm Hx He1) as (R & HR & Hlo & Hhi & Hexact).
  exists R. split; [exact HR|].
  destruct (Z.max_spec ex (fexp 53 1024 (Zdigits2 mx + ex))) as [[Hlt E1]|[Hge E1]];
    rewrite E1 in Hlo, Hhi, Hexact.
  - (* the number is shifted to the exponent of the format *)
    assert (Hu : pow2 (fexp 53 1024 (Zdigits2 mx + ex) - 1)
                 <= x * pow2 ex * pow2 (-53) + pow2 (-1075)).
    { destruct (Z.eq_dec mx 0) as [->|Hne].
      - cbn [Zdigits2] in *. replace (fexp 53 1024 (0 + ex)) with (-1074)%Z
          by (unfold fexp, emin in *; lia).
        change (-1074 - 1)%Z with (-1075)%Z. nra.
      - destruct Hfd as [Hlow _]; [lia|]. apply ulp_bound. exact Hlow. }
    split; lra.
  - destruct Hmode as [[Hl _]|(k & Hk & Hlow)].
    + rewrite (Hexact Hl eq_refl). split; nra.
    + assert (Hu : pow2 (ex - 1) <= x * pow2 ex * pow2 (-53) + pow2 (-1075)).
      { apply Qle_trans with (pow2 (fexp 53 1024 k - 1)); [apply pow2_le; lia|].
        apply ulp_bound. exact Hlow. }
      split; lra.
Qed.

(** *** The product *)

Lemma SFmul_error (sx sy : bool) (mx my : positive) (ex ey : Z) :
  inject_Z (Zpos mx) * pow2 ex * (inject_Z (Zpos my) * pow2 ey) < pow2 31 ->
  exists P,
    rounds_to (SFmul 53 1024 (S754_finite sx mx ex) (S754_finite sy my ey)) (xorb sx sy) P
    /\ inject_Z (Zpos mx) * pow2 ex * (inject_Z (Zpos my) * pow2 ey)
       - (inject_Z (Zpos mx) * pow2 ex * (inject_Z (Zpos my) * pow2 ey) * pow2 (-53)
          + pow2 (-1075)) <= P
    /\ P <= inject_Z (Zpos mx) * pow2 ex * (inject_Z (Zpos my) * pow2 ey)
            + (inject_Z (Zpos mx) * pow2 ex * (inject_Z (Zpos my) * pow2 ey) * pow2 (-53)
               + pow2 (-1075)).
Proof.
  intros HV. cbn [SFmul].
  assert (EV : inject_Z (Zpos (mx * my)) * pow2 (ex + ey)
               == inject_Z (Zpos mx) * pow2 ex * (inject_Z (Zpos my) * pow2 ey)).
  { rewrite Pos2Z.inj_mul, inject_Z_mult, pow2_add. ring. }
  destruct (@binary_round_aux_relative (xorb sx sy) (Zpos (mx * my)) (ex + ey) loc_Exact
              (inject_Z (Zpos (mx * my)))) as (P & HP & Hlo & Hhi).
  - lia.
  - unfold inbetween. cbn [shr_record_of_loc shr_m shr_r shr_s]. reflexivity.
  - rewrite EV. exact HV.
  - left. split; [reflexivity|lia].
  - exists P. split; [exact HP|]. rewrite EV in Hlo, Hhi. split; [exact Hlo|exact Hhi].
Qed.

(** *** The quotient *)

Lemma div_cmp (t M R c : Q) :
  0 < M -> t * M == R ->
  (R < c * M -> t < c) /\ (c * M < R -> c < t) /\ (R == c * M -> t == c).
Proof.
  intros HM Ht. repeat split; intros H.
  - apply (proj1 (Qmult_lt_r t c M HM)). rewrite Ht. exact H.
  - apply (proj1 (Qmult_lt_r c t M HM)). rewrite Ht. exact H.
  - apply (proj1 (@Qmult_inj_r t c M ltac:(lra))). rewrite Ht. exact H.
Qed.

(** The location of a remainder [r] of a division by [m2] is the place of
    [r / m2] in the unit interval. *)
Lemma new_location_inbetween (m2 q r : Z) :
  (0 <= r < m2)%Z ->
  inbetween (shr_record_of_loc q (new_location m2 r))
            (inject_Z q + inject_Z r / inject_Z m2).
Proof.
  intros Hr.
  assert (HM : 0 < inject_Z m2) by (apply (proj1 (inject_Z_lt 0 m2)); lia).
  assert (Ht : inject_Z r / inject_Z m2 * inject_Z m2 == inject_Z r) by (field; lra).
  destruct (@div_cmp _ _ _ 0 HM Ht) as (_ & H0 & E0).
  destruct (@div_cmp _ _ _ (1 # 2) HM Ht) as (Hlt & Hgt & Heq).
  destruct (@div_cmp _ _ _ 1 HM Ht) as (H1 & _ & _).
  assert (Hr1 : inject_Z r / inject_Z m2 < 1).
  { apply H1. assert (inject_Z r < inject_Z m2) by (apply (proj1 (inject_Z_lt r m2)); lia).
    lra. }
  assert (Q2 : forall a b : Z, (2 * a < b)%Z -> inject_Z a < (1 # 2) * inject_Z b).
  { intros a b Hab. apply (proj1 (inject_Z_lt _ _)) in Hab.
    rewrite inject_Z_mult in Hab. change (inject_Z 2) with 2 in Hab. lra. }
  assert (Q3 : forall a b : Z, (b < 2 * a)%Z -> (1 # 2) * inject_Z b < inject_Z a).
  { intros a b Hab. apply (proj1 (inject_Z_lt _ _)) in Hab.
    rewrite inject_Z_mult in Hab. change (inject_Z 2) with 2 in Hab. lra. }
  set (t := inject_Z r / inject_Z m2) in *.
  unfold new_location.
  destruct (Z.eqb_spec r 0) as [Hz|Hnz].
  - assert (Et : t == 0).
    { apply E0. rewrite Hz. change (inject_Z 0) with 0. ring. }
    assert (Hloc : (if Z.even m2 then new_location_even m2 else new_location_odd m2) r
                   = loc_Exact).
    { rewrite Hz. destruct (Z.even m2); reflexivity. }
    rewrite Hloc. unfold inbetween. cbn [shr_record_of_loc shr_m shr_r shr_s]. lra.
  - assert (Hrp : (0 < r)%Z) by lia.
    assert (Htp : 0 < t).
    { apply H0. apply (proj1 (inject_Z_lt 0 r)) in Hrp. change (inject_Z 0) with 0 in Hrp.
      lra. }
    destruct (Z.even m2) eqn:Hev.
    + unfold new_location_even. destruct (Z.eqb_spec r 0) as [|_]; [contradiction|].
      destruct (Z.compare_spec (2 * r) m2) as [Hc|Hc|Hc];
        unfold inbetween; cbn [shr_record_of_loc shr_m shr_r shr_s].
      * assert (Et : t == 1 # 2).
        { apply Heq. rewrite <- Hc, inject_Z_mult. change (inject_Z 2) with 2. ring. }
        lra.
      * pose proof (Hlt (Q2 _ _ Hc)). lra.
      * pose proof (Hgt (Q3 _ _ Hc)). lra.
    + unfold new_location_odd. destruct (Z.eqb_spec r 0) as [|_]; [contradiction|].
      assert (Hodd : Z.odd m2 = true) by (rewrite <- Z.negb_even, Hev; reflexivity).
      apply Z.odd_spec in Hodd. destruct Hodd as [k Hk].
      destruct (Z.compare_spec (2 * r + 1) m2) as [Hc|Hc|Hc];
        unfold inbetween; cbn [shr_record_of_loc shr_m shr_r shr_s].
      * assert (H2 : (2 * r < m2)%Z) by lia. pose proof (Hlt (Q2 _ _ H2)). lra.
      * assert (H2 : (2 * r < m2)%Z) by lia. pose proof (Hlt (Q2 _ _ H2)). lra.
      * assert (H2 : (m2 < 2 * r)%Z) by lia. pose proof (Hgt (Q3 _ _ H2)). lra.
Qed.

(** The quotient of two mantissas before rounding. *)
Lemma SFdiv_core_binary_inbetween (m1 m2 : positive) (e1 e2 : Z) :
  exists q l x,
    SFdiv_core_binary 53 1024 (Zpos m1) e1 (Zpos m2) e2
    = (q,
       Z.min (fexp 53 1024 (Zdigits2 (Zpos m1) + e1 - (Zdigits2 (Zpos m2) + e2))) (e1 - e2),
       l)
    /\ (0 <= q)%Z
    /\ inbetween (shr_record_of_loc q l) x
    /\ x * pow2 (Z.min (fexp 53 1024 (Zdigits2 (Zpos m1) + e1 - (Zdigits2 (Zpos m2) + e2)))
                       (e1 - e2))
       * (inject_Z (Zpos m2) * pow2 e2)
       == inject_Z (Zpos m1) * pow2 e1.
Proof.
  unfold SFdiv_core_binary. cbv zeta.
  set (e' := Z.min (fexp 53 1024 (Zdigits2 (Zpos m1) + e1 - (Zdigits2 (Zpos m2) + e2)))
                   (e1 - e2)).
  assert (Hs : (0 <= e1 - e2 - e')%Z) by (unfold e'; lia).
  set (m' := match (e1 - e2 - e')%Z with
             | Z0 => Zpos m1
             | Zpos _ => Z.shiftl (Zpos m1) (e1 - e2 - e')
             | Zneg _ => 0%Z
             end).
  assert (Em : m' = (Zpos m1 * 2 ^ (e1 - e2 - e'))%Z).
  { unfold m'. destruct (e1 - e2 - e')%Z as [|p|p] eqn:Hse.
    - rewrite Z.pow_0_r. lia.
    - rewrite Z.shiftl_mul_pow2 by lia. reflexivity.
    - lia. }
  pose proof (Z_div_mod m' (Zpos m2) ltac:(lia)) as Hdm.
  destruct (Z.div_eucl m' (Zpos m2)) as [q r]. destruct Hdm as [Hq Hr].
  assert (Hm0 : (0 <= m')%Z).
  { rewrite Em. apply Z.mul_nonneg_nonneg; [lia|]. apply Z.pow_nonneg. lia. }
  assert (Hq0 : (0 <= q)%Z) by nia.
  exists q, (new_location (Zpos m2) r), (inject_Z q + inject_Z r / inject_Z (Zpos m2)).
  split; [reflexivity|]. split; [exact Hq0|].
  split; [apply new_location_inbetween; lia|].
  assert (HM : 0 < inject_Z (Zpos m2)) by (apply (proj1 (inject_Z_lt 0 (Zpos m2))); lia).
  assert (Ex : (inject_Z q + inject_Z r / inject_Z (Zpos m2)) * inject_Z (Zpos m2)
               == inject_Z (Zpos m1) * pow2 (e1 - e2 - e')).
  { rewrite pow2_Z by exact Hs. rewrite <- inject_Z_mult, <- Em, Hq.
    rewrite inject_Z_plus, inject_Z_mult. field. lra. }
  assert (Ee : pow2 e1 == pow2 (e1 - e2 - e') * pow2 e' * pow2 e2).
  { rewrite <- !pow2_add. replace (e1 - e2 - e' + e' + e2)%Z with e1 by ring. reflexivity. }
  rewrite Ee.
  transitivity ((inject_Z q + inject_Z r / inject_Z (Zpos m2)) * inject_Z (Zpos m2)
                * (pow2 e' * pow2 e2)); [ring|].
  rewrite Ex. ring.
Qed.

Lemma SFdiv_error (sx sy : bool) (mx my : positive) (ex ey : Z) (v : Q) :
  v * (inject_Z (Zpos my) * pow2 ey) == inject_Z (Zpos mx) * pow2 ex ->
  v < pow2 31 ->
  exists R,
    rounds_to (SFdiv 53 1024 (S754_finite sx mx ex) (S754_finite sy my ey)) (xorb sx sy) R
    /\ v - (v * pow2 (-53) + pow2 (-1075)) <= R
    /\ R <= v + (v * pow2 (-53) + pow2 (-1075)).
Proof.
  intros Hv Hv31. cbn [SFdiv].
  destruct (SFdiv_core_binary_inbetween mx my ex ey) as (q & l & x & Hcore & Hq & Hx & Ex).
  rewrite Hcore.
  set (k := (Zdigits2 (Zpos mx) + ex - (Zdigits2 (Zpos my) + ey))%Z) in *.
  set (e' := Z.min (fexp 53 1024 k) (ex - ey)) in *.
  pose proof (pow2_pos ey) as Hpy. pose proof (pow2_pos ex) as Hpx.
  pose proof (inject_Z_pos my) as Hmy. pose proof (inject_Z_pos mx) as Hmx.
  assert (HK : 0 < inject_Z (Zpos my) * pow2 ey) by nra.
  assert (Ev : x * pow2 e' == v).
  { apply (proj1 (@Qmult_inj_r (x * pow2 e') v (inject_Z (Zpos my) * pow2 ey) ltac:(lra))).
    rewrite Ex, Hv. reflexivity. }
  assert (Hlow : pow2 (k - 1) <= v).
  { pose proof (Zdigits2_lower mx) as Hd1.
    pose proof (@Zdigits2_upper (Zpos my) ltac:(lia)) as Hd2.
    pose proof (pow2_pos (Zdigits2 (Zpos mx) - 1)) as Hp1.
    pose proof (pow2_pos (Zdigits2 (Zpos my))) as Hp2.
    pose proof (pow2_pos (k - 1)) as Hp3.
    assert (E : pow2 (k - 1) * (pow2 (Zdigits2 (Zpos my)) * pow2 ey)
                == pow2 (Zdigits2 (Zpos mx) - 1) * pow2 ex).
    { rewrite <- !pow2_add. unfold k.
      replace (Zdigits2 (Zpos mx) + ex - (Zdigits2 (Zpos my) + ey) - 1
               + (Zdigits2 (Zpos my) + ey))%Z
        with (Zdigits2 (Zpos mx) - 1 + ex)%Z by ring.
      reflexivity. }
    assert (HW : 0 < pow2 (Zdigits2 (Zpos my)) * pow2 ey) by nra.
    assert (Hv0 : 0 <= v).
    { apply Qnot_lt_le. intros Hc.
      assert (v * (inject_Z (Zpos my) * pow2 ey) < 0) by nra. nra. }
    assert (HKW : inject_Z (Zpos my) * pow2 ey <= pow2 (Zdigits2 (Zpos my)) * pow2 ey)
      by nra.
    assert (H1 : pow2 (Zdigits2 (Zpos mx) - 1) * pow2 ex <= inject_Z (Zpos mx) * pow2 ex)
      by nra.
    set (K := inject_Z (Zpos my) * pow2 ey) in *.
    set (W := pow2 (Zdigits2 (Zpos my)) * pow2 ey) in *.
    apply Qnot_lt_le. intros Hc.
    assert (v * K <= v * W) by nra.
    assert (v * W < pow2 (k - 1) * W) by nra.
    lra. }
  destruct (@binary_round_aux_relative (xorb sx sy) q e' l x Hq Hx) as (R & HR & Hlo & Hhi).
  - rewrite Ev. exact Hv31.
  - right. exists k. split; [unfold e'; lia|]. rewrite Ev. exact Hlow.
  - exists R. split; [exact HR|]. rewrite Ev in Hlo, Hhi. split; [exact Hlo|exact Hhi].
Qed.

(** *** Values and the comparison against a fraction *)

Lemma frac_of_value (m : positive) (e : Z) :
  (0 < snd (Num.frac_of m e))%Z
  /\ inject_Z (fst (Num.frac_of m e))
     == inject_Z (Zpos m) * pow2 e * inject_Z (snd (Num.frac_of m e)).
Proof.
  unfold Num.frac_of. destruct (Z.leb_spec 0 e) as [He|He]; cbn [fst snd].
  - split; [lia|]. rewrite inject_Z_mult, pow2_Z by lia.
    change (inject_Z 1) with 1. ring.
  - split; [apply Z.pow_pos_nonneg; lia|].
    rewrite <- pow2_Z by lia. rewrite <- Qmult_assoc, <- pow2_add.
    replace (e + - e)%Z with 0%Z by ring. rewrite pow2_0. ring.
Qed.

Lemma exactValue_value (x : number) (a b : Z) :
  exactValue x = Some (a, b) -> (0 < b)%Z /\ inject_Z a == value x * inject_Z b.
Proof.
  destruct x as [s| | |s m e]; cbn [exactValue value]; try discriminate.
  - intros H. injection H as <- <-. split; [lia|]. change (inject_Z 0) with 0. ring.
  - pose proof (frac_of_value m e) as [Hb Ha].
    destruct (Num.frac_of m e) as [a0 b0]. cbn [fst snd] in Hb, Ha.
    intros H. injection H as <- <-. split; [exact Hb|].
    destruct s; [rewrite inject_Z_opp, Ha; ring | exact Ha].
Qed.

Lemma rounds_to_value (f : number) (s : bool) (R : Q) :
  rounds_to f s R ->
  (exists a b, exactValue f = Some (a, b)) /\ value f == (if s then - R else R).
Proof.
  intros [[-> ER]|(m & e & -> & ER)]; cbn [exactValue value].
  - split; [exists 0%Z, 1%Z; reflexivity|]. destruct s; rewrite ER; ring.
  - split; [destruct (Num.frac_of m e) as [a0 b0]; eexists _, _; reflexivity|].
    destruct s; rewrite ER; reflexivity.
Qed.

Lemma within_1e9_of_value (x : number) (num den : Z) :
  (exists a b, exactValue x = Some (a, b)) -> (0 < den)%Z ->
  value x * inject_Z den - inject_Z num <= (1 # 1000000000) * inject_Z den ->
  inject_Z num - value x * inject_Z den <= (1 # 1000000000) * inject_Z den ->
  within_1e9 x num den = true.
Proof.
  intros (a & b & Hx) Hden H1 H2. unfold within_1e9. rewrite Hx.
  destruct (exactValue_value _ Hx) as [Hb Ea].
  assert (HB : 0 < inject_Z b).
  { apply (proj1 (inject_Z_lt 0 b)). exact Hb. }
  apply Z.leb_le.
  assert (G1 : (a * den * 1000000000 <= b * den + num * b * 1000000000)%Z).
  { apply (proj2 (inject_Z_le _ _)).
    rewrite inject_Z_plus, !inject_Z_mult, Ea.
    change (inject_Z 1000000000) with 1000000000. nra. }
  assert (G2 : (num * b * 1000000000 <= b * den + a * den * 1000000000)%Z).
  { apply (proj2 (inject_Z_le _ _)).
    rewrite inject_Z_plus, !inject_Z_mult, Ea.
    change (inject_Z 1000000000) with 1000000000. nra. }
  lia.
Qed.

(** *** The avoided emissions *)

Lemma thousand : Number "1000" = S754_finite false 8796093022208000 (-43).
Proof. vm_compute. reflexivity. Qed.

Lemma avoidedTco2e_finite (sE sB : bool) (mE mB : positive) (eE eB : Z) :
  inject_Z (Zpos mE) * pow2 eE * (inject_Z (Zpos mB) * pow2 eB) <= 1000000000 ->
  exists R,
    rounds_to (avoidedTco2e (S754_finite sE mE eE) (S754_finite sB mB eB)) (xorb sE sB) R
    /\ inject_Z (Zpos mE) * pow2 eE * (inject_Z (Zpos mB) * pow2 eB) * (1 # 1000)
       - (1 # 1000000000) <= R
    /\ R <= inject_Z (Zpos mE) * pow2 eE * (inject_Z (Zpos mB) * pow2 eB) * (1 # 1000)
            + (1 # 1000000000).
Proof.
  intros HV. unfold avoidedTco2e, Num.mul, Num.div, Num.prec, Num.emax. rewrite thousand.
  assert (E31 : pow2 31 == 2147483648) by reflexivity.
  assert (Ea : pow2 (-53) == 1 # 9007199254740992) by reflexivity.
  assert (Hb : pow2 (-1075) <= pow2 (-53)) by (apply pow2_le; lia).
  pose proof (pow2_pos (-1075)) as Hb0.
  assert (EK : inject_Z 8796093022208000 * pow2 (-43) == 1000) by reflexivity.
  assert (HV0 : 0 < inject_Z (Zpos mE) * pow2 eE * (inject_Z (Zpos mB) * pow2 eB)).
  { pose proof (inject_Z_pos mE). pose proof (inject_Z_pos mB).
    pose proof (pow2_pos eE). pose proof (pow2_pos eB).
    apply Qmult_lt_0_compat; nra. }
  set (V := inject_Z (Zpos mE) * pow2 eE * (inject_Z (Zpos mB) * pow2 eB)) in *.
  destruct (@SFmul_error sE sB mE mB eE eB) as (P & HP & Plo & Phi);
    [fold V; rewrite E31; lra|].
  fold V in Plo, Phi. rewrite Ea in Plo, Phi. rewrite Ea in Hb.
  set (b := pow2 (-1075)) in *.
  destruct HP as [[-> EP]|(m & e & -> & EP)].
  - cbn [SFdiv]. rewrite xorb_false_r. exists 0.
    split; [left; split; reflexivity|]. lra.
  - destruct (@SFdiv_error (xorb sE sB) false m 8796093022208000 e (-43) (P * (1 # 1000)))
      as (R & HR & Rlo & Rhi).
    + rewrite EK, <- EP. ring.
    + rewrite E31. lra.
    + rewrite xorb_false_r in HR. exists R. split; [exact HR|].
      fold b in Rlo, Rhi. rewrite Ea in Rlo, Rhi. lra.
Qed.

(** The binary64 value of [(E * B) / 1000] is within 1e-9 of the exact
    quotient when [|E * B|] is at most [10 ^ 9]. *)
Lemma avoidedTco2e_within_1e9 (E B : number) (ne de nb db : Z) :
  exactValue E = Some (ne, de) -> exactValue B = Some (nb, db) ->
  (Z.abs (ne * nb) <= 1000000000 * (de * db))%Z ->
  within_1e9 (avoidedTco2e E B) (ne * nb) (de * db * 1000) = true.
Proof.
  intros HE HB Hle.
  destruct (exactValue_value _ HE) as [Hde Ene].
  destruct (exactValue_value _ HB) as [Hdb Enb].
  assert (Hzero : forall s, within_1e9 (S754_zero s) 0 (de * db * 1000) = true).
  { intros s. unfold within_1e9. cbn [exactValue]. apply Z.leb_le. lia. }
  destruct E as [sE| | |sE mE eE]; try discriminate;
    destruct B as [sB| | |sB mB eB]; try discriminate.
  - cbn [exactValue] in HE. injection HE as <- <-.
    unfold avoidedTco2e, Num.mul, Num.div. rewrite thousand. cbn [SFmul SFdiv].
    apply Hzero.
  - cbn [exactValue] in HE. injection HE as <- <-.
    unfold avoidedTco2e, Num.mul, Num.div. rewrite thousand. cbn [SFmul SFdiv].
    apply Hzero.
  - cbn [exactValue] in HB. injection HB as <- <-.
    unfold avoidedTco2e, Num.mul, Num.div. rewrite thousand. cbn [SFmul SFdiv].
    rewrite Z.mul_0_r. apply Hzero.
  - assert (HDe : 0 < inject_Z de) by (apply (proj1 (inject_Z_lt 0 de)); exact Hde).
    assert (HDb : 0 < inject_Z db) by (apply (proj1 (inject_Z_lt 0 db)); exact Hdb).
    assert (HD : 0 < inject_Z de * inject_Z db) by (apply Qmult_lt_0_compat; assumption).
    assert (L1 : inject_Z ne * inject_Z nb <= 1000000000 * (inject_Z de * inject_Z db)).
    { assert (Hz : (ne * nb <= 1000000000 * (de * db))%Z) by lia.
      apply (proj1 (inject_Z_le _ _)) in Hz. rewrite !inject_Z_mult in Hz.
      change (inject_Z 1000000000) with 1000000000 in Hz. exact Hz. }
    assert (L2 : - (inject_Z ne * inject_Z nb) <= 1000000000 * (inject_Z de * inject_Z db)).
    { assert (Hz : (- (ne * nb) <= 1000000000 * (de * db))%Z) by lia.
      apply (proj1 (inject_Z_le _ _)) in Hz.
      rewrite inject_Z_opp, !inject_Z_mult in Hz.
      change (inject_Z 1000000000) with 1000000000 in Hz. exact Hz. }
    rewrite Ene, Enb in L1, L2. cbn [value] in L1, L2, Ene, Enb.
    set (ME := inject_Z (Zpos mE) * pow2 eE) in *.
    set (MB := inject_Z (Zpos mB) * pow2 eB) in *.
    assert (HV : ME * MB <= 1000000000).
    { apply (proj1 (Qmult_le_r (ME * MB) 1000000000 _ HD)).
      destruct sE, sB; lra. }
    destruct (@avoidedTco2e_finite sE sB mE mB eE eB HV) as (R & HR & Rlo & Rhi).
    fold ME MB in Rlo, Rhi.
    destruct (rounds_to_value HR) as [Hfin EvR].
    assert (T1 : (R - ME * MB * (1 # 1000) - (1 # 1000000000))
                 * (inject_Z de * inject_Z db) <= 0) by nra.
    assert (T2 : 0 <= (R - ME * MB * (1 # 1000) + (1 # 1000000000))
                      * (inject_Z de * inject_Z db)) by nra.
    apply within_1e9_of_value; [exact Hfin | lia | |];
      rewrite EvR, !inject_Z_mult, Ene, Enb;
      change (inject_Z 1000) with 1000;
      destruct sE, sB; cbn [xorb]; lra.
Qed.

End RoundingFacts.

(** C5. Daily aggregation of a known site over a day with records returns,
    and stores in the digest, the sum [E] of the present energy values as
    [energyKWh] and [(E * B) / 1000], evaluated in binary64 with the site's
    baseline [B], as [avoidedTco2e]. That number is within 1e-9 of the exact
    quotient whenever [|E * B|] is at most [10 ^ 9], a million tonnes. In
    particular, when the energies of the day are 1.00, 2.00, 3.00 kWh and
    the baseline is 0.708 kg/kWh, the digest carries [energyKWh] = 6.00
    exactly and an [avoidedTco2e] within 1e-9 of 0.004248. *)
Theorem aggregateDaily_avoided_emissions
  (w : World) (siteId : string) (dayUtc : Date.t) (gte lte : Z) (s : Site)
  (Hstart : getDayStart dayUtc = Some gte)
  (Hend : getDayEnd dayUtc = Some lte)
  (Hsite : site_findUnique (db w) siteId = Some s)
  (Hrecs : rawTelemetry_findMany (db w) siteId gte lte <> []) :
  exists r w' g,
    aggregateDaily siteId dayUtc w = (inr (Some r), w')
    /\ dailyDigest_findUnique (db w') siteId gte = Some g
    /\ a_energyKWh r = d_energyKWh g
    /\ a_avoidedTco2e r = d_avoidedTco2e g
    /\ d_energyKWh g
       = sum (present (map t_acEnergyKWh (rawTelemetry_findMany (db w) siteId gte lte)))
    /\ d_avoidedTco2e g
       = Num.div (Num.mul (d_energyKWh g) (s_baselineKgPerKWh s)) (Number "1000")
    /\ (forall ne de nb db_ : Z,
          exactValue (d_energyKWh g) = Some (ne, de) ->
          exactValue (s_baselineKgPerKWh s) = Some (nb, db_) ->
          (Z.abs (ne * nb) <= 1000000000 * (de * db_))%Z ->
          within_1e9 (d_avoidedTco2e g) (ne * nb) (de * db_ * 1000) = true)
    /\ (present (map t_acEnergyKWh (rawTelemetry_findMany (db w) siteId gte lte))
        = [Number "1.00"; Number "2.00"; Number "3.00"] ->
        s_baselineKgPerKWh s = Number "0.708" ->
        d_energyKWh g = Number "6.00"
        /\ within_1e9 (d_avoidedTco2e g) 4248 1000000 = true).
Proof.
  rewrite (@aggregateDaily_cases w siteId dayUtc gte lte Hstart Hend), Hsite.
  cbv zeta.
  destruct (rawTelemetry_findMany (db w) siteId gte lte) as [|r0 rs] eqn:Hr;
    [congruence|].
  destruct (@generateMerkleRoot_defined (map t_rowHash (r0 :: rs))) as [root Hroot];
    [discriminate|].
  rewrite Hroot.
  set (E := sum (present (map t_acEnergyKWh (r0 :: rs)))).
  destruct (dailyDigest_upsert_found (db w) siteId gte E
              (avoidedTco2e E (s_baselineKgPerKWh s)) (List.length (r0 :: rs)) root)
    as (g & Hg & _ & _ & He & Ha & _).
  eexists _, _, g. cbn [db a_energyKWh a_avoidedTco2e].
  split; [reflexivity|]. split; [exact Hg|].
  rewrite He, Ha. do 4 (split; [reflexivity|]).
  split.
  - intros ne de nb db_ HE HB Hle.
    exact (@RoundingFacts.avoidedTco2e_within_1e9 E (s_baselineKgPerKWh s)
             ne de nb db_ HE HB Hle).
  - intros Hvals Hbase. subst E. rewrite Hvals, Hbase.
    vm_compute. split; reflexivity.
Qed.

Lemma aggregateDaily_avoided_emissions_witness :
  exists r w' g,
    aggregateDaily "PRJ001" (parseDate "2024-01-15") (dayWorld unreachableAdapter)
    = (inr (Some r), w')
    /\ dailyDigest_findUnique (db w') "PRJ001" 1705276800000%Z = Some g
    /\ d_energyKWh g = Number "6.00"
    /\ within_1e9 (d_avoidedTco2e g) 4248 1000000 = true.
Proof.
  destruct (@aggregateDaily_avoided_emissions
              (dayWorld unreachableAdapter) "PRJ001" (parseDate "2024-01-15")
              1705276800000%Z 1705363199999%Z PRJ001
              ltac:(vm_compute; reflexivity) ltac:(vm_compute; reflexivity)
              ltac:(vm_compute; reflexivity) ltac:(vm_compute; discriminate))
    as (r & w' & g & Hrun & Hg & _ & _ & _ & _ & _ & Hday).
  exists r, w', g. split; [exact Hrun|]. split; [exact Hg|].
  apply Hday; vm_compute; reflexivity.
Defined.

(** Beyond that range the tolerance can fail. With three readings of
    800 kWh and a baseline of 1000000000.5 kg/kWh the digest carries
    2400 kWh and the number nearest to 2400000001.2, which is more than
    1e-9 away from it: numbers of that size are 2 ^ -21 apart. *)
Lemma avoided_emissions_beyond_tolerance :
  exists r w' g,
    aggregateDaily "PRJ001" (parseDate "2024-01-15") heavyWorld = (inr (Some r), w')
    /\ dailyDigest_findUnique (db w') "PRJ001" 1705276800000%Z = Some g
    /\ d_energyKWh g = Number "2400"
    /\ d_avoidedTco2e g = avoidedTco2e (Number "2400") (Number "1000000000.5")
    /\ d_avoidedTco2e g = Number "2400000001.2"
    /\ exactValue (d_avoidedTco2e g) = Some (5033164802516582, 2097152)%Z
    /\ within_1e9 (d_avoidedTco2e g) 24000000012 10 = false.
Proof.
  destruct (aggregateDaily "PRJ001" (parseDate "2024-01-15") heavyWorld) as [res w']
    eqn:Hrun.
  vm_compute in Hrun.
  injection Hrun as <- <-.
  eexists _, _, _. split; [reflexivity|].
  split; [vm_compute; reflexivity|].
  vm_compute. repeat split.
Qed.

(** The avoided emissions of that day are one unit in the last place below
    the number 0.004248: the digest prints 0.004247999999999999. *)
Example avoidedTco2e_of_the_day :
  Num.toString (avoidedTco2e (Number "6.00") (Number "0.708")) = "0.004247999999999999"
  /\ avoidedTco2e (Number "6.00") (Number "0.708") <> Number "0.004248".
Proof. split; vm_compute; [reflexivity | discriminate]. Qed.

(** C10. For the empty list of row hashes the constructor succeeds with the
    single empty level, [getRoot] reads the first entry of that empty level
    and has no value to return, so [generateMerkleRoot []] is no digest;
    any list with a leaf has a root. [aggregateDaily] does not reach the tree
    in that case: with no record in the period it returns the no-record
    sentinel, and whenever it does build the tree the root is defined. *)
Theorem generateMerkleRoot_empty_guarded
  (w : World) (siteId : string) (dayUtc : Date.t) (gte lte : Z) (s : Site)
  (Hstart : getDayStart dayUtc = Some gte)
  (Hend : getDayEnd dayUtc = Some lte)
  (Hsite : site_findUnique (db w) siteId = Some s) :
  buildMerkleTree [] = {| leaves := []; tree := [[]] |}
  /\ generateMerkleRoot [] = None
  /\ (forall rowHashes, rowHashes <> [] -> generateMerkleRoot rowHashes <> None)
  /\ (rawTelemetry_findMany (db w) siteId gte lte = [] ->
      aggregateDaily siteId dayUtc w = (inr None, w))
  /\ (rawTelemetry_findMany (db w) siteId gte lte <> [] ->
      exists r w', aggregateDaily siteId dayUtc w = (inr (Some r), w')
                   /\ generateMerkleRoot
                        (map t_rowHash (rawTelemetry_findMany (db w) siteId gte lte))
                      = Some (a_merkleRoot r)).
Proof.
  repeat split.
  - intros rowHashes Hne. destruct (generateMerkleRoot_defined Hne) as [root ->].
    discriminate.
  - intros Hrecs.
    rewrite (@aggregateDaily_cases w siteId dayUtc gte lte Hstart Hend), Hsite.
    cbv zeta. rewrite Hrecs. reflexivity.
  - intros Hrecs.
    rewrite (@aggregateDaily_cases w siteId dayUtc gte lte Hstart Hend), Hsite.
    cbv zeta.
    destruct (rawTelemetry_findMany (db w) siteId gte lte) as [|r0 rs]; [congruence|].
    destruct (@generateMerkleRoot_defined (map t_rowHash (r0 :: rs))) as [root Hroot];
      [discriminate|].
    rewrite Hroot. eexists _, _. split; reflexivity.
Qed.

Lemma generateMerkleRoot_empty_guarded_witness :
  generateMerkleRoot [] = None
  /\ aggregateDaily "PRJ001" (parseDate "2024-01-16") (dayWorld unreachableAdapter)
     = (inr None, dayWorld unreachableAdapter).
Proof.
  pose proof (@generateMerkleRoot_empty_guarded
                (dayWorld unreachableAdapter) "PRJ001" (parseDate "2024-01-16")
                1705363200000%Z 1705449599999%Z PRJ001
                ltac:(vm_compute; reflexivity) ltac:(vm_compute; reflexivity)
                ltac:(vm_compute; reflexivity)) as (_ & Hroot & _ & Hguard & _).
  split; [exact Hroot | apply Hguard; vm_compute; reflexivity].
Defined.

(** ** Anchoring *)

Section AnchorFacts.

Variable env : Env.

Lemma length_snoc {A} (l : list A) (x : A) : List.length (l ++ [x])%list = S (List.length l).
Proof. rewrite length_app. simpl. lia. Qed.

(** The retry loop on the submission, read off the adapter's answers: it
    sends one request per attempt, sleeps [baseDelay * 2 ^ attempt] after
    every failed attempt but the last, and returns what the last answer
    makes of it. *)
Lemma retryLoop_submitOnce (payload : AnchorPayload) (baseDelay : Z) (remaining : nat) :
  forall (attempt : nat) (w : World),
    retryLoop (submitOnce env payload) baseDelay remaining attempt w
    = (submitResult
         (adapter w (List.length (requests w)
                     + failedAttempts (adapter w) (List.length (requests w)) remaining)),
       {| db := db w;
          adapter := adapter w;
          requests :=
            (requests w
             ++ repeat {| q_url := or_empty (ADAPTER_API_URL env) ++ "/v1/anchor";
                          q_authorization := "Bearer " ++ or_empty (ADAPTER_API_KEY env);
                          q_body := payload |}
                       (S (failedAttempts (adapter w) (List.length (requests w)) remaining)))%list;
          sleeps :=
            (sleeps w
             ++ backoffDelays baseDelay attempt
                  (failedAttempts (adapter w) (List.length (requests w)) remaining))%list |}).
Proof.
  induction remaining as [|r IH]; intros attempt w.
  - cbn [retryLoop failedAttempts backoffDelays seq map repeat].
    rewrite Nat.add_0_r, app_nil_r.
    unfold submitOnce, mbind, fetch, mthrow, mret, submitResult.
    destruct (adapter w (List.length (requests w))) as [msg|ok st txt js]; [reflexivity|].
    destruct ok; reflexivity.
  - cbn [retryLoop failedAttempts].
    unfold submitOnce at 1. unfold mbind, fetch, mthrow, mret, sleep.
    destruct (adapter w (List.length (requests w))) as [msg|ok st txt js] eqn:Hout;
      cbn [failing negb].
    + rewrite IH. cbn [db adapter requests sleeps].
      rewrite length_snoc, Nat.add_succ_r. cbn [Nat.add].
      rewrite <- !app_assoc. reflexivity.
    + destruct ok; cbn [negb].
      * rewrite Nat.add_0_r, Hout. cbn [backoffDelays seq map repeat].
        rewrite app_nil_r. reflexivity.
      * rewrite IH. cbn [db adapter requests sleeps].
        rewrite length_snoc, Nat.add_succ_r. cbn [Nat.add].
        rewrite <- !app_assoc. reflexivity.
Qed.

Lemma failedAttempts_le (a : nat -> FetchOutcome) (remaining : nat) :
  forall from, (failedAttempts a from remaining <= remaining)%nat.
Proof.
  induction remaining as [|r IH]; intros from; cbn [failedAttempts]; [lia|].
  destruct (failing (a from)); [specialize (IH (S from)) |]; lia.
Qed.

Lemma failedAttempts_failing (a : nat -> FetchOutcome) (remaining : nat) :
  forall from i,
    (i < failedAttempts a from remaining)%nat -> failing (a (from + i)%nat) = true.
Proof.
  induction remaining as [|r IH]; intros from i; cbn [failedAttempts]; [lia|].
  destruct (failing (a from)) eqn:Hf; [|lia].
  destruct i as [|i]; [rewrite Nat.add_0_r; intros _; exact Hf|].
  intros Hi. rewrite Nat.add_succ_r. apply (IH (S from) i). lia.
Qed.

Lemma failedAttempts_stop (a : nat -> FetchOutcome) (remaining : nat) :
  forall from,
    (failedAttempts a from remaining < remaining)%nat ->
    failing (a (from + failedAttempts a from remaining)%nat) = false.
Proof.
  induction remaining as [|r IH]; intros from; cbn [failedAttempts]; [lia|].
  destruct (failing (a from)) eqn:Hf.
  - intros Hlt. rewrite Nat.add_succ_r. apply (IH (S from)). lia.
  - intros _. rewrite Nat.add_0_r. exact Hf.
Qed.

(** [anchorDigest], with anchoring switched on and the adapter configured. *)
Lemma anchorDigest_configured (digest : DailyDigest) (w : World) :
  ANCHOR_ENABLED env = true -> configured env = true ->
  anchorDigest env digest w
  = (inr (anchorOutcome
            (adapter w (List.length (requests w)
                        + failedAttempts (adapter w) (List.length (requests w)) 3))),
     {| db := db w;
        adapter := adapter w;
        requests :=
          (requests w
           ++ repeat (anchorRequest env digest)
                     (S (failedAttempts (adapter w) (List.length (requests w)) 3)))%list;
        sleeps :=
          (sleeps w
           ++ backoffDelays 1000 0
                (failedAttempts (adapter w) (List.length (requests w)) 3))%list |}).
Proof.
  intros Hen Hcfg. unfold configured in Hcfg. apply andb_true_iff in Hcfg as [Hu Hk].
  unfold anchorDigest. rewrite Hen, Hu, Hk. cbn [negb orb].
  unfold mcatch, mbind, lift, retryWithBackoff. cbn [formatDate ret].
  rewrite retryLoop_submitOnce. unfold anchorOutcome, anchorRequest.
  destruct (submitResult _) as [e|[[[ok st] txt] [body|]]]; reflexivity.
Qed.

(** With anchoring switched on and the endpoint or the key missing. *)
Lemma anchorDigest_not_configured (digest : DailyDigest) (w : World) :
  ANCHOR_ENABLED env = true -> configured env = false ->
  anchorDigest env digest w
  = (inr {| success := false; adapterTxId := None; txHash := None;
            error := Some "Adapter API not configured" |}, w).
Proof.
  intros Hen Hcfg. unfold configured in Hcfg. unfold anchorDigest. rewrite Hen. cbn [negb].
  rewrite <- negb_andb, Hcfg. reflexivity.
Qed.

End AnchorFacts.

(** With anchoring switched off nothing is submitted and the digest is
    reported anchored under the reference "disabled". *)
Lemma anchorDigest_disabled (env : Env) (digest : DailyDigest) (w : World) :
  ANCHOR_ENABLED env = false ->
  anchorDigest env digest w
  = (inr {| success := true; adapterTxId := Some "disabled";
            txHash := Some "disabled"; error := None |}, w).
Proof. intros Hen. unfold anchorDigest. rewrite Hen. reflexivity. Qed.

(** C8. With anchoring switched on: when the adapter's endpoint or key is
    missing, [anchorDigest] returns the failure "Adapter API not configured"
    at once and leaves the world as it was, no request sent and no delay
    slept; when both are set, it sends the request, sends it again after
    every failed answer (a rejected [fetch] or a response that is not [ok]),
    at most four times in all, sleeps 1000 * 2 ^ i milliseconds after the
    i-th failed attempt before the next one (1000, 2000, 4000), and returns
    what the last answer makes of it. *)
Theorem anchorDigest_retries_with_backoff
  (env : Env) (digest : DailyDigest) (w : World)
  (Henabled : ANCHOR_ENABLED env = true) :
  (configured env = false ->
   anchorDigest env digest w
   = (inr {| success := false; adapterTxId := None; txHash := None;
             error := Some "Adapter API not configured" |}, w))
  /\ (configured env = true ->
      exists (k : nat) (w' : World),
        anchorDigest env digest w
        = (inr (anchorOutcome (adapter w (List.length (requests w) + k))), w')
        /\ db w' = db w
        /\ requests w' = (requests w ++ repeat (anchorRequest env digest) (S k))%list
        /\ sleeps w' = (sleeps w ++ map (fun i => (1000 * 2 ^ Z.of_nat i)%Z) (seq 0 k))%list
        /\ (k <= 3)%nat
        /\ (forall i, (i < k)%nat ->
                      failing (adapter w (List.length (requests w) + i)) = true)
        /\ ((k < 3)%nat -> failing (adapter w (List.length (requests w) + k)) = false)).
Proof.
  split.
  - intros Hcfg. apply anchorDigest_not_configured; assumption.
  - intros Hcfg.
    exists (failedAttempts (adapter w) (List.length (requests w)) 3). eexists.
    split; [apply anchorDigest_configured; assumption|].
    cbn [db requests sleeps]. unfold backoffDelays.
    repeat split.
    + apply failedAttempts_le.
    + apply failedAttempts_failing.
    + apply failedAttempts_stop.
Qed.

Lemma anchorDigest_retries_with_backoff_witness :
  anchorDigest keylessEnv dayDigest (worldOf digestDb flakyAdapter)
  = (inr {| success := false; adapterTxId := None; txHash := None;
            error := Some "Adapter API not configured" |},
     worldOf digestDb flakyAdapter)
  /\ exists k w',
       anchorDigest anchoringEnv dayDigest (worldOf digestDb flakyAdapter)
       = (inr (anchorOutcome (flakyAdapter k)), w')
       /\ requests w' = repeat (anchorRequest anchoringEnv dayDigest) (S k)
       /\ sleeps w'
          = map (fun i => (1000 * 2 ^ Z.of_nat i)%Z) (seq 0 k).
Proof.
  split.
  - apply (proj1 (@anchorDigest_retries_with_backoff
                    keylessEnv dayDigest (worldOf digestDb flakyAdapter) eq_refl)).
    reflexivity.
  - destruct (proj2 (@anchorDigest_retries_with_backoff
                       anchoringEnv dayDigest (worldOf digestDb flakyAdapter) eq_refl)
                    eq_refl)
      as (k & w' & Hrun & _ & Hreq & Hsl & _).
    exists k, w'. split; [exact Hrun|]. split; [exact Hreq | exact Hsl].
Defined.

(** Against an adapter that answers 503 twice and then accepts, the digest
    is anchored at the third request, after sleeping 1000 and 2000 ms;
    against one that is never reachable there are four requests and the
    delays 1000, 2000 and 4000 ms, and the failure is returned. *)
Example anchorDigest_traces :
  (let '(r, w') := anchorDigest anchoringEnv dayDigest (worldOf digestDb flakyAdapter) in
   r = inr {| success := true; adapterTxId := Some "tx-1"; txHash := Some "0xabc";
              error := None |}
   /\ List.length (requests w') = 3%nat /\ sleeps w' = [1000; 2000]%Z)
  /\ (let '(r, w') :=
        anchorDigest anchoringEnv dayDigest (worldOf digestDb unreachableAdapter) in
      r = inr {| success := false; adapterTxId := None; txHash := None;
                 error := Some "fetch failed" |}
      /\ List.length (requests w') = 4%nat /\ sleeps w' = [1000; 2000; 4000]%Z)
  /\ option_map q_body
       (hd_error (requests (snd (anchorDigest anchoringEnv dayDigest
                                   (worldOf digestDb acceptingAdapter)))))
     = Some {| p_topic := "IOT:PRJ001:2024-01-15";
               p_hash := "2445563e21e7dcaee836e947088c5e0f6828fcefb536b0038e77bf9e106d7bfd";
               p_uri := None |}.
Proof. vm_compute. repeat split. Qed.

Section AnchorTwice.

Variable env : Env.

(** The anchor update keeps the key of every row. *)
Lemma digest_key_setAnchored (siteId : string) (dayUtc : Z) (a t : option string)
  (g : DailyDigest) :
  digest_key siteId dayUtc (setAnchored a t g) = digest_key siteId dayUtc g.
Proof. reflexivity. Qed.

(** After the update by identifier, the row found under the key is the
    anchored one. *)
Lemma findUnique_after_update (d : Db) (siteId : string) (dayUtc : Z)
  (digest : DailyDigest) (a t : option string) :
  dailyDigest_findUnique d siteId dayUtc = Some digest ->
  dailyDigest_findUnique (dailyDigest_update d (d_id digest) (setAnchored a t)) siteId dayUtc
  = Some (setAnchored a t digest).
Proof.
  unfold dailyDigest_findUnique, dailyDigest_update. cbn [dailyDigest].
  induction (dailyDigest d) as [|g l IH]; cbn [find map]; [discriminate|].
  destruct (digest_key siteId dayUtc g) eqn:Hk.
  - intros H. injection H as ->. rewrite Nat.eqb_refl, digest_key_setAnchored, Hk.
    reflexivity.
  - intros H. destruct (Nat.eqb (d_id g) (d_id digest)).
    + rewrite digest_key_setAnchored, Hk. apply IH, H.
    + rewrite Hk. apply IH, H.
Qed.

(** After the update by identifier, the row found under the identifier is
    anchored. *)
Lemma findById_after_update (d : Db) (id : nat) (a t : option string) (g : DailyDigest) :
  In g (dailyDigest d) -> d_id g = id ->
  exists g', dailyDigest_findById (dailyDigest_update d id (setAnchored a t)) id = Some g'
             /\ d_anchored g' = true.
Proof.
  unfold dailyDigest_findById, dailyDigest_update. cbn [dailyDigest].
  induction (dailyDigest d) as [|x l IH]; cbn [In find map]; [contradiction|].
  intros Hin Hid. destruct (Nat.eqb (d_id x) id) eqn:Hx.
  - cbn [setAnchored d_id]. rewrite Hx. eexists. split; reflexivity.
  - rewrite Hx. destruct Hin as [->|Hin]; [|apply IH; assumption].
    apply Nat.eqb_neq in Hx. contradiction.
Qed.

Lemma findUnique_In (d : Db) (siteId : string) (dayUtc : Z) (g : DailyDigest) :
  dailyDigest_findUnique d siteId dayUtc = Some g -> In g (dailyDigest d).
Proof. intros H. apply find_some in H. tauto. Qed.

(** A first call of the route that reports success, unfolded: the store
    holds the anchored digest, and the rest of the world is as
    [anchorDigest] left it. *)
Lemma postAnchor_first_call (w w1 : World) (siteId day : string) (ms : Z)
  (digest : DailyDigest) (a t : option string) :
  parseDate day = Some ms ->
  dailyDigest_findUnique (db w) siteId ms = Some digest ->
  d_anchored digest = false ->
  postAnchor env siteId day w
  = (inr (ReplyAnchored "Digest anchored successfully" a t), w1) ->
  db w1 = dailyDigest_update (db w) (d_id digest) (setAnchored a t)
  /\ (ANCHOR_ENABLED env = false -> requests w1 = requests w /\ sleeps w1 = sleeps w)
  /\ (ANCHOR_ENABLED env = true ->
      anchorOutcome
        (adapter w (List.length (requests w)
                    + failedAttempts (adapter w) (List.length (requests w)) 3))
      = {| success := true; adapterTxId := a; txHash := t; error := None |}
      /\ requests w1
         = (requests w
            ++ repeat (anchorRequest env digest)
                 (S (failedAttempts (adapter w) (List.length (requests w)) 3)))%list).
Proof.
  intros Hday Hfind Hun.
  unfold postAnchor, mcatch, mbind, lift, getDb, mret, storeAnchor, putDb.
  rewrite Hday. cbn [ret]. rewrite Hfind, Hun.
  destruct (ANCHOR_ENABLED env) eqn:Hen; [destruct (configured env) eqn:Hcfg|].
  - rewrite (@anchorDigest_configured env digest w Hen Hcfg).
    destruct (anchorOutcome _) as [[|] a' t' e'] eqn:Hout; cbn [success adapterTxId txHash db
      adapter requests sleeps error]; intros H; [|discriminate].
    injection H as <- <- <-. cbn [db requests sleeps].
    split; [reflexivity|]. split; [discriminate|]. intros _. split; [|reflexivity].
    unfold anchorOutcome in Hout |- *.
    destruct (submitResult _) as [e|[[[ok st] txt] [body|]]]; try discriminate.
    injection Hout as <- <- <-. reflexivity.
  - rewrite (@anchorDigest_not_configured env digest w Hen Hcfg). cbn [success]. discriminate.
  - rewrite (@anchorDigest_disabled env digest w Hen).
    cbn [success adapterTxId txHash db adapter requests sleeps]. intros H.
    injection H as <- <- <-. cbn [db requests sleeps].
    split; [reflexivity|]. split; [intros _; split; reflexivity | discriminate].
Qed.

End AnchorTwice.

(** Once a call of the anchor route on an unanchored digest has reported
    success: the digest is stored anchored, with the references of that
    call; a later call of the route on that digest replies with the stored
    references and changes nothing, so no request is sent. With anchoring
    switched on, the successful call has sent the request once per attempt,
    the accepted attempt being the last, after at most three that failed;
    with anchoring switched off no request is sent at all. *)
Lemma postAnchor_second_call
  (env : Env) (w w1 : World) (siteId day : string) (ms : Z) (digest : DailyDigest)
  (a t : option string)
  (Hday : parseDate day = Some ms)
  (Hfind : dailyDigest_findUnique (db w) siteId ms = Some digest)
  (Hunanchored : d_anchored digest = false)
  (Hfirst : postAnchor env siteId day w
            = (inr (ReplyAnchored "Digest anchored successfully" a t), w1)) :
  dailyDigest_findUnique (db w1) siteId ms = Some (setAnchored a t digest)
  /\ d_anchored (setAnchored a t digest) = true
  /\ d_adapterTxId (setAnchored a t digest) = a
  /\ d_txHash (setAnchored a t digest) = t
  /\ postAnchor env siteId day w1
     = (inr (ReplyAnchored "Digest already anchored" a t), w1)
  /\ (ANCHOR_ENABLED env = true ->
      exists k,
        (k <= 3)%nat
        /\ requests w1 = (requests w ++ repeat (anchorRequest env digest) (S k))%list
        /\ (forall i, (i < k)%nat ->
                      failing (adapter w (List.length (requests w) + i)) = true)
        /\ anchorOutcome (adapter w (List.length (requests w) + k))
           = {| success := true; adapterTxId := a; txHash := t; error := None |})
  /\ (ANCHOR_ENABLED env = false -> requests w1 = requests w).
Proof.
  destruct (@postAnchor_first_call env w w1 siteId day ms digest a t
              Hday Hfind Hunanchored Hfirst) as (Hdb & Hoff & Hon).
  pose proof (@findUnique_after_update (db w) siteId ms digest a t Hfind) as Hfound.
  rewrite <- Hdb in Hfound.
  split; [exact Hfound|]. do 3 (split; [reflexivity|]).
  split; [|split].
  - unfold postAnchor, mcatch, mbind, lift, getDb, mret.
    rewrite Hday. cbn [ret]. rewrite Hfound. reflexivity.
  - intros Hen. destruct (Hon Hen) as (Hout & Hreq).
    exists (failedAttempts (adapter w) (List.length (requests w)) 3).
    split; [apply failedAttempts_le|]. split; [exact Hreq|].
    split; [apply failedAttempts_failing | exact Hout].
  - intros Hen. apply (Hoff Hen).
Qed.

(** C9. Of the two places that anchor a digest, the route does what the
    specification asks: once it has anchored the day's digest, a second call
    answers with the stored references and sends nothing, so the two calls
    have sent one request. The anchor worker does not: the module of the
    job queue binds [logger] to [undefined], the processor's first
    statement is [logger.info(...)], outside its [try], and so a job on the
    anchored digest throws a [TypeError] before the digest is read: it
    sends nothing, and it does not return the stored references. The same
    holds for every job, on every world. *)
Theorem anchorWorker_throws_on_anchored_digest :
  let w := worldOf digestDb acceptingAdapter in
  let first := postAnchor anchoringEnv "PRJ001" "2024-01-15" w in
  let again := postAnchor anchoringEnv "PRJ001" "2024-01-15" (snd first) in
  let job := anchorWorker anchoringEnv 0 (snd first) in
  fst first
  = inr (ReplyAnchored "Digest anchored successfully" (Some "tx-1") (Some "0xabc"))
  /\ option_map (fun g => (d_anchored g, d_adapterTxId g, d_txHash g))
       (dailyDigest_findById (db (snd first)) 0)
     = Some (true, Some "tx-1", Some "0xabc")
  /\ fst again
     = inr (ReplyAnchored "Digest already anchored" (Some "tx-1") (Some "0xabc"))
  /\ List.length (requests (snd again)) = 1%nat
  /\ fst job = inl (TypeError "Cannot read properties of undefined (reading 'info')")
  /\ requests (snd job) = requests (snd first)
  /\ db (snd job) = db (snd first)
  /\ (forall (env : Env) (digestId : nat) (w' : World),
        anchorWorker env digestId w'
        = (inl (TypeError "Cannot read properties of undefined (reading 'info')"), w')).
Proof.
  cbv zeta. do 7 (split; [vm_compute; reflexivity|]).
  intros env digestId w'. reflexivity.
Qed.

(** Two calls of the route against an adapter that accepts at once: one
    request in all. *)
Example postAnchor_twice_one_request :
  let w := worldOf digestDb acceptingAdapter in
  let first := postAnchor anchoringEnv "PRJ001" "2024-01-15" w in
  let second := postAnchor anchoringEnv "PRJ001" "2024-01-15" (snd first) in
  fst first = inr (ReplyAnchored "Digest anchored successfully" (Some "tx-1") (Some "0xabc"))
  /\ fst second = inr (ReplyAnchored "Digest already anchored" (Some "tx-1") (Some "0xabc"))
  /\ List.length (requests (snd first)) = 1%nat
  /\ List.length (requests (snd second)) = 1%nat.
Proof. vm_compute. repeat split. Qed.

(** The digest of [digestDb] is what aggregation of the day stores. *)
Example dayDigest_is_aggregated :
  dailyDigest (db (snd (aggregateDaily "PRJ001" (parseDate "2024-01-15")
                          (dayWorld unreachableAdapter))))
  = [dayDigest].
Proof. vm_compute. reflexivity. Qed.


(* ================================================================= *)
(** * Part XII. Further properties: the Merkle tree, recomputation,
      anchoring, ingestion, the hourly and batch services, dates, the
      routes and the workers *)
(* ================================================================= *)


(** ** More on the Merkle tree *)

Section MerkleMore.

Lemma indexOf_None (x : string) (l : list string) :
  indexOf x l = None <-> ~ In x l.
Proof.
  induction l as [|y l IH]; simpl.
  - split; [intros _ [] | reflexivity].
  - destruct (String.eqb_spec y x) as [->|Hne].
    + split; [discriminate | intros H; exfalso; apply H; left; reflexivity].
    + destruct (indexOf x l); simpl.
      * split; [discriminate|]. intros H. exfalso. apply H. right.
        destruct IH as [_ IH]. destruct (in_dec string_dec x l) as [Hin|Hnin]; [exact Hin|].
        specialize (IH Hnin). discriminate.
      * split; [|reflexivity]. intros _ [H|H]; [congruence|].
        destruct IH as [IH _]. exact (IH eq_refl H).
Qed.

Lemma In_sortStrings (x : string) (l : list string) :
  In x (sortStrings l) <-> In x l.
Proof.
  split; apply Permutation_in; [|apply Permutation_sym]; apply sortStrings_perm.
Qed.

Lemma buildLevels_fuel (f1 : nat) :
  forall (f2 : nat) (l : list string),
    (List.length l <= f1)%nat -> (List.length l <= f2)%nat ->
    buildLevels f1 l = buildLevels f2 l.
Proof.
  induction f1 as [|f1 IH]; intros f2 l H1 H2.
  - destruct l; [|simpl in H1; lia]. destruct f2; reflexivity.
  - simpl. destruct (1 <? List.length l)%nat eqn:Hlen.
    + apply Nat.ltb_lt in Hlen.
      destruct f2 as [|f2]; [lia|]. simpl.
      assert (Hlen' : (1 <? List.length l)%nat = true) by (apply Nat.ltb_lt; exact Hlen).
      rewrite Hlen'. f_equal.
      assert (Hn : (List.length (nextLevel l) < List.length l)%nat).
      { rewrite nextLevel_length. apply div2_succ_lt. lia. }
      apply IH; lia.
    + destruct f2 as [|f2]; [reflexivity|]. simpl. rewrite Hlen. reflexivity.
Qed.

Lemma nextLevel_duplicate_last (n : nat) :
  forall (s : list string) (d : string),
    List.length s = (2 * n + 1)%nat ->
    nextLevel (s ++ [last s d]) = nextLevel s.
Proof.
  induction n as [|n IH]; intros s d Hlen.
  - destruct s as [|x [|y s]]; simpl in Hlen; try lia.
    simpl. destruct (Str.is_empty x); reflexivity.
  - destruct s as [|x [|y s]]; simpl in Hlen; try lia.
    assert (Hs : List.length s = (2 * n + 1)%nat) by lia.
    assert (Hlast : last (x :: y :: s) d = last s d).
    { destruct s as [|z s]; [simpl in Hs; lia | reflexivity]. }
    rewrite Hlast.
    change ((x :: y :: s) ++ [last s d])%list with (x :: y :: (s ++ [last s d]))%list.
    cbn [nextLevel]. rewrite (IH s d Hs).
    destruct s as [|z s]; [simpl in Hs; lia | reflexivity].
Qed.

Lemma String_leb_refl (s : string) : String.leb s s = true.
Proof. destruct (String.leb_total s s); assumption. Qed.

Lemma last_In (s : list string) (d : string) : s <> [] -> In (last s d) s.
Proof.
  induction s as [|x s IH]; intros H; [congruence|].
  destruct s as [|y s]; [left; reflexivity|].
  right. apply IH. discriminate.
Qed.

Lemma sorted_snoc_last (s : list string) (d : string) :
  StronglySorted str_le s -> s <> [] -> StronglySorted str_le (s ++ [last s d]).
Proof.
  induction 1 as [|x s Hs IH Hall]; intros Hne; [congruence|].
  destruct s as [|y s].
  - simpl. repeat constructor. apply String_leb_refl.
  - change (last (x :: y :: s) d) with (last (y :: s) d).
    change ((x :: y :: s) ++ [last (y :: s) d])%list
      with (x :: ((y :: s) ++ [last (y :: s) d]))%list.
    constructor; [apply IH; discriminate|].
    apply Forall_app. split; [exact Hall|].
    constructor; [|constructor].
    rewrite Forall_forall in Hall. apply Hall, last_In. discriminate.
Qed.

Lemma sortStrings_cons_last (l : list string) (d : string) :
  l <> [] ->
  sortStrings (last (sortStrings l) d :: l) = (sortStrings l ++ [last (sortStrings l) d])%list.
Proof.
  intros Hne.
  assert (Hs : sortStrings l <> []).
  { intros H. apply Hne. apply Permutation_nil.
    rewrite <- H. apply sortStrings_perm. }
  apply sorted_perm_unique.
  - apply sortStrings_sorted.
  - apply sorted_snoc_last; [apply sortStrings_sorted | exact Hs].
  - eapply perm_trans; [apply sortStrings_perm|].
    eapply perm_trans; [|apply Permutation_cons_append].
    apply perm_skip, Permutation_sym, sortStrings_perm.
Qed.

(** Every entry of a level above the leaves is a digest. *)
Lemma nextLevel_digests (l : list string) :
  Forall (fun h => exists data, h = sha256 data) (nextLevel l).
Proof.
  assert (H : forall n (l : list string), (List.length l <= n)%nat ->
                Forall (fun h => exists data, h = sha256 data) (nextLevel l)).
  { induction n as [|n IH]; intros l0 Hlen.
    - destruct l0; [constructor | simpl in Hlen; lia].
    - destruct l0 as [|x [|y l0]]; simpl.
      + constructor.
      + constructor; [eexists; reflexivity | constructor].
      + constructor; [eexists; reflexivity|]. apply IH. simpl in Hlen. lia. }
  apply (H (List.length l)). lia.
Qed.

Lemma top_level_digest (fuel : nat) :
  forall l : list string,
    (2 <= List.length l)%nat -> (List.length l <= fuel)%nat ->
    exists data, hd_error (last (l :: buildLevels fuel l) []) = Some (sha256 data).
Proof.
  induction fuel as [|fuel IH]; intros l H2 Hf; [lia|].
  cbn [buildLevels].
  assert (Hlt : (1 <? List.length l)%nat = true) by (apply Nat.ltb_lt; lia).
  rewrite Hlt.
  change (last (l :: nextLevel l :: buildLevels fuel (nextLevel l)) [])
    with (last (nextLevel l :: buildLevels fuel (nextLevel l)) []).
  assert (Hn : (List.length (nextLevel l) < List.length l)%nat).
  { rewrite nextLevel_length. apply div2_succ_lt. lia. }
  assert (Hp : (1 <= List.length (nextLevel l))%nat).
  { rewrite nextLevel_length. apply div2_succ_pos. lia. }
  destruct (Nat.eq_dec (List.length (nextLevel l)) 1) as [H1|H1].
  - assert (Hb : buildLevels fuel (nextLevel l) = []).
    { destruct fuel; [reflexivity|]. simpl. rewrite H1. reflexivity. }
    rewrite Hb. simpl.
    pose proof (nextLevel_digests l) as Hd.
    destruct (nextLevel l) as [|h t]; [simpl in H1; lia|].
    inversion Hd as [|? ? [data ->] _]; subst. exists data. reflexivity.
  - apply IH; [clear - Hp H1; lia | clear - Hn Hf; lia].
Qed.

Lemma proofLoop_step (level level' : list string) (rest : list (list string)) (i : nat) :
  proofLoop (level :: level' :: rest) i
  = (match nth_error level (if Nat.even i then (i + 1)%nat else (i - 1)%nat) with
     | Some sibling => [sibling]
     | None => []
     end ++ proofLoop (level' :: rest) (i / 2)%nat)%list.
Proof. reflexivity. Qed.

Lemma proofLoop_length (levels : list (list string)) :
  forall i, (List.length (proofLoop levels i) <= pred (List.length levels))%nat.
Proof.
  induction levels as [|level rest IH]; intros i; [simpl; lia|].
  destruct rest as [|level' rest]; [simpl; lia|].
  rewrite proofLoop_step, length_app.
  specialize (IH (i / 2)%nat).
  change (pred (List.length (level :: level' :: rest))) with (S (pred (List.length (level' :: rest)))).
  destruct (nth_error level _); cbn [List.length] in *; lia.
Qed.

Lemma buildLevels_length (fuel : nat) :
  forall (k : nat) (l : list string),
    (List.length l <= 2 ^ k)%nat -> (List.length (buildLevels fuel l) <= k)%nat.
Proof.
  induction fuel as [|fuel IH]; intros k l Hk; [simpl; lia|].
  simpl. destruct (1 <? List.length l)%nat eqn:Hlen; [|simpl; lia].
  apply Nat.ltb_lt in Hlen.
  destruct k as [|k]; [simpl in Hk; lia|].
  simpl. apply le_n_S, IH.
  rewrite nextLevel_length. apply Nat.lt_succ_r.
  rewrite Nat.div2_div. apply Nat.Div0.div_lt_upper_bound.
  rewrite Nat.pow_succ_r' in Hk. lia.
Qed.

Lemma sha256_nonempty (data : string) : Str.is_empty (sha256 data) = false.
Proof.
  pose proof (sha256_hex64 data) as [H _].
  destruct (sha256 data); [simpl in H; discriminate | reflexivity].
Qed.

(** Hashing up from the first entry of a level, with the entries to the
    right as siblings, arrives at the top of the tree. *)
Lemma proofLoop_first (fuel : nat) :
  forall (l : list string) (x : string) (rest : list string),
    l = x :: rest ->
    Forall (fun h => Str.is_empty h = false) l ->
    (List.length l <= fuel)%nat ->
    hd_error (last (l :: buildLevels fuel l) [])
    = Some (fold_left (fun hash sibling => sha256 (hash ++ sibling))
                      (proofLoop (l :: buildLevels fuel l) 0) x).
Proof.
  induction fuel as [|fuel IH]; intros l x rest -> Hne Hf; [simpl in Hf; lia|].
  destruct rest as [|y rest].
  - reflexivity.
  - cbn [buildLevels List.length].
    change (1 <? S (S (List.length rest)))%nat with true. cbv iota.
    inversion Hne as [|? ? _ Hne']; subst. inversion Hne' as [|? ? Hy _]; subst.
    cbn [nextLevel]. rewrite Hy.
    set (next := sha256 (x ++ y) :: nextLevel rest).
    change (last ((x :: y :: rest) :: next :: buildLevels fuel next) [])
      with (last (next :: buildLevels fuel next) []).
    assert (Hstep : proofLoop ((x :: y :: rest) :: next :: buildLevels fuel next) 0
                    = (y :: proofLoop (next :: buildLevels fuel next) 0)).
    { reflexivity. }
    rewrite Hstep. cbn [fold_left].
    apply (IH next (sha256 (x ++ y)) (nextLevel rest) eq_refl).
    + constructor; [apply sha256_nonempty|].
      eapply Forall_impl; [|apply nextLevel_digests].
      intros h [data ->]. apply sha256_nonempty.
    + subst next. cbn [List.length] in *. rewrite nextLevel_length.
      pose proof (Nat.le_div2 (List.length rest)). lia.
Qed.

Lemma generateMerkleProof_inr (rowHashes : list string) (leaf : string) (proof : list string) :
  generateMerkleProof rowHashes leaf = inr proof ->
  exists i, indexOf leaf (sortStrings rowHashes) = Some i
            /\ proof = proofLoop (buildTree (sortStrings rowHashes)) i.
Proof.
  unfold generateMerkleProof, getProof, buildMerkleTree, newMerkleTree.
  change (leaves {| leaves := sortStrings rowHashes; tree := buildTree (sortStrings rowHashes) |})
    with (sortStrings rowHashes).
  change (tree {| leaves := sortStrings rowHashes; tree := buildTree (sortStrings rowHashes) |})
    with (buildTree (sortStrings rowHashes)).
  destruct (indexOf leaf (sortStrings rowHashes)) as [i|]; [|discriminate].
  intros H. exists i. split; [reflexivity|]. unfold ret in H. congruence.
Qed.

End MerkleMore.

(** X1. [generateMerkleProof] fails with the error "Leaf not found in tree"
    exactly when the target hash is not one of the given row hashes, and
    returns a proof exactly when it is one of them. *)
Theorem generateMerkleProof_leaf_not_found (rowHashes : list string) (targetHash : string) :
  (generateMerkleProof rowHashes targetHash = inl (Error "Leaf not found in tree")
   <-> ~ In targetHash rowHashes)
  /\ (In targetHash rowHashes
      <-> exists proof, generateMerkleProof rowHashes targetHash = inr proof).
Proof.
  unfold generateMerkleProof, getProof, buildMerkleTree, newMerkleTree. cbn [leaves tree].
  destruct (indexOf targetHash (sortStrings rowHashes)) as [i|] eqn:Hi.
  - assert (Hin : In targetHash rowHashes).
    { apply In_sortStrings.
      destruct (in_dec string_dec targetHash (sortStrings rowHashes)) as [H|H]; [exact H|].
      apply indexOf_None in H. congruence. }
    split; split.
    + discriminate.
    + intros H. contradiction.
    + intros _. eexists. reflexivity.
    + intros _. exact Hin.
  - assert (Hnin : ~ In targetHash rowHashes).
    { intros H. apply In_sortStrings in H. apply indexOf_None in Hi. contradiction. }
    split; split.
    + intros _. exact Hnin.
    + reflexivity.
    + intros H. contradiction.
    + intros [proof H]. discriminate.
Qed.

(** X2. For an odd number of leaves, three or more, adding a second copy of
    the greatest leaf does not change the root: the last node of a level
    of odd length is paired with itself, so the two sets of row hashes
    share one root. *)
Theorem generateMerkleRoot_duplicate_last (rowHashes : list string)
  (Hodd : Nat.odd (List.length rowHashes) = true)
  (Hsize : (3 <= List.length rowHashes)%nat) :
  generateMerkleRoot (last (getLeaves (buildMerkleTree rowHashes)) "" :: rowHashes)
  = generateMerkleRoot rowHashes.
Proof.
  unfold generateMerkleRoot, getRoot, getLeaves, buildMerkleTree, newMerkleTree.
  cbn [leaves tree].
  assert (Hne : rowHashes <> []) by (destruct rowHashes; [simpl in Hsize; lia | discriminate]).
  rewrite (sortStrings_cons_last "" Hne).
  set (s := sortStrings rowHashes).
  assert (Hlen : List.length s = List.length rowHashes) by apply sortStrings_length.
  destruct (Nat.odd_spec (List.length rowHashes)) as [Ho _].
  destruct (Ho Hodd) as [n Hn].
  assert (Hs : List.length s = (2 * n + 1)%nat) by lia.
  assert (Hstep : forall fuel (l : list string), (1 < List.length l)%nat ->
            buildLevels (S fuel) l = nextLevel l :: buildLevels fuel (nextLevel l)).
  { intros fuel l Hl. simpl. apply Nat.ltb_lt in Hl. rewrite Hl. reflexivity. }
  unfold buildTree.
  assert (Hl1 : List.length (s ++ [last s ""])%list = S (List.length s))
    by (rewrite length_app; simpl; lia).
  rewrite Hl1, Hstep by lia.
  rewrite (nextLevel_duplicate_last n s "" Hs).
  destruct (List.length s) as [|k] eqn:Hk; [lia|].
  rewrite (Hstep k s) by lia.
  assert (Hnl : (List.length (nextLevel s) <= k)%nat).
  { rewrite nextLevel_length, Hk.
    assert (Hd := @div2_succ_lt (S k)). lia. }
  rewrite (@buildLevels_fuel (S k) k (nextLevel s)) by lia.
  reflexivity.
Qed.

Lemma generateMerkleRoot_duplicate_last_witness :
  generateMerkleRoot ["hash3"; "hash1"; "hash2"; "hash3"]
  = generateMerkleRoot ["hash1"; "hash2"; "hash3"].
Proof.
  apply (@generateMerkleRoot_duplicate_last ["hash1"; "hash2"; "hash3"]).
  - reflexivity.
  - simpl. lia.
Defined.

(** X3. With two or more leaves the root exists and is a SHA-256 digest:
    64 characters of lowercase hexadecimal. *)
Theorem generateMerkleRoot_is_digest (rowHashes : list string)
  (Hsize : (2 <= List.length rowHashes)%nat) :
  exists root,
    generateMerkleRoot rowHashes = Some root
    /\ (exists data, root = sha256 data)
    /\ String.length root = 64%nat
    /\ Str.all_chars Str.is_lower_hex root = true.
Proof.
  unfold generateMerkleRoot, getRoot, buildMerkleTree, newMerkleTree, buildTree.
  cbn [tree].
  destruct (@top_level_digest (List.length (sortStrings rowHashes)) (sortStrings rowHashes))
    as [data Hd].
  - rewrite sortStrings_length. exact Hsize.
  - apply le_n.
  - exists (sha256 data). split; [exact Hd|].
    split; [exists data; reflexivity | apply sha256_hex64].
Qed.

Lemma generateMerkleRoot_is_digest_witness :
  exists root,
    generateMerkleRoot ["hash1"; "hash2"] = Some root
    /\ (exists data, root = sha256 data)
    /\ String.length root = 64%nat
    /\ Str.all_chars Str.is_lower_hex root = true.
Proof.
  apply (@generateMerkleRoot_is_digest ["hash1"; "hash2"]). simpl. lia.
Defined.

(** X4. [getLeaves] returns the row hashes sorted: a permutation of the
    input in ascending order, the first level of [getTree], and the only
    sorted permutation of the input. *)
Theorem getLeaves_sorted (rowHashes : list string) :
  let t := buildMerkleTree rowHashes in
  Permutation (getLeaves t) rowHashes
  /\ StronglySorted str_le (getLeaves t)
  /\ hd_error (getTree t) = Some (getLeaves t)
  /\ (forall other, Permutation other rowHashes -> StronglySorted str_le other ->
                    other = getLeaves t).
Proof.
  unfold getLeaves, getTree, buildMerkleTree, newMerkleTree, buildTree. cbn [leaves tree].
  split; [apply sortStrings_perm|].
  split; [apply sortStrings_sorted|].
  split; [reflexivity|].
  intros other Hp Hs. apply sorted_perm_unique; [exact Hs | apply sortStrings_sorted|].
  eapply perm_trans; [exact Hp | apply Permutation_sym, sortStrings_perm].
Qed.

(** X5. A proof is no longer than the height of the tree: for at most
    [2 ^ k] row hashes it has at most [k] elements. *)
Theorem generateMerkleProof_length (rowHashes : list string) (leaf : string)
  (proof : list string) (k : nat)
  (Hproof : generateMerkleProof rowHashes leaf = inr proof)
  (Hsize : (List.length rowHashes <= 2 ^ k)%nat) :
  (List.length proof <= k)%nat.
Proof.
  destruct (generateMerkleProof_inr _ _ Hproof) as [i [_ ->]].
  eapply Nat.le_trans; [apply proofLoop_length|].
  unfold buildTree.
  change (pred (List.length (sortStrings rowHashes
                             :: buildLevels (List.length (sortStrings rowHashes))
                                            (sortStrings rowHashes))))
    with (List.length (buildLevels (List.length (sortStrings rowHashes))
                                   (sortStrings rowHashes))).
  apply buildLevels_length. rewrite sortStrings_length. exact Hsize.
Qed.

Lemma generateMerkleProof_length_witness :
  exists proof,
    generateMerkleProof ["hash1"; "hash2"; "hash3"] "hash3" = inr proof
    /\ (List.length proof <= 2)%nat.
Proof.
  eexists. split; [vm_compute; reflexivity|].
  apply (@generateMerkleProof_length ["hash1"; "hash2"; "hash3"] "hash3" _ 2).
  - vm_compute. reflexivity.
  - simpl. lia.
Defined.

(** X6. When no row hash is the empty string, the proof generated for the
    least leaf verifies against the root, with [verifyMerkleProof] and
    with [verifyProof]. *)
Theorem least_leaf_proof_verifies (rowHashes : list string) (leaf root : string)
  (proof : list string)
  (Hnonempty : forall h, In h rowHashes -> h <> "")
  (Hleast : hd_error (getLeaves (buildMerkleTree rowHashes)) = Some leaf)
  (Hroot : generateMerkleRoot rowHashes = Some root)
  (Hproof : generateMerkleProof rowHashes leaf = inr proof) :
  verifyMerkleProof leaf proof root = true
  /\ verifyProof (buildMerkleTree rowHashes) leaf proof root = true.
Proof.
  unfold generateMerkleRoot, generateMerkleProof, getRoot, getProof, getLeaves,
    buildMerkleTree, newMerkleTree, buildTree in *.
  cbn [leaves tree] in *.
  destruct (sortStrings rowHashes) as [|x rest] eqn:Hs; [discriminate|].
  injection Hleast as ->.
  cbn [indexOf] in Hproof. rewrite String.eqb_refl in Hproof.
  injection Hproof as <-.
  assert (Hall : Forall (fun h => Str.is_empty h = false) (leaf :: rest)).
  { apply Forall_forall. intros h Hh.
    assert (Hin : In h rowHashes) by (apply In_sortStrings; rewrite Hs; exact Hh).
    specialize (Hnonempty h Hin). destruct h; [congruence | reflexivity]. }
  pose proof (@proofLoop_first (List.length (leaf :: rest)) (leaf :: rest) leaf rest
                eq_refl Hall (le_n _)) as Htop.
  rewrite Htop in Hroot. injection Hroot as <-.
  unfold verifyMerkleProof, verifyProof. rewrite String.eqb_refl. split; reflexivity.
Qed.

Lemma least_leaf_proof_verifies_witness :
  verifyMerkleProof "hash1" ["hash2"; sha256 ("hash3" ++ "hash3")]
    (sha256 (sha256 ("hash1" ++ "hash2") ++ sha256 ("hash3" ++ "hash3"))) = true
  /\ verifyProof (buildMerkleTree ["hash3"; "hash1"; "hash2"]) "hash1"
       ["hash2"; sha256 ("hash3" ++ "hash3")]
       (sha256 (sha256 ("hash1" ++ "hash2") ++ sha256 ("hash3" ++ "hash3"))) = true.
Proof.
  apply (@least_leaf_proof_verifies ["hash3"; "hash1"; "hash2"]).
  - intros h [<-|[<-|[<-|[]]]]; discriminate.
  - reflexivity.
  - reflexivity.
  - reflexivity.
Defined.

(** ** Recomputing a digest *)

Section RecomputeFacts.

Lemma find_map_keep {A} (p : A -> bool) (f : A -> A) (l : list A) :
  (forall x, p (f x) = p x) ->
  find p (map f l) = option_map f (find p l).
Proof.
  intros Hp. induction l as [|x l IH]; [reflexivity|].
  cbn [map find]. rewrite Hp. destruct (p x); [reflexivity | exact IH].
Qed.

Lemma find_snoc {A} (p : A -> bool) (l : list A) (x : A) :
  find p (l ++ [x])%list = match find p l with
                           | Some y => Some y
                           | None => if p x then Some x else None
                           end.
Proof.
  induction l as [|y l IH]; [reflexivity|].
  cbn [app find]. destruct (p y); [reflexivity | exact IH].
Qed.

Lemma map_unmatched {A} (p : A -> bool) (f : A -> A) (l : list A) :
  find p l = None -> map (fun x => if p x then f x else x) l = l.
Proof.
  induction l as [|x l IH]; [reflexivity|].
  cbn [find map]. destruct (p x); [discriminate|]. intros H. f_equal. exact (IH H).
Qed.

Lemma digest_key_refl (siteId : string) (dayUtc : Z) (g : DailyDigest) :
  d_siteId g = siteId -> d_dayUtc g = dayUtc -> digest_key siteId dayUtc g = true.
Proof.
  intros <- <-. unfold digest_key. rewrite String.eqb_refl, Z.eqb_refl. reflexivity.
Qed.

Lemma digest_key_other (siteId siteId' : string) (dayUtc dayUtc' : Z) (g : DailyDigest) :
  siteId' <> siteId \/ dayUtc' <> dayUtc ->
  digest_key siteId dayUtc g = true -> digest_key siteId' dayUtc' g = false.
Proof.
  unfold digest_key. intros Hne Hk. apply andb_true_iff in Hk as [H1 H2].
  apply String.eqb_eq in H1. apply Z.eqb_eq in H2. subst.
  destruct Hne as [Hne|Hne].
  - apply String.eqb_neq in Hne. rewrite String.eqb_sym, Hne. reflexivity.
  - apply Z.eqb_neq in Hne. rewrite Z.eqb_sym, Hne. apply andb_false_r.
Qed.

Lemma dailyDigest_upsert_tables (d : Db) (siteId : string) (dayUtc : Z)
  (e a : number) (rows : nat) (root : string) :
  site (dailyDigest_upsert d siteId dayUtc e a rows root) = site d
  /\ rawTelemetry (dailyDigest_upsert d siteId dayUtc e a rows root) = rawTelemetry d.
Proof.
  unfold dailyDigest_upsert.
  destruct (dailyDigest_findUnique d siteId dayUtc); split; reflexivity.
Qed.

Lemma dailyDigest_upsert_existing (d : Db) (siteId : string) (dayUtc : Z)
  (e a : number) (rows : nat) (root : string) (g : DailyDigest) :
  dailyDigest_findUnique d siteId dayUtc = Some g ->
  dailyDigest_findUnique (dailyDigest_upsert d siteId dayUtc e a rows root) siteId dayUtc
  = Some (setAggregates e a rows root g)
  /\ List.length (dailyDigest (dailyDigest_upsert d siteId dayUtc e a rows root))
     = List.length (dailyDigest d).
Proof.
  intros Hfind. unfold dailyDigest_upsert. rewrite Hfind.
  unfold dailyDigest_findUnique in *. cbn [dailyDigest].
  split; [|apply length_map].
  rewrite (find_map_keep (digest_key siteId dayUtc)
             (fun g' => if digest_key siteId dayUtc g'
                        then setAggregates e a rows root g' else g')).
  - rewrite Hfind. cbn [option_map].
    apply find_some in Hfind as [_ Hk]. rewrite Hk. reflexivity.
  - intros x. destruct (digest_key siteId dayUtc x) eqn:Hk; [|exact Hk]. exact Hk.
Qed.

Lemma dailyDigest_upsert_others (d : Db) (siteId siteId' : string) (dayUtc dayUtc' : Z)
  (e a : number) (rows : nat) (root : string) :
  siteId' <> siteId \/ dayUtc' <> dayUtc ->
  dailyDigest_findUnique (dailyDigest_upsert d siteId dayUtc e a rows root) siteId' dayUtc'
  = dailyDigest_findUnique d siteId' dayUtc'.
Proof.
  intros Hne. unfold dailyDigest_upsert.
  destruct (dailyDigest_findUnique d siteId dayUtc) as [g|] eqn:Hfind;
    unfold dailyDigest_findUnique in *; cbn [dailyDigest].
  - rewrite (find_map_keep (digest_key siteId' dayUtc')
               (fun g' => if digest_key siteId dayUtc g'
                          then setAggregates e a rows root g' else g')).
    + destruct (find (digest_key siteId' dayUtc') (dailyDigest d)) as [g'|] eqn:Hf';
        [|reflexivity].
      cbn [option_map]. apply find_some in Hf' as [_ Hk'].
      destruct (digest_key siteId dayUtc g') eqn:Hk; [|reflexivity].
      rewrite (@digest_key_other _ _ _ _ _ Hne Hk) in Hk'. discriminate.
    + intros x. destruct (digest_key siteId dayUtc x); reflexivity.
  - rewrite find_snoc.
    destruct (find (digest_key siteId' dayUtc') (dailyDigest d)); [reflexivity|].
    rewrite (@digest_key_other siteId siteId' dayUtc dayUtc' _ Hne); [reflexivity|].
    apply digest_key_refl; reflexivity.
Qed.

Lemma dailyDigest_upsert_idempotent (d : Db) (siteId : string) (dayUtc : Z)
  (e a : number) (rows : nat) (root : string) :
  dailyDigest_upsert (dailyDigest_upsert d siteId dayUtc e a rows root)
                     siteId dayUtc e a rows root
  = dailyDigest_upsert d siteId dayUtc e a rows root.
Proof.
  destruct (dailyDigest_upsert_found d siteId dayUtc e a rows root) as (g1 & Hg1 & _).
  unfold dailyDigest_upsert at 1. rewrite Hg1.
  unfold dailyDigest_upsert.
  destruct (dailyDigest_findUnique d siteId dayUtc) as [g|] eqn:Hfind;
    cbn [site rawTelemetry dailyDigest nextId]; f_equal.
  - rewrite map_map. apply map_ext. intros x.
    destruct (digest_key siteId dayUtc x) eqn:Hk.
    + change (digest_key siteId dayUtc (setAggregates e a rows root x))
        with (digest_key siteId dayUtc x). rewrite Hk. reflexivity.
    + rewrite Hk. reflexivity.
  - rewrite map_app. unfold dailyDigest_findUnique in Hfind.
    rewrite (map_unmatched _ _ _ Hfind). cbn [map]. f_equal.
    rewrite digest_key_refl by reflexivity. reflexivity.
Qed.

(** A run that returns has a day with a start and an end. *)
Lemma aggregateDaily_returns_valid (w w1 : World) (siteId : string) (dayUtc : Date.t)
  (r : option DailyAggregationResult) :
  aggregateDaily siteId dayUtc w = (inr r, w1) ->
  exists gte lte, getDayStart dayUtc = Some gte /\ getDayEnd dayUtc = Some lte.
Proof.
  destruct (getDayStart dayUtc) as [gte|] eqn:Hs; destruct (getDayEnd dayUtc) as [lte|] eqn:He;
    try (intros _; eauto; fail).
  - unfold aggregateDaily, mcatch, mbind, lift, mthrow. rewrite Hs, He.
    cbn [timeValue ret throw]. destruct (timeValue dayUtc); discriminate.
  - unfold aggregateDaily, mcatch, mbind, lift, mthrow. rewrite Hs.
    cbn [timeValue ret throw]. destruct (timeValue dayUtc); discriminate.
  - unfold aggregateDaily, mcatch, mbind, lift, mthrow. rewrite Hs.
    cbn [timeValue ret throw]. destruct (timeValue dayUtc); discriminate.
Qed.

(** The run on a day that has records. *)
Lemma aggregateDaily_some (w : World) (siteId : string) (dayUtc : Date.t) (gte lte : Z)
  (s : Site) (root : string) :
  getDayStart dayUtc = Some gte ->
  getDayEnd dayUtc = Some lte ->
  site_findUnique (db w) siteId = Some s ->
  rawTelemetry_findMany (db w) siteId gte lte <> [] ->
  generateMerkleRoot (map t_rowHash (rawTelemetry_findMany (db w) siteId gte lte)) = Some root ->
  let r := dailyResultOf siteId gte s (rawTelemetry_findMany (db w) siteId gte lte) root in
  aggregateDaily siteId dayUtc w = (inr (Some r), withDigest w r).
Proof.
  intros Hs He Hsite Hne Hroot.
  rewrite (@aggregateDaily_cases w siteId dayUtc gte lte Hs He), Hsite. cbv zeta.
  destruct (rawTelemetry_findMany (db w) siteId gte lte) as [|r0 rs]; [congruence|].
  rewrite Hroot. reflexivity.
Qed.

(** What a run that returns a digest has done. *)
Lemma aggregateDaily_returns_digest (w w1 : World) (siteId : string) (dayUtc : Date.t)
  (r : DailyAggregationResult) :
  aggregateDaily siteId dayUtc w = (inr (Some r), w1) ->
  exists s gte lte root,
    getDayStart dayUtc = Some gte
    /\ getDayEnd dayUtc = Some lte
    /\ site_findUnique (db w) siteId = Some s
    /\ rawTelemetry_findMany (db w) siteId gte lte <> []
    /\ generateMerkleRoot (map t_rowHash (rawTelemetry_findMany (db w) siteId gte lte))
       = Some root
    /\ r = dailyResultOf siteId gte s (rawTelemetry_findMany (db w) siteId gte lte) root
    /\ w1 = withDigest w r.
Proof.
  intros Hrun. destruct (@aggregateDaily_returns_valid _ _ _ _ _ Hrun) as (gte & lte & Hs & He).
  pose proof Hrun as Hrun0.
  rewrite (@aggregateDaily_cases w siteId dayUtc gte lte Hs He) in Hrun0.
  destruct (site_findUnique (db w) siteId) as [s|] eqn:Hsite; [|discriminate].
  cbv zeta in Hrun0.
  destruct (rawTelemetry_findMany (db w) siteId gte lte) as [|r0 rs] eqn:Hrecs; [discriminate|].
  destruct (generateMerkleRoot (map t_rowHash (r0 :: rs))) as [root|] eqn:Hroot; [|discriminate].
  clear Hrun0.
  assert (Hne : rawTelemetry_findMany (db w) siteId gte lte <> []) by (rewrite Hrecs; discriminate).
  rewrite <- Hrecs in Hroot.
  pose proof (@aggregateDaily_some w siteId dayUtc gte lte s root Hs He Hsite Hne Hroot) as Hrun1.
  cbv zeta in Hrun1. rewrite Hrun in Hrun1. injection Hrun1 as Hr Hw.
  exists s, gte, lte, root.
  do 5 (split; [assumption || reflexivity|]). split; [exact Hr|]. rewrite Hr. exact Hw.
Qed.

Lemma withDigest_tables (w : World) (r : DailyAggregationResult) :
  site (db (withDigest w r)) = site (db w)
  /\ rawTelemetry (db (withDigest w r)) = rawTelemetry (db w).
Proof. unfold withDigest. cbn [db]. apply dailyDigest_upsert_tables. Qed.

Lemma withDigest_idempotent (w : World) (r : DailyAggregationResult) :
  withDigest (withDigest w r) r = withDigest w r.
Proof.
  unfold withDigest. cbn [db adapter requests sleeps]. f_equal.
  apply dailyDigest_upsert_idempotent.
Qed.

End RecomputeFacts.

(** X7. Daily aggregation is idempotent: when a run returns, a second run
    on the world it left returns the same result and leaves that world as
    it is. *)
Theorem aggregateDaily_idempotent (w w1 : World) (siteId : string) (dayUtc : Date.t)
  (r : option DailyAggregationResult)
  (Hrun : aggregateDaily siteId dayUtc w = (inr r, w1)) :
  aggregateDaily siteId dayUtc w1 = (inr r, w1).
Proof.
  destruct r as [r|].
  - destruct (@aggregateDaily_returns_digest _ _ _ _ _ Hrun)
      as (s & gte & lte & root & Hs & He & Hsite & Hne & Hroot & Hr & Hw1).
    destruct (withDigest_tables w r) as [Ht1 Ht2]. rewrite <- Hw1 in Ht1, Ht2.
    assert (Hrecs1 : rawTelemetry_findMany (db w1) siteId gte lte
                     = rawTelemetry_findMany (db w) siteId gte lte).
    { unfold rawTelemetry_findMany. rewrite Ht2. reflexivity. }
    assert (Hsite1 : site_findUnique (db w1) siteId = Some s).
    { unfold site_findUnique in *. rewrite Ht1. exact Hsite. }
    rewrite <- Hrecs1 in Hne, Hroot.
    pose proof (@aggregateDaily_some w1 siteId dayUtc gte lte s root Hs He Hsite1 Hne Hroot)
      as Hrun1.
    cbv zeta in Hrun1. rewrite Hrecs1, <- Hr in Hrun1. rewrite Hrun1.
    f_equal. rewrite Hw1. apply withDigest_idempotent.
  - destruct (@aggregateDaily_returns_valid _ _ _ _ _ Hrun) as (gte & lte & Hs & He).
    pose proof Hrun as Hrun0.
    rewrite (@aggregateDaily_cases w siteId dayUtc gte lte Hs He) in Hrun0.
    destruct (site_findUnique (db w) siteId) as [s|] eqn:Hsite; [|discriminate].
    cbv zeta in Hrun0.
    destruct (rawTelemetry_findMany (db w) siteId gte lte) as [|r0 rs] eqn:Hrecs.
    + injection Hrun0 as <-. exact Hrun.
    + destruct (generateMerkleRoot (map t_rowHash (r0 :: rs))); discriminate.
Qed.

Lemma aggregateDaily_idempotent_witness :
  aggregateDaily "PRJ001" (parseDate "2024-01-15") (aggregatedWorld unreachableAdapter)
  = (inr (Some dayResult), aggregatedWorld unreachableAdapter).
Proof.
  apply (@aggregateDaily_idempotent (dayWorld unreachableAdapter)).
  vm_compute. reflexivity.
Defined.

Section FrameFacts.

(** A run that throws has written nothing. *)
Lemma aggregateDaily_throws_unchanged (w w1 : World) (siteId : string) (dayUtc : Date.t)
  (e : exn) :
  aggregateDaily siteId dayUtc w = (inl e, w1) -> w1 = w.
Proof.
  destruct (getDayStart dayUtc) as [gte|] eqn:Hs; [destruct (getDayEnd dayUtc) as [lte|] eqn:He|].
  - rewrite (@aggregateDaily_cases w siteId dayUtc gte lte Hs He).
    destruct (site_findUnique (db w) siteId) as [s|]; [|congruence].
    cbv zeta.
    destruct (rawTelemetry_findMany (db w) siteId gte lte) as [|r0 rs]; [congruence|].
    destruct (generateMerkleRoot (map t_rowHash (r0 :: rs))); congruence.
  - unfold aggregateDaily, mcatch, mbind, lift, mthrow. rewrite Hs, He.
    cbn [timeValue ret throw]. destruct (timeValue dayUtc); congruence.
  - unfold aggregateDaily, mcatch, mbind, lift, mthrow. rewrite Hs.
    cbn [timeValue ret throw]. destruct (timeValue dayUtc); congruence.
Qed.

Lemma aggregateDaily_none_unchanged (w w1 : World) (siteId : string) (dayUtc : Date.t) :
  aggregateDaily siteId dayUtc w = (inr None, w1) -> w1 = w.
Proof.
  intros Hrun. destruct (@aggregateDaily_returns_valid _ _ _ _ _ Hrun) as (gte & lte & Hs & He).
  rewrite (@aggregateDaily_cases w siteId dayUtc gte lte Hs He) in Hrun.
  destruct (site_findUnique (db w) siteId) as [s|]; [|discriminate].
  cbv zeta in Hrun.
  destruct (rawTelemetry_findMany (db w) siteId gte lte) as [|r0 rs]; [congruence|].
  destruct (generateMerkleRoot (map t_rowHash (r0 :: rs))); discriminate.
Qed.

End FrameFacts.

(** X8. Daily aggregation writes nothing but the digest of its site and
    day: the sites, the raw telemetry, the adapter, the requests sent and
    the delays are untouched, the digest of any other site or day is the
    one found before, and the world is unchanged unless a digest is
    returned. *)
Theorem aggregateDaily_frame (w : World) (siteId : string) (dayUtc : Date.t) :
  let run := aggregateDaily siteId dayUtc w in
  site (db (snd run)) = site (db w)
  /\ rawTelemetry (db (snd run)) = rawTelemetry (db w)
  /\ adapter (snd run) = adapter w
  /\ requests (snd run) = requests w
  /\ sleeps (snd run) = sleeps w
  /\ (forall siteId' dayUtc',
        siteId' <> siteId \/ getDayStart dayUtc <> Some dayUtc' ->
        dailyDigest_findUnique (db (snd run)) siteId' dayUtc'
        = dailyDigest_findUnique (db w) siteId' dayUtc')
  /\ ((forall r, fst run <> inr (Some r)) -> snd run = w).
Proof.
  cbv zeta.
  destruct (aggregateDaily siteId dayUtc w) as [[e|[r|]] w1] eqn:Hrun; cbn [fst snd].
  - apply aggregateDaily_throws_unchanged in Hrun. subst w1. auto 10.
  - destruct (@aggregateDaily_returns_digest _ _ _ _ _ Hrun)
      as (s & gte & lte & root & Hs & He & Hsite & Hne & Hroot & Hr & Hw1).
    destruct (withDigest_tables w r) as [Ht1 Ht2]. rewrite <- Hw1 in Ht1, Ht2.
    split; [exact Ht1|]. split; [exact Ht2|].
    rewrite Hw1. cbn [withDigest adapter requests sleeps db].
    do 3 (split; [reflexivity|]).
    split.
    + intros siteId' dayUtc' Hother. apply dailyDigest_upsert_others.
      rewrite Hr. cbn [dailyResultOf a_siteId a_dayUtc].
      destruct Hother as [H|H]; [left; exact H|].
      right. intros ->. apply H. exact Hs.
    + intros H. exfalso. apply (H r). reflexivity.
  - apply aggregateDaily_none_unchanged in Hrun. subst w1. auto 10.
Qed.

(** X9. Recomputing a day that has a digest keeps the digest's identifier,
    its anchored flag and its anchor references while the root, the
    energy, the avoided emissions and the number of rows are replaced; for
    a digest that was anchored, the anchor route then answers "Digest
    already anchored" with the old references. *)
Theorem recompute_keeps_anchor (w w1 : World) (siteId : string) (dayUtc : Date.t)
  (r : DailyAggregationResult) (g : DailyDigest)
  (Hrun : aggregateDaily siteId dayUtc w = (inr (Some r), w1))
  (Hfind : dailyDigest_findUnique (db w) siteId (a_dayUtc r) = Some g) :
  exists g',
    dailyDigest_findUnique (db w1) siteId (a_dayUtc r) = Some g'
    /\ d_id g' = d_id g
    /\ d_anchored g' = d_anchored g
    /\ d_adapterTxId g' = d_adapterTxId g
    /\ d_txHash g' = d_txHash g
    /\ d_merkleRoot g' = a_merkleRoot r
    /\ d_energyKWh g' = a_energyKWh r
    /\ d_avoidedTco2e g' = a_avoidedTco2e r
    /\ d_rows g' = a_rows r
    /\ List.length (dailyDigest (db w1)) = List.length (dailyDigest (db w))
    /\ (forall (env : Env) (day : string),
          parseDate day = Some (a_dayUtc r) -> d_anchored g = true ->
          postAnchor env siteId day w1
          = (inr (ReplyAnchored "Digest already anchored" (d_adapterTxId g) (d_txHash g)),
             w1)).
Proof.
  destruct (@aggregateDaily_returns_digest _ _ _ _ _ Hrun)
    as (s & gte & lte & root & Hs & He & Hsite & Hne & Hroot & Hr & Hw1).
  assert (Hid : a_siteId r = siteId) by (rewrite Hr; reflexivity).
  destruct (@dailyDigest_upsert_existing (db w) siteId (a_dayUtc r) (a_energyKWh r)
              (a_avoidedTco2e r) (a_rows r) (a_merkleRoot r) g Hfind) as [Hg' Hlen].
  assert (Hdb : db w1 = dailyDigest_upsert (db w) siteId (a_dayUtc r) (a_energyKWh r)
                          (a_avoidedTco2e r) (a_rows r) (a_merkleRoot r)).
  { rewrite Hw1. unfold withDigest. cbn [db]. rewrite Hid. reflexivity. }
  exists (setAggregates (a_energyKWh r) (a_avoidedTco2e r) (a_rows r) (a_merkleRoot r) g).
  rewrite Hdb. split; [exact Hg'|].
  do 8 (split; [reflexivity|]). split; [exact Hlen|].
  intros env day Hday Hanch.
  unfold postAnchor, mcatch, mbind, lift, getDb, mret. rewrite Hday.
  cbn [ret]. rewrite Hdb, Hg'. cbn [setAggregates d_anchored d_adapterTxId d_txHash].
  rewrite Hanch. reflexivity.
Qed.

Lemma recompute_keeps_anchor_witness :
  exists g',
    dailyDigest_findUnique (db (withDigest staleWorld dayResult)) "PRJ001" 1705276800000%Z
    = Some g'
    /\ d_anchored g' = true
    /\ d_txHash g' = Some "0xabc"
    /\ d_merkleRoot g'
       = "2445563e21e7dcaee836e947088c5e0f6828fcefb536b0038e77bf9e106d7bfd"
    /\ d_merkleRoot staleDigest
       = "92643b02c75c45966cc112ce3631a7d8dbea786fd7e3b72532257ffdb45d5069".
Proof.
  destruct (@recompute_keeps_anchor staleWorld (withDigest staleWorld dayResult) "PRJ001"
              (parseDate "2024-01-15") dayResult staleDigest
              ltac:(vm_compute; reflexivity) ltac:(vm_compute; reflexivity))
    as (g' & Hg' & _ & Ha & _ & Ht & Hroot & _).
  exists g'. split; [exact Hg'|]. split; [exact Ha|]. split; [exact Ht|].
  split; [exact Hroot | reflexivity].
Defined.

(** ** More on anchoring *)

Section AnchorMore.

Variable env : Env.

Lemma anchorOutcome_invariant (o : FetchOutcome) :
  (success (anchorOutcome o) = true <-> error (anchorOutcome o) = None)
  /\ (success (anchorOutcome o) = false ->
      adapterTxId (anchorOutcome o) = None /\ txHash (anchorOutcome o) = None).
Proof.
  unfold anchorOutcome.
  destruct (submitResult o) as [e|[[[ok st] txt] [body|]]]; cbn [success error adapterTxId txHash];
    split; try split; try discriminate; try reflexivity; try (intros _; split; reflexivity).
Qed.

(** Every run of [anchorDigest] returns a result. *)
Lemma anchorDigest_result (digest : DailyDigest) (w : World) :
  exists (r : AnchorResult) (w' : World) (k : nat),
    anchorDigest env digest w = (inr r, w')
    /\ db w' = db w
    /\ adapter w' = adapter w
    /\ (success r = true <-> error r = None)
    /\ (success r = false -> adapterTxId r = None /\ txHash r = None)
    /\ (k <= 4)%nat
    /\ requests w' = (requests w ++ repeat (anchorRequest env digest) k)%list
    /\ sleeps w' = (sleeps w ++ backoffDelays 1000 0 (pred k))%list
    /\ (ANCHOR_ENABLED env = false \/ configured env = false -> w' = w).
Proof.
  destruct (ANCHOR_ENABLED env) eqn:Hen; [destruct (configured env) eqn:Hcfg|].
  - rewrite (@anchorDigest_configured env digest w Hen Hcfg).
    eexists _, _, (S (failedAttempts (adapter w) (List.length (requests w)) 3)).
    split; [reflexivity|]. cbn [db adapter requests sleeps pred].
    do 2 (split; [reflexivity|]).
    split; [apply anchorOutcome_invariant|]. split; [apply anchorOutcome_invariant|].
    split; [pose proof (failedAttempts_le (adapter w) 3 (List.length (requests w))); lia|].
    do 2 (split; [reflexivity|]). intros [H|H]; discriminate.
  - rewrite (@anchorDigest_not_configured env digest w Hen Hcfg).
    eexists _, _, O. split; [reflexivity|]. cbn [success error adapterTxId txHash repeat pred].
    unfold backoffDelays. cbn [seq map]. rewrite !app_nil_r.
    do 2 (split; [reflexivity|]). split; [split; discriminate|].
    split; [intros _; split; reflexivity|]. split; [lia|]. auto.
  - rewrite (@anchorDigest_disabled env digest w Hen).
    eexists _, _, O. split; [reflexivity|]. cbn [success error adapterTxId txHash repeat pred].
    unfold backoffDelays. cbn [seq map]. rewrite !app_nil_r.
    do 2 (split; [reflexivity|]). split; [split; reflexivity|].
    split; [discriminate|]. split; [lia|]. auto.
Qed.

End AnchorMore.

(** X10. [anchorDigest] never throws: it returns a result, leaves the
    database and the adapter as they are, reports success exactly when it
    reports no error, carries no reference on failure, sends at most four
    requests, all the same, and waits 1000, 2000, 4000 ms between them. *)
Theorem anchorDigest_never_throws (env : Env) (digest : DailyDigest) (w : World) :
  exists (r : AnchorResult) (w' : World) (k : nat),
    anchorDigest env digest w = (inr r, w')
    /\ db w' = db w
    /\ adapter w' = adapter w
    /\ (success r = true <-> error r = None)
    /\ (success r = false -> adapterTxId r = None /\ txHash r = None)
    /\ (k <= 4)%nat
    /\ requests w' = (requests w ++ repeat (anchorRequest env digest) k)%list
    /\ sleeps w' = (sleeps w ++ map (fun i => (1000 * 2 ^ Z.of_nat i)%Z) (seq 0 (pred k)))%list.
Proof.
  destruct (anchorDigest_result env digest w)
    as (r & w' & k & Hrun & Hdb & Had & Hs & Hf & Hk & Hreq & Hsl & _).
  exists r, w', k. auto 10.
Qed.




(** X13. With anchoring switched off, the anchor route marks an unanchored
    digest as anchored with the references "disabled" without sending a
    request; afterwards, with anchoring switched on, the route answers
    "Digest already anchored" and sends nothing, and the anchor worker, which
    throws at its first statement as the module is written, sends nothing
    either: the digest is never submitted. *)
Theorem disabled_anchoring_marks_anchored
  (envOff envOn : Env) (w : World) (siteId day : string) (ms : Z) (digest : DailyDigest)
  (Hoff : ANCHOR_ENABLED envOff = false)
  (Hday : parseDate day = Some ms)
  (Hfind : dailyDigest_findUnique (db w) siteId ms = Some digest)
  (Hunanchored : d_anchored digest = false) :
  exists w1,
    postAnchor envOff siteId day w
    = (inr (ReplyAnchored "Digest anchored successfully" (Some "disabled") (Some "disabled")),
       w1)
    /\ requests w1 = requests w
    /\ dailyDigest_findUnique (db w1) siteId ms
       = Some (setAnchored (Some "disabled") (Some "disabled") digest)
    /\ postAnchor envOn siteId day w1
       = (inr (ReplyAnchored "Digest already anchored" (Some "disabled") (Some "disabled")),
          w1)
    /\ anchorWorker envOn (d_id digest) w1
       = (inl (TypeError "Cannot read properties of undefined (reading 'info')"), w1).
Proof.
  eexists. split.
  - unfold postAnchor, storeAnchor, putDb, mcatch, mbind, lift, getDb, mret.
    rewrite Hday. cbn [ret]. rewrite Hfind, Hunanchored.
    rewrite (@anchorDigest_disabled envOff digest w Hoff).
    cbn [success adapterTxId txHash db adapter requests sleeps]. reflexivity.
  - cbn [requests db]. split; [reflexivity|].
    pose proof (@findUnique_after_update (db w) siteId ms digest (Some "disabled")
                  (Some "disabled") Hfind) as Hfound.
    split; [exact Hfound|]. split.
    + unfold postAnchor, mcatch, mbind, lift, getDb, mret.
      rewrite Hday. cbn [ret db]. rewrite Hfound. reflexivity.
    + reflexivity.
Qed.

Lemma disabled_anchoring_marks_anchored_witness :
  exists w1,
    postAnchor {| ANCHOR_ENABLED := false; ADAPTER_API_URL := None; ADAPTER_API_KEY := None |}
               "PRJ001" "2024-01-15" (worldOf digestDb acceptingAdapter)
    = (inr (ReplyAnchored "Digest anchored successfully" (Some "disabled") (Some "disabled")),
       w1)
    /\ requests w1 = []
    /\ postAnchor anchoringEnv "PRJ001" "2024-01-15" w1
       = (inr (ReplyAnchored "Digest already anchored" (Some "disabled") (Some "disabled")),
          w1).
Proof.
  destruct (@disabled_anchoring_marks_anchored
              {| ANCHOR_ENABLED := false; ADAPTER_API_URL := None; ADAPTER_API_KEY := None |}
              anchoringEnv (worldOf digestDb acceptingAdapter) "PRJ001" "2024-01-15"
              1705276800000%Z dayDigest eq_refl
              ltac:(vm_compute; reflexivity) ltac:(vm_compute; reflexivity) eq_refl)
    as (w1 & Hfirst & Hreq & _ & Hsecond & _).
  exists w1. split; [exact Hfirst|]. split; [exact Hreq | exact Hsecond].
Defined.

(** ** Ingestion *)

(** X14. The row hash does not cover the wind speed, the source or the
    unique key: two readings that agree on the site, the instant, the
    irradiance, the temperature, the power, the energy and the status
    have the same row hash. *)
Theorem rowHash_ignores_wind_source_key
  (cfg : PrecisionConfig) (a b : RawTelemetryInput) (na nb : NormalizedTelemetry)
  (Hsite : r_siteId a = r_siteId b)
  (Hts : Date.parse (r_tsUtc a) = Date.parse (r_tsUtc b))
  (Hirr : r_poaIrrWm2 a = r_poaIrrWm2 b)
  (Htemp : r_tempC a = r_tempC b)
  (Hpower : r_acPowerKw a = r_acPowerKw b)
  (Henergy : r_acEnergyKWh a = r_acEnergyKWh b)
  (Hstatus : r_status a = r_status b)
  (Ha : normalizeTelemetry cfg a = inr na)
  (Hb : normalizeTelemetry cfg b = inr nb) :
  n_rowHash na = n_rowHash nb.
Proof.
  destruct (@normalizeTelemetry_inv _ _ _ Ha)
    as (ms & Hp & _ & Hs & Hst & H1 & H2 & _ & H4 & H5 & Hh).
  destruct (@normalizeTelemetry_inv _ _ _ Hb)
    as (ms' & Hp' & _ & Hs' & Hst' & H1' & H2' & _ & H4' & H5' & Hh').
  rewrite Hh, Hh', Hs, Hs', Hst, Hst', Hsite, Hstatus.
  assert (ms = ms') as -> by congruence.
  rewrite Hirr in H1. rewrite Htemp in H2. rewrite Hpower in H4. rewrite Henergy in H5.
  assert (E1 : n_poaIrrWm2 na = n_poaIrrWm2 nb) by congruence.
  assert (E2 : n_tempC na = n_tempC nb) by congruence.
  assert (E4 : n_acPowerKw na = n_acPowerKw nb) by congruence.
  assert (E5 : n_acEnergyKWh na = n_acEnergyKWh nb) by congruence.
  rewrite E1, E2, E4, E5. reflexivity.
Qed.

Lemma rowHash_ignores_wind_source_key_witness :
  exists na nb,
    normalizeTelemetry defaultPrecision testReading = inr na
    /\ normalizeTelemetry defaultPrecision testReadingMqtt = inr nb
    /\ n_rowHash na = n_rowHash nb.
Proof.
  destruct (normalizeTelemetry defaultPrecision testReading) as [e|na] eqn:Ha;
    [vm_compute in Ha; discriminate|].
  destruct (normalizeTelemetry defaultPrecision testReadingMqtt) as [e|nb] eqn:Hb;
    [vm_compute in Hb; discriminate|].
  exists na, nb. split; [reflexivity|]. split; [reflexivity|].
  apply (@rowHash_ignores_wind_source_key defaultPrecision testReading testReadingMqtt na nb);
    try assumption; vm_compute; reflexivity.
Defined.

Section UpsertFacts.

Lemma existsb_find {A} (p : A -> bool) (l : list A) :
  existsb p l = match find p l with
                | Some _ => true
                | None => false
                end.
Proof.
  induction l as [|x l IH]; [reflexivity|].
  cbn [existsb find]. destruct (p x); [reflexivity | exact IH].
Qed.

Lemma row_key_rowOf (n : NormalizedTelemetry) (ts : Z) :
  row_key (n_siteId n) ts (rowOf n ts) = true.
Proof.
  unfold row_key, rowOf. cbn [t_siteId t_tsUtc].
  rewrite String.eqb_refl, Z.eqb_refl. reflexivity.
Qed.

Lemma existsb_snoc {A} (p : A -> bool) (l : list A) (x : A) :
  existsb p (l ++ [x])%list = existsb p l || p x.
Proof. rewrite existsb_app. cbn [existsb]. rewrite orb_false_r. reflexivity. Qed.

Lemma existsb_map_keep {A} (p : A -> bool) (f : A -> A) (l : list A) :
  (forall x, p (f x) = p x) -> existsb p (map f l) = existsb p l.
Proof.
  intros Hp. induction l as [|x l IH]; [reflexivity|].
  cbn [map existsb]. rewrite Hp, IH. reflexivity.
Qed.

Lemma existsb_false_map {A} (p : A -> bool) (f : A -> A) (l : list A) :
  existsb p l = false -> map (fun x => if p x then f x else x) l = l.
Proof.
  induction l as [|x l IH]; [reflexivity|].
  cbn [existsb map]. destruct (p x); [discriminate|]. intros H. f_equal. exact (IH H).
Qed.

Lemma orKeep_idem {A} (new old : option A) : orKeep new (orKeep new old) = orKeep new old.
Proof. destruct new; reflexivity. Qed.

Lemma orKeep_same {A} (new : option A) : orKeep new new = new.
Proof. destruct new; reflexivity. Qed.

Lemma updatedRow_idem (n : NormalizedTelemetry) (r : RawTelemetry) :
  updatedRow n (updatedRow n r) = updatedRow n r.
Proof.
  unfold updatedRow.
  cbn [t_siteId t_tsUtc t_poaIrrWm2 t_tempC t_windMps t_acPowerKw t_acEnergyKWh t_status
       t_uniqKey].
  rewrite !orKeep_idem. reflexivity.
Qed.

Lemma updatedRow_rowOf (n : NormalizedTelemetry) (ts : Z) :
  updatedRow n (rowOf n ts) = rowOf n ts.
Proof.
  unfold updatedRow, rowOf.
  cbn [t_siteId t_tsUtc t_poaIrrWm2 t_tempC t_windMps t_acPowerKw t_acEnergyKWh t_status
       t_uniqKey].
  rewrite !orKeep_same. reflexivity.
Qed.

Lemma row_key_updatedRow (siteId : string) (ts : Z) (n : NormalizedTelemetry)
  (r : RawTelemetry) :
  row_key siteId ts (updatedRow n r) = row_key siteId ts r.
Proof. reflexivity. Qed.

End UpsertFacts.

(** X15. The upsert of a normalised reading is idempotent: a second upsert
    of the same reading leaves the database as the first one did. The row
    found under (site, instant) afterwards carries the reading's row hash
    and source; if the key was new it is the reading, and the table has
    grown by one row; if a row was stored under the key, each metric, the
    status and the message key that the reading has replaces the stored
    one and each that it lacks keeps the stored one, so a row can carry the
    hash of a reading without a metric beside the metric of an earlier
    one. Sites and digests are untouched. *)
Theorem rawTelemetry_upsert_idempotent (d d1 : Db) (n : NormalizedTelemetry)
  (Hfirst : rawTelemetry_upsert d n = inr d1) :
  rawTelemetry_upsert d1 n = inr d1
  /\ (exists ts r,
        n_tsUtc n = Some ts
        /\ rawTelemetry_findUnique d1 (n_siteId n) ts = Some r
        /\ t_rowHash r = n_rowHash n
        /\ t_source r = n_source n
        /\ (rawTelemetry_findUnique d (n_siteId n) ts = None ->
            r = rowOf n ts
            /\ List.length (rawTelemetry d1) = S (List.length (rawTelemetry d)))
        /\ (forall old,
              rawTelemetry_findUnique d (n_siteId n) ts = Some old ->
              r = updatedRow n old
              /\ List.length (rawTelemetry d1) = List.length (rawTelemetry d)
              /\ (n_acEnergyKWh n = None -> t_acEnergyKWh r = t_acEnergyKWh old)
              /\ (forall v, n_acEnergyKWh n = Some v -> t_acEnergyKWh r = Some v)))
  /\ site d1 = site d
  /\ dailyDigest d1 = dailyDigest d.
Proof.
  unfold rawTelemetry_upsert in *. destruct (n_tsUtc n) as [ts|] eqn:Hts; [|discriminate].
  unfold ret in *. injection Hfirst as <-. cbn [rawTelemetry site dailyDigest nextId].
  unfold rawTelemetry_findUnique. cbn [rawTelemetry].
  set (key := row_key (n_siteId n) ts).
  set (f := fun r : RawTelemetry => if key r then updatedRow n r else r).
  assert (Hkeep : forall x, key (f x) = key x).
  { intros x. unfold f. destruct (key x) eqn:Hx; [|exact Hx].
    unfold key. rewrite row_key_updatedRow. exact Hx. }
  destruct (existsb key (rawTelemetry d)) eqn:Hex.
  - split; [|split; [|split; reflexivity]].
    + rewrite (existsb_map_keep key f _ Hkeep), Hex. do 2 f_equal.
      rewrite map_map. apply map_ext. intros x. unfold f.
      destruct (key x) eqn:Hx; [|rewrite Hx; reflexivity].
      unfold key. rewrite row_key_updatedRow. fold key. rewrite Hx.
      apply updatedRow_idem.
    + rewrite existsb_find in Hex.
      destruct (find key (rawTelemetry d)) as [old|] eqn:Hf; [|discriminate].
      assert (Hnew : find key (map f (rawTelemetry d)) = Some (updatedRow n old)).
      { rewrite (find_map_keep key f _ Hkeep), Hf. cbn [option_map]. unfold f.
        pose proof (find_some _ _ Hf) as [_ Hk]. rewrite Hk. reflexivity. }
      exists ts, (updatedRow n old).
      split; [reflexivity|]. split; [exact Hnew|]. split; [reflexivity|].
      split; [reflexivity|]. fold key. rewrite Hf. split; [discriminate|].
      intros old' H. injection H as <-. split; [reflexivity|].
      split; [apply length_map|].
      cbn [updatedRow t_acEnergyKWh]. split.
      * intros ->. reflexivity.
      * intros v ->. reflexivity.
  - split; [|split; [|split; reflexivity]].
    + rewrite existsb_snoc, Hex. unfold key at 1. rewrite row_key_rowOf. cbn [orb].
      do 2 f_equal. rewrite map_app. fold key. fold f.
      unfold f at 1. rewrite (existsb_false_map key _ _ Hex). cbn [map]. f_equal.
      unfold f, key. rewrite row_key_rowOf, updatedRow_rowOf. reflexivity.
    + rewrite existsb_find in Hex.
      destruct (find key (rawTelemetry d)) as [old|] eqn:Hf; [discriminate|].
      assert (Hnew : find key (rawTelemetry d ++ [rowOf n ts])%list = Some (rowOf n ts)).
      { rewrite find_snoc, Hf. unfold key. rewrite row_key_rowOf. reflexivity. }
      exists ts, (rowOf n ts).
      split; [reflexivity|]. split; [exact Hnew|]. split; [reflexivity|].
      split; [reflexivity|]. fold key. rewrite Hf. split; [|discriminate].
      intros _. split; [reflexivity|]. rewrite length_app. cbn [List.length]. lia.
Qed.

Lemma rawTelemetry_upsert_idempotent_witness :
  exists d1 n,
    ingestReading defaultPrecision testReading = inr n
    /\ rawTelemetry_upsert seededDb n = inr d1
    /\ rawTelemetry_upsert d1 n = inr d1.
Proof.
  destruct (ingestReading defaultPrecision testReading) as [e|n] eqn:Hn;
    [vm_compute in Hn; discriminate|].
  destruct (rawTelemetry_upsert seededDb n) as [e|d1] eqn:Hd.
  - exfalso. vm_compute in Hn. injection Hn as <-. vm_compute in Hd. discriminate.
  - exists d1, n. split; [reflexivity|]. split; [exact Hd|].
    apply (@rawTelemetry_upsert_idempotent seededDb d1 n Hd).
Defined.

Section BatchFacts.

Variable cfg : PrecisionConfig.

Lemma ingestRecord_returns (input : RawTelemetryInput) (w : World) :
  exists v w', ingestRecord cfg input w = (inr v, w')
               /\ adapter w' = adapter w /\ requests w' = requests w /\ sleeps w' = sleeps w
               /\ site (db w') = site (db w) /\ dailyDigest (db w') = dailyDigest (db w)
               /\ (forall e, v = inl e -> w' = w).
Proof.
  unfold ingestRecord, mcatch, mbind, lift, getDb, putDb, mret.
  destruct (normalizeTelemetry cfg input) as [e|n].
  { eexists _, _. split; [reflexivity|]. auto 10. }
  unfold rawTelemetry_upsert.
  destruct (n_tsUtc n) as [ts|] eqn:Hts.
  2:{ cbn [throw]. eexists _, _. split; [reflexivity|]. auto 10. }
  cbn [ret Date.toISOString]. eexists _, _. split; [reflexivity|].
  cbn [adapter requests sleeps db site dailyDigest]. do 5 (split; [reflexivity|]).
  discriminate.
Qed.

Lemma ingestLoop_accounts (clamped : list RawTelemetryInput) :
  forall (results : list IngestResult) (errors : list IngestError) (w : World),
  exists results' errors' w',
    ingestLoop cfg clamped results errors w = (inr (results', errors'), w')
    /\ (List.length results' + List.length errors'
        = List.length results + List.length errors + List.length clamped)%nat
    /\ (List.length errors <= List.length errors')%nat
    /\ adapter w' = adapter w /\ requests w' = requests w /\ sleeps w' = sleeps w
    /\ site (db w') = site (db w) /\ dailyDigest (db w') = dailyDigest (db w).
Proof.
  induction clamped as [|input rest IH]; intros results errors w.
  - exists results, errors, w. split; [reflexivity|]. cbn [List.length]. split; [lia|]. auto 10.
  - cbn [ingestLoop]. unfold mbind.
    destruct (ingestRecord_returns input w) as (v & w1 & Hrun & H1 & H2 & H3 & H4 & H5 & _).
    rewrite Hrun. destruct v as [err|res].
    + destruct (IH results (errors ++ [err])%list w1)
        as (rs' & es' & w' & Hloop & Hlen & Hmono & G1 & G2 & G3 & G4 & G5).
      exists rs', es', w'. split; [exact Hloop|].
      rewrite length_app in Hlen, Hmono. cbn [List.length] in *.
      split; [lia|]. split; [lia|]. repeat split; congruence.
    + destruct (IH (results ++ [res])%list errors w1)
        as (rs' & es' & w' & Hloop & Hlen & Hmono & G1 & G2 & G3 & G4 & G5).
      exists rs', es', w'. split; [exact Hloop|].
      rewrite length_app in Hlen. cbn [List.length] in *.
      split; [lia|]. split; [lia|]. repeat split; congruence.
Qed.

End BatchFacts.

(** X16. [createError] hands its code and its status to the constructor
    of [OracleError] in the other order: the error's [statusCode] is the
    code string, its [code] is the status number (500 when none is given).
    In the batch route the error made for an empty array therefore reaches
    [reply.code] with the status "INVALID_INPUT", which [reply.code]
    refuses, where it would have taken 400: the handler throws out of its
    own [catch] block and sends neither the status 400 nor the body with the
    error's message. *)
Theorem createError_swaps_code_and_status :
  (forall (message code : string) (statusCode : Z),
     let error := createError message code (Some statusCode) in
     e_statusCode error = JsString code
     /\ e_code error = JsNumber statusCode
     /\ (forall n, e_statusCode error <> JsNumber n))
  /\ (forall message code,
        e_code (createError message code None) = JsNumber 500
        /\ e_statusCode (createError message code None) = JsString code)
  /\ (forall message code statusCode,
        e_code (newOracleError message code (Some statusCode)) = code
        /\ e_statusCode (newOracleError message code (Some statusCode)) = statusCode
        /\ e_statusCode (newOracleError message code None) = JsNumber 500)
  /\ reply_code (JsString "INVALID_INPUT")
     = inl (Error ("FST_ERR_BAD_STATUS_CODE: "
                   ++ "Called reply with an invalid status code: INVALID_INPUT"))
  /\ reply_code (JsNumber 400) = inr tt
  /\ (forall cfg w,
        ingestTelemetry cfg [] w
        = (inl (Error ("FST_ERR_BAD_STATUS_CODE: "
                       ++ "Called reply with an invalid status code: INVALID_INPUT")), w)).
Proof.
  assert (Hrefused : reply_code (JsString "INVALID_INPUT")
                     = inl (Error ("FST_ERR_BAD_STATUS_CODE: "
                                   ++ "Called reply with an invalid status code: INVALID_INPUT")))
    by (vm_compute; reflexivity).
  split; [|split; [|split; [|split; [|split]]]].
  - intros message code statusCode. cbv zeta.
    split; [reflexivity|]. split; [reflexivity | discriminate].
  - intros. split; reflexivity.
  - intros. repeat split; reflexivity.
  - exact Hrefused.
  - vm_compute. reflexivity.
  - intros cfg w. unfold ingestTelemetry. cbn [List.length Nat.eqb].
    unfold mbind, lift.
    change (e_statusCode (createError "Telemetry array is required and must not be empty"
                                      "INVALID_INPUT" (Some 400%Z)))
      with (JsString "INVALID_INPUT").
    rewrite Hrefused. reflexivity.
Qed.

(** X17. The batch route on a non-empty array: if one reading fails the
    schema, the answer is 500 "Internal server error" and nothing is
    stored; otherwise every reading is either among the results or among
    the errors, the list of errors is left out when empty, and sites,
    digests and requests are untouched. *)
Theorem ingestTelemetry_accounts_for_every_reading
  (cfg : PrecisionConfig) (telemetry : list RawTelemetryInput) (w : World)
  (Hnonempty : telemetry <> []) :
  (forallb schema_accepts telemetry = false ->
   ingestTelemetry cfg telemetry w
   = (inr (IngestFailed (JsNumber 500) "Internal server error" None), w))
  /\ (forallb schema_accepts telemetry = true ->
      exists results errors w',
        ingestTelemetry cfg telemetry w = (inr (IngestDone (List.length results) results errors), w')
        /\ (List.length results
            + match errors with
              | Some l => List.length l
              | None => 0
              end = List.length telemetry)%nat
        /\ (errors <> Some [])
        /\ site (db w') = site (db w)
        /\ dailyDigest (db w') = dailyDigest (db w)
        /\ requests w' = requests w).
Proof.
  unfold ingestTelemetry.
  destruct telemetry as [|t0 ts]; [congruence|].
  cbn [List.length Nat.eqb]. unfold mcatch, mbind, lift, validateTelemetryArray.
  split; intros Hv; rewrite Hv.
  - reflexivity.
  - cbn [ret].
    destruct (ingestLoop_accounts cfg (map clampValues (t0 :: ts)) [] [] w)
      as (rs & es & w' & Hloop & Hlen & _ & _ & G2 & _ & G4 & G5).
    rewrite Hloop. unfold mret.
    rewrite length_map in Hlen. cbn [List.length] in Hlen.
    exists rs, (if (0 <? List.length es)%nat then Some es else None), w'.
    split; [reflexivity|].
    destruct es as [|e0 es]; cbn [List.length Nat.ltb Nat.leb] in *.
    + change (0 <? 0)%nat with false. cbv iota. split; [lia|]. split; [discriminate|]. auto.
    + change (0 <? S (List.length es))%nat with true. cbv iota.
      cbn [List.length]. split; [lia|]. split; [discriminate|]. auto.
Qed.

Lemma ingestTelemetry_accounts_for_every_reading_witness :
  exists results errors w',
    ingestTelemetry defaultPrecision dayReadings (worldOf seededDb unreachableAdapter)
    = (inr (IngestDone (List.length results) results errors), w')
    /\ (List.length results
        + match errors with
          | Some l => List.length l
          | None => 0
          end = 3)%nat.
Proof.
  destruct (@ingestTelemetry_accounts_for_every_reading defaultPrecision dayReadings
              (worldOf seededDb unreachableAdapter) ltac:(discriminate)) as [_ H].
  destruct (H ltac:(vm_compute; reflexivity)) as (rs & es & w' & Hrun & Hlen & _).
  exists rs, es, w'. split; [exact Hrun | exact Hlen].
Defined.

(** ** Windows of days and hours *)

Section Windows.

#[local] Ltac Zify.zify_post_hook ::= Z.to_euclidean_division_equations.

Lemma timeClip_Some (x ms : Z) :
  Date.timeClip x = Some ms -> ms = x /\ (Z.abs x <= 8640000000000000)%Z.
Proof.
  unfold Date.timeClip. destruct (Z.leb_spec (Z.abs x) 8640000000000000) as [Hle|Hgt];
    [|discriminate].
  intros H. injection H as <-. split; [reflexivity | exact Hle].
Qed.

Lemma timeClip_in_range (x : Z) :
  (Z.abs x <= 8640000000000000)%Z -> Date.timeClip x = Some x.
Proof.
  intros H. unfold Date.timeClip.
  destruct (Z.leb_spec (Z.abs x) 8640000000000000); [reflexivity | lia].
Qed.

Lemma getDayStart_Some (dayUtc : Date.t) (gte : Z) :
  getDayStart dayUtc = Some gte ->
  exists ms, dayUtc = Some ms
             /\ gte = (ms / Date.msPerDay * Date.msPerDay)%Z
             /\ (Z.abs gte <= 8640000000000000)%Z.
Proof.
  destruct dayUtc as [ms|]; [|discriminate].
  unfold getDayStart, Date.setUTCHours_start. intros H.
  apply timeClip_Some in H as [-> Hr]. exists ms. auto.
Qed.

Lemma getDayEnd_Some (dayUtc : Date.t) (lte : Z) :
  getDayEnd dayUtc = Some lte ->
  exists ms, dayUtc = Some ms
             /\ lte = (ms / Date.msPerDay * Date.msPerDay + 86399999)%Z
             /\ (Z.abs lte <= 8640000000000000)%Z.
Proof.
  destruct dayUtc as [ms|]; [|discriminate].
  unfold getDayEnd, Date.setUTCHours_end. intros H.
  apply timeClip_Some in H as [-> Hr]. exists ms. auto.
Qed.

(** The hours of a day start at the multiples of an hour after its start. *)
Lemma hour_of_day (gte lte : Z) (dayUtc : Date.t) (h : nat) :
  getDayStart dayUtc = Some gte -> getDayEnd dayUtc = Some lte -> (h < 24)%nat ->
  getHourStart (Some (gte + Z.of_nat h * msPerHour)%Z) = Some (gte + Z.of_nat h * msPerHour)%Z
  /\ hourEndOf (Some (gte + Z.of_nat h * msPerHour)%Z)
     = Some (gte + Z.of_nat h * msPerHour + 3599999)%Z.
Proof.
  intros Hs He Hh.
  apply getDayStart_Some in Hs as (ms & -> & -> & Hr1).
  apply getDayEnd_Some in He as (ms' & Hms & -> & Hr2). injection Hms as <-.
  unfold getHourStart, hourEndOf, msPerHour, Date.msPerDay in *.
  assert (E : ((ms / 86400000 * 86400000 + Z.of_nat h * 3600000) / 3600000 * 3600000
               = ms / 86400000 * 86400000 + Z.of_nat h * 3600000)%Z) by lia.
  rewrite E. split; rewrite timeClip_in_range; try reflexivity; try lia.
  f_equal. lia.
Qed.

Lemma insertByTs_length (r : RawTelemetry) (l : list RawTelemetry) :
  List.length (insertByTs r l) = S (List.length l).
Proof.
  induction l as [|y l IH]; [reflexivity|].
  cbn [insertByTs]. destruct (t_tsUtc r <=? t_tsUtc y)%Z; cbn [List.length]; [reflexivity|].
  rewrite IH. reflexivity.
Qed.

Lemma sortByTs_length (l : list RawTelemetry) :
  List.length (fold_right insertByTs [] l) = List.length l.
Proof.
  induction l as [|x l IH]; [reflexivity|].
  cbn [fold_right]. rewrite insertByTs_length, IH. reflexivity.
Qed.

Lemma insertByTs_perm (r : RawTelemetry) (l : list RawTelemetry) :
  Permutation (insertByTs r l) (r :: l).
Proof.
  induction l as [|y l IH]; [apply Permutation_refl|].
  cbn [insertByTs]. destruct (t_tsUtc r <=? t_tsUtc y)%Z; [apply Permutation_refl|].
  eapply perm_trans; [apply perm_skip, IH | apply perm_swap].
Qed.

Lemma sortByTs_perm (l : list RawTelemetry) : Permutation (fold_right insertByTs [] l) l.
Proof.
  induction l as [|x l IH]; [constructor|].
  cbn [fold_right]. eapply perm_trans; [apply insertByTs_perm | apply perm_skip, IH].
Qed.

Lemma list_sum_cons (x : nat) (l : list nat) : list_sum (x :: l) = (x + list_sum l)%nat.
Proof. reflexivity. Qed.

(** The number of rows of a site in a window. *)
Lemma findMany_length (d : Db) (siteId : string) (gte lte : Z) :
  List.length (rawTelemetry_findMany d siteId gte lte)
  = list_sum (map (fun r => Nat.b2n (String.eqb (t_siteId r) siteId
                                     && (gte <=? t_tsUtc r)%Z && (t_tsUtc r <=? lte)%Z))
                  (rawTelemetry d)).
Proof.
  unfold rawTelemetry_findMany. rewrite sortByTs_length.
  induction (rawTelemetry d) as [|x l IH]; [reflexivity|].
  cbn [filter map]. rewrite list_sum_cons.
  destruct (String.eqb (t_siteId x) siteId && (gte <=? t_tsUtc x)%Z && (t_tsUtc x <=? lte)%Z);
    cbn [List.length Nat.b2n]; rewrite IH; reflexivity.
Qed.

(** An instant lies in exactly one of the [n] windows of width [width]
    that follow [a], or in none when it lies outside all of them. *)
Lemma window_split (a t width : Z) (n : nat) :
  (0 < width)%Z ->
  list_sum (map (fun h => Nat.b2n ((a + Z.of_nat h * width <=? t)%Z
                                   && (t <=? a + Z.of_nat h * width + (width - 1))%Z))
                (seq 0 n))
  = Nat.b2n ((a <=? t)%Z && (t <=? a + Z.of_nat n * width - 1)%Z).
Proof.
  intros Hw. induction n as [|n IH].
  - cbn [seq map]. change (list_sum []) with 0%nat.
    destruct (Z.leb_spec a t); destruct (Z.leb_spec t (a + Z.of_nat 0 * width - 1));
      cbn [andb Nat.b2n]; try reflexivity; lia.
  - rewrite seq_S, map_app, list_sum_app, IH. cbn [map Nat.add].
    rewrite list_sum_cons. change (list_sum []) with 0%nat. rewrite Nat.add_0_r.
    destruct (Z.leb_spec a t);
      destruct (Z.leb_spec t (a + Z.of_nat n * width - 1));
      destruct (Z.leb_spec (a + Z.of_nat n * width) t);
      destruct (Z.leb_spec t (a + Z.of_nat n * width + (width - 1)));
      destruct (Z.leb_spec t (a + Z.of_nat (S n) * width - 1));
      cbn [andb Nat.b2n Nat.add]; try reflexivity; nia.
Qed.

Lemma list_sum_map_add {A} (f g : A -> nat) (l : list A) :
  list_sum (map (fun x => (f x + g x)%nat) l) = (list_sum (map f l) + list_sum (map g l))%nat.
Proof.
  induction l as [|x l IH]; [reflexivity|]. cbn [map]. rewrite !list_sum_cons, IH. lia.
Qed.

Lemma list_sum_swap {A B} (f : A -> B -> nat) (la : list A) (lb : list B) :
  list_sum (map (fun a => list_sum (map (fun b => f a b) lb)) la)
  = list_sum (map (fun b => list_sum (map (fun a => f a b) la)) lb).
Proof.
  induction la as [|a la IH].
  - cbn [map]. induction lb as [|b lb IHb]; [reflexivity|].
    cbn [map]. rewrite list_sum_cons, <- IHb. reflexivity.
  - cbn [map]. rewrite list_sum_cons, IH, <- list_sum_map_add. reflexivity.
Qed.

(** The rows of the windows of the hours of a day add up to the rows of
    the window of the day. *)
Lemma hours_tile_day (d : Db) (siteId : string) (gte : Z) :
  list_sum (map (fun h => List.length
                            (rawTelemetry_findMany d siteId
                               (gte + Z.of_nat h * msPerHour)%Z
                               (gte + Z.of_nat h * msPerHour + 3599999)%Z))
                (seq 0 24))
  = List.length (rawTelemetry_findMany d siteId gte (gte + 86399999)%Z).
Proof.
  rewrite findMany_length.
  erewrite map_ext; [|intros h; apply findMany_length].
  rewrite (list_sum_swap
             (fun h r => Nat.b2n (String.eqb (t_siteId r) siteId
                                  && (gte + Z.of_nat h * msPerHour <=? t_tsUtc r)%Z
                                  && (t_tsUtc r <=? gte + Z.of_nat h * msPerHour + 3599999)%Z))).
  f_equal. apply map_ext. intros r.
  destruct (String.eqb (t_siteId r) siteId); cbn [andb].
  - change 3599999%Z with (msPerHour - 1)%Z.
    rewrite (@window_split gte (t_tsUtc r) msPerHour 24) by (unfold msPerHour; lia).
    unfold msPerHour. do 3 f_equal. lia.
  - clear. induction (seq 0 24) as [|h l IH]; [reflexivity|].
    cbn [map]. rewrite list_sum_cons. exact IH.
Qed.

End Windows.

Section HourlyFacts.

Lemma getHourStart_valid (hourUtc : Date.t) (gte : Z) :
  getHourStart hourUtc = Some gte -> exists ms, hourUtc = Some ms.
Proof. destruct hourUtc as [ms|]; [eauto | discriminate]. Qed.

Lemma aggregateHourly_cases (s : Store) (siteId : string) (hourUtc : Date.t) (gte lte : Z) :
  getHourStart hourUtc = Some gte ->
  hourEndOf (Some gte) = Some lte ->
  aggregateHourly siteId hourUtc s =
  let telemetryRecords := rawTelemetry_findMany (db (world s)) siteId gte lte in
  match telemetryRecords with
  | [] => (inr None, s)
  | _ :: _ =>
      (inr (Some (hourlyResultOf siteId gte telemetryRecords)),
       {| world := world s;
          hourlySummary := hourlySummary_upsert (hourlySummary s)
                             (hourlyResultOf siteId gte telemetryRecords);
          anchorQueue := anchorQueue s |})
  end.
Proof.
  intros Hs He. destruct s as [w hs q].
  unfold aggregateHourly, scatch, sbind, liftM, lift, getDb, sret, getSummaries, putSummaries.
  rewrite Hs, He. cbn [timeValue ret world hourlySummary anchorQueue]. cbv zeta.
  destruct (rawTelemetry_findMany (db w) siteId gte lte) as [|r rs]; reflexivity.
Qed.

Lemma present_nil (l : list (option number)) :
  present l = [] <-> forall x, In x l -> x = None.
Proof.
  induction l as [|[v|] l IH]; cbn [present In].
  - split; [intros _ x [] | reflexivity].
  - split; [discriminate|]. intros H. specialize (H (Some v) (or_introl eq_refl)). discriminate.
  - rewrite IH. split.
    + intros H x [<-|Hx]; [reflexivity | apply H, Hx].
    + intros H x Hx. apply H. right. exact Hx.
Qed.

Lemma whenPresent_None (f : list number -> number) (A : Type) (g : A -> option number)
  (l : list A) :
  whenPresent f (present (map g l)) = None <-> forall x, In x l -> g x = None.
Proof.
  unfold whenPresent.
  destruct (present (map g l)) as [|v vs] eqn:Hp.
  - change (0 <? List.length (@nil number))%nat with false. cbv iota.
    split; [|reflexivity]. intros _ x Hx.
    apply (proj1 (present_nil (map g l)) Hp). apply in_map, Hx.
  - change (0 <? List.length (v :: vs))%nat with true. cbv iota.
    split; [discriminate|]. intros H. exfalso.
    assert (Hn : present (map g l) = []).
    { apply present_nil. intros x Hx. apply in_map_iff in Hx as (y & <- & Hy). apply H, Hy. }
    congruence.
Qed.

Lemma hourlySummary_upsert_found (rows : list HourlySummary) (r : HourlyAggregationResult) :
  exists h,
    find (summary_key (ha_siteId r) (ha_hourUtc r)) (hourlySummary_upsert rows r) = Some h
    /\ hs_rows h = ha_rows r /\ hs_energyKWh h = ha_energyKWh r.
Proof.
  unfold hourlySummary_upsert.
  set (key := summary_key (ha_siteId r) (ha_hourUtc r)).
  destruct (existsb key rows) eqn:Hex.
  - induction rows as [|x rows IH]; [discriminate|].
    cbn [existsb map find] in *. destruct (key x) eqn:Hx.
    + unfold key at 1, summary_key. cbn [hs_siteId hs_hourUtc].
      unfold key, summary_key in Hx. rewrite Hx. eexists. split; [reflexivity|].
      split; reflexivity.
    + rewrite Hx. apply IH. exact Hex.
  - rewrite find_snoc. rewrite existsb_find in Hex.
    destruct (find key rows); [discriminate|].
    unfold key at 1, summary_key. cbn [hs_siteId hs_hourUtc].
    rewrite String.eqb_refl, Z.eqb_refl. cbn [andb]. eexists. split; [reflexivity|].
    split; reflexivity.
Qed.

Lemma hourlyRows_length (s : Store) (siteId : string) (gte lte : Z) (dayUtc : Date.t) (h : nat) :
  getDayStart dayUtc = Some gte -> getDayEnd dayUtc = Some lte -> (h < 24)%nat ->
  hourlyRows siteId (hourOfDay gte h) s
  = List.length (rawTelemetry_findMany (db (world s)) siteId
                   (gte + Z.of_nat h * msPerHour)%Z
                   (gte + Z.of_nat h * msPerHour + 3599999)%Z)
  /\ exists r s', aggregateHourly siteId (hourOfDay gte h) s = (inr r, s')
                  /\ world s' = world s.
Proof.
  intros Hs He Hh. destruct (@hour_of_day gte lte dayUtc h Hs He Hh) as [H1 H2].
  unfold hourlyRows, hourOfDay.
  rewrite (@aggregateHourly_cases s siteId _ _ _ H1 H2). cbv zeta.
  destruct (rawTelemetry_findMany (db (world s)) siteId _ _) as [|r rs]; cbn [fst].
  - split; [reflexivity|]. eauto.
  - split; [reflexivity|]. eexists _, _. split; reflexivity.
Qed.

End HourlyFacts.

(** X18. Hourly aggregation does not look the site up: on a valid hour it
    returns nothing when the hour has no row and otherwise the sums,
    maxima and averages of the rows, an optional value being absent
    exactly when no row has it, and stores the summary under (site, hour),
    touching neither the world nor the queue; daily aggregation of a site
    that is not registered throws "Site <id> not found". *)
Theorem aggregateHourly_needs_no_site
  (s : Store) (siteId : string) (hourUtc : Date.t) (gte lte : Z)
  (Hstart : getHourStart hourUtc = Some gte)
  (Hend : hourEndOf (Some gte) = Some lte) :
  (rawTelemetry_findMany (db (world s)) siteId gte lte = [] ->
   aggregateHourly siteId hourUtc s = (inr None, s))
  /\ (rawTelemetry_findMany (db (world s)) siteId gte lte <> [] ->
      exists r s',
        aggregateHourly siteId hourUtc s = (inr (Some r), s')
        /\ world s' = world s
        /\ anchorQueue s' = anchorQueue s
        /\ ha_siteId r = siteId
        /\ ha_hourUtc r = gte
        /\ ha_rows r = List.length (rawTelemetry_findMany (db (world s)) siteId gte lte)
        /\ ha_energyKWh r
           = sum (present (map t_acEnergyKWh
                               (rawTelemetry_findMany (db (world s)) siteId gte lte)))
        /\ (ha_maxPowerKw r = None
            <-> forall x, In x (rawTelemetry_findMany (db (world s)) siteId gte lte) ->
                          t_acPowerKw x = None)
        /\ (ha_avgTempC r = None
            <-> forall x, In x (rawTelemetry_findMany (db (world s)) siteId gte lte) ->
                          t_tempC x = None)
        /\ (ha_avgIrrWm2 r = None
            <-> forall x, In x (rawTelemetry_findMany (db (world s)) siteId gte lte) ->
                          t_poaIrrWm2 x = None)
        /\ exists h, find (summary_key siteId gte) (hourlySummary s') = Some h
                     /\ hs_rows h = ha_rows r /\ hs_energyKWh h = ha_energyKWh r)
  /\ (site_findUnique (db (world s)) siteId = None ->
      forall dayUtc dayStart dayEnd,
        getDayStart dayUtc = Some dayStart -> getDayEnd dayUtc = Some dayEnd ->
        aggregateDaily siteId dayUtc (world s)
        = (inl (Error ("Site " ++ siteId ++ " not found")), world s)).
Proof.
  rewrite (@aggregateHourly_cases s siteId hourUtc gte lte Hstart Hend). cbv zeta.
  split; [|split].
  - intros ->. reflexivity.
  - intros Hne.
    destruct (rawTelemetry_findMany (db (world s)) siteId gte lte) as [|r0 rs] eqn:Hrecs;
      [congruence|].
    eexists _, _. split; [reflexivity|].
    cbn [world anchorQueue hourlySummary hourlyResultOf ha_siteId ha_hourUtc ha_rows
         ha_energyKWh ha_maxPowerKw ha_avgTempC ha_avgIrrWm2].
    do 6 (split; [reflexivity|]).
    split; [apply whenPresent_None|]. split; [apply whenPresent_None|].
    split; [apply whenPresent_None|].
    apply (hourlySummary_upsert_found (hourlySummary s) (hourlyResultOf siteId gte (r0 :: rs))).
  - intros Hsite dayUtc a b Ha Hb.
    rewrite (@aggregateDaily_cases (world s) siteId dayUtc a b Ha Hb), Hsite. reflexivity.
Qed.

Lemma aggregateHourly_needs_no_site_witness :
  exists r s',
    aggregateHourly "PRJ001" (Date.parse "2024-01-15T10:30:00Z") dayStore = (inr (Some r), s')
    /\ ha_hourUtc r = 1705312800000%Z
    /\ ha_rows r = List.length (rawTelemetry_findMany (db (world dayStore)) "PRJ001"
                                  1705312800000 1705316399999).
Proof.
  destruct (@aggregateHourly_needs_no_site dayStore "PRJ001"
              (Date.parse "2024-01-15T10:30:00Z") 1705312800000%Z 1705316399999%Z
              ltac:(vm_compute; reflexivity) ltac:(vm_compute; reflexivity)) as (_ & H & _).
  destruct (H ltac:(vm_compute; discriminate)) as (r & s' & Hrun & _ & _ & _ & Hh & Hrows & _).
  exists r, s'. split; [exact Hrun|]. split; [exact Hh | exact Hrows].
Defined.

(** X19. The 24 hours of a day tile it: hourly aggregation returns on each
    of them, and the rows they report add up to the rows of the day's
    window, which is the number of rows of the daily digest. *)
Theorem hourly_rows_add_up_to_daily
  (s : Store) (siteId : string) (dayUtc : Date.t) (gte lte : Z)
  (Hstart : getDayStart dayUtc = Some gte)
  (Hend : getDayEnd dayUtc = Some lte) :
  (forall h, (h < 24)%nat ->
             exists r s', aggregateHourly siteId (hourOfDay gte h) s = (inr r, s')
                          /\ world s' = world s)
  /\ list_sum (map (fun h => hourlyRows siteId (hourOfDay gte h) s) (seq 0 24))
     = List.length (rawTelemetry_findMany (db (world s)) siteId gte lte)
  /\ (forall r w1,
        aggregateDaily siteId dayUtc (world s) = (inr (Some r), w1) ->
        list_sum (map (fun h => hourlyRows siteId (hourOfDay gte h) s) (seq 0 24))
        = a_rows r).
Proof.
  assert (Hsum : list_sum (map (fun h => hourlyRows siteId (hourOfDay gte h) s) (seq 0 24))
                 = List.length (rawTelemetry_findMany (db (world s)) siteId gte lte)).
  { assert (Hlte : lte = (gte + 86399999)%Z).
    { destruct (@getDayStart_Some _ _ Hstart) as (ms & -> & -> & _).
      destruct (@getDayEnd_Some _ _ Hend) as (ms' & Hms & -> & _).
      injection Hms as <-. reflexivity. }
    rewrite Hlte, <- hours_tile_day. f_equal. apply map_ext_in.
    intros h Hh. apply in_seq in Hh.
    apply (@hourlyRows_length s siteId gte lte dayUtc h Hstart Hend). lia. }
  split; [|split].
  - intros h Hh. apply (@hourlyRows_length s siteId gte lte dayUtc h Hstart Hend Hh).
  - exact Hsum.
  - intros r w1 Hrun. rewrite Hsum.
    destruct (@aggregateDaily_returns_digest _ _ _ _ _ Hrun)
      as (st & gte' & lte' & root & Hs' & He' & _ & _ & _ & Hr & _).
    rewrite Hr. cbn [dailyResultOf a_rows]. congruence.
Qed.

Lemma hourly_rows_add_up_to_daily_witness :
  list_sum (map (fun h => hourlyRows "PRJ001" (hourOfDay 1705276800000 h) dayStore) (seq 0 24))
  = List.length (rawTelemetry_findMany (db (world dayStore)) "PRJ001"
                   1705276800000 1705363199999).
Proof.
  exact (proj1 (proj2 (@hourly_rows_add_up_to_daily dayStore "PRJ001" (parseDate "2024-01-15")
                         1705276800000%Z 1705363199999%Z
                         ltac:(vm_compute; reflexivity) ltac:(vm_compute; reflexivity)))).
Defined.

(** ** Aggregating all sites *)

Section AllSitesFacts.

Lemma getResult_setResult_same {A} (k : string) (v : A) (r : list (string * A)) :
  getResult k (setResult k v r) = Some v.
Proof.
  induction r as [|[k' v'] r IH]; cbn [setResult getResult].
  - rewrite String.eqb_refl. reflexivity.
  - destruct (String.eqb k' k) eqn:Hk; cbn [getResult].
    + rewrite String.eqb_refl. reflexivity.
    + rewrite Hk. exact IH.
Qed.

Lemma getResult_setResult_other {A} (k k' : string) (v : A) (r : list (string * A)) :
  k' <> k -> getResult k' (setResult k v r) = getResult k' r.
Proof.
  intros Hne. induction r as [|[k0 v0] r IH]; cbn [setResult getResult].
  - apply String.eqb_neq in Hne. rewrite String.eqb_sym, Hne. reflexivity.
  - destruct (String.eqb k0 k) eqn:Hk; cbn [getResult].
    + apply String.eqb_eq in Hk. subst k0.
      apply String.eqb_neq in Hne. rewrite String.eqb_sym, Hne. reflexivity.
    + destruct (String.eqb k0 k'); [reflexivity | exact IH].
Qed.

Lemma site_findUnique_In (d : Db) (x : Site) :
  In x (site d) -> exists s, site_findUnique d (s_id x) = Some s.
Proof.
  unfold site_findUnique. induction (site d) as [|y l IH]; [intros []|].
  intros [->|Hin]; cbn [find].
  - rewrite String.eqb_refl. eauto.
  - destruct (String.eqb (s_id y) (s_id x)); [eauto | apply IH, Hin].
Qed.

(** What a run returns depends on the sites and the readings only. *)
Lemma aggregateDaily_depends (w1 w2 : World) (siteId : string) (dayUtc : Date.t) (gte lte : Z) :
  getDayStart dayUtc = Some gte -> getDayEnd dayUtc = Some lte ->
  site (db w1) = site (db w2) -> rawTelemetry (db w1) = rawTelemetry (db w2) ->
  fst (aggregateDaily siteId dayUtc w1) = fst (aggregateDaily siteId dayUtc w2).
Proof.
  intros Hs He H1 H2.
  rewrite (@aggregateDaily_cases w1 siteId dayUtc gte lte Hs He).
  rewrite (@aggregateDaily_cases w2 siteId dayUtc gte lte Hs He).
  unfold site_findUnique, rawTelemetry_findMany. rewrite H1, H2.
  destruct (find _ (site (db w2))); [|reflexivity]. cbv zeta.
  destruct (fold_right insertByTs [] _) as [|r0 rs]; [reflexivity|].
  destruct (generateMerkleRoot _); reflexivity.
Qed.

(** For a site of the table and a day with a start and an end the run returns. *)
Lemma aggregateDaily_known_site (w : World) (x : Site) (dayUtc : Date.t) (gte lte : Z) :
  getDayStart dayUtc = Some gte -> getDayEnd dayUtc = Some lte ->
  In x (site (db w)) ->
  exists r w1, aggregateDaily (s_id x) dayUtc w = (inr r, w1)
               /\ site (db w1) = site (db w) /\ rawTelemetry (db w1) = rawTelemetry (db w)
               /\ adapter w1 = adapter w /\ requests w1 = requests w /\ sleeps w1 = sleeps w.
Proof.
  intros Hs He Hin. destruct (site_findUnique_In _ _ Hin) as [s Hsite].
  rewrite (@aggregateDaily_cases w (s_id x) dayUtc gte lte Hs He), Hsite. cbv zeta.
  destruct (rawTelemetry_findMany (db w) (s_id x) gte lte) as [|r0 rs] eqn:Hrecs.
  - eexists _, _. split; [reflexivity|]. auto 10.
  - destruct (@generateMerkleRoot_defined (map t_rowHash (r0 :: rs))) as [root Hroot];
      [discriminate|].
    rewrite Hroot. eexists _, _. split; [reflexivity|]. cbn [db adapter requests sleeps].
    split; [apply dailyDigest_upsert_tables|]. split; [apply dailyDigest_upsert_tables|].
    auto.
Qed.

Lemma aggregateSitesDaily_results (w : World) (dayUtc : Date.t) (gte lte : Z)
  (sites : list Site) :
  getDayStart dayUtc = Some gte -> getDayEnd dayUtc = Some lte ->
  forall (results : list (string * option DailyAggregationResult)) (w0 : World),
    site (db w0) = site (db w) -> rawTelemetry (db w0) = rawTelemetry (db w) ->
    (forall x, In x sites -> In x (site (db w))) ->
    exists results' w',
      aggregateSitesDaily sites dayUtc results w0 = (inr results', w')
      /\ site (db w') = site (db w) /\ rawTelemetry (db w') = rawTelemetry (db w)
      /\ adapter w' = adapter w0 /\ requests w' = requests w0 /\ sleeps w' = sleeps w0
      /\ (forall x, In x sites ->
                    exists r, fst (aggregateDaily (s_id x) dayUtc w) = inr r
                              /\ getResult (s_id x) results' = Some r)
      /\ (forall k, ~ In k (map s_id sites) -> getResult k results' = getResult k results).
Proof.
  intros Hs He. induction sites as [|x rest IH]; intros results w0 Ht1 Ht2 Hsub.
  - exists results, w0. split; [reflexivity|]. do 5 (split; [auto|]).
    split; [intros x []|]. reflexivity.
  - cbn [aggregateSitesDaily]. unfold mbind, mcatch.
    assert (Hx : In x (site (db w0))) by (rewrite Ht1; apply Hsub; left; reflexivity).
    destruct (@aggregateDaily_known_site w0 x dayUtc gte lte Hs He Hx)
      as (r & w1 & Hrun & G1 & G2 & G3 & G4 & G5).
    rewrite Hrun.
    destruct (IH (setResult (s_id x) r results) w1) as
      (results' & w' & Hloop & F1 & F2 & F3 & F4 & F5 & Hall & Hrest).
    { congruence. } { congruence. } { intros y Hy. apply Hsub. right. exact Hy. }
    exists results', w'. split; [exact Hloop|].
    split; [exact F1|]. split; [exact F2|].
    split; [congruence|]. split; [congruence|]. split; [congruence|].
    assert (Hr : fst (aggregateDaily (s_id x) dayUtc w) = inr r).
    { rewrite <- (@aggregateDaily_depends w0 w (s_id x) dayUtc gte lte Hs He Ht1 Ht2).
      rewrite Hrun. reflexivity. }
    split.
    + intros y [<-|Hy]; [|apply Hall, Hy].
      destruct (in_dec string_dec (s_id x) (map s_id rest)) as [Hin|Hnin].
      * apply in_map_iff in Hin as (z & Hz & Hzin).
        destruct (Hall z Hzin) as (rz & Hrz & Hget). rewrite Hz in Hrz, Hget.
        exists rz. split; assumption.
      * exists r. split; [exact Hr|]. rewrite (Hrest _ Hnin).
        apply getResult_setResult_same.
    + intros k Hk. cbn [map In] in Hk.
      rewrite Hrest by tauto. apply getResult_setResult_other.
      intros ->. apply Hk. left. reflexivity.
Qed.

End AllSitesFacts.

(** X20. [aggregateAllSitesDaily] on a valid day returns a map with one
    entry for each registered site, the result of aggregating that site
    alone on the initial world ([null] where that throws), and no entry
    for any other key; on an invalid date with a site registered it throws
    a [RangeError], and with no site it returns the empty map. *)
Theorem aggregateAllSitesDaily_per_site (w : World) (dayUtc : Date.t) :
  (forall gte lte,
     getDayStart dayUtc = Some gte -> getDayEnd dayUtc = Some lte ->
     exists results w',
       aggregateAllSitesDaily dayUtc w = (inr results, w')
       /\ site (db w') = site (db w)
       /\ rawTelemetry (db w') = rawTelemetry (db w)
       /\ requests w' = requests w
       /\ (forall x, In x (site (db w)) ->
                     exists r, fst (aggregateDaily (s_id x) dayUtc w) = inr r
                               /\ getResult (s_id x) results = Some r)
       /\ (forall k, ~ In k (map s_id (site (db w))) -> getResult k results = None))
  /\ (dayUtc = None -> site (db w) <> [] ->
      aggregateAllSitesDaily dayUtc w = (inl (RangeError "Invalid time value"), w))
  /\ (site (db w) = [] -> aggregateAllSitesDaily dayUtc w = (inr [], w)).
Proof.
  split; [|split].
  - intros gte lte Hs He. unfold aggregateAllSitesDaily, mbind, getDb.
    destruct (@aggregateSitesDaily_results w dayUtc gte lte (site (db w)) Hs He [] w
                eq_refl eq_refl (fun x H => H))
      as (results & w' & Hloop & F1 & F2 & _ & F4 & _ & Hall & Hrest).
    exists results, w'. split; [exact Hloop|]. auto 10.
  - intros -> Hne. unfold aggregateAllSitesDaily, mbind, getDb.
    destruct (site (db w)) as [|x rest]; [congruence|].
    reflexivity.
  - intros Hnil. unfold aggregateAllSitesDaily, mbind, getDb. rewrite Hnil. reflexivity.
Qed.

(** ** The calendar, both ways *)

Section CalendarRoundTrip.

#[local] Ltac Zify.zify_post_hook ::= Z.to_euclidean_division_equations.

(** The year of the era, the day of the year and the month counted from
    March, as [civil_from_days] computes them from the day of the era. *)
Lemma era_split (doe : Z) :
  (0 <= doe <= 146096)%Z ->
  let yoe := ((doe - doe / 1460 + doe / 36524 - doe / 146096) / 365)%Z in
  let doy := (doe - (365 * yoe + yoe / 4 - yoe / 100))%Z in
  (0 <= yoe <= 399 /\ 0 <= doy <= 365
   /\ (doy = 365 -> (yoe + 1) mod 4 = 0 /\ ((yoe + 1) mod 100 <> 0 \/ yoe = 399)))%Z.
Proof.
  intros Hdoe. cbv zeta.
  set (yoe := ((doe - doe / 1460 + doe / 36524 - doe / 146096) / 365)%Z).
  assert (Hyoe : (0 <= yoe <= 399)%Z) by (subst yoe; lia).
  split; [exact Hyoe|].
  split; [subst yoe; lia|].
  intros H365. subst yoe. lia.
Qed.

Lemma is_leap_true (y : Z) :
  (y mod 4 = 0)%Z -> (y mod 100 <> 0 \/ y mod 400 = 0)%Z -> Date.is_leap y = true.
Proof.
  intros H4 H100. unfold Date.is_leap.
  apply Z.eqb_eq in H4. rewrite H4. cbn [andb].
  destruct H100 as [H|H].
  - apply Z.eqb_neq in H. rewrite H. reflexivity.
  - apply Z.eqb_eq in H. rewrite H. apply orb_true_r.
Qed.

Lemma is_leap_spec (y : Z) :
  Date.is_leap y = true <-> ((y mod 4 = 0)%Z /\ ((y mod 100 <> 0)%Z \/ (y mod 400 = 0)%Z)).
Proof.
  unfold Date.is_leap. split.
  - intros H. apply orb_true_iff in H as [H|H].
    + apply andb_true_iff in H as [H4 H100]. apply Z.eqb_eq in H4.
      apply negb_true_iff, Z.eqb_neq in H100. auto.
    + apply Z.eqb_eq in H. split; [lia | auto].
  - intros [H4 H100]. apply is_leap_true; assumption.
Qed.

(** The months from March on, by their number [mp] after March: the day
    of the year where each starts, and its length. *)
Lemma month_from_march (mp : Z) :
  (0 <= mp <= 11)%Z ->
  forall y,
    ((153 * mp + 2) / 5 + Date.days_in_month y (if mp <? 10 then mp + 3 else mp - 9)
     = if mp =? 11 then (if Date.is_leap y then 366 else 365) else (153 * (mp + 1) + 2) / 5)%Z.
Proof.
  intros Hmp y.
  assert (Hcase : (mp = 0 \/ mp = 1 \/ mp = 2 \/ mp = 3 \/ mp = 4 \/ mp = 5 \/ mp = 6
                   \/ mp = 7 \/ mp = 8 \/ mp = 9 \/ mp = 10 \/ mp = 11)%Z) by lia.
  destruct Hcase as [->|[->|[->|[->|[->|[->|[->|[->|[->|[->|[->| ->]]]]]]]]]]];
    try reflexivity.
  unfold Date.days_in_month. cbn. destruct (Date.is_leap y); reflexivity.
Qed.

Lemma day_of_month_bound (y doy mp : Z) :
  (0 <= doy <= 365)%Z ->
  (153 * mp <= 5 * doy + 2 < 153 * mp + 153)%Z ->
  (0 <= mp <= 11)%Z ->
  (doy = 365 -> Date.is_leap y = true)%Z ->
  (1 <= doy - (153 * mp + 2) / 5 + 1
   <= Date.days_in_month y (if mp <? 10 then mp + 3 else mp - 9))%Z.
Proof.
  intros Hdoy Hmpd Hmp Hleap.
  pose proof (@month_from_march mp Hmp y) as Hm.
  destruct (mp =? 11)%Z eqn:H11; [apply Z.eqb_eq in H11 | apply Z.eqb_neq in H11].
  - subst mp. change ((153 * 11 + 2) / 5)%Z with 337%Z in *.
    destruct (Z.eq_dec doy 365) as [H|H].
    + rewrite (Hleap H) in Hm. lia.
    + destruct (Date.is_leap y); lia.
  - set (dm := Date.days_in_month y (if (mp <? 10)%Z then (mp + 3)%Z else (mp - 9)%Z)) in *.
    clearbody dm. clear Hleap. lia.
Qed.

(** [civil_from_days] returns a date of the calendar, and
    [days_from_civil] takes it back to the day. *)
Lemma civil_from_days_valid (days : Z) :
  let '(y, m, d) := Date.civil_from_days days in
  (Date.days_from_civil y m d = days
   /\ 1 <= m <= 12 /\ 1 <= d <= Date.days_in_month y m)%Z.
Proof.
  unfold Date.civil_from_days.
  set (z := (days + 719468)%Z).
  set (era := (z / 146097)%Z).
  set (doe := (z - era * 146097)%Z).
  assert (Hdoe : (0 <= doe <= 146096)%Z) by (subst doe era; lia).
  assert (Hz : (days = era * 146097 + doe - 719468)%Z) by (subst doe z; lia).
  clearbody doe era. clear z.
  destruct (@era_split doe Hdoe) as (Hyoe & Hdoy & Hleap).
  set (yoe := ((doe - doe / 1460 + doe / 36524 - doe / 146096) / 365)%Z) in *.
  set (doy := (doe - (365 * yoe + yoe / 4 - yoe / 100))%Z) in *.
  assert (Hdoe' : (doe = yoe * 365 + yoe / 4 - yoe / 100 + doy)%Z) by (subst doy; lia).
  clearbody doy yoe.
  set (mp := ((5 * doy + 2) / 153)%Z).
  assert (Hmp : (0 <= mp <= 11)%Z) by (subst mp; lia).
  assert (Hmpd : (153 * mp <= 5 * doy + 2 < 153 * mp + 153)%Z) by (subst mp; lia).
  clearbody mp.
  set (m := (if (mp <? 10)%Z then (mp + 3)%Z else (mp - 9)%Z)).
  assert (Hm : (1 <= m <= 12)%Z) by (subst m; destruct (mp <? 10)%Z eqn:E; lia).
  assert (Hmp' : ((if (2 <? m) then m - 3 else m + 9) = mp)%Z).
  { subst m. destruct (mp <? 10)%Z eqn:E;
      [apply Z.ltb_lt in E | apply Z.ltb_ge in E].
    - destruct (2 <? mp + 3)%Z eqn:E2; [lia | apply Z.ltb_ge in E2; lia].
    - destruct (2 <? mp - 9)%Z eqn:E2; [apply Z.ltb_lt in E2; lia | lia]. }
  set (y := (yoe + era * 400)%Z).
  assert (Hy : ((if m <=? 2 then (if m <=? 2 then y + 1 else y) - 1
                 else (if m <=? 2 then y + 1 else y)) = y)%Z).
  { destruct (m <=? 2)%Z; lia. }
  assert (Hd : (1 <= doy - (153 * mp + 2) / 5 + 1
                <= Date.days_in_month (if m <=? 2 then y + 1 else y) m)%Z).
  { subst m. apply day_of_month_bound; try assumption.
    intros H. destruct (Hleap H) as [H4 H100].
    assert (E : (mp <? 10)%Z = false) by (apply Z.ltb_ge; lia).
    rewrite E.
    assert (E2 : (mp - 9 <=? 2)%Z = true) by (apply Z.leb_le; lia).
    rewrite E2. subst y. apply is_leap_true; lia. }
  split; [|split; [exact Hm | exact Hd]].
  unfold Date.days_from_civil. rewrite Hy, Hmp'.
  assert (Hera : (y / 400 = era)%Z) by (subst y; lia).
  rewrite Hera.
  replace (y - era * 400)%Z with yoe by (subst y; lia).
  lia.
Qed.

Lemma era_join (yoe doy : Z) :
  (0 <= yoe <= 399)%Z -> (0 <= doy <= 365)%Z ->
  (doy = 365 -> (yoe + 1) mod 4 = 0 /\ ((yoe + 1) mod 100 <> 0 \/ yoe = 399))%Z ->
  let doe := (yoe * 365 + yoe / 4 - yoe / 100 + doy)%Z in
  (0 <= doe <= 146096
   /\ (doe - doe / 1460 + doe / 36524 - doe / 146096) / 365 = yoe)%Z.
Proof.
  intros Hyoe Hdoy Hleap. cbv zeta.
  set (doe := (yoe * 365 + yoe / 4 - yoe / 100 + doy)%Z).
  assert (Hdoe : (0 <= doe <= 146096)%Z) by (subst doe; lia).
  split; [exact Hdoe|].
  subst doe. lia.
Qed.

(** A date of the calendar is the date of its day. *)
Lemma days_from_civil_inverse (y m d : Z) :
  (1 <= m <= 12)%Z -> (1 <= d <= Date.days_in_month y m)%Z ->
  Date.civil_from_days (Date.days_from_civil y m d) = (y, m, d).
Proof.
  intros Hm Hd. unfold Date.days_from_civil.
  set (y' := (if (m <=? 2)%Z then (y - 1)%Z else y)).
  set (mp := (if (2 <? m)%Z then (m - 3)%Z else (m + 9)%Z)).
  assert (Hmp : (0 <= mp <= 11)%Z) by (subst mp; destruct (2 <? m)%Z eqn:E; lia).
  assert (Hmm : (if (mp <? 10)%Z then (mp + 3)%Z else (mp - 9)%Z) = m).
  { subst mp. destruct (2 <? m)%Z eqn:E; [apply Z.ltb_lt in E | apply Z.ltb_ge in E].
    - replace (m - 3 <? 10)%Z with true by (symmetry; apply Z.ltb_lt; lia). lia.
    - replace (m + 9 <? 10)%Z with false by (symmetry; apply Z.ltb_ge; lia). lia. }
  assert (Hm2 : (m <=? 2)%Z = (10 <=? mp)%Z).
  { subst mp. destruct (2 <? m)%Z eqn:E; [apply Z.ltb_lt in E | apply Z.ltb_ge in E].
    - replace (m <=? 2)%Z with false by (symmetry; apply Z.leb_gt; lia).
      symmetry. apply Z.leb_gt. lia.
    - replace (m <=? 2)%Z with true by (symmetry; apply Z.leb_le; lia).
      symmetry. apply Z.leb_le. lia. }
  pose proof (@month_from_march mp Hmp y) as Hmonth. rewrite Hmm in Hmonth.
  set (era := (y' / 400)%Z).
  set (yoe := (y' - era * 400)%Z).
  assert (Hyoe : (0 <= yoe <= 399)%Z) by (subst yoe era; lia).
  assert (Hy' : (y' = yoe + era * 400)%Z) by (subst yoe; lia).
  set (doy := ((153 * mp + 2) / 5 + d - 1)%Z).
  assert (Hdoy : (0 <= doy <= 365)%Z
                 /\ (153 * mp <= 5 * doy + 2 < 153 * mp + 153)%Z
                 /\ (doy = 365 -> mp = 11 /\ Date.is_leap y = true)%Z).
  { destruct (mp =? 11)%Z eqn:H11; [apply Z.eqb_eq in H11 | apply Z.eqb_neq in H11].
    - rewrite H11 in *. change ((153 * 11 + 2) / 5)%Z with 337%Z in *.
      destruct (Date.is_leap y); subst doy; repeat split; try lia; try reflexivity.
    - set (dm := Date.days_in_month y m) in *. clearbody dm mp.
      clear Hmm Hm2 Hy' Hyoe. subst doy. repeat split; try lia. }
  destruct Hdoy as (Hdoy & Hmpd & Hleap).
  assert (Hd' : (doy - (153 * mp + 2) / 5 + 1 = d)%Z) by (subst doy; lia).
  clearbody doy.
  assert (Hleap' : (doy = 365
                    -> (yoe + 1) mod 4 = 0 /\ ((yoe + 1) mod 100 <> 0 \/ yoe = 399))%Z).
  { intros H. destruct (Hleap H) as [H11 Hl].
    apply is_leap_spec in Hl as [H4 H100].
    assert (Hy1 : (y = yoe + 1 + era * 400)%Z).
    { subst y'. rewrite Hm2, H11 in Hy'. change (10 <=? 11)%Z with true in Hy'.
      cbv iota in Hy'. lia. }
    clear Hmonth Hmpd Hd' Hd Hmm. lia. }
  destruct (@era_join yoe doy Hyoe Hdoy Hleap') as [Hdoe Hyoe'].
  set (doe := (yoe * 365 + yoe / 4 - yoe / 100 + doy)%Z) in *.
  assert (Hdoy' : (doe - (365 * yoe + yoe / 4 - yoe / 100) = doy)%Z) by (subst doe; lia).
  clearbody doe yoe era.
  unfold Date.civil_from_days.
  replace (era * 146097 + doe - 719468 + 719468)%Z with (era * 146097 + doe)%Z by lia.
  assert (Hera : ((era * 146097 + doe) / 146097 = era)%Z) by lia.
  rewrite Hera.
  replace (era * 146097 + doe - era * 146097)%Z with doe by lia.
  rewrite Hyoe', Hdoy'.
  assert (Hmp' : ((5 * doy + 2) / 153 = mp)%Z) by lia.
  rewrite Hmp', Hd', Hmm.
  rewrite <- Hy'. subst y'. destruct (m <=? 2)%Z; f_equal; f_equal; lia.
Qed.

End CalendarRoundTrip.

(** ** Printing and reading dates *)

Section DateStrings.

#[local] Ltac Zify.zify_post_hook ::= Z.to_euclidean_division_equations.

Lemma append_assoc (a b c : string) : ((a ++ b) ++ c = a ++ (b ++ c))%string.
Proof. induction a as [|x a IH]; [reflexivity|]. cbn [append]. rewrite IH. reflexivity. Qed.

Lemma forallb_below (f : nat -> bool) (n : Z) :
  forallb f (seq 0 (Z.to_nat n)) = true ->
  forall z, (0 <= z < n)%Z -> f (Z.to_nat z) = true.
Proof.
  intros H z Hz. rewrite forallb_forall in H. apply H. apply in_seq. lia.
Qed.

Lemma fixed_digits_app (n : nat) :
  forall (s rest r : string) (acc v : Z),
    Date.fixed_digits n s acc = Some (v, r) ->
    Date.fixed_digits n (s ++ rest) acc = Some (v, (r ++ rest)%string).
Proof.
  induction n as [|n IH]; intros s rest r acc v; cbn [Date.fixed_digits].
  - intros H. injection H as <- <-. reflexivity.
  - destruct s as [|c s]; [discriminate|]. cbn [append].
    destruct (Num.is_digit c); [|discriminate]. apply IH.
Qed.

Lemma pad2_reads (z : Z) (rest : string) :
  (0 <= z < 100)%Z -> Date.fixed_digits 2 (Date.pad 2 z ++ rest) 0 = Some (z, rest).
Proof.
  intros Hz.
  assert (Hall : forallb (fun n => match Date.fixed_digits 2 (Date.pad 2 (Z.of_nat n)) 0 with
                                   | Some (v, EmptyString) => (v =? Z.of_nat n)%Z
                                   | _ => false
                                   end) (seq 0 (Z.to_nat 100)) = true) by (vm_compute; reflexivity).
  pose proof (@forallb_below _ _ Hall z ltac:(lia)) as H. clear Hall.
  cbv beta in H. rewrite Z2Nat.id in H by lia.
  destruct (Date.fixed_digits 2 (Date.pad 2 z) 0) as [[v [|c r]]|] eqn:Hf; try discriminate.
  apply Z.eqb_eq in H. subst v.
  rewrite (@fixed_digits_app 2 _ rest _ _ _ Hf). reflexivity.
Qed.

Lemma pad4_reads (y : Z) (rest : string) :
  (0 <= y <= 9999)%Z -> Date.fixed_digits 4 (Date.pad 4 y ++ rest) 0 = Some (y, rest).
Proof.
  intros Hy.
  assert (Hall : forallb (fun n => match Date.fixed_digits 4 (Date.pad 4 (Z.of_nat n)) 0 with
                                   | Some (v, EmptyString) => (v =? Z.of_nat n)%Z
                                   | _ => false
                                   end) (seq 0 (Z.to_nat 10000)) = true) by (vm_compute; reflexivity).
  pose proof (@forallb_below _ _ Hall y ltac:(lia)) as H. clear Hall.
  cbv beta in H. rewrite Z2Nat.id in H by lia.
  destruct (Date.fixed_digits 4 (Date.pad 4 y) 0) as [[v [|c r]]|] eqn:Hf; try discriminate.
  apply Z.eqb_eq in H. subst v.
  rewrite (@fixed_digits_app 4 _ rest _ _ _ Hf). reflexivity.
Qed.

(** The fraction of a second as it is printed, before the final [Z]. *)
Lemma fraction_reads (f : Z) :
  (0 <= f <= 999)%Z -> Date.fraction_ms ("." ++ Date.pad 3 f ++ "Z") = Some (f, "Z").
Proof.
  intros Hf.
  assert (Hall : forallb (fun n => match Date.fraction_ms
                                           ("." ++ Date.pad 3 (Z.of_nat n) ++ "Z") with
                                   | Some (v, String "Z" EmptyString) => (v =? Z.of_nat n)%Z
                                   | _ => false
                                   end) (seq 0 (Z.to_nat 1000)) = true) by (vm_compute; reflexivity).
  pose proof (@forallb_below _ _ Hall f ltac:(lia)) as H. clear Hall.
  cbv beta in H. rewrite Z2Nat.id in H by lia.
  destruct (Date.fraction_ms ("." ++ Date.pad 3 f ++ "Z")) as [[v r]|]; [|discriminate].
  destruct r as [|c r]; [discriminate|].
  destruct (Ascii.eqb_spec c "Z") as [->|Hne].
  - destruct r as [|c' r]; [|discriminate].
    apply Z.eqb_eq in H. subst v. reflexivity.
  - exfalso. destruct c as [[] [] [] [] [] [] [] []]; try discriminate. apply Hne. reflexivity.
Qed.

(** Reading a string of the form [YYYY-MM-DDTHH:mm:ss.sssZ] whose fields
    are in the ranges of their widths. *)
Lemma parse_fields (y mo d h mi se f : Z) :
  (0 <= y <= 9999)%Z -> (0 <= mo < 100)%Z -> (0 <= d < 100)%Z ->
  (0 <= h < 100)%Z -> (0 <= mi < 100)%Z -> (0 <= se < 100)%Z -> (0 <= f <= 999)%Z ->
  Date.parse (Date.pad 4 y ++ "-" ++ Date.pad 2 mo ++ "-" ++ Date.pad 2 d ++ "T"
              ++ Date.pad 2 h ++ ":" ++ Date.pad 2 mi ++ ":" ++ Date.pad 2 se
              ++ "." ++ Date.pad 3 f ++ "Z")
  = if ((1 <=? mo) && (mo <=? 12) && (1 <=? d) && (d <=? 31)
        && ((h <=? 23) || ((h =? 24) && (mi =? 0) && (se =? 0) && (f =? 0)))
        && (mi <=? 59) && (se <=? 59))%Z
    then Date.timeClip (Date.days_from_civil y mo d * Date.msPerDay
                        + h * 3600000 + mi * 60000 + se * 1000 + f)%Z
    else None.
Proof.
  intros Hy Hmo Hd Hh Hmi Hse Hf.
  assert (Hexp : forall c rest, Date.expect c (String c rest) = Some rest).
  { intros c rest. unfold Date.expect. rewrite Ascii.eqb_refl. reflexivity. }
  unfold Date.parse.
  rewrite (@pad4_reads y _ Hy). cbn [Date.obind append]. rewrite Hexp. cbn [Date.obind].
  rewrite (@pad2_reads mo _ Hmo). cbn [Date.obind append]. rewrite Hexp. cbn [Date.obind].
  rewrite (@pad2_reads d _ Hd). cbn [Date.obind append]. rewrite Hexp. cbn [Date.obind].
  rewrite (@pad2_reads h _ Hh). cbn [Date.obind append]. rewrite Hexp. cbn [Date.obind].
  rewrite (@pad2_reads mi _ Hmi). cbn [Date.obind append]. rewrite Hexp. cbn [Date.obind].
  rewrite (@pad2_reads se _ Hse). cbn [Date.obind].
  change (String "." (Date.pad 3 f ++ "Z"))%string with ("." ++ Date.pad 3 f ++ "Z")%string.
  rewrite (@fraction_reads f Hf). cbn [Date.obind]. rewrite Hexp. cbn [Date.obind].
  reflexivity.
Qed.

End DateStrings.

Section DateRoundTrip.

#[local] Ltac Zify.zify_post_hook ::= Z.to_euclidean_division_equations.

Lemma year_string_pad (y : Z) : (0 <= y <= 9999)%Z -> Date.year_string y = Date.pad 4 y.
Proof.
  intros Hy. unfold Date.year_string.
  replace ((0 <=? y) && (y <=? 9999))%Z with true; [reflexivity|].
  symmetry. apply andb_true_iff. split; apply Z.leb_le; lia.
Qed.

(** The days of the years 0000 to 9999. *)
Lemma days_from_civil_range (y m d : Z) :
  (0 <= y <= 9999)%Z -> (1 <= m <= 12)%Z -> (1 <= d <= 31)%Z ->
  (-719528 <= Date.days_from_civil y m d <= 2932896)%Z.
Proof.
  intros Hy Hm Hd. unfold Date.days_from_civil.
  destruct (m <=? 2)%Z eqn:E; [apply Z.leb_le in E | apply Z.leb_gt in E].
  - replace (2 <? m)%Z with false by (symmetry; apply Z.ltb_ge; lia). lia.
  - replace (2 <? m)%Z with true by (symmetry; apply Z.ltb_lt; lia). lia.
Qed.

Lemma days_in_month_le (y m : Z) : (Date.days_in_month y m <= 31)%Z.
Proof.
  unfold Date.days_in_month.
  destruct (m =? 2)%Z; [destruct (Date.is_leap y); lia|].
  destruct ((m =? 4) || (m =? 6) || (m =? 9) || (m =? 11))%Z; lia.
Qed.

(** What [toISOString] prints, [new Date] reads back. *)
Lemma parse_iso_of_ms (ms : Z) :
  (-62167219200000 <= ms <= 253402300799999)%Z ->
  Date.parse (Date.iso_of_ms ms) = Some ms.
Proof.
  intros Hms. unfold Date.iso_of_ms, Date.date_part, Date.time_part.
  assert (Hdays : (-719528 <= ms / Date.msPerDay <= 2932896)%Z)
    by (unfold Date.msPerDay; lia).
  pose proof (civil_from_days_valid (ms / Date.msPerDay)) as Hvalid.
  pose proof (@civil_from_days_year _ Hdays) as Hyear.
  destruct (Date.civil_from_days (ms / Date.msPerDay)) as [[y m] d].
  destruct Hvalid as (Hback & Hm & Hd).
  pose proof (days_in_month_le y m) as Hdim.
  rewrite (@year_string_pad y Hyear).
  set (r := (ms mod Date.msPerDay)%Z).
  assert (Hr : (0 <= r < 86400000)%Z) by (subst r; unfold Date.msPerDay; lia).
  rewrite !append_assoc.
  rewrite parse_fields by lia.
  replace ((1 <=? m) && (m <=? 12) && (1 <=? d) && (d <=? 31)
             && ((r / 3600000 <=? 23)
                 || ((r / 3600000 =? 24) && (r / 60000 mod 60 =? 0)
                     && (r / 1000 mod 60 =? 0) && (r mod 1000 =? 0)))
             && (r / 60000 mod 60 <=? 59) && (r / 1000 mod 60 <=? 59))%Z with true.
  - rewrite Hback.
    replace (ms / Date.msPerDay * Date.msPerDay + r / 3600000 * 3600000
             + r / 60000 mod 60 * 60000 + r / 1000 mod 60 * 1000 + r mod 1000)%Z with ms
      by (subst r; unfold Date.msPerDay; lia).
    unfold Date.timeClip.
    replace (Z.abs ms <=? 8640000000000000)%Z with true; [reflexivity|].
    symmetry. apply Z.leb_le. lia.
  - symmetry.
    assert (H1 : (1 <=? m)%Z = true) by (apply Z.leb_le; lia).
    assert (H2 : (m <=? 12)%Z = true) by (apply Z.leb_le; lia).
    assert (H3 : (1 <=? d)%Z = true) by (apply Z.leb_le; lia).
    assert (H4 : (d <=? 31)%Z = true) by (apply Z.leb_le; lia).
    assert (H5 : (r / 3600000 <=? 23)%Z = true) by (apply Z.leb_le; lia).
    assert (H6 : (r / 60000 mod 60 <=? 59)%Z = true) by (apply Z.leb_le; lia).
    assert (H7 : (r / 1000 mod 60 <=? 59)%Z = true) by (apply Z.leb_le; lia).
    rewrite H1, H2, H3, H4, H5, H6, H7. reflexivity.
Qed.

(** A day of the calendar, written [YYYY-MM-DD], is read as its midnight
    and printed as it was written. *)
Lemma parseDate_of_day (y m d : Z) :
  (0 <= y <= 9999)%Z -> (1 <= m <= 12)%Z -> (1 <= d <= Date.days_in_month y m)%Z ->
  parseDate (Date.pad 4 y ++ "-" ++ Date.pad 2 m ++ "-" ++ Date.pad 2 d)
  = Some (Date.days_from_civil y m d * Date.msPerDay)%Z
  /\ Date.date_part (Date.days_from_civil y m d * Date.msPerDay)
     = (Date.pad 4 y ++ "-" ++ Date.pad 2 m ++ "-" ++ Date.pad 2 d)%string.
Proof.
  intros Hy Hm Hd. pose proof (days_in_month_le y m) as Hdim.
  pose proof (@days_from_civil_range y m d Hy Hm ltac:(lia)) as Hrange.
  split.
  - unfold parseDate. rewrite !append_assoc.
    change "T00:00:00.000Z"%string
      with ("T" ++ Date.pad 2 0 ++ ":" ++ Date.pad 2 0 ++ ":" ++ Date.pad 2 0 ++ "."
            ++ Date.pad 3 0 ++ "Z")%string.
    rewrite parse_fields by lia.
    assert (H1 : (1 <=? m)%Z = true) by (apply Z.leb_le; lia).
    assert (H2 : (m <=? 12)%Z = true) by (apply Z.leb_le; lia).
    assert (H3 : (1 <=? d)%Z = true) by (apply Z.leb_le; lia).
    assert (H4 : (d <=? 31)%Z = true) by (apply Z.leb_le; lia).
    rewrite H1, H2, H3, H4. cbn [andb orb Z.leb Z.compare].
    change (0 * 3600000)%Z with 0%Z. change (0 * 60000)%Z with 0%Z.
    change (0 * 1000)%Z with 0%Z. rewrite !Z.add_0_r.
    unfold Date.timeClip.
    replace (Z.abs (Date.days_from_civil y m d * Date.msPerDay) <=? 8640000000000000)%Z
      with true; [reflexivity|].
    symmetry. apply Z.leb_le. unfold Date.msPerDay. lia.
  - unfold Date.date_part.
    replace (Date.days_from_civil y m d * Date.msPerDay / Date.msPerDay)%Z
      with (Date.days_from_civil y m d) by (unfold Date.msPerDay; lia).
    rewrite (@days_from_civil_inverse y m d Hm Hd).
    rewrite (@year_string_pad y Hy). reflexivity.
Qed.

(** The printed day of an instant is read as the start of its day. *)
Lemma parseDate_date_part (ms : Z) :
  (-62167219200000 <= ms <= 253402300799999)%Z ->
  parseDate (Date.date_part ms) = Some (ms / Date.msPerDay * Date.msPerDay)%Z.
Proof.
  intros Hms.
  assert (Hdays : (-719528 <= ms / Date.msPerDay <= 2932896)%Z)
    by (unfold Date.msPerDay; lia).
  pose proof (civil_from_days_valid (ms / Date.msPerDay)) as Hvalid.
  pose proof (@civil_from_days_year _ Hdays) as Hyear.
  unfold Date.date_part.
  destruct (Date.civil_from_days (ms / Date.msPerDay)) as [[y m] d].
  destruct Hvalid as (Hback & Hm & Hd).
  rewrite (@year_string_pad y Hyear).
  rewrite (proj1 (@parseDate_of_day y m d Hyear Hm Hd)), Hback. reflexivity.
Qed.


(** X21. For an instant of the years 0000 to 9999, [new Date(s)] of the
    string [s] that [toISOString] prints is the instant again; so a
    reading whose time stamp is replaced by the printed form of its
    instant normalises to the same record, with the same row hash. *)
Theorem toISOString_reads_back (ms : Z)
  (Hrange : (-62167219200000 <= ms <= 253402300799999)%Z) :
  Date.parse (Date.iso_of_ms ms) = Some ms
  /\ bind (Date.toISOString (Some ms)) (fun s => Date.toISOString (Date.parse s))
     = inr (Date.iso_of_ms ms)
  /\ (forall cfg input n,
        normalizeTelemetry cfg input = inr n -> n_tsUtc n = Some ms ->
        normalizeTelemetry cfg (withTsUtc input (Date.iso_of_ms ms)) = inr n).
Proof.
  pose proof (@parse_iso_of_ms ms Hrange) as Hparse.
  split; [exact Hparse|]. split.
  - cbn [Date.toISOString ret bind]. rewrite Hparse. reflexivity.
  - intros cfg input n Hn Hts.
    destruct (@normalizeTelemetry_inv _ _ _ Hn) as (ms' & Hp & Hts' & _).
    assert (ms' = ms) as -> by congruence.
    unfold normalizeTelemetry in *.
    cbn [withTsUtc r_siteId r_tsUtc r_poaIrrWm2 r_tempC r_windMps r_acPowerKw
         r_acEnergyKWh r_status r_source r_uniqKey].
    rewrite Hparse. rewrite Hp in Hn. exact Hn.
Qed.

Lemma toISOString_reads_back_witness :
  Date.parse (Date.iso_of_ms 1705312800123) = Some 1705312800123%Z
  /\ Date.iso_of_ms 1705312800123 = "2024-01-15T10:00:00.123Z".
Proof.
  split.
  - apply (@toISOString_reads_back 1705312800123). lia.
  - vm_compute. reflexivity.
Defined.

(** X22. For a day of the calendar in the years 0000 to 9999 written
    [YYYY-MM-DD], [parseDate] is midnight UTC of that day, [formatDate] of
    it is the string again, it is its own day start, and the string has
    ten characters. *)
Theorem formatDate_parseDate_round_trip (y m d : Z)
  (Hy : (0 <= y <= 9999)%Z)
  (Hm : (1 <= m <= 12)%Z)
  (Hd : (1 <= d <= Date.days_in_month y m)%Z) :
  parseDate (dayString y m d) = Some (Date.days_from_civil y m d * Date.msPerDay)%Z
  /\ formatDate (parseDate (dayString y m d)) = inr (dayString y m d)
  /\ getDayStart (parseDate (dayString y m d)) = parseDate (dayString y m d)
  /\ String.length (dayString y m d) = 10%nat.
Proof.
  destruct (@parseDate_of_day y m d Hy Hm Hd) as [Hparse Hprint].
  unfold dayString. rewrite Hparse.
  split; [reflexivity|]. split; [|split].
  - cbn [formatDate ret]. rewrite Hprint. reflexivity.
  - unfold getDayStart, Date.setUTCHours_start.
    rewrite Z.div_mul by (unfold Date.msPerDay; lia).
    pose proof (days_in_month_le y m) as Hdim.
    pose proof (@days_from_civil_range y m d Hy Hm ltac:(lia)) as Hrange.
    apply timeClip_in_range. unfold Date.msPerDay. lia.
  - rewrite <- Hprint. apply date_part_length.
    pose proof (days_in_month_le y m) as Hdim.
    pose proof (@days_from_civil_range y m d Hy Hm ltac:(lia)) as Hrange.
    unfold Date.msPerDay. lia.
Qed.

Lemma formatDate_parseDate_round_trip_witness :
  dayString 2024 2 29 = "2024-02-29"
  /\ formatDate (parseDate (dayString 2024 2 29)) = inr (dayString 2024 2 29).
Proof.
  split; [vm_compute; reflexivity|].
  apply (@formatDate_parseDate_round_trip 2024 2 29); vm_compute; split; discriminate.
Defined.

(** X23. For an instant of the years 0000 to 9999, [parseDate] of
    [formatDate] of the instant is the start of its day: the day's window
    runs from there to 86399999 ms later, contains the instant, starts at
    a multiple of a day, and every instant in it has the same
    [formatDate]. *)
Theorem parseDate_formatDate_day_start (ms : Z)
  (Hrange : (-62167219200000 <= ms <= 253402300799999)%Z) :
  exists day dayStart,
    formatDate (Some ms) = inr day
    /\ parseDate day = Some dayStart
    /\ getDayStart (Some ms) = Some dayStart
    /\ getDayEnd (Some ms) = Some (dayStart + 86399999)%Z
    /\ (dayStart <= ms <= dayStart + 86399999)%Z
    /\ (dayStart mod Date.msPerDay = 0)%Z
    /\ formatDate (Some dayStart) = inr day
    /\ (forall ms', (dayStart <= ms' <= dayStart + 86399999)%Z ->
                    formatDate (Some ms') = inr day).
Proof.
  exists (Date.date_part ms), (ms / Date.msPerDay * Date.msPerDay)%Z.
  split; [reflexivity|]. split; [apply parseDate_date_part; exact Hrange|].
  unfold getDayStart, getDayEnd, Date.setUTCHours_start, Date.setUTCHours_end.
  rewrite !timeClip_in_range by (unfold Date.msPerDay; lia).
  split; [reflexivity|]. split; [reflexivity|].
  split; [unfold Date.msPerDay; lia|]. split; [unfold Date.msPerDay; lia|].
  assert (Hsame : forall ms', (ms / Date.msPerDay * Date.msPerDay <= ms'
                               <= ms / Date.msPerDay * Date.msPerDay + 86399999)%Z ->
                              formatDate (Some ms') = inr (Date.date_part ms)).
  { intros ms' Hms'. cbn [formatDate ret]. unfold Date.date_part.
    replace (ms' / Date.msPerDay)%Z with (ms / Date.msPerDay)%Z; [reflexivity|].
    unfold Date.msPerDay in *. lia. }
  split; [apply Hsame; unfold Date.msPerDay; lia | exact Hsame].
Qed.

Lemma parseDate_formatDate_day_start_witness :
  exists day dayStart,
    formatDate (Some 1705312800123%Z) = inr day
    /\ parseDate day = Some dayStart
    /\ getDayStart (Some 1705312800123%Z) = Some dayStart.
Proof.
  destruct (@parseDate_formatDate_day_start 1705312800123 ltac:(lia))
    as (day & dayStart & H1 & H2 & H3 & _).
  exists day, dayStart. auto.
Defined.

End DateRoundTrip.

Section RouteFacts.

#[local] Ltac Zify.zify_post_hook ::= Z.to_euclidean_division_equations.

Lemma generateMerkleProof_found (rowHashes : list string) (leaf : string) :
  In leaf rowHashes -> exists proof, generateMerkleProof rowHashes leaf = inr proof.
Proof.
  intros Hin. unfold generateMerkleProof, getProof, buildMerkleTree, newMerkleTree.
  cbn [leaves tree].
  destruct (indexOf leaf (sortStrings rowHashes)) as [i|] eqn:Hi.
  - eexists. reflexivity.
  - apply indexOf_None in Hi. apply In_sortStrings in Hin. contradiction.
Qed.

Lemma generateMerkleProof_missing (rowHashes : list string) (leaf : string) :
  ~ In leaf rowHashes ->
  generateMerkleProof rowHashes leaf = inl (Error "Leaf not found in tree").
Proof.
  intros Hnin. unfold generateMerkleProof, getProof, buildMerkleTree, newMerkleTree.
  cbn [leaves tree].
  destruct (indexOf leaf (sortStrings rowHashes)) as [i|] eqn:Hi; [|reflexivity].
  exfalso. apply Hnin. apply In_sortStrings.
  destruct (in_dec string_dec leaf (sortStrings rowHashes)) as [H|H]; [exact H|].
  apply indexOf_None in H. congruence.
Qed.

(** A day of the years 0000 to 9999 as the routes read it. *)
Lemma parseDate_dayString (y m d : Z) :
  (0 <= y <= 9999)%Z -> (1 <= m <= 12)%Z -> (1 <= d <= Date.days_in_month y m)%Z ->
  exists dayUtc,
    parseDate (dayString y m d) = Some dayUtc
    /\ getDayStart (Some dayUtc) = Some dayUtc
    /\ getDayEnd (Some dayUtc) = Some (dayUtc + 86399999)%Z
    /\ nextDay dayUtc = Some (dayUtc + 86400000)%Z
    /\ formatDate (Some dayUtc) = inr (dayString y m d).
Proof.
  intros Hy Hm Hd.
  destruct (@parseDate_of_day y m d Hy Hm Hd) as [Hparse Hprint].
  pose proof (days_in_month_le y m) as Hdim.
  pose proof (@days_from_civil_range y m d Hy Hm ltac:(lia)) as Hrange.
  exists (Date.days_from_civil y m d * Date.msPerDay)%Z.
  split; [exact Hparse|].
  unfold getDayStart, getDayEnd, Date.setUTCHours_start, Date.setUTCHours_end, nextDay.
  rewrite Z.div_mul by (unfold Date.msPerDay; lia).
  rewrite !timeClip_in_range by (unfold Date.msPerDay; lia).
  split; [reflexivity|]. split; [reflexivity|]. split; [reflexivity|].
  cbn [formatDate ret]. rewrite Hprint. reflexivity.
Qed.

(** The filter [{ gte, lt }] of the routes keeps the rows of the filter
    [{ gte, lte }] of the aggregation when [lt] is the instant after [lte]. *)
Lemma findManyBefore_findMany (d : Db) (siteId : string) (gte lte : Z) :
  rawTelemetry_findManyBefore d siteId gte (lte + 1)%Z = rawTelemetry_findMany d siteId gte lte
  /\ filter (inWindow siteId gte (lte + 1)%Z) (rawTelemetry d)
     = filter (fun r => String.eqb (t_siteId r) siteId
                        && (gte <=? t_tsUtc r)%Z && (t_tsUtc r <=? lte)%Z) (rawTelemetry d).
Proof.
  assert (Hext : filter (inWindow siteId gte (lte + 1)%Z) (rawTelemetry d)
                 = filter (fun r => String.eqb (t_siteId r) siteId
                                    && (gte <=? t_tsUtc r)%Z && (t_tsUtc r <=? lte)%Z)
                          (rawTelemetry d)).
  { apply filter_ext. intros r. unfold inWindow. f_equal.
    destruct (t_tsUtc r <=? lte)%Z eqn:E; [apply Z.leb_le in E | apply Z.leb_gt in E].
    - apply Z.ltb_lt. lia.
    - apply Z.ltb_ge. lia. }
  split; [|exact Hext].
  unfold rawTelemetry_findManyBefore, rawTelemetry_findMany. rewrite Hext. reflexivity.
Qed.

Lemma deleteRaw_run (s : Store) (siteId day : string) (dayUtc dayEnd : Z) :
  parseDate day = Some dayUtc -> nextDay dayUtc = Some dayEnd ->
  deleteRaw siteId day s
  = (inr (Purged (List.length (filter (inWindow siteId dayUtc dayEnd)
                                      (rawTelemetry (db (world s)))))),
     {| world :=
          {| db := {| site := site (db (world s));
                      rawTelemetry :=
                        filter (fun r => negb (inWindow siteId dayUtc dayEnd r))
                               (rawTelemetry (db (world s)));
                      dailyDigest :=
                        filter (fun g => negb (digest_key siteId dayUtc g))
                               (dailyDigest (db (world s)));
                      nextId := nextId (db (world s)) |};
             adapter := adapter (world s);
             requests := requests (world s);
             sleeps := sleeps (world s) |};
        hourlySummary :=
          filter (fun h => negb (summaryInWindow siteId dayUtc dayEnd h)) (hourlySummary s);
        anchorQueue := anchorQueue s |}).
Proof.
  intros Hday Hend.
  unfold deleteRaw, scatch, sbind, liftM, lift, getDb, putDb, getSummaries, putSummaries,
    sret, queryDate.
  rewrite Hday. cbn [ret world hourlySummary anchorQueue]. rewrite Hend.
  cbn [ret world hourlySummary anchorQueue db site rawTelemetry dailyDigest nextId
       adapter requests sleeps].
  reflexivity.
Qed.

Lemma find_filter_negb {A} (p : A -> bool) (l : list A) :
  find p (filter (fun x => negb (p x)) l) = None.
Proof.
  induction l as [|x l IH]; [reflexivity|].
  cbn [filter]. destruct (p x) eqn:E; cbn [negb]; [exact IH|].
  cbn [find]. rewrite E. exact IH.
Qed.

Lemma find_filter_other {A} (p q : A -> bool) (l : list A) :
  (forall x, q x = true -> p x = false) ->
  find q (filter (fun x => negb (p x)) l) = find q l.
Proof.
  intros H. induction l as [|x l IH]; [reflexivity|].
  cbn [filter find]. destruct (q x) eqn:E.
  - rewrite (H x E). cbn [negb find]. rewrite E. reflexivity.
  - destruct (p x); cbn [negb find]; [exact IH|]. rewrite E. exact IH.
Qed.

Lemma filter_filter_negb {A} (p : A -> bool) (l : list A) :
  filter p (filter (fun x => negb (p x)) l) = [].
Proof.
  induction l as [|x l IH]; [reflexivity|].
  cbn [filter]. destruct (p x) eqn:E; cbn [negb]; [exact IH|].
  cbn [filter]. rewrite E. exact IH.
Qed.

(** X24. For a day that reads as a date, the recompute route always
    answers: 500 "Internal server error" when aggregation throws, as it
    does for a site that is not registered, and 404 "No data found for
    recomputation" when the day has no row, in both cases leaving the
    world unchanged; otherwise the aggregated values with the day printed
    from the day start, which is the requested string for a calendar day
    [YYYY-MM-DD]. *)
Theorem postRecompute_replies (w : World) (siteId day : string) (dayUtc : Z)
  (Hday : parseDate day = Some dayUtc) :
  exists reply w',
    postRecompute siteId day w = (inr reply, w')
    /\ (forall e w1,
          aggregateDaily siteId (parseDate day) w = (inl e, w1) ->
          reply = RecomputeError 500 "Internal server error" /\ w' = w)
    /\ (site_findUnique (db w) siteId = None ->
        reply = RecomputeError 500 "Internal server error" /\ w' = w)
    /\ (forall w1,
          aggregateDaily siteId (parseDate day) w = (inr None, w1) ->
          reply = RecomputeError 404 "No data found for recomputation" /\ w' = w)
    /\ (forall r w1,
          aggregateDaily siteId (parseDate day) w = (inr (Some r), w1) ->
          w' = w1
          /\ exists day',
               reply = Recomputed siteId day' (a_energyKWh r) (a_avoidedTco2e r)
                                  (a_rows r) (a_merkleRoot r)
               /\ formatDate (getDayStart (parseDate day)) = inr day'
               /\ (forall y m d,
                     (0 <= y <= 9999)%Z -> (1 <= m <= 12)%Z ->
                     (1 <= d <= Date.days_in_month y m)%Z ->
                     day = dayString y m d -> day' = day)).
Proof.
  unfold postRecompute, mcatch, mbind.
  destruct (aggregateDaily siteId (parseDate day) w) as [[e|[r|]] w1] eqn:Hrun.
  - pose proof (@aggregateDaily_throws_unchanged _ _ _ _ _ Hrun) as ->.
    exists (RecomputeError 500 "Internal server error"), w.
    split; [reflexivity|].
    split; [intros; split; reflexivity|].
    split; [intros; split; reflexivity|].
    split; intros; discriminate.
  - destruct (@aggregateDaily_returns_digest _ _ _ _ _ Hrun)
      as (s & gte & lte & root & Hs & He & Hsite & Hrows & Hroot & Hr & Hw1).
    assert (Hgte : a_dayUtc r = gte) by (rewrite Hr; reflexivity).
    assert (Hsid : a_siteId r = siteId) by (rewrite Hr; reflexivity).
    exists (Recomputed siteId (Date.date_part gte) (a_energyKWh r) (a_avoidedTco2e r)
                       (a_rows r) (a_merkleRoot r)), w1.
    split.
    { unfold lift, mret. rewrite Hgte, Hsid. reflexivity. }
    split; [intros; discriminate|].
    split.
    { intros Hno. rewrite Hno in Hsite. discriminate. }
    split; [intros; discriminate|].
    intros r' w1' H. injection H as <- <-. split; [reflexivity|].
    exists (Date.date_part gte). split; [reflexivity|].
    split; [rewrite Hs; reflexivity|].
    intros y m d Hy Hm Hd ->.
    destruct (@parseDate_dayString y m d Hy Hm Hd) as (ms & Hp & Hstart & _ & _ & Hfmt).
    rewrite Hp, Hstart in Hs. injection Hs as <-.
    cbn [formatDate] in Hfmt. unfold ret in Hfmt. injection Hfmt as Hfmt. exact Hfmt.
  - pose proof (@aggregateDaily_none_unchanged _ _ _ _ Hrun) as ->.
    exists (RecomputeError 404 "No data found for recomputation"), w.
    split; [reflexivity|].
    split; [intros; discriminate|].
    split.
    { intros Hno.
      destruct (@aggregateDaily_returns_valid _ _ _ _ _ Hrun) as (gte & lte & Hs & He).
      rewrite (@aggregateDaily_cases w siteId _ gte lte Hs He), Hno in Hrun. discriminate. }
    split; [intros; split; reflexivity|].
    intros; discriminate.
Qed.

Lemma postRecompute_replies_witness :
  exists reply w',
    postRecompute "PRJ001" "2024-01-15" (dayWorld unreachableAdapter) = (inr reply, w').
Proof.
  destruct (@postRecompute_replies (dayWorld unreachableAdapter) "PRJ001" "2024-01-15"
              1705276800000%Z ltac:(vm_compute; reflexivity))
    as (reply & w' & Hrun & _).
  exists reply, w'. exact Hrun.
Defined.

(** X25. Purging a calendar day of a site reports as deleted exactly the
    rows that daily aggregation counts for the day; afterwards the day's
    window holds no row of the site, the digest of the day is gone
    whether anchored or not, no hourly summary of the site lies in the
    day, rows outside the window, other digests, the sites and the queue
    of anchor jobs are untouched, and aggregating the day again returns
    nothing. *)
Theorem deleteRaw_purges_day (s : Store) (siteId : string) (y m d : Z)
  (Hy : (0 <= y <= 9999)%Z)
  (Hm : (1 <= m <= 12)%Z)
  (Hd : (1 <= d <= Date.days_in_month y m)%Z) :
  exists dayUtc s',
    parseDate (dayString y m d) = Some dayUtc
    /\ deleteRaw siteId (dayString y m d) s
       = (inr (Purged (List.length (rawTelemetry_findMany (db (world s)) siteId dayUtc
                                                          (dayUtc + 86399999)%Z))), s')
    /\ rawTelemetry_findMany (db (world s')) siteId dayUtc (dayUtc + 86399999)%Z = []
    /\ dailyDigest_findUnique (db (world s')) siteId dayUtc = None
    /\ (forall h, In h (hourlySummary s') ->
                  hs_siteId h = siteId ->
                  (hs_hourUtc h < dayUtc \/ dayUtc + 86399999 < hs_hourUtc h)%Z)
    /\ (forall r, In r (rawTelemetry (db (world s))) ->
                  t_siteId r <> siteId
                  \/ (t_tsUtc r < dayUtc)%Z \/ (dayUtc + 86399999 < t_tsUtc r)%Z ->
                  In r (rawTelemetry (db (world s'))))
    /\ (forall siteId' dayUtc',
          siteId' <> siteId \/ dayUtc' <> dayUtc ->
          dailyDigest_findUnique (db (world s')) siteId' dayUtc'
          = dailyDigest_findUnique (db (world s)) siteId' dayUtc')
    /\ site (db (world s')) = site (db (world s))
    /\ anchorQueue s' = anchorQueue s
    /\ (forall x, site_findUnique (db (world s)) siteId = Some x ->
                  aggregateDaily siteId (parseDate (dayString y m d)) (world s')
                  = (inr None, world s')).
Proof.
  destruct (@parseDate_dayString y m d Hy Hm Hd)
    as (dayUtc & Hp & Hstart & Hend & Hnext & _).
  exists dayUtc. eexists. split; [exact Hp|].
  rewrite (@deleteRaw_run s siteId _ dayUtc _ Hp Hnext).
  replace (dayUtc + 86400000)%Z with (dayUtc + 86399999 + 1)%Z by lia.
  destruct (findManyBefore_findMany (db (world s)) siteId dayUtc (dayUtc + 86399999))
    as [_ Hwin].
  assert (Hgone :
    rawTelemetry_findMany
      {| site := site (db (world s));
         rawTelemetry :=
           filter (fun r => negb (inWindow siteId dayUtc (dayUtc + 86399999 + 1) r))
                  (rawTelemetry (db (world s)));
         dailyDigest :=
           filter (fun g => negb (digest_key siteId dayUtc g)) (dailyDigest (db (world s)));
         nextId := nextId (db (world s)) |} siteId dayUtc (dayUtc + 86399999)%Z = []).
  { unfold rawTelemetry_findMany. cbn [rawTelemetry].
    replace (filter _ (filter _ _)) with (@nil RawTelemetry); [reflexivity|].
    symmetry.
    rewrite <- (filter_filter_negb (inWindow siteId dayUtc (dayUtc + 86399999 + 1))
                                   (rawTelemetry (db (world s)))).
    apply filter_ext. intros r. unfold inWindow. f_equal.
    destruct (t_tsUtc r <=? dayUtc + 86399999)%Z eqn:E;
      [apply Z.leb_le in E | apply Z.leb_gt in E]; symmetry.
    - apply Z.ltb_lt. lia.
    - apply Z.ltb_ge. lia. }
  split.
  { f_equal. f_equal. f_equal.
    unfold rawTelemetry_findMany. rewrite sortByTs_length, Hwin. reflexivity. }
  cbn [world db hourlySummary anchorQueue site rawTelemetry dailyDigest].
  split; [exact Hgone|].
  split.
  { unfold dailyDigest_findUnique. cbn [dailyDigest]. apply find_filter_negb. }
  split.
  { intros h Hin Hsite. apply filter_In in Hin. destruct Hin as [_ Hout].
    unfold summaryInWindow in Hout. rewrite Hsite, String.eqb_refl in Hout.
    cbn [andb] in Hout.
    destruct (dayUtc <=? hs_hourUtc h)%Z eqn:E1;
      [apply Z.leb_le in E1 | apply Z.leb_gt in E1; left; lia].
    destruct (hs_hourUtc h <? dayUtc + 86399999 + 1)%Z eqn:E2; [discriminate|].
    apply Z.ltb_ge in E2. right. lia. }
  split.
  { intros r Hin Hout. apply filter_In. split; [exact Hin|].
    unfold inWindow. apply negb_true_iff.
    destruct Hout as [Hsite | [Hlt | Hgt]].
    - apply String.eqb_neq in Hsite. rewrite Hsite. reflexivity.
    - replace (dayUtc <=? t_tsUtc r)%Z with false by (symmetry; apply Z.leb_gt; lia).
      apply andb_false_iff. left. apply andb_false_r.
    - replace (t_tsUtc r <? dayUtc + 86399999 + 1)%Z with false
        by (symmetry; apply Z.ltb_ge; lia).
      apply andb_false_r. }
  split.
  { intros siteId' dayUtc' Hother. unfold dailyDigest_findUnique. cbn [dailyDigest].
    apply find_filter_other. intros g Hg.
    apply (@digest_key_other siteId' siteId dayUtc' dayUtc g).
    - destruct Hother as [H|H]; [left | right]; congruence.
    - exact Hg. }
  split; [reflexivity|]. split; [reflexivity|].
  intros x Hsite.
  match goal with
  | |- aggregateDaily _ _ ?w' = _ =>
      rewrite (@aggregateDaily_cases w' siteId _ dayUtc (dayUtc + 86399999)%Z)
  end.
  - cbn [db]. unfold site_findUnique in *. cbn [site]. rewrite Hsite.
    cbv zeta. rewrite Hgone. reflexivity.
  - rewrite Hp. exact Hstart.
  - rewrite Hp. exact Hend.
Qed.

Lemma deleteRaw_purges_day_witness :
  exists dayUtc s',
    parseDate (dayString 2024 1 15) = Some dayUtc
    /\ deleteRaw "PRJ001" (dayString 2024 1 15) dayStore
       = (inr (Purged (List.length (rawTelemetry_findMany (db (world dayStore)) "PRJ001" dayUtc
                                                          (dayUtc + 86399999)%Z))), s')
    /\ rawTelemetry_findMany (db (world s')) "PRJ001" dayUtc (dayUtc + 86399999)%Z = [].
Proof.
  destruct (@deleteRaw_purges_day dayStore "PRJ001" 2024 1 15
              ltac:(lia) ltac:(lia) ltac:(vm_compute; split; discriminate))
    as (dayUtc & s' & H1 & H2 & H3 & _).
  exists dayUtc, s'. exact (conj H1 (conj H2 H3)).
Defined.

End RouteFacts.

Section ProofRouteFacts.

#[local] Ltac Zify.zify_post_hook ::= Z.to_euclidean_division_equations.

Lemma rawTelemetry_findUnique_Some (d : Db) (siteId : string) (ts : Z) (t : RawTelemetry) :
  rawTelemetry_findUnique d siteId ts = Some t ->
  In t (rawTelemetry d) /\ t_siteId t = siteId /\ t_tsUtc t = ts.
Proof.
  intros H. apply find_some in H. destruct H as [Hin Hkey].
  unfold row_key in Hkey. apply andb_true_iff in Hkey. destruct Hkey as [H1 H2].
  apply String.eqb_eq in H1. apply Z.eqb_eq in H2. auto.
Qed.

Lemma findMany_In (d : Db) (siteId : string) (gte lte : Z) (t : RawTelemetry) :
  In t (rawTelemetry_findMany d siteId gte lte)
  <-> In t (rawTelemetry d) /\ t_siteId t = siteId /\ (gte <= t_tsUtc t <= lte)%Z.
Proof.
  unfold rawTelemetry_findMany. split.
  - intros H. apply (Permutation_in _ (sortByTs_perm _)) in H.
    apply filter_In in H. destruct H as [Hin Hkey].
    apply andb_true_iff in Hkey. destruct Hkey as [Hkey H3].
    apply andb_true_iff in Hkey. destruct Hkey as [H1 H2].
    apply String.eqb_eq in H1. apply Z.leb_le in H2, H3. auto.
  - intros (Hin & Hsite & Hlo & Hhi).
    apply (Permutation_in _ (Permutation_sym (sortByTs_perm _))).
    apply filter_In. split; [exact Hin|].
    rewrite Hsite, String.eqb_refl. cbn [andb].
    apply andb_true_iff. split; apply Z.leb_le; assumption.
Qed.

Lemma findMany_no_rows (d : Db) (siteId : string) (gte lte : Z) :
  (forall r, In r (rawTelemetry d) -> t_siteId r <> siteId) ->
  rawTelemetry_findMany d siteId gte lte = [].
Proof.
  intros Hnone.
  destruct (rawTelemetry_findMany d siteId gte lte) as [|t rest] eqn:E; [reflexivity|].
  assert (Hin : In t (rawTelemetry_findMany d siteId gte lte)) by (rewrite E; left; reflexivity).
  apply findMany_In in Hin. destruct Hin as (Hin & Hsite & _).
  exfalso. exact (Hnone t Hin Hsite).
Qed.

(** X26. The proof route on a calendar day and an instant that reads as a
    date never changes the world: with no digest for the day it answers
    404 "Digest not found for the specified day", with no record at the
    instant 404 "Telemetry record not found"; for a record inside the day
    it answers with the proof of the record's hash among the hashes daily
    aggregation uses and the stored root; for a record whose hash is not
    among them it answers 500. *)
Theorem getProofRoute_serves_day_records (w : World) (siteId ts : string) (y m d tsMs : Z)
  (Hy : (0 <= y <= 9999)%Z)
  (Hm : (1 <= m <= 12)%Z)
  (Hd : (1 <= d <= Date.days_in_month y m)%Z)
  (Hts : Date.parse ts = Some tsMs) :
  exists dayUtc reply,
    parseDate (dayString y m d) = Some dayUtc
    /\ getProofRoute siteId (dayString y m d) ts w = (inr reply, w)
    /\ (dailyDigest_findUnique (db w) siteId dayUtc = None ->
        reply = ProofError 404 "Digest not found for the specified day")
    /\ (forall g,
          dailyDigest_findUnique (db w) siteId dayUtc = Some g ->
          (rawTelemetry_findUnique (db w) siteId tsMs = None ->
           reply = ProofError 404 "Telemetry record not found")
          /\ (forall t,
                rawTelemetry_findUnique (db w) siteId tsMs = Some t ->
                ((dayUtc <= tsMs <= dayUtc + 86399999)%Z ->
                 exists branch,
                   reply = ProofFound true (t_rowHash t) branch (d_merkleRoot g)
                   /\ generateMerkleProof
                        (map t_rowHash
                             (rawTelemetry_findMany (db w) siteId dayUtc
                                                    (dayUtc + 86399999)%Z))
                        (t_rowHash t) = inr branch)
                /\ (~ In (t_rowHash t)
                         (map t_rowHash
                              (rawTelemetry_findMany (db w) siteId dayUtc
                                                     (dayUtc + 86399999)%Z)) ->
                    reply = ProofError 500 "Internal server error"))).
Proof.
  destruct (@parseDate_dayString y m d Hy Hm Hd)
    as (dayUtc & Hp & _ & _ & Hnext & _).
  exists dayUtc.
  unfold getProofRoute, mcatch, mbind, getDb, lift, mret.
  rewrite Hp, Hts. cbn [queryDate]. unfold ret at 1.
  destruct (dailyDigest_findUnique (db w) siteId dayUtc) as [g|] eqn:Hg.
  2:{ eexists. split; [reflexivity|]. split; [reflexivity|].
      split; [reflexivity|]. intros g H. discriminate. }
  unfold ret at 1.
  destruct (rawTelemetry_findUnique (db w) siteId tsMs) as [t|] eqn:Ht.
  2:{ eexists. split; [reflexivity|]. split; [reflexivity|].
      split; [intros H; discriminate|].
      intros g' Hg'. split; [reflexivity|].
      intros t H. discriminate. }
  rewrite Hnext. cbn [queryDate]. unfold ret at 1.
  replace (dayUtc + 86400000)%Z with (dayUtc + 86399999 + 1)%Z by lia.
  rewrite (proj1 (findManyBefore_findMany (db w) siteId dayUtc (dayUtc + 86399999))).
  destruct (rawTelemetry_findUnique_Some _ _ _ Ht) as (Hin & Hsite & Htime).
  destruct (generateMerkleProof
              (map t_rowHash (rawTelemetry_findMany (db w) siteId dayUtc (dayUtc + 86399999)))
              (t_rowHash t)) as [e|branch] eqn:Hproof.
  - eexists. split; [reflexivity|]. split; [reflexivity|].
    split; [intros H; discriminate|].
    intros g' Hg'. split; [intros H; discriminate|].
    intros t' H. injection H as <-. split; [|reflexivity].
    intros Hday. exfalso.
    assert (Hleaf : In (t_rowHash t)
                       (map t_rowHash (rawTelemetry_findMany (db w) siteId dayUtc
                                                             (dayUtc + 86399999)))).
    { apply in_map. apply findMany_In. rewrite Htime. auto. }
    destruct (generateMerkleProof_found _ _ Hleaf) as [proof Hfound].
    rewrite Hfound in Hproof. discriminate.
  - eexists. split; [reflexivity|]. split; [reflexivity|].
    split; [intros H; discriminate|].
    intros g' Hg'. injection Hg' as <-. split; [intros H; discriminate|].
    intros t' H. injection H as <-. split.
    + intros _. exists branch. split; [reflexivity | exact Hproof].
    + intros Hnin. rewrite (generateMerkleProof_missing _ _ Hnin) in Hproof. discriminate.
Qed.

Lemma getProofRoute_serves_day_records_witness :
  exists dayUtc reply,
    parseDate (dayString 2024 1 15) = Some dayUtc
    /\ getProofRoute "PRJ001" (dayString 2024 1 15) "2024-01-15T10:00:00Z"
         (aggregatedWorld unreachableAdapter)
       = (inr reply, aggregatedWorld unreachableAdapter).
Proof.
  destruct (@getProofRoute_serves_day_records (aggregatedWorld unreachableAdapter)
              "PRJ001" "2024-01-15T10:00:00Z" 2024 1 15 1705312800000
              ltac:(lia) ltac:(lia) ltac:(vm_compute; split; discriminate)
              ltac:(vm_compute; reflexivity))
    as (dayUtc & reply & H1 & H2 & _).
  exists dayUtc, reply. exact (conj H1 H2).
Defined.


(** X28. [scheduleRecurringJobs] hands the two queues one repeated job
    each, with the site identifier "all" and the instant of scheduling,
    which reads back as it was printed, and then throws at its last
    statement, [logger.info(...)], as the module is written. The two
    processors throw on these jobs as on any other. The services called
    with the data of these jobs would not aggregate any site either: unless
    a site is registered under "all", daily aggregation throws "Site all
    not found"; unless a row belongs to a site "all", hourly aggregation
    returns nothing. *)
Theorem recurring_jobs_name_no_site (env : Env) (s : Store) (now1 now2 : Z)
  (Hnow1 : (0 <= now1 <= 253402300799999)%Z)
  (Hnow2 : (0 <= now2 <= 253402300799999)%Z) :
  exists hourly daily,
    scheduleRecurringJobs now1 now2
    = ([HourlyJob hourly; DailyJob daily],
       inl (TypeError "Cannot read properties of undefined (reading 'info')"))
    /\ hj_siteId hourly = "all"
    /\ dj_siteId daily = "all"
    /\ Date.parse (hj_hourUtc hourly) = Some now1
    /\ Date.parse (dj_dayUtc daily) = Some now2
    /\ dailyWorker env (dj_siteId daily) (Date.parse (dj_dayUtc daily)) s
       = (inl (TypeError "Cannot read properties of undefined (reading 'info')"), s)
    /\ hourlyWorker (hj_siteId hourly) (Date.parse (hj_hourUtc hourly)) s
       = (inl (TypeError "Cannot read properties of undefined (reading 'info')"), s)
    /\ (site_findUnique (db (world s)) "all" = None ->
        aggregateDaily (dj_siteId daily) (Date.parse (dj_dayUtc daily)) (world s)
        = (inl (Error "Site all not found"), world s))
    /\ ((forall r, In r (rawTelemetry (db (world s))) -> t_siteId r <> "all") ->
        aggregateHourly (hj_siteId hourly) (Date.parse (hj_hourUtc hourly)) s
        = (inr None, s)).
Proof.
  unfold scheduleRecurringJobs.
  rewrite !timeClip_in_range by lia.
  cbn [Date.toISOString]. unfold ret.
  eexists. eexists. split; [reflexivity|].
  cbn [hj_siteId hj_hourUtc dj_siteId dj_dayUtc].
  split; [reflexivity|]. split; [reflexivity|].
  rewrite !parse_iso_of_ms by lia.
  split; [reflexivity|]. split; [reflexivity|].
  split.
  { unfold dailyWorker, sbind, liftM, lift. cbn [call_method logger throw].
    destruct s; reflexivity. }
  split.
  { unfold hourlyWorker, sbind, liftM, lift. cbn [call_method logger throw].
    destruct s; reflexivity. }
  split.
  - intros Hno.
    assert (Hs : getDayStart (Some now2) = Some (now2 / Date.msPerDay * Date.msPerDay)%Z).
    { unfold getDayStart, Date.setUTCHours_start. apply timeClip_in_range.
      unfold Date.msPerDay. lia. }
    assert (He : getDayEnd (Some now2)
                 = Some (now2 / Date.msPerDay * Date.msPerDay + 86399999)%Z).
    { unfold getDayEnd, Date.setUTCHours_end. apply timeClip_in_range.
      unfold Date.msPerDay. lia. }
    rewrite (@aggregateDaily_cases (world s) "all" _ _ _ Hs He), Hno. reflexivity.
  - intros Hnone.
    assert (Hs : getHourStart (Some now1) = Some (now1 / msPerHour * msPerHour)%Z).
    { unfold getHourStart. apply timeClip_in_range. unfold msPerHour. lia. }
    assert (He : hourEndOf (Some (now1 / msPerHour * msPerHour)%Z)
                 = Some (now1 / msPerHour * msPerHour + 60 * 60 * 1000 - 1)%Z).
    { unfold hourEndOf. apply timeClip_in_range. unfold msPerHour. lia. }
    rewrite (@aggregateHourly_cases s "all" _ _ _ Hs He).
    cbv zeta. rewrite (findMany_no_rows _ _ _ Hnone). reflexivity.
Qed.

Lemma recurring_jobs_name_no_site_witness :
  exists hourly daily,
    scheduleRecurringJobs 1705280400000 1705280400001
    = ([HourlyJob hourly; DailyJob daily],
       inl (TypeError "Cannot read properties of undefined (reading 'info')"))
    /\ hj_siteId hourly = "all"
    /\ dj_siteId daily = "all".
Proof.
  destruct (@recurring_jobs_name_no_site anchoringEnv dayStore 1705280400000 1705280400001
              ltac:(lia) ltac:(lia))
    as (hourly & daily & H1 & H2 & H3 & _).
  exists hourly, daily. exact (conj H1 (conj H2 H3)).
Defined.

End ProofRouteFacts.

Section CoverageFacts.

#[local] Ltac Zify.zify_post_hook ::= Z.to_euclidean_division_equations.

Lemma rawTelemetry_upsert_stored (d d1 : Db) (n : NormalizedTelemetry) (ts : Z) :
  n_tsUtc n = Some ts -> rawTelemetry_upsert d n = inr d1 ->
  (exists r, In r (rawTelemetry d1)
             /\ t_siteId r = n_siteId n /\ t_tsUtc r = ts /\ t_rowHash r = n_rowHash n)
  /\ site d1 = site d /\ dailyDigest d1 = dailyDigest d.
Proof.
  intros Hts Hup. unfold rawTelemetry_upsert in Hup. rewrite Hts in Hup.
  unfold ret in Hup. injection Hup as <-. cbn [rawTelemetry site dailyDigest].
  split; [|split; reflexivity].
  destruct (existsb (row_key (n_siteId n) ts) (rawTelemetry d)) eqn:Hex.
  - apply existsb_exists in Hex. destruct Hex as (r & Hin & Hkey).
    exists (updatedRow n r). split.
    + apply in_map_iff. exists r. rewrite Hkey. split; [reflexivity | exact Hin].
    + unfold row_key in Hkey. apply andb_true_iff in Hkey. destruct Hkey as [H1 H2].
      apply String.eqb_eq in H1. apply Z.eqb_eq in H2.
      cbn [updatedRow t_siteId t_tsUtc t_rowHash]. auto.
  - exists (rowOf n ts). split; [apply in_or_app; right; left; reflexivity|].
    cbn [rowOf t_siteId t_tsUtc t_rowHash]. auto.
Qed.

(** X29. An ingested reading is covered by the digest of its day: after
    the upsert of a normalised reading of a registered site, daily
    aggregation at the reading's instant returns a digest of at least one
    row for the day that contains the instant, stores it with the same
    root and number of rows, and the reading's row hash has a Merkle proof
    among the hashes of that day. *)
Theorem ingested_reading_is_covered (w : World) (n : NormalizedTelemetry) (d1 : Db)
  (ts : Z) (x : Site)
  (Hts : n_tsUtc n = Some ts)
  (Hrange : (Z.abs ts < 8640000000000000)%Z)
  (Hup : rawTelemetry_upsert (db w) n = inr d1)
  (Hsite : site_findUnique (db w) (n_siteId n) = Some x) :
  exists r w2 g branch,
    aggregateDaily (n_siteId n) (n_tsUtc n)
      {| db := d1; adapter := adapter w; requests := requests w; sleeps := sleeps w |}
    = (inr (Some r), w2)
    /\ (1 <= a_rows r)%nat
    /\ getDayStart (n_tsUtc n) = Some (a_dayUtc r)
    /\ (a_dayUtc r <= ts <= a_dayUtc r + 86399999)%Z
    /\ dailyDigest_findUnique (db w2) (n_siteId n) (a_dayUtc r) = Some g
    /\ d_merkleRoot g = a_merkleRoot r
    /\ d_rows g = a_rows r
    /\ generateMerkleRoot
         (map t_rowHash
              (rawTelemetry_findMany (db w2) (n_siteId n) (a_dayUtc r)
                                     (a_dayUtc r + 86399999)%Z))
       = Some (a_merkleRoot r)
    /\ generateMerkleProof
         (map t_rowHash
              (rawTelemetry_findMany (db w2) (n_siteId n) (a_dayUtc r)
                                     (a_dayUtc r + 86399999)%Z))
         (n_rowHash n)
       = inr branch.
Proof.
  destruct (@rawTelemetry_upsert_stored _ _ _ _ Hts Hup)
    as ((row & Hin & Hrsite & Hrts & Hrhash) & Hsites & _).
  set (gte := (ts / Date.msPerDay * Date.msPerDay)%Z).
  set (w1 := {| db := d1; adapter := adapter w; requests := requests w;
                sleeps := sleeps w |}).
  assert (Hs : getDayStart (n_tsUtc n) = Some gte).
  { rewrite Hts. unfold getDayStart, Date.setUTCHours_start. apply timeClip_in_range.
    unfold gte, Date.msPerDay. lia. }
  assert (He : getDayEnd (n_tsUtc n) = Some (gte + 86399999)%Z).
  { rewrite Hts. unfold getDayEnd, Date.setUTCHours_end. apply timeClip_in_range.
    unfold gte, Date.msPerDay. lia. }
  assert (Hday : (gte <= ts <= gte + 86399999)%Z) by (unfold gte, Date.msPerDay; lia).
  assert (Hrow : In row
                    (rawTelemetry_findMany (db w1) (n_siteId n) gte (gte + 86399999))).
  { apply findMany_In. cbn [db w1]. rewrite Hrts. auto. }
  assert (Hne : rawTelemetry_findMany (db w1) (n_siteId n) gte (gte + 86399999) <> []).
  { intros E. rewrite E in Hrow. exact Hrow. }
  destruct (@generateMerkleRoot_defined
              (map t_rowHash (rawTelemetry_findMany (db w1) (n_siteId n) gte
                                                    (gte + 86399999))))
    as [root Hroot].
  { intros E. apply map_eq_nil in E. exact (Hne E). }
  assert (Hsite1 : site_findUnique (db w1) (n_siteId n) = Some x).
  { unfold site_findUnique in *. cbn [db w1]. rewrite Hsites. exact Hsite. }
  pose proof (@aggregateDaily_some w1 (n_siteId n) _ gte _ x root Hs He Hsite1 Hne Hroot)
    as Hrun.
  cbv zeta in Hrun.
  set (r := dailyResultOf (n_siteId n) gte x
              (rawTelemetry_findMany (db w1) (n_siteId n) gte (gte + 86399999)) root) in *.
  assert (Hrows : rawTelemetry_findMany (db (withDigest w1 r)) (n_siteId n) gte
                                        (gte + 86399999)
                  = rawTelemetry_findMany (db w1) (n_siteId n) gte (gte + 86399999)).
  { unfold rawTelemetry_findMany. rewrite (proj2 (withDigest_tables w1 r)). reflexivity. }
  destruct (dailyDigest_upsert_found (db w1) (a_siteId r) (a_dayUtc r) (a_energyKWh r)
              (a_avoidedTco2e r) (a_rows r) (a_merkleRoot r))
    as (g & Hfound & _ & _ & _ & _ & Hgrows & Hgroot).
  destruct (@generateMerkleProof_found
              (map t_rowHash (rawTelemetry_findMany (db w1) (n_siteId n) gte
                                                    (gte + 86399999)))
              (n_rowHash n)) as [branch Hbranch].
  { rewrite <- Hrhash. apply in_map. exact Hrow. }
  exists r, (withDigest w1 r), g, branch.
  split; [exact Hrun|].
  change (a_dayUtc r) with gte. change (a_merkleRoot r) with root.
  rewrite Hrows.
  split.
  { change (a_rows r)
      with (List.length (rawTelemetry_findMany (db w1) (n_siteId n) gte (gte + 86399999))).
    destruct (rawTelemetry_findMany (db w1) (n_siteId n) gte (gte + 86399999));
      [contradiction | cbn [List.length]; lia]. }
  split; [exact Hs|]. split; [exact Hday|].
  split; [exact Hfound|]. split; [exact Hgroot|]. split; [exact Hgrows|].
  split; [exact Hroot | exact Hbranch].
Qed.

Lemma ingested_reading_is_covered_witness :
  exists n d1,
    ingestReading defaultPrecision testReading = inr n
    /\ rawTelemetry_upsert seededDb n = inr d1
    /\ exists r w2,
         aggregateDaily (n_siteId n) (n_tsUtc n)
           {| db := d1; adapter := unreachableAdapter; requests := []; sleeps := [] |}
         = (inr (Some r), w2)
         /\ (1 <= a_rows r)%nat.
Proof.
  destruct (ingestReading defaultPrecision testReading) as [e|n] eqn:Hn;
    [vm_compute in Hn; discriminate|].
  destruct (rawTelemetry_upsert seededDb n) as [e|d1] eqn:Hd.
  - exfalso. vm_compute in Hn. injection Hn as <-. vm_compute in Hd. discriminate.
  - exists n, d1. split; [reflexivity|]. split; [exact Hd|].
    assert (Hts : n_tsUtc n = Some 1705320000000%Z).
    { vm_compute in Hn. injection Hn as <-. reflexivity. }
    assert (Hsite : site_findUnique (db (worldOf seededDb unreachableAdapter)) (n_siteId n)
                    = Some PRJ001).
    { vm_compute in Hn. injection Hn as <-. vm_compute. reflexivity. }
    destruct (@ingested_reading_is_covered (worldOf seededDb unreachableAdapter) n d1
                1705320000000 PRJ001 Hts ltac:(lia) Hd Hsite)
      as (r & w2 & g & branch & H1 & H2 & _).
    exists r, w2. exact (conj H1 H2).
Defined.

End CoverageFacts.

(** X30. A batch of one reading stores what the single-reading ingester
    stores: both leave the same world; where the ingester returns the
    normalised reading the batch route reports one processed record with
    its site, printed instant and row hash; where it throws, nothing is
    stored and the route answers 500 if the schema refused the reading
    and otherwise 200 with the clamped reading and the message of the
    error. *)
Theorem batch_of_one_stores_as_ingestOne (cfg : PrecisionConfig) (input : RawTelemetryInput)
  (w : World) :
  snd (ingestTelemetry cfg [input] w) = snd (ingestOne cfg input w)
  /\ (forall n w',
        ingestOne cfg input w = (inr n, w') ->
        exists tsUtc,
          Date.toISOString (n_tsUtc n) = inr tsUtc
          /\ ingestTelemetry cfg [input] w
             = (inr (IngestDone 1 [{| i_siteId := n_siteId n; i_tsUtc := tsUtc;
                                      i_rowHash := n_rowHash n |}] None), w'))
  /\ (forall e w',
        ingestOne cfg input w = (inl e, w') ->
        w' = w
        /\ exists reply,
             ingestTelemetry cfg [input] w = (inr reply, w)
             /\ (schema_accepts input = false ->
                 reply = IngestFailed (JsNumber 500) "Internal server error" None)
             /\ (schema_accepts input = true ->
                 reply = IngestDone 0 []
                           (Some [{| x_input := clampValues input;
                                     x_error := exn_message e |}]))).
Proof.
  unfold ingestTelemetry, ingestOne, ingestReading, validateTelemetryArray,
    validateTelemetryInput.
  cbn [List.length Nat.eqb forallb]. rewrite andb_true_r.
  unfold mcatch, mbind, lift, getDb, putDb, mret.
  destruct (schema_accepts input) eqn:Hschema.
  2:{ unfold throw. cbn [bind]. split; [reflexivity|]. split; [intros n w' H; discriminate|].
      intros e w' H. injection H as <- <-. split; [reflexivity|].
      eexists. split; [reflexivity|]. split; [reflexivity | discriminate]. }
  unfold ret. cbn [bind map ingestLoop].
  unfold ingestRecord, mcatch, mbind, lift, getDb, putDb, mret.
  destruct (normalizeTelemetry cfg (clampValues input)) as [e|n] eqn:Hn.
  { cbn [snd app List.length Nat.ltb Nat.leb]. split; [reflexivity|].
    split; [intros n w' H; discriminate|].
    intros e' w' H. injection H as <- <-. split; [reflexivity|].
    eexists. split; [reflexivity|]. split; [discriminate | reflexivity]. }
  destruct (rawTelemetry_upsert (db w) n) as [e|d1] eqn:Hup.
  { cbn [snd app List.length Nat.ltb Nat.leb]. split; [reflexivity|].
    split; [intros n' w' H; discriminate|].
    intros e' w' H. injection H as <- <-. split; [reflexivity|].
    eexists. split; [reflexivity|]. split; [discriminate | reflexivity]. }
  assert (Hts : exists ts, n_tsUtc n = Some ts).
  { unfold rawTelemetry_upsert in Hup. destruct (n_tsUtc n) as [ts|]; [eauto | discriminate]. }
  destruct Hts as [ts Hts]. rewrite Hts.
  cbn [Date.toISOString]. unfold ret.
  cbn [snd app List.length Nat.ltb Nat.leb db adapter requests sleeps].
  split; [reflexivity|]. split; [|intros e w' H; discriminate].
  intros n' w' H. injection H as <- <-. rewrite Hts.
  eexists. split; reflexivity.
Qed.
